(* ===== verification/_CoqProject ===== *)
-Q . S2P
Prelude.v
GoStrings.v
GoTime.v
GoJson.v
Sha256.v
Pathutil.v
Cnpg.v
Groups.v
Denylist.v
Pathcheck.v
Snapshot.v
Api.v
Memory.v
DeepCopy.v
Layout.v
GoDecode.v
Kube.v
Backend.v
JsonText.v
JsonFuel.v
JsonWf.v
SnapshotStore.v
History.v
Integrity.v
Retention.v
RecoveryTarget.v
Select.v
S3.v
Resolver.v
Storetest.v
GoFloat.v
PgMem.v
Celenv.v
Skip.v
Transform.v
Plan.v
CaptureRestore.v
Config.v
Operator.v
Webhook.v
Recovery.v
Controller.v
StatusMemory.v
PolicyMemory.v
Wiring.v
Watch.v
System.v
Production.v
Deployment.v
Witnesses.v
