(* ===== verification/Prelude.v ===== *)
(** * cnpg-i-chronicle, a verified model

    The plugin keeps a history of a CloudNativePG Cluster's configuration in an
    object store and restores a Cluster from it.  Three processes share that
    store: the operator hooks capture (internal/cnpgi/operator), the admission
    webhook restores (internal/webhook), and the ConfigStore controller checks
    the store and prunes it (internal/controller).  They meet in the layout of
    the keys (internal/store), the snapshot document (internal/snapshot) and
    the rules of a RestorePolicy (internal/restore).

    ** The model, file by file

    Definitions keep the names of the source; a trailing underscore, or a
    prefix naming the receiver, marks a method whose name is taken.

    Go and its standard library, as far as the source uses them: [Prelude]
    (errors with their chain, [result], and the state-and-error programs
    [prog]), [GoStrings] (strings, strconv on [int64]), [GoTime] (instants as
    nanoseconds since 1970, calendar, the layouts used), [GoJson], [JsonText],
    [JsonFuel] and [JsonWf] (encoding/json, text to documents and back), [GoDecode] (decoding into
    structs), [GoFloat] (binary64, strconv on floats), [Sha256].

    The repository: [Api] and [DeepCopy] (api/v1, the latter over [Memory], a
    memory of typed variables with pointers and slices), [Pathutil] (internal/pathutil), [Groups],
    [Denylist], [Pathcheck] and [Snapshot] (internal/snapshot), [Layout],
    [Backend], [SnapshotStore], [History], [Integrity], [Retention], [S3],
    [Resolver] and [Storetest] (internal/store and its storetest),
    [RecoveryTarget], [Select], [Skip],
    [Transform], [Plan] and [CaptureRestore] (internal/restore), [PgMem] and
    [Celenv] (internal/restore/celenv), [Config] (internal/cnpgi/metadata,
    identity and operator/config), [Operator] (internal/cnpgi/operator),
    [Webhook] (internal/webhook), [Controller], [StatusMemory] and
    [PolicyMemory] (internal/controller, as values and over memory), [Wiring]
    (cmd/manager, internal/cmd, start.go, SetupWithManager, the scheme).  Over
    them, [Recovery] composes capture and admission, [System] interleaves
    capture, retention and publishing on one history, [Watch] runs the policy
    controller against a live API server, [Production] runs the hooks on S3.  [Cnpg]
    and [Kube] hold what is outside the repository; [Deployment] instantiates
    every parameter and [Witnesses] runs the theorems on it.

    ** How state and effects are modelled

    A handler is a function of the world it may change, with the results of the
    reads it cannot change as parameters.  [Operator.Post] is a program over
    the provider's state, the objects of the store and the settled cache;
    [Webhook.Handle] over the provider's state and the objects;
    [Controller.Reconcile] over the API server, the provider and the objects.
    A clock reading is an argument, one for each call that reads the clock.
    Mutexes make each cache operation one step.  The order in which Go ranges
    over a map is arbitrary: [Pathutil.WalkLeaves] fixes one order, and plans
    are stated for every permutation of it.

    Objects are values, which is right where nothing else holds what is written
    to.  Where the source copies an object and then mutates the original, the
    two are modelled in memory: [DeepCopy] has the generated copies, and
    [StatusMemory] and [PolicyMemory] the parts of the two [Reconcile]s that report
    in place, with [StatusMemory.reconcile_status_refines] and
    [PolicyMemory.reconcile_policy_refines] for the step to [Controller]'s values.
    In [Wiring] the resolver and the settled cache that several parts share are
    pointers, positions in the process's lists of them.

    Integers are [Z], wrapped at 64 bits where the source multiplies or negates
    without a check ([Api.ParseRetentionWindow], [PgMem.ParsePgMemory], the
    cutoff in [Controller.enforceRetention]).  Floats are [spec_float].

    An error is kept as its format with its arguments, so that [errors.Is] and
    [errors.As] follow the chain; only where the text becomes data (a
    condition's message, a restore record) does the class [Fmt] render it.

    ** Interfaces

    [Backend.Backend] is the storage interface and [Backend.BackendSpec] its
    contract: failed writes may or may not have been applied, a check only
    reads, a listing is complete and sorted, a missing object is told from a failure.  The history
    theorems hold for every backend that keeps it; the in-memory backend and
    the S3 backend do, the latter over [S3.S3Service], what S3 documents of its
    requests: which error codes, typed errors and statuses stand for a missing
    object or bucket, and that the pages of a listing together hold every key.  [Resolver.Provider] is the interface the handlers use to reach a
    store.  [Cnpg.CnpgLib], [Kube.KubeReader], [Kube.Unstructured],
    [Controller.KubeController], [Controller.MetaLib], [S3.S3Sdk],
    [Celenv.QuantityLib], [Celenv.CelEngine], [GoFloat.GoPlatform],
    [DeepCopy.MetaTypes], [DeepCopy.MetaV1], [StatusMemory.MetaMemory],
    [Wiring.SchemeLib] and [Watch.PolicyWatch] stand
    for code outside the repository; what controller-runtime answers to a call of
    start-up is an argument of [Wiring.run].  Only [Controller.MetaSpec], [S3.S3Service],
    [DeepCopy.MetaV1] (apimachinery's deep copies are deep) and
    [StatusMemory.MetaMemory] (setting a condition writes to its own list),
    [Watch.PolicyWatch] (reads come from a cache that follows the server in order,
    a merge patch replaces the conditions and nothing else) and [Wiring.SchemeSpec]
    assume anything of it.

    ** What the theorems show

    End to end.  [CaptureRestore.capture_restores]: capturing and restoring are
    inverse.  [Recovery.recovered_as_captured]: once the capture hook has let a
    state pass, admission gives a Cluster that restores from that history every
    captured value, and nothing else.  [Integrity.checksum_binds]: a checksum
    stands for one content.  SHA-256 is a definition here, so nothing is assumed of
    it: where two contents have one checksum, the theorems say that they are equal
    or that their own two canonical texts are different texts with one digest
    ([Integrity.contents_collide]).

    One history under concurrent use.  [System] breaks the calls of the
    operator and of the controller up at their backend requests and lets them
    interleave, fail and crash; [System.concurrent_answers] and
    [System.concurrent_latest] are what readers may then rely on, and
    [System.Post_is_run] and [System.Reconcile_steps] show that a capture, which is
    some reads and at most one writing agent, and a whole reconciliation are runs of
    that system.  From the latter,
    [System.Reconcile_keeps_window] is the guarantee of a retention window: a
    reconciliation changes no answer for a moment inside it.  It rests on
    [Layout.histories_apart]: servers whose names are path elements do not
    share keys ([Layout.nested_server_listed] shows why the names must be).

    The capture hook: a pass leaves the captured content in the store, ends when the
    store lets it, and does not repeat itself ([Operator.Post_captures],
    [Operator.Post_converges], [Operator.Post_settles], [Operator.Post_frame]);
    the cache is sound and the published status honest
    ([Operator.settled_sound], [Operator.SetStatusInCluster_honest],
    [Operator.published_watermark_is_current]).  Admission: a patch keeps
    identity, is not repeated and never restores a history into itself
    ([Webhook.Handle_preserves_identity], [Webhook.Handle_reinvoked],
    [Webhook.Handle_checked]); the guard is [Operator.Pre_guard].  Captures:
    [Snapshot.Extract_spec], [Snapshot.Extract_outcome].  Plans: the theorems at
    the end of [Plan], with [Skip.NewSkipSet_spec] for the rules.

    The store: documents and keys carry a snapshot without loss
    ([History.snapshot_roundtrip], [History.Write_then_read],
    [Layout.SnapshotKey_roundtrip], [SnapshotStore.decodeSnapshot_complete]),
    the pointer is backed ([History.Write_pointer_backed]), listings are exact
    ([SnapshotStore.List_spec]), selection and retention agree ([Select],
    [Controller.pruneSuperseded_safe]), and S3 implements the interface
    ([S3.s3_backend_spec]).  The controllers: [Controller.check_usable],
    [Controller.report_quiet], [Resolver.GetConfiguration_fresh]; in memory,
    [DeepCopy.DeepCopy_apart] (copies share nothing) and
    [StatusMemory.reconcile_status_refines].

    The policy controller as it runs: [Watch.policy_verdict_settles] shows that
    the verdict on a policy ends up being the one on its rules, provided a
    reconciliation never reads a policy without the controller's own last write;
    [Watch.policy_verdict_stale] that this proviso is needed and the code does not
    see to it; [Watch.Reconcile_resyncs] that a ConfigStore is always looked at
    again.  Start-up: [Wiring.run_wires], [Wiring.run_flags] and
    [Wiring.confirmed_state_is_quiet] (what is registered and with which resolver,
    what it depends on, what the hooks share); against the manifests, [Wiring.role_is_enough],
    [Wiring.init_knows_reads] and [Wiring.refused_was_for_admission].  Publishing
    under concurrency: [System.published_status_listed].

    Defects of the source that are proved: [Production.Post_missing_bucket]
    (capture never creates the bucket it is documented to create),
    [Watch.policy_verdict_stale] (a wrong verdict can stay on a policy),
    [Controller.overflowing_window_deletes], [Api.ParseRetentionWindow_overflow],
    [PgMem.ParsePgMemory_overflow] and [Celenv.scale_boundary] (unchecked
    products).

    ** Fuel and recursion

    Parsing JSON recurses on fuel, twice the length of the text and two: a
    value costs one unit and each element or member another.  [JsonFuel] shows
    that it is enough for every text, that is, no text is refused for want of
    fuel, and [JsonWf] that what comes out can be encoded again.  Go's limit of
    10000 nested values is not modelled.  Printing an [int64] needs at most
    twenty digits, a binary64 at most seventeen significant ones; the bounds of
    [GoStrings.ndigits] and [GoFloat.shortest] are those.  Every other recursion
    is structural.

    ** Not modelled

    What controller-runtime, cobra, viper and gRPC do with what start-up hands
    them: leader election, serving, probing, reading flags.  Logging.  Contexts and
    their deadlines: a call that runs out of time is a call that fails, which every
    reader and backend here may do.  In [Watch], a watch that is re-established and
    skips versions, and two controllers at once, as during a rolling update.  The
    JSON patch the admission library computes from the two texts.  Of the source
    lines that no definition maps, nearly all are licences, imports and comments. *)

From stdpp Require Export base gmap strings list sorting.
From Stdlib Require Export Ascii ZArith Lia.

#[export] Set Default Goal Selector "!".

(** ** Errors

    A Go error is kept unrendered: the format literal of the [fmt.Errorf] call
    with its arguments.  [%w] and [%v] of another error are separate
    constructors because only [%w] is followed by [errors.Is] and
    [errors.As]. *)

Inductive sentinel :=
| ErrNotFound          (* store.ErrNotFound *)
| ErrBucketNotFound    (* store.ErrBucketNotFound *)
| ErrText (text : string). (* errors.New at its use site *)

(** Errors produced by code outside the repository, by what the repository can
    observe of them. *)
Inductive extkind :=
| KubeNotFound         (* apierrs.IsNotFound holds *)
| KubeNoMatch          (* meta.IsNoMatchError holds *)
| OtherKind.

Inductive earg :=
| AStr (s : string)
| AInt (z : Z)
| AStrs (l : list string).

Inductive error :=
| Sentinel (s : sentinel)
| External (k : extkind) (text : string)
| CRDAbsent (cause : error)                                    (* store.ObjectStoreCRDAbsentError *)
| Errorf (format : string) (args : list earg)
| Wrapf (format : string) (args : list earg) (cause : error)   (* ... %w *)
| Showf (format : string) (args : list earg) (shown : error)   (* ... %v *)
| ShowWrapf (format : string) (args : list earg) (shown cause : error).

#[export] Instance sentinel_eq_dec : EqDecision sentinel.
Proof. solve_decision. Defined.
#[export] Instance extkind_eq_dec : EqDecision extkind.
Proof. solve_decision. Defined.
#[export] Instance earg_eq_dec : EqDecision earg.
Proof. solve_decision. Defined.
#[export] Instance error_eq_dec : EqDecision error.
Proof. solve_decision. Defined.

(** The text of an error and of a formatted message: what [Error()] and
    [fmt.Sprintf] make of the format and its arguments. *)
Class Fmt := {
  Error : error → string;
  Sprintf : string → list earg → option error → string
}.

(** [errors.Unwrap] followed to the end of the chain. *)
Fixpoint error_exists (P : error → bool) (e : error) : bool :=
  P e || match e with
         | CRDAbsent c | Wrapf _ _ c | ShowWrapf _ _ _ c => error_exists P c
         | _ => false
         end.

(** [errors.Is(err, target)] for a sentinel. *)
Definition errors_is (target : sentinel) (e : error) : bool :=
  error_exists (λ x, bool_decide (x = Sentinel target)) e.

(** [apierrs.IsNotFound] and [meta.IsNoMatchError]. *)
Definition is_kube_not_found : error → bool :=
  error_exists (λ x, match x with External KubeNotFound _ => true | _ => false end).
Definition is_kube_no_match : error → bool :=
  error_exists (λ x, match x with External KubeNoMatch _ => true | _ => false end).

(** ** Results: a value or an error, as a Go [(T, error)] return *)

Inductive result (A : Type) :=
| Ok (a : A)
| Err (e : error).
Arguments Ok {A} a.
Arguments Err {A} e.

#[export] Instance result_ret : MRet result := λ A a, Ok a.
#[export] Instance result_bind : MBind result := λ A B f r,
  match r with Ok a => f a | Err e => Err e end.

(** [if err != nil { return fmt.Errorf("...: %w", err) }] *)
Definition wrap {A} (format : string) (args : list earg) (r : result A) : result A :=
  match r with Ok a => Ok a | Err e => Err (Wrapf format args e) end.

Definition is_ok {A} (r : result A) : bool := match r with Ok _ => true | Err _ => false end.

(** ** Effects: a program over a world [W] that may fail

    The world is threaded even when the program fails: a failed call may have
    changed it. *)

Definition prog (W A : Type) : Type := W → W * result A.

#[export] Instance prog_ret W : MRet (prog W) := λ A a w, (w, Ok a).
#[export] Instance prog_bind W : MBind (prog W) := λ A B f p w,
  match p w with
  | (w', Ok a) => f a w'
  | (w', Err e) => (w', Err e)
  end.

Definition throw {W A} (e : error) : prog W A := λ w, (w, Err e).
Definition lift {W A} (r : result A) : prog W A := λ w, (w, r).
Definition wrapM {W A} (format : string) (args : list earg) (p : prog W A) : prog W A :=
  λ w, let '(w', r) := p w in (w', wrap format args r).
(** Run a program and look at its error instead of propagating it. *)
Definition attempt {W A} (p : prog W A) : prog W (result A) :=
  λ w, let '(w', r) := p w in (w', Ok r).

(** ** Tactics *)

(** Case analysis on the scrutinee of a match or an [if] in a hypothesis or
    the goal. *)
Ltac destruct_match :=
  match goal with
  | H : context [match ?x with _ => _ end] |- _ =>
      lazymatch x with context [match _ with _ => _ end] => fail | _ => destruct x eqn:? end
  | |- context [match ?x with _ => _ end] =>
      lazymatch x with context [match _ with _ => _ end] => fail | _ => destruct x eqn:? end
  end.

(** Split a successful bind into its two steps. *)
Ltac inv_ok :=
  repeat match goal with
  | H : Ok _ = Ok _ |- _ => injection H as H; subst
  | H : Err _ = Err _ |- _ => injection H as H; subst
  | H : Ok _ = Err _ |- _ => discriminate H
  | H : Err _ = Ok _ |- _ => discriminate H
  | H : (_, _) = (_, _) |- _ => injection H as ? ?; subst
  end.

(** ** Binds *)

Lemma some_bind {A B} (x : A) (f : A → option B) : Some x ≫= f = f x.
Proof. done. Qed.
Lemma ok_bind {A B} (x : A) (f : A → result B) : Ok x ≫= f = f x.
Proof. done. Qed.

Lemma wrap_ok {A} format args (x : A) : wrap format args (Ok x) = Ok x.
Proof. done. Qed.

(** ** Lists *)

Lemma Forall_filter_self {A} (P : A → Prop) `{∀ x, Decision (P x)} (l : list A) :
  Forall P (filter P l).
Proof. apply Forall_forall. intros x Hx. by apply list_elem_of_filter in Hx as [? _]. Qed.

Lemma NoDup_Permutation_sorted_unique {A} (R : relation A) `{!Transitive R}
    (l1 l2 : list A) :
  (∀ x y, x ∈ l1 → y ∈ l1 → R x y → R y x → x = y) →
  StronglySorted R l1 → StronglySorted R l2 → l1 ≡ₚ l2 → l1 = l2.
Proof.
  intros Hanti Hs1. revert l2 Hanti.
  induction Hs1 as [|x l1 Hs1 IH Hx]; intros l2 Hanti Hs2 Hp.
  { by apply Permutation_nil in Hp. }
  destruct Hs2 as [|y l2 Hs2 Hy].
  { by apply Permutation_sym, Permutation_nil in Hp. }
  assert (x = y) as <-.
  { assert (x ∈ y :: l2) as Hxin by (rewrite <- Hp; left).
    assert (y ∈ x :: l1) as Hyin by (rewrite Hp; left).
    apply elem_of_cons in Hxin as [?|Hxin]; [done|].
    apply elem_of_cons in Hyin as [?|Hyin]; [done|].
    rewrite Forall_forall in Hx, Hy.
    apply Hanti; [left|by right|by apply Hx|by apply Hy]. }
  f_equal. apply IH.
  - intros a b Ha Hb. apply Hanti; by right.
  - done.
  - by apply Permutation_cons_inv in Hp.
Qed.

Lemma filter_none {A} (P : A → Prop) `{∀ x, Decision (P x)} (l : list A) :
  (∀ x, x ∈ l → ¬ P x) → filter P l = [].
Proof.
  intros Hl. apply elem_of_nil_inv. intros x [HP Hx]%list_elem_of_filter. by apply (Hl x).
Qed.

Lemma filter_all {A} (P : A → Prop) `{∀ x, Decision (P x)} (l : list A) :
  (∀ x, x ∈ l → P x) → filter P l = l.
Proof.
  induction l as [|x l IH]; intros Hl; [done|]. rewrite filter_cons, decide_True by (apply Hl; left).
  f_equal. apply IH. intros y Hy. apply Hl. by right.
Qed.

Lemma filter_take_drop {A B} `{EqDecision B} (f : A → B) (l : list A) n :
  NoDup (f <$> l) → filter (λ x, f x ∉ f <$> take n l) l = drop n l.
Proof.
  assert (∀ a b, NoDup (f <$> a ++ b) → filter (λ x, f x ∉ f <$> a) (a ++ b) = b) as Hab.
  { intros a b Hnd. rewrite fmap_app in Hnd. apply NoDup_app in Hnd as (_ & Hdis & _).
    rewrite filter_app, (filter_none _ a), (filter_all _ b); [done| |].
    - intros x Hx Hin. apply (Hdis (f x)); [done|]. by apply list_elem_of_fmap_2.
    - intros x Hx Hin. apply Hin. by apply list_elem_of_fmap_2. }
  intros Hnd. specialize (Hab (take n l) (drop n l)). rewrite take_drop in Hab. by apply Hab.
Qed.

Lemma sorted_lookup_lt {A} (R : relation A) (l : list A) i j x y :
  StronglySorted R l → l !! i = Some x → l !! j = Some y → (i < j)%nat → R x y.
Proof.
  intros Hs. revert i j. induction Hs as [|z l Hs IH Hz]; intros i j Hi Hj Hlt; [done|].
  destruct j as [|j]; [lia|]. destruct i as [|i]; simpl in *.
  - simplify_eq. rewrite Forall_forall in Hz. apply Hz. by eapply list_elem_of_lookup_2.
  - eapply IH; [done|done|lia].
Qed.

(** The development's hint database: lemmas that close the routine side
    conditions of the components. *)
Create HintDb chronicle.
