(* ===== verification/GoStrings.v ===== *)
(** * The parts of Go's [strings], [strconv], [path] and [sort] packages the
    plugin uses

    A Go string is a sequence of bytes: [string], one [ascii] per byte. *)

From S2P Require Import Prelude.

#[local] Open Scope stdpp_scope.

(** ** Prefixes, suffixes and cuts *)

(** [strings.CutPrefix]: what follows [p] in [s]. *)
Fixpoint CutPrefix (s p : string) : option string :=
  match p, s with
  | EmptyString, _ => Some s
  | String a p', String b s' => if decide (a = b) then CutPrefix s' p' else None
  | String _ _, EmptyString => None
  end.

Definition HasPrefix (s p : string) : bool :=
  match CutPrefix s p with Some _ => true | None => false end.

(** [strings.CutSuffix]: what precedes [suf] in [s]. *)
Fixpoint CutSuffix (s suf : string) : option string :=
  if decide (s = suf) then Some ""
  else match s with
       | EmptyString => None
       | String a s' => String a <$> CutSuffix s' suf
       end.

Definition HasSuffix (s suf : string) : bool :=
  match CutSuffix s suf with Some _ => true | None => false end.

Definition TrimSuffix (s suf : string) : string := default s (CutSuffix s suf).

(** [strings.Cut]: the text before and after the first [sep], when there is
    one. *)
Fixpoint Cut (s sep : string) : option (string * string) :=
  match CutPrefix s sep with
  | Some rest => Some ("", rest)
  | None =>
      match s with
      | EmptyString => None
      | String a s' => prod_map (String a) id <$> Cut s' sep
      end
  end.

(** [strings.Split] for a one-byte separator. *)
Fixpoint SplitByte (c : ascii) (s : string) : list string :=
  match s with
  | EmptyString => [""]
  | String a s' =>
      if decide (a = c) then "" :: SplitByte c s'
      else match SplitByte c s' with
           | [] => [String a ""]
           | x :: l => String a x :: l
           end
  end.

(** [strings.Join]. *)
Fixpoint Join (l : list string) (sep : string) : string :=
  match l with
  | [] => ""
  | [x] => x
  | x :: l' => x +:+ sep +:+ Join l' sep
  end.

(** [strings.Trim(s, "c")] for a one-byte cutset. *)
Fixpoint TrimLeftByte (c : ascii) (s : string) : string :=
  match s with
  | String a s' => if decide (a = c) then TrimLeftByte c s' else s
  | EmptyString => ""
  end.
Fixpoint TrimRightByte (c : ascii) (s : string) : string :=
  match s with
  | EmptyString => ""
  | String a s' =>
      match TrimRightByte c s' with
      | EmptyString => if decide (a = c) then "" else String a ""
      | r => String a r
      end
  end.
Definition TrimByte (c : ascii) (s : string) : string := TrimRightByte c (TrimLeftByte c s).

(** [strings.ToLower] and [strings.ToUpper] on ASCII bytes.  Bytes above 127
    are left alone; the callers only compare the result with ASCII words. *)
Definition lower_byte (a : ascii) : ascii :=
  let n := Ascii.nat_of_ascii a in
  if decide (65 ≤ n ∧ n ≤ 90) then Ascii.ascii_of_nat (n + 32) else a.
Definition upper_byte (a : ascii) : ascii :=
  let n := Ascii.nat_of_ascii a in
  if decide (97 ≤ n ∧ n ≤ 122) then Ascii.ascii_of_nat (n - 32) else a.
Fixpoint map_bytes (f : ascii → ascii) (s : string) : string :=
  match s with EmptyString => "" | String a s' => String (f a) (map_bytes f s') end.
Definition ToLower : string → string := map_bytes lower_byte.
Definition ToUpper : string → string := map_bytes upper_byte.

(** [path.Base]: the last slash-separated element. *)
Definition PathBase (s : string) : string :=
  match s with
  | EmptyString => "."
  | _ => match TrimRightByte "/" s with
         | EmptyString => "/"
         | t => default "" (last (SplitByte "/" t))
         end
  end.

(** [sort.Strings]: bytewise lexicographic order. *)
Definition SortStrings : list string → list string := merge_sort String.le.

(** The strict order [a < b] on Go strings. *)
Definition str_ltb (a b : string) : bool :=
  match String.compare a b with Lt => true | _ => false end.

(** ** Decimal numbers *)

Definition digit_char (d : Z) : ascii := Ascii.ascii_of_nat (Z.to_nat (48 + d)).
Definition char_digit (a : ascii) : option Z :=
  let n := Z.of_nat (Ascii.nat_of_ascii a) in
  if decide (48 ≤ n ∧ n ≤ 57)%Z then Some (n - 48)%Z else None.

(** The last [w] decimal digits of [z]. *)
Fixpoint dig (w : nat) (z : Z) : string :=
  match w with
  | O => ""
  | S w' => dig w' (z / 10) +:+ String (digit_char (z mod 10)) ""
  end.

(** How many digits [z] has, at least one; [fuel] bounds the count. *)
Fixpoint ndigits (fuel : nat) (z : Z) : nat :=
  match fuel with
  | O => 1
  | S f => if decide (z < 10)%Z then 1 else S (ndigits f (z / 10))
  end.

(** [strconv.FormatInt(z, 10)] for a 64-bit integer: at most 20 digits. *)
Definition FormatInt (z : Z) : string :=
  if decide (z < 0)%Z then "-" +:+ dig (ndigits 20 (- z)) (- z)
  else dig (ndigits 20 z) z.

(** [fmt.Sprintf("%0*d", w, z)]: zero-padded to at least [w] characters, the
    sign included. *)
Definition PadInt (w : nat) (z : Z) : string :=
  if decide (z < 0)%Z then "-" +:+ dig (max (w - 1) (ndigits 20 (- z))) (- z)
  else dig (max w (ndigits 20 z)) z.

(** The value of a string of decimal digits, from the left. *)
Fixpoint digits_value (acc : Z) (s : string) : option Z :=
  match s with
  | EmptyString => Some acc
  | String a s' => d ← char_digit a; digits_value (acc * 10 + d) s'
  end.
Definition parse_digits (s : string) : option Z :=
  match s with EmptyString => None | _ => digits_value 0 s end.

Definition min_int64 : Z := - 2 ^ 63.
Definition max_int64 : Z := 2 ^ 63 - 1.
Definition in_int64 (z : Z) : Prop := (min_int64 ≤ z ≤ max_int64)%Z.
#[export] Instance in_int64_dec z : Decision (in_int64 z).
Proof. unfold in_int64. apply _. Defined.

(** Two's complement wrap-around of Go's [int64] arithmetic. *)
Definition wrap64 (z : Z) : Z := (z + 2 ^ 63) mod 2 ^ 64 - 2 ^ 63.

(** [strconv.ParseInt(s, 10, 64)]; [strconv.Atoi] on a 64-bit platform is the
    same function. *)
Definition ParseInt (s : string) : option Z :=
  z ← match s with
      | String a s' =>
          if decide (a = "-"%char) then Z.opp <$> parse_digits s'
          else if decide (a = "+"%char) then parse_digits s'
          else parse_digits s
      | EmptyString => None
      end;
  if decide (in_int64 z) then Some z else None.

Definition all_digits (s : string) : bool :=
  match digits_value 0 s with Some _ => true | None => false end.

(** ** Concatenation *)

Lemma str_app_cons a s t : String a s +:+ t = String a (s +:+ t).
Proof. done. Qed.
Lemma str_app_nil_l s : "" +:+ s = s.
Proof. done. Qed.
Lemma str_app_nil_r s : s +:+ "" = s.
Proof. induction s as [|a s IH]; [done|]. by rewrite str_app_cons, IH. Qed.
Lemma str_app_assoc s t u : s +:+ t +:+ u = (s +:+ t) +:+ u.
Proof. induction s as [|a s IH]; [done|]. by rewrite !str_app_cons, IH. Qed.
Lemma str_length_app s t : String.length (s +:+ t) = String.length s + String.length t.
Proof. induction s as [|a s IH]; [done|]. rewrite str_app_cons. simpl. by rewrite IH. Qed.
(** The first bytes of a string. *)
Lemma length_prefix n s :
  (n ≤ String.length s)%nat → String.length (String.substring 0 n s) = n.
Proof.
  revert s. induction n as [|n IH]; intros s Hn; [by destruct s|].
  destruct s as [|a s]; [simpl in Hn; lia|]. simpl in *. f_equal. apply IH. lia.
Qed.

Lemma str_app_inv_length s1 s2 t1 t2 :
  String.length s1 = String.length s2 → s1 +:+ t1 = s2 +:+ t2 → s1 = s2 ∧ t1 = t2.
Proof.
  revert s2. induction s1 as [|a s1 IH]; intros [|b s2] Hl; simplify_eq/=; [done|].
  rewrite !str_app_cons. intros [= -> H]. by destruct (IH s2 ltac:(lia) H) as [-> ->].
Qed.
Lemma str_app_eq_nil s t : s +:+ t = "" ↔ s = "" ∧ t = "".
Proof. destruct s; [naive_solver|]. rewrite str_app_cons. naive_solver. Qed.

(** ** Prefixes *)

Lemma CutPrefix_Some s p r : CutPrefix s p = Some r ↔ s = p +:+ r.
Proof.
  revert s. induction p as [|a p IH]; intros s.
  { rewrite str_app_nil_l. destruct s; simpl; split; congruence. }
  destruct s as [|b s]; simpl; [naive_solver|]. rewrite str_app_cons.
  destruct (decide (a = b)) as [->|]; [rewrite IH|]; naive_solver.
Qed.
Lemma CutPrefix_app p r : CutPrefix (p +:+ r) p = Some r.
Proof. by apply CutPrefix_Some. Qed.
Lemma CutPrefix_None s p : CutPrefix s p = None ↔ ∀ r, s ≠ p +:+ r.
Proof.
  destruct (CutPrefix s p) as [r|] eqn:E.
  - apply CutPrefix_Some in E. naive_solver.
  - split; [|done]. intros _ r ->. by rewrite CutPrefix_app in E.
Qed.
Lemma HasPrefix_spec s p : HasPrefix s p = true ↔ ∃ r, s = p +:+ r.
Proof.
  unfold HasPrefix. destruct (CutPrefix s p) as [r|] eqn:E.
  - apply CutPrefix_Some in E. naive_solver.
  - rewrite CutPrefix_None in E. naive_solver.
Qed.
Lemma HasPrefix_app p r : HasPrefix (p +:+ r) p = true.
Proof. apply HasPrefix_spec. by exists r. Qed.
Lemma HasPrefix_app_l s t p : HasPrefix s p = true → HasPrefix (s +:+ t) p = true.
Proof. rewrite !HasPrefix_spec. intros [r ->]. exists (r +:+ t). by rewrite str_app_assoc. Qed.
Lemma HasPrefix_trans s p q :
  HasPrefix s p = true → HasPrefix p q = true → HasPrefix s q = true.
Proof.
  rewrite !HasPrefix_spec. intros [r ->] [r' ->]. exists (r' +:+ r). by rewrite str_app_assoc.
Qed.

Lemma CutSuffix_Some s t r : CutSuffix s t = Some r ↔ s = r +:+ t.
Proof.
  revert r. induction s as [|a s IH]; intros r; simpl.
  - case_decide as H; split.
    + intros [= <-]. by rewrite <-H.
    + intros Hr. symmetry in Hr. apply str_app_eq_nil in Hr as [-> ->]. done.
    + done.
    + intros Hr. symmetry in Hr. apply str_app_eq_nil in Hr as [-> ->]. done.
  - case_decide as H.
    + subst t. split; [intros [= <-]; done|]. intros Hr.
      destruct r as [|b r]; [done|].
      apply (f_equal String.length) in Hr. rewrite str_length_app in Hr. simpl in Hr. lia.
    + rewrite fmap_Some. split.
      * intros (r' & Hr' & ->). apply IH in Hr'. by rewrite str_app_cons, <-Hr'.
      * destruct r as [|b r]; [done|]. rewrite str_app_cons. intros [= -> Hs].
        exists r. by rewrite IH.
Qed.
Lemma HasSuffix_spec s t : HasSuffix s t = true ↔ ∃ r, s = r +:+ t.
Proof.
  unfold HasSuffix. destruct (CutSuffix s t) as [r|] eqn:E.
  - apply CutSuffix_Some in E. naive_solver.
  - split; [done|]. intros [r Hr]. apply CutSuffix_Some in Hr. congruence.
Qed.

(** ** Split and join *)

Lemma SplitByte_nonempty c s : SplitByte c s ≠ [].
Proof.
  destruct s as [|a s]; simpl; [done|]. case_decide; [done|]. by destruct (SplitByte c s).
Qed.

Lemma Join_cons x l sep : l ≠ [] → Join (x :: l) sep = x +:+ sep +:+ Join l sep.
Proof. by destruct l. Qed.

Lemma Join_SplitByte c s : Join (SplitByte c s) (String c "") = s.
Proof.
  induction s as [|a s IH]; simpl; [done|].
  pose proof (SplitByte_nonempty c s) as Hne. case_decide as Ha.
  - subst a. rewrite Join_cons by done. by rewrite IH.
  - destruct (SplitByte c s) as [|x l]; [done|].
    destruct l as [|y l]; simpl in *; [by rewrite IH|].
    rewrite str_app_cons. f_equal. exact IH.
Qed.

(** A segment without the separator byte. *)
Fixpoint no_byte (c : ascii) (s : string) : bool :=
  match s with EmptyString => true | String a s' => negb (bool_decide (a = c)) && no_byte c s' end.

Lemma SplitByte_no_byte c s : no_byte c s = true → SplitByte c s = [s].
Proof.
  induction s as [|a s IH]; simpl; [done|]. intros [Ha Hs]%andb_prop.
  apply negb_true_iff, bool_decide_eq_false in Ha.
  rewrite decide_False by done. by rewrite IH.
Qed.

Lemma SplitByte_app c s t :
  no_byte c s = true → SplitByte c (s +:+ String c t) = s :: SplitByte c t.
Proof.
  induction s as [|a s IH]; simpl; intros Hs; [by case_decide|].
  apply andb_prop in Hs as [Ha Hs].
  apply negb_true_iff, bool_decide_eq_false in Ha.
  rewrite decide_False by done. by rewrite IH.
Qed.

Lemma SplitByte_app_gen c s t :
  SplitByte c (s +:+ String c t) = SplitByte c s ++ SplitByte c t.
Proof.
  induction s as [|a s IH]; [simpl; by case_decide|].
  rewrite str_app_cons. cbn [SplitByte]. rewrite IH. case_decide; [done|].
  pose proof (SplitByte_nonempty c s) as Hne. by destruct (SplitByte c s).
Qed.

Lemma SplitByte_Join c l :
  l ≠ [] → Forall (λ x, no_byte c x = true) l → SplitByte c (Join l (String c "")) = l.
Proof.
  induction l as [|x l IH]; [done|]. intros _ [Hx Hl]%Forall_cons.
  destruct l as [|y l]; [by apply SplitByte_no_byte|].
  rewrite Join_cons by done. rewrite str_app_cons, str_app_nil_l, SplitByte_app by done.
  by rewrite IH.
Qed.

(** ** Lexicographic comparison *)

Lemma ascii_compare_refl a : Ascii.compare a a = Eq.
Proof. unfold Ascii.compare. apply N.compare_refl. Qed.
Lemma str_compare_refl s : String.compare s s = Eq.
Proof. induction s as [|a s IH]; simpl; [done|]. by rewrite ascii_compare_refl. Qed.

Lemma str_compare_app s1 s2 t1 t2 :
  String.length s1 = String.length s2 →
  String.compare (s1 +:+ t1) (s2 +:+ t2) =
    match String.compare s1 s2 with Eq => String.compare t1 t2 | c => c end.
Proof.
  revert s2. induction s1 as [|a s1 IH]; intros [|b s2] Hl; simplify_eq/=; [done|].
  case_match; [|done..]. apply IH. lia.
Qed.

Lemma str_compare_app_l p s t : String.compare (p +:+ s) (p +:+ t) = String.compare s t.
Proof. rewrite str_compare_app by done. by rewrite str_compare_refl. Qed.

Lemma str_ltb_lt a b : str_ltb a b = true ↔ String.compare a b = Lt.
Proof. unfold str_ltb. destruct (String.compare a b); naive_solver. Qed.

Lemma str_le_compare a b : String.le a b ↔ String.compare a b ≠ Gt.
Proof.
  unfold String.le, String.leb. destruct (String.compare a b); simpl; naive_solver.
Qed.

Lemma str_ltb_irrefl s : str_ltb s s = false.
Proof. unfold str_ltb. by rewrite str_compare_refl. Qed.

(** ** Decimal fields *)

#[local] Open Scope Z_scope.

Lemma length_dig w z : String.length (dig w z) = w.
Proof.
  revert z. induction w as [|w IH]; intros z; simpl; [done|].
  rewrite str_length_app, IH. simpl. lia.
Qed.

Lemma char_digit_digit_char d : 0 ≤ d < 10 → char_digit (digit_char d) = Some d.
Proof.
  intros Hd. unfold char_digit, digit_char.
  rewrite Ascii.nat_ascii_embedding by lia.
  rewrite Z2Nat.id by lia. rewrite decide_True by lia. f_equal. lia.
Qed.

Lemma digits_value_app acc s t :
  digits_value acc (s +:+ t) = acc' ← digits_value acc s; digits_value acc' t.
Proof.
  revert acc. induction s as [|a s IH]; intros acc; [done|].
  change (digits_value acc (String a s +:+ t))
    with (d ← char_digit a; digits_value (acc * 10 + d) (s +:+ t)).
  simpl. destruct (char_digit a) as [d|]; simpl; [apply IH|done].
Qed.

Lemma digits_value_dig w acc z :
  digits_value acc (dig w z) = Some (acc * 10 ^ Z.of_nat w + z mod 10 ^ Z.of_nat w).
Proof.
  revert acc z. induction w as [|w IH]; intros acc z.
  { simpl. f_equal. rewrite Z.mod_1_r. lia. }
  change (dig (S w) z) with (dig w (z / 10) +:+ String (digit_char (z mod 10)) "").
  rewrite digits_value_app, IH. simpl.
  rewrite char_digit_digit_char by (apply Z.mod_pos_bound; lia). simpl. f_equal.
  rewrite Nat2Z.inj_succ, Z.pow_succ_r by lia.
  rewrite (Z.rem_mul_r z 10 (10 ^ Z.of_nat w)) by (try apply Z.pow_nonzero; lia). lia.
Qed.

Lemma digits_value_dig_small w z :
  0 ≤ z < 10 ^ Z.of_nat w → digits_value 0 (dig w z) = Some z.
Proof. intros Hz. rewrite digits_value_dig, Z.mod_small by done. f_equal. Qed.

Lemma parse_digits_dig w z :
  (0 < w)%nat → 0 ≤ z < 10 ^ Z.of_nat w → parse_digits (dig w z) = Some z.
Proof.
  intros Hw Hz. unfold parse_digits. pose proof (length_dig w z) as Hl.
  destruct (dig w z) as [|a s] eqn:E; [simpl in Hl; lia|].
  rewrite <-E. by apply digits_value_dig_small.
Qed.

Lemma ndigits_bound fuel z :
  0 ≤ z < 10 ^ Z.of_nat (S fuel) → z < 10 ^ Z.of_nat (ndigits fuel z).
Proof.
  revert z. induction fuel as [|f IH]; intros z Hz; simpl ndigits; [apply Hz|].
  case_decide; [simpl; lia|].
  rewrite !Nat2Z.inj_succ, !Z.pow_succ_r in * by lia.
  pose proof (IH (z / 10)) as IH'.
  assert (0 ≤ z / 10 < 10 * 10 ^ Z.of_nat f) as Hq.
  { split; [apply Z.div_pos; lia|apply Z.div_lt_upper_bound; lia]. }
  specialize (IH' Hq). pose proof (Z.div_mod z 10). pose proof (Z.mod_pos_bound z 10). lia.
Qed.

Lemma ndigits_pos fuel z : (0 < ndigits fuel z)%nat.
Proof. destruct fuel; simpl; [lia|]. case_decide; lia. Qed.

Lemma ndigits_upper fuel z w :
  (0 < w)%nat → 0 ≤ z < 10 ^ Z.of_nat w → (ndigits fuel z ≤ w)%nat.
Proof.
  revert z w. induction fuel as [|f IH]; intros z w Hw Hz; simpl; [lia|].
  case_decide; [lia|]. destruct w as [|w]; [lia|]. destruct w as [|w].
  { change (10 ^ Z.of_nat 1) with 10 in Hz. lia. }
  apply le_n_S, IH; [lia|]. rewrite (Nat2Z.inj_succ (S w)), Z.pow_succ_r in Hz by lia.
  split; [apply Z.div_pos; lia|apply Z.div_lt_upper_bound; lia].
Qed.

Lemma digit_char_not_sign d c :
  0 ≤ d < 10 → char_digit c = None → digit_char d ≠ c.
Proof. intros Hd Hc <-. by rewrite char_digit_digit_char in Hc. Qed.

(** The first character of a decimal field is a digit. *)
Lemma dig_head w z a s c :
  dig w z = String a s → char_digit c = None → a ≠ c.
Proof.
  intros E Hc ->. assert (digits_value 0 (dig w z) = None) as H.
  { rewrite E. simpl. by rewrite Hc. }
  by rewrite digits_value_dig in H.
Qed.

Lemma ParseInt_dig w z :
  (0 < w)%nat → 0 ≤ z < 10 ^ Z.of_nat w → in_int64 z → ParseInt (dig w z) = Some z.
Proof.
  intros Hw Hz H64. unfold ParseInt.
  destruct (dig w z) as [|a s] eqn:E.
  { pose proof (length_dig w z) as Hl. rewrite E in Hl. simpl in Hl. lia. }
  rewrite decide_False by (by eapply dig_head).
  rewrite decide_False by (by eapply dig_head).
  rewrite <-E, parse_digits_dig by done. simpl. by rewrite decide_True.
Qed.

(** [strconv.ParseInt] inverts [strconv.FormatInt] on every [int64]. *)
Lemma ParseInt_FormatInt z : in_int64 z → ParseInt (FormatInt z) = Some z.
Proof.
  intros Hz. pose proof Hz as Hz'. unfold in_int64, min_int64, max_int64 in Hz'.
  assert (∀ y, 0 ≤ y < 10 ^ 20 → y < 10 ^ Z.of_nat (ndigits 20 y)) as Hb.
  { intros y Hy. apply ndigits_bound. change (Z.of_nat 21) with 21. lia. }
  unfold FormatInt. case_decide as Hneg.
  - unfold ParseInt.
    change ("-" +:+ dig (ndigits 20 (- z)) (- z)) with (String "-" (dig (ndigits 20 (- z)) (- z))).
    cbv beta iota. rewrite (decide_True (P := "-"%char = "-"%char)) by done.
    rewrite parse_digits_dig; [|apply ndigits_pos|split; [lia|apply Hb; lia]].
    simpl. rewrite Z.opp_involutive. by rewrite decide_True.
  - apply ParseInt_dig; [apply ndigits_pos|split; [lia|apply Hb; lia]|done].
Qed.

(** Zero-padded fields of one width compare like the numbers they hold. *)
Lemma digit_char_compare d e :
  0 ≤ d < 10 → 0 ≤ e < 10 → Ascii.compare (digit_char d) (digit_char e) = Z.compare d e.
Proof.
  intros Hd He. unfold Ascii.compare, digit_char, Ascii.ascii_of_nat.
  rewrite !Ascii.N_ascii_embedding by lia.
  rewrite <-N2Z.inj_compare. rewrite !nat_N_Z, !Z2Nat.id by lia.
  destruct (Z.compare_spec d e); destruct (Z.compare_spec (48 + d) (48 + e)); lia || done.
Qed.

Lemma dig_compare w x y :
  0 ≤ x < 10 ^ Z.of_nat w → 0 ≤ y < 10 ^ Z.of_nat w →
  String.compare (dig w x) (dig w y) = Z.compare x y.
Proof.
  revert x y. induction w as [|w IH]; intros x y Hx Hy.
  { simpl in *. by replace x with y by lia; rewrite Z.compare_refl. }
  rewrite Nat2Z.inj_succ, Z.pow_succ_r in Hx, Hy by lia.
  simpl. rewrite str_compare_app by (by rewrite !length_dig).
  assert (∀ z, 0 ≤ z < 10 * 10 ^ Z.of_nat w → 0 ≤ z / 10 < 10 ^ Z.of_nat w) as Hq.
  { intros z Hz. split; [apply Z.div_pos; lia|apply Z.div_lt_upper_bound; lia]. }
  rewrite IH by auto. simpl.
  rewrite digit_char_compare by (apply Z.mod_pos_bound; lia).
  pose proof (Z.div_mod x 10 ltac:(lia)). pose proof (Z.div_mod y 10 ltac:(lia)).
  pose proof (Z.mod_pos_bound x 10 ltac:(lia)). pose proof (Z.mod_pos_bound y 10 ltac:(lia)).
  destruct (Z.compare_spec (x / 10) (y / 10)) as [Heq|Hlt|Hgt].
  - destruct (Z.compare_spec (x mod 10) (y mod 10)), (Z.compare_spec x y); lia || done.
  - destruct (Z.compare_spec x y); lia || done.
  - destruct (Z.compare_spec x y); lia || done.
Qed.

Lemma wrap64_id z : in_int64 z → wrap64 z = z.
Proof.
  unfold in_int64, wrap64, min_int64, max_int64. intros Hz. rewrite Z.mod_small by lia. lia.
Qed.
Lemma wrap64_range z : in_int64 (wrap64 z).
Proof.
  unfold in_int64, wrap64, min_int64, max_int64.
  pose proof (Z.mod_pos_bound (z + 2 ^ 63) (2 ^ 64) ltac:(lia)). lia.
Qed.

#[export] Hint Rewrite str_app_nil_l str_app_nil_r : chronicle.
#[export] Hint Resolve HasPrefix_app CutPrefix_app wrap64_range : chronicle.

#[global] Arguments dig : simpl never.
#[global] Arguments FormatInt : simpl never.
#[global] Arguments PadInt : simpl never.
