(* ===== verification/GoTime.v ===== *)
(** * The parts of Go's [time] package the plugin uses

    An instant is a [Z]: nanoseconds since the Unix epoch.  Every instant the
    plugin renders has been taken through [UTC()] first, so no zone is kept.
    The calendar is the proleptic Gregorian one. *)

From S2P Require Import Prelude GoStrings.

#[local] Open Scope Z_scope.

(** ** Durations, in nanoseconds *)

Definition Second : Z := 1000000000.
Definition Minute : Z := 60 * Second.
Definition Hour : Z := 60 * Minute.

(** ** The calendar *)

Definition leap (y : Z) : bool :=
  bool_decide (y mod 4 = 0) && (negb (bool_decide (y mod 100 = 0)) || bool_decide (y mod 400 = 0)).

Definition month_lengths (y : Z) : list Z :=
  [31; if leap y then 29 else 28; 31; 30; 31; 30; 31; 31; 30; 31; 30; 31].

Definition days_in_month (y m : Z) : Z := default 0 (month_lengths y !! Z.to_nat (m - 1)).

(** Days from 0000-01-01 to the first day of year [y]. *)
Definition days_before_year (y : Z) : Z :=
  365 * y + (y + 3) / 4 - (y + 99) / 100 + (y + 399) / 400.

Fixpoint sumZ (l : list Z) : Z := match l with [] => 0 | x :: l' => x + sumZ l' end.

Definition days_before_month (y m : Z) : Z := sumZ (take (Z.to_nat (m - 1)) (month_lengths y)).

Definition day_of_civil (y m d : Z) : Z := days_before_year y + days_before_month y m + (d - 1).

Definition year_of_day (n : Z) : Z :=
  let y := n * 400 / 146097 in
  if decide (n < days_before_year y) then y - 1
  else if decide (days_before_year (y + 1) ≤ n) then y + 1 else y.

(** The month and day of month of a zero-based day of the year. *)
Fixpoint month_of (lens : list Z) (m doy : Z) : Z * Z :=
  match lens with
  | [] => (m, doy + 1)
  | l :: lens' => if decide (doy < l) then (m, doy + 1) else month_of lens' (m + 1) (doy - l)
  end.

Definition epoch_day : Z := 719528.

Record civil := Civil {
  c_year : Z; c_month : Z; c_day : Z;
  c_hour : Z; c_minute : Z; c_second : Z
}.

Definition civil_of_seconds (s : Z) : civil :=
  let n := s / 86400 + epoch_day in
  let sod := s mod 86400 in
  let y := year_of_day n in
  let '(m, d) := month_of (month_lengths y) 1 (n - days_before_year y) in
  Civil y m d (sod / 3600) (sod / 60 mod 60) (sod mod 60).

Definition seconds_of_civil (c : civil) : Z :=
  (day_of_civil (c_year c) (c_month c) (c_day c) - epoch_day) * 86400
  + c_hour c * 3600 + c_minute c * 60 + c_second c.

(** [time.Time{}]. *)
Definition zero_time : Z := seconds_of_civil (Civil 1 1 1 0 0 0) * Second.

Definition valid_civil (c : civil) : Prop :=
  1 ≤ c_month c ≤ 12 ∧ 1 ≤ c_day c ≤ days_in_month (c_year c) (c_month c)
  ∧ 0 ≤ c_hour c < 24 ∧ 0 ≤ c_minute c < 60 ∧ 0 ≤ c_second c < 60.
#[export] Instance valid_civil_dec c : Decision (valid_civil c).
Proof. unfold valid_civil. apply _. Defined.

(** The seconds of an instant, as [Truncate] to the second rounds it. *)
Definition unix_seconds (t : Z) : Z := t / Second.

(** ** Layout "20060102T150405Z" *)

(** [appendInt(b, year, 4)]. *)
Definition format_year (y : Z) : string :=
  if decide (y < 0) then "-" +:+ dig (max 4 (ndigits 20 (- y))) (- y)
  else dig (max 4 (ndigits 20 y)) y.

Definition FormatCompact (t : Z) : string :=
  let c := civil_of_seconds (unix_seconds t) in
  format_year (c_year c) +:+ dig 2 (c_month c) +:+ dig 2 (c_day c) +:+ "T"
  +:+ dig 2 (c_hour c) +:+ dig 2 (c_minute c) +:+ dig 2 (c_second c) +:+ "Z".

(** The first [n] bytes of [s] and the rest, when there are that many. *)
Fixpoint TakeBytes (n : nat) (s : string) : option (string * string) :=
  match n, s with
  | O, _ => Some ("", s)
  | S n', String a s' => prod_map (String a) id <$> TakeBytes n' s'
  | S _, EmptyString => None
  end.

(** A number of exactly [n] digits, and what follows it. *)
Definition take_number (n : nat) (s : string) : option (Z * string) :=
  '(f, rest) ← TakeBytes n s; z ← parse_digits f; Some (z, rest).

#[global] Arguments take_number : simpl never.
#[global] Arguments TakeBytes : simpl never.

Definition time_of_civil (c : civil) : option Z :=
  if decide (valid_civil c) then Some (seconds_of_civil c * Second) else None.

(** [time.Parse] for that layout, on text whose fields are digits. *)
Definition ParseCompact (s : string) : option Z :=
  '(y, s) ← take_number 4 s;
  '(m, s) ← take_number 2 s;
  '(d, s) ← take_number 2 s;
  s ← CutPrefix s "T";
  '(hh, s) ← take_number 2 s;
  '(mm, s) ← take_number 2 s;
  '(ss, s) ← take_number 2 s;
  if decide (s = "Z") then time_of_civil (Civil y m d hh mm ss) else None.

(** ** [time.RFC3339] of a UTC instant *)

Definition FormatRFC3339 (t : Z) : string :=
  let c := civil_of_seconds (unix_seconds t) in
  format_year (c_year c) +:+ "-" +:+ dig 2 (c_month c) +:+ "-" +:+ dig 2 (c_day c) +:+ "T"
  +:+ dig 2 (c_hour c) +:+ ":" +:+ dig 2 (c_minute c) +:+ ":" +:+ dig 2 (c_second c) +:+ "Z".

(** ** [time.Time]'s JSON form: [time.RFC3339Nano] in UTC

    Every instant the plugin marshals is in UTC. *)

(** The nanoseconds of the second, nine digits without their trailing zeros. *)
Definition format_fraction (n : Z) : string :=
  if decide (n = 0) then "" else "." +:+ TrimRightByte "0" (dig 9 n).

Definition FormatRFC3339Nano (t : Z) : string :=
  let c := civil_of_seconds (unix_seconds t) in
  format_year (c_year c) +:+ "-" +:+ dig 2 (c_month c) +:+ "-" +:+ dig 2 (c_day c) +:+ "T"
  +:+ dig 2 (c_hour c) +:+ ":" +:+ dig 2 (c_minute c) +:+ ":" +:+ dig 2 (c_second c)
  +:+ format_fraction (t mod Second) +:+ "Z".

(** The run of digits that starts [s], and the rest. *)
Fixpoint span_digits (s : string) : string * string :=
  match s with
  | String a r =>
      match char_digit a with
      | Some _ => let '(ds, rest) := span_digits r in (String a ds, rest)
      | None => ("", s)
      end
  | EmptyString => ("", "")
  end.

(** The fraction after a "." as nanoseconds: nine digits count. *)
Definition fraction_value (ds : string) : option Z :=
  digits_value 0 (String.substring 0 9 (ds +:+ "000000000")).

Definition take_fraction (s : string) : option (Z * string) :=
  match CutPrefix s "." with
  | None => Some (0, s)
  | Some r =>
      match span_digits r with
      | (EmptyString, _) => None
      | (ds, rest) => n ← fraction_value ds; Some (n, rest)
      end
  end.

(** The zone: "Z", or a signed [hh:mm]; its offset in seconds. *)
Definition parse_zone (s : string) : option Z :=
  if decide (s = "Z") then Some 0
  else
    '(sign, s) ← match s with
                 | String "+"%char r => Some (1, r)
                 | String "-"%char r => Some (-1, r)
                 | _ => None
                 end;
    '(hh, s) ← take_number 2 s;
    s ← CutPrefix s ":";
    '(mm, s) ← take_number 2 s;
    if decide (s = "" ∧ hh < 24 ∧ mm < 60) then Some (sign * (hh * 3600 + mm * 60)) else None.

(** [time.Time.UnmarshalJSON]'s text. *)
Definition ParseRFC3339 (s : string) : option Z :=
  '(y, s) ← take_number 4 s;
  s ← CutPrefix s "-";
  '(m, s) ← take_number 2 s;
  s ← CutPrefix s "-";
  '(d, s) ← take_number 2 s;
  s ← CutPrefix s "T";
  '(hh, s) ← take_number 2 s;
  s ← CutPrefix s ":";
  '(mm, s) ← take_number 2 s;
  s ← CutPrefix s ":";
  '(ss, s) ← take_number 2 s;
  '(nanos, s) ← take_fraction s;
  offset ← parse_zone s;
  t ← time_of_civil (Civil y m d hh mm ss);
  Some (t - offset * Second + nanos).

(** ** The calendar is a bijection between days and valid dates *)

Lemma leap_days y : days_before_year (y + 1) - days_before_year y = if leap y then 366 else 365.
Proof.
  unfold days_before_year, leap.
  repeat case_bool_decide; simpl; Z.div_mod_to_equations; lia.
Qed.

Lemma days_before_year_mono y y' : y ≤ y' → days_before_year y ≤ days_before_year y'.
Proof. unfold days_before_year. intros. Z.div_mod_to_equations. lia. Qed.

Lemma days_before_year_lt y y' : y < y' → days_before_year y + 365 ≤ days_before_year y'.
Proof. unfold days_before_year. intros. Z.div_mod_to_equations. lia. Qed.

Lemma year_of_day_spec n y :
  days_before_year y ≤ n < days_before_year (y + 1) → year_of_day n = y.
Proof.
  unfold year_of_day. intros Hn.
  assert (y - 1 ≤ n * 400 / 146097 ≤ y + 1) as Hy.
  { unfold days_before_year in Hn. Z.div_mod_to_equations. lia. }
  pose proof (days_before_year_mono (y + 1) (n * 400 / 146097)).
  pose proof (days_before_year_mono (n * 400 / 146097 + 1) y).
  pose proof (days_before_year_mono (n * 400 / 146097) y).
  pose proof (days_before_year_mono (y + 1) (n * 400 / 146097 + 1)).
  repeat case_decide; lia.
Qed.

Lemma year_of_day_bounds n :
  days_before_year (year_of_day n) ≤ n < days_before_year (year_of_day n + 1).
Proof.
  unfold year_of_day. set (y := n * 400 / 146097).
  assert (days_before_year (y - 1) ≤ n < days_before_year (y + 2)) as Hy.
  { subst y. unfold days_before_year. Z.div_mod_to_equations. lia. }
  replace (y + 2) with (y + 1 + 1) in Hy by lia.
  repeat case_decide; replace (y - 1 + 1) with y by lia; lia.
Qed.

Lemma month_of_take lens m doy i :
  0 ≤ doy - sumZ (take i lens) < default 0 (lens !! i) → Forall (λ l, 0 < l) lens →
  month_of lens m doy = (m + Z.of_nat i, doy - sumZ (take i lens) + 1).
Proof.
  revert m doy i. induction lens as [|l lens IH]; intros m doy i Hd Hpos; [simpl in Hd; lia|].
  apply Forall_cons in Hpos as [Hl Hpos]. destruct i as [|i]; simpl in *.
  { rewrite decide_True by lia. f_equal; lia. }
  assert (0 ≤ sumZ (take i lens)) as Hs.
  { clear -Hpos. revert i. induction Hpos as [|x lens Hx _ IH]; intros [|i]; simpl; try lia.
    specialize (IH i). lia. }
  rewrite decide_False by lia.
  rewrite (IH (m + 1) (doy - l) i) by (done || lia). f_equal; lia.
Qed.

Lemma month_of_sound lens m doy :
  0 ≤ doy < sumZ lens → Forall (λ l, 0 < l) lens →
  ∃ i, (i < length lens)%nat ∧ 0 ≤ doy - sumZ (take i lens) < default 0 (lens !! i)
    ∧ month_of lens m doy = (m + Z.of_nat i, doy - sumZ (take i lens) + 1).
Proof.
  revert m doy. induction lens as [|l lens IH]; intros m doy Hd Hpos; simpl in *; [lia|].
  apply Forall_cons in Hpos as [Hl Hpos]. case_decide.
  { exists 0%nat. simpl. split_and!; [lia..|]. f_equal; lia. }
  destruct (IH (m + 1) (doy - l)) as (i & Hi & Hr & Heq); [lia|done|].
  exists (S i). simpl. split_and!; [lia..|]. rewrite Heq. f_equal; lia.
Qed.

Lemma month_lengths_pos y : Forall (λ l, 0 < l) (month_lengths y).
Proof. unfold month_lengths. destruct (leap y); repeat constructor. Qed.

Lemma month_lengths_sum y :
  sumZ (month_lengths y) = days_before_year (y + 1) - days_before_year y.
Proof. rewrite leap_days. unfold month_lengths. by destruct (leap y). Qed.

Lemma length_month_lengths y : length (month_lengths y) = 12%nat.
Proof. done. Qed.

Lemma take_sum_bound lens i :
  Forall (λ l, 0 < l) lens → (i < length lens)%nat →
  0 ≤ sumZ (take i lens) ∧ sumZ (take i lens) + default 0 (lens !! i) ≤ sumZ lens.
Proof.
  intros Hpos. revert i. induction Hpos as [|l lens Hl Hpos IH]; intros i Hi; simpl in *; [lia|].
  assert (0 ≤ sumZ lens) by (clear -Hpos; induction Hpos; simpl; lia).
  destruct i as [|i]; simpl; [lia|]. specialize (IH i ltac:(lia)). lia.
Qed.

(** Date to day to date. *)
Lemma civil_of_seconds_of_civil c : valid_civil c → civil_of_seconds (seconds_of_civil c) = c.
Proof.
  intros (Hm & Hd & Hh & Hmi & Hs). destruct c as [y m d hh mi ss]; simpl in *.
  unfold seconds_of_civil. simpl. set (n := day_of_civil y m d).
  unfold civil_of_seconds.
  assert (((n - epoch_day) * 86400 + hh * 3600 + mi * 60 + ss) / 86400 = n - epoch_day) as ->
    by (Z.div_mod_to_equations; lia).
  assert (((n - epoch_day) * 86400 + hh * 3600 + mi * 60 + ss) mod 86400
          = hh * 3600 + mi * 60 + ss) as -> by (Z.div_mod_to_equations; lia).
  replace (n - epoch_day + epoch_day) with n by lia.
  set (i := Z.to_nat (m - 1)). unfold days_in_month in Hd.
  assert (i < length (month_lengths y))%nat as Hi by (rewrite length_month_lengths; lia).
  pose proof (take_sum_bound _ _ (month_lengths_pos y) Hi) as Hb.
  rewrite month_lengths_sum in Hb.
  assert (n = days_before_year y + sumZ (take i (month_lengths y)) + (d - 1)) as Hn by done.
  assert (year_of_day n = y) as -> by (apply year_of_day_spec; fold i in Hd; lia).
  rewrite (month_of_take _ _ _ i) by (apply month_lengths_pos || (fold i in Hd; lia)).
  f_equal; try lia; Z.div_mod_to_equations; lia.
Qed.

Lemma valid_civil_of_seconds s : valid_civil (civil_of_seconds s).
Proof.
  unfold civil_of_seconds. set (n := s / 86400 + epoch_day). set (y := year_of_day n).
  pose proof (year_of_day_bounds n) as Hy. fold y in Hy.
  destruct (month_of_sound (month_lengths y) 1 (n - days_before_year y))
    as (i & Hi & Hr & Heq); [rewrite month_lengths_sum; lia|apply month_lengths_pos|].
  rewrite Heq. rewrite length_month_lengths in Hi.
  unfold valid_civil, days_in_month; simpl.
  replace (Z.to_nat (1 + Z.of_nat i - 1)) with i by lia.
  split_and!; try lia; Z.div_mod_to_equations; lia.
Qed.

(** Day to date to day. *)
Lemma seconds_of_civil_of_seconds s : seconds_of_civil (civil_of_seconds s) = s.
Proof.
  unfold civil_of_seconds. set (n := s / 86400 + epoch_day). set (y := year_of_day n).
  pose proof (year_of_day_bounds n) as Hy. fold y in Hy.
  destruct (month_of_sound (month_lengths y) 1 (n - days_before_year y))
    as (i & Hi & Hr & Heq); [rewrite month_lengths_sum; lia|apply month_lengths_pos|].
  rewrite Heq. unfold seconds_of_civil, day_of_civil, days_before_month. simpl.
  replace (Z.to_nat (1 + Z.of_nat i - 1)) with i by lia.
  subst n. unfold epoch_day. Z.div_mod_to_equations. lia.
Qed.

(** ** Formatting and parsing *)

Lemma TakeBytes_app s t : TakeBytes (String.length s) (s +:+ t) = Some (s, t).
Proof.
  induction s as [|a s IH]; [by destruct t|].
  change (prod_map (String a) id <$> TakeBytes (String.length s) (s +:+ t)
    = Some (String a s, t)). by rewrite IH.
Qed.

Lemma take_number_dig w z t :
  (0 < w)%nat → 0 ≤ z < 10 ^ Z.of_nat w → take_number w (dig w z +:+ t) = Some (z, t).
Proof.
  intros Hw Hz. unfold take_number. rewrite <-(length_dig w z) at 1.
  rewrite TakeBytes_app. simpl. by rewrite parse_digits_dig.
Qed.

(** Years the compact layout writes with four digits. *)
Definition four_digit_year (t : Z) : Prop :=
  0 ≤ c_year (civil_of_seconds (unix_seconds t)) < 10000.
#[export] Instance four_digit_year_dec t : Decision (four_digit_year t).
Proof. unfold four_digit_year. apply _. Defined.

Lemma format_year_dig y : 0 ≤ y < 10000 → format_year y = dig 4 y.
Proof.
  intros Hy. unfold format_year. rewrite decide_False by lia. f_equal.
  pose proof (ndigits_upper 20 y 4 ltac:(lia) Hy). lia.
Qed.

Lemma days_in_month_le y m : days_in_month y m ≤ 31.
Proof.
  unfold days_in_month. destruct (month_lengths y !! _) as [l|] eqn:E; simpl; [|lia].
  assert (Forall (λ l, l ≤ 31) (month_lengths y)) as HF
    by (unfold month_lengths; destruct (leap y); repeat constructor; lia).
  by eapply Forall_lookup_1 in HF.
Qed.

(** [time.Parse] reads back what [Format] wrote, to the second. *)
Lemma ParseCompact_FormatCompact t :
  four_digit_year t → ParseCompact (FormatCompact t) = Some (unix_seconds t * Second).
Proof.
  unfold four_digit_year, FormatCompact, ParseCompact. intros Hy.
  pose proof (valid_civil_of_seconds (unix_seconds t)) as Hv.
  trans (Some (seconds_of_civil (civil_of_seconds (unix_seconds t)) * Second));
    [|by rewrite seconds_of_civil_of_seconds].
  destruct (civil_of_seconds (unix_seconds t)) as [y m d hh mi ss]. simpl in Hy.
  pose proof Hv as (Hm & Hd & Hh & Hmi & Hs). simpl in *.
  pose proof (days_in_month_le y m).
  rewrite format_year_dig by done.
  assert (∀ z, 0 ≤ z < 100 → 0 ≤ z < 10 ^ Z.of_nat 2) as H100 by (intros z Hz; exact Hz).
  rewrite take_number_dig by (lia || exact Hy). rewrite some_bind.
  rewrite take_number_dig by (lia || apply H100; lia). rewrite some_bind.
  rewrite take_number_dig by (lia || apply H100; lia). rewrite some_bind.
  rewrite CutPrefix_app, some_bind.
  rewrite take_number_dig by (lia || apply H100; lia). rewrite some_bind.
  rewrite take_number_dig by (lia || apply H100; lia). rewrite some_bind.
  rewrite take_number_dig by (lia || apply H100; lia). rewrite some_bind.
  rewrite decide_True by done. unfold time_of_civil. by rewrite decide_True.
Qed.

(** ** The compact layout sorts chronologically *)

Lemma take_sum_mono lens i j :
  Forall (λ l, 0 < l) lens → (i < j)%nat → (i < length lens)%nat →
  sumZ (take i lens) + default 0 (lens !! i) ≤ sumZ (take j lens).
Proof.
  intros Hpos. revert i j. induction Hpos as [|l lens Hl Hpos IH]; intros i j Hij Hi; simpl in *; [lia|].
  assert (∀ k, 0 ≤ sumZ (take k lens)) as Hnn.
  { clear -Hpos. induction Hpos as [|x lens Hx _ IH]; intros [|k]; simpl; try lia.
    specialize (IH k). lia. }
  destruct i as [|i], j as [|j]; simpl; try lia.
  - specialize (Hnn j). lia.
  - specialize (IH i j ltac:(lia) ltac:(lia)). lia.
Qed.

Lemma day_in_year y m d :
  1 ≤ m ≤ 12 → 1 ≤ d ≤ days_in_month y m →
  days_before_year y ≤ day_of_civil y m d < days_before_year (y + 1).
Proof.
  intros Hm Hd. unfold day_of_civil, days_before_month. unfold days_in_month in Hd.
  pose proof (take_sum_bound _ (Z.to_nat (m - 1)) (month_lengths_pos y)) as Hb.
  rewrite length_month_lengths, month_lengths_sum in Hb.
  specialize (Hb ltac:(lia)). lia.
Qed.

Lemma day_of_civil_compare y m d y' m' d' :
  1 ≤ m ≤ 12 → 1 ≤ d ≤ days_in_month y m → 1 ≤ m' ≤ 12 → 1 ≤ d' ≤ days_in_month y' m' →
  Z.compare (day_of_civil y m d) (day_of_civil y' m' d')
  = match Z.compare y y' with
    | Eq => match Z.compare m m' with Eq => Z.compare d d' | c => c end
    | c => c
    end.
Proof.
  intros Hm Hd Hm' Hd'.
  pose proof (day_in_year _ _ _ Hm Hd). pose proof (day_in_year _ _ _ Hm' Hd').
  destruct (Z.compare_spec y y') as [<-|Hlt|Hgt].
  - assert (∀ a b e e', 1 ≤ a ≤ 12 → 1 ≤ e ≤ days_in_month y a → a < b → 1 ≤ e' →
      day_of_civil y a e < day_of_civil y b e') as Hmono.
    { clear. intros a b e e' Ha He Hab He'. unfold day_of_civil, days_before_month.
      unfold days_in_month in He.
      pose proof (take_sum_mono (month_lengths y) (Z.to_nat (a - 1)) (Z.to_nat (b - 1))
        (month_lengths_pos y) ltac:(lia) ltac:(rewrite length_month_lengths; lia)). lia. }
    destruct (Z.compare_spec m m') as [<-|Hlt|Hgt].
    + unfold day_of_civil. rewrite Z.add_compare_mono_l.
      destruct (Z.compare_spec (d - 1) (d' - 1)), (Z.compare_spec d d'); lia || done.
    + apply Z.compare_lt_iff, Hmono; lia.
    + apply Z.compare_gt_iff, Hmono; lia.
  - pose proof (days_before_year_mono (y + 1) y' ltac:(lia)). apply Z.compare_lt_iff. lia.
  - pose proof (days_before_year_mono (y' + 1) y ltac:(lia)). apply Z.compare_gt_iff. lia.
Qed.

(** Comparing sums digit by digit. *)
Lemma compare_mul_add k a b a' b' :
  0 ≤ b < k → 0 ≤ b' < k →
  Z.compare (a * k + b) (a' * k + b')
  = match Z.compare a a' with Eq => Z.compare b b' | c => c end.
Proof.
  intros Hb Hb'.
  destruct (Z.compare_spec a a') as [<-|Hlt|Hgt].
  - apply Z.add_compare_mono_l.
  - apply Z.compare_lt_iff. nia.
  - apply Z.compare_gt_iff. nia.
Qed.

Lemma seconds_of_civil_compare c c' :
  valid_civil c → valid_civil c' →
  Z.compare (seconds_of_civil c) (seconds_of_civil c')
  = match Z.compare (day_of_civil (c_year c) (c_month c) (c_day c))
                    (day_of_civil (c_year c') (c_month c') (c_day c')) with
    | Eq => match Z.compare (c_hour c) (c_hour c') with
            | Eq => match Z.compare (c_minute c) (c_minute c') with
                    | Eq => Z.compare (c_second c) (c_second c')
                    | r => r end
            | r => r end
    | r => r end.
Proof.
  intros (_ & _ & Hh & Hmi & Hs) (_ & _ & Hh' & Hmi' & Hs').
  unfold seconds_of_civil.
  set (n := day_of_civil _ _ _). set (n' := day_of_civil (c_year c') _ _).
  replace ((n - epoch_day) * 86400 + c_hour c * 3600 + c_minute c * 60 + c_second c)
    with ((n - epoch_day) * 86400 + ((c_hour c * 60 + c_minute c) * 60 + c_second c)) by lia.
  replace ((n' - epoch_day) * 86400 + c_hour c' * 3600 + c_minute c' * 60 + c_second c')
    with ((n' - epoch_day) * 86400 + ((c_hour c' * 60 + c_minute c') * 60 + c_second c')) by lia.
  rewrite !compare_mul_add by lia.
  replace (Z.compare (n - epoch_day) (n' - epoch_day)) with (Z.compare n n')
    by (destruct (Z.compare_spec n n'), (Z.compare_spec (n - epoch_day) (n' - epoch_day)); lia || done).
  by repeat destruct (Z.compare _ _).
Qed.

(** Text order of two renderings, up to what follows them, is time order. *)
Lemma FormatCompact_compare t t' s s' :
  four_digit_year t → four_digit_year t' →
  String.compare (FormatCompact t +:+ s) (FormatCompact t' +:+ s')
  = match Z.compare (unix_seconds t) (unix_seconds t') with
    | Eq => String.compare s s'
    | c => c
    end.
Proof.
  unfold four_digit_year, FormatCompact. intros Hy Hy'.
  replace (Z.compare (unix_seconds t) (unix_seconds t'))
    with (Z.compare (seconds_of_civil (civil_of_seconds (unix_seconds t)))
                    (seconds_of_civil (civil_of_seconds (unix_seconds t'))))
    by (by rewrite !seconds_of_civil_of_seconds).
  pose proof (valid_civil_of_seconds (unix_seconds t)) as Hv.
  pose proof (valid_civil_of_seconds (unix_seconds t')) as Hv'.
  destruct (civil_of_seconds (unix_seconds t)) as [y m d hh mi ss].
  destruct (civil_of_seconds (unix_seconds t')) as [y' m' d' hh' mi' ss'].
  rewrite seconds_of_civil_compare by done.
  destruct Hv as (Hm & Hd & Hh & Hmi & Hs), Hv' as (Hm' & Hd' & Hh' & Hmi' & Hs').
  cbn [c_year c_month c_day c_hour c_minute c_second] in *.
  rewrite day_of_civil_compare by done.
  pose proof (days_in_month_le y m). pose proof (days_in_month_le y' m').
  rewrite !format_year_dig by done. rewrite <-!str_app_assoc.
  assert (∀ w a b u v, 0 ≤ a < 10 ^ Z.of_nat w → 0 ≤ b < 10 ^ Z.of_nat w →
    String.compare (dig w a +:+ u) (dig w b +:+ v)
    = match Z.compare a b with Eq => String.compare u v | c => c end) as Hdig.
  { intros w a b u v Ha Hb. rewrite str_compare_app by (by rewrite !length_dig).
    by rewrite dig_compare. }
  assert (∀ z, 0 ≤ z < 100 → 0 ≤ z < 10 ^ Z.of_nat 2) as H100 by (intros z Hz; exact Hz).
  rewrite (Hdig 4%nat) by done.
  rewrite (Hdig 2%nat m) by (apply H100; lia). rewrite (Hdig 2%nat d) by (apply H100; lia).
  rewrite str_compare_app_l.
  rewrite (Hdig 2%nat hh) by (apply H100; lia). rewrite (Hdig 2%nat mi) by (apply H100; lia).
  rewrite (Hdig 2%nat ss) by (apply H100; lia). rewrite str_compare_app_l.
  by repeat destruct (Z.compare _ _).
Qed.

(** ** [time.Time]'s JSON form is read back to the nanosecond *)

Fixpoint zeros (k : nat) : string := match k with O => "" | S k => String "0" (zeros k) end.

Lemma zeros_add j k : zeros (j + k) = zeros j +:+ zeros k.
Proof. induction j as [|j IH]; [done|]. simpl. rewrite IH. done. Qed.

Lemma TrimRightByte_zeros s : ∃ k, s = TrimRightByte "0" s +:+ zeros k.
Proof.
  induction s as [|a s [k IH]]; [by exists 0%nat|]. simpl.
  destruct (TrimRightByte "0" s) as [|b r] eqn:Hr.
  - change (s = zeros k) in IH. destruct (decide (a = "0"%char)) as [->|].
    + exists (S k). by rewrite IH at 1.
    + exists k. by rewrite IH at 1.
  - exists k. by rewrite IH at 1.
Qed.

Lemma digits_value_zeros k : digits_value 0 (zeros k) = Some 0.
Proof. induction k as [|k IH]; [done|]. simpl. done. Qed.

Lemma span_digits_value acc s z t :
  digits_value acc s = Some z → char_digit t = None →
  span_digits (s +:+ String t "") = (s, String t "").
Proof.
  revert acc. induction s as [|a s IH]; intros acc; simpl.
  - intros _ Ht. by rewrite Ht.
  - destruct (char_digit a) as [d|] eqn:Ha; simpl; [|done]. intros Hs Ht. by rewrite (IH _ Hs Ht).
Qed.

Lemma substring_app s t : String.substring 0 (String.length s) (s +:+ t) = s.
Proof.
  induction s as [|a s IH]; [by destruct t|]. simpl. by rewrite IH.
Qed.

Lemma take_fraction_format n :
  0 ≤ n < Second → take_fraction (format_fraction n +:+ "Z") = Some (n, "Z").
Proof.
  intros Hn. unfold format_fraction. case_decide as H0; [by subst|].
  assert (0 ≤ n < 10 ^ Z.of_nat 9) as Hn9 by exact Hn.
  pose proof (digits_value_dig_small 9 n Hn9) as Hv. pose proof (length_dig 9 n) as Hl.
  destruct (TrimRightByte_zeros (dig 9 n)) as [k Hk].
  remember (TrimRightByte "0" (dig 9 n)) as ds eqn:Hds. clear Hds.
  rewrite <-str_app_assoc. unfold take_fraction. rewrite CutPrefix_app. rewrite Hk in Hv, Hl.
  rewrite digits_value_app in Hv. destruct (digits_value 0 ds) as [z|] eqn:Hz; [|done].
  rewrite (span_digits_value _ _ _ _ Hz) by done.
  destruct ds as [|d ds].
  { simpl in Hz. simplify_eq. rewrite some_bind, digits_value_zeros in Hv. congruence. }
  assert (fraction_value (String d ds) = Some n) as ->; [|done].
  unfold fraction_value.
  assert (k ≤ 9)%nat as Hk9 by (rewrite str_length_app in Hl; clear -Hl; revert Hl;
    assert (∀ j, String.length (zeros j) = j) as -> by (intros j; induction j; simpl; auto); lia).
  replace "000000000" with (zeros k +:+ zeros (9 - k)).
  2: { rewrite <-zeros_add. by replace (k + (9 - k))%nat with 9%nat by lia. }
  rewrite str_app_assoc, <-Hl, substring_app. by rewrite digits_value_app, Hz.
Qed.

Lemma ParseRFC3339_Format t :
  four_digit_year t → ParseRFC3339 (FormatRFC3339Nano t) = Some t.
Proof.
  unfold four_digit_year, FormatRFC3339Nano, ParseRFC3339. intros Hy.
  pose proof (valid_civil_of_seconds (unix_seconds t)) as Hv.
  trans (Some (seconds_of_civil (civil_of_seconds (unix_seconds t)) * Second - 0 * Second + t mod Second)).
  2: { rewrite seconds_of_civil_of_seconds. f_equal. unfold unix_seconds, Second.
       pose proof (Z.div_mod t 1000000000). lia. }
  destruct (civil_of_seconds (unix_seconds t)) as [y m d hh mi ss]. simpl in Hy.
  pose proof Hv as (Hm & Hd & Hh & Hmi & Hs). simpl in *.
  pose proof (days_in_month_le y m).
  rewrite format_year_dig by done.
  assert (∀ z, 0 ≤ z < 100 → 0 ≤ z < 10 ^ Z.of_nat 2) as H100 by (intros z Hz; exact Hz).
  assert (0 ≤ t mod Second < Second) as Hf by (apply Z.mod_pos_bound; done).
  rewrite take_number_dig by (lia || exact Hy). rewrite some_bind, CutPrefix_app, some_bind.
  do 4 (rewrite take_number_dig by (lia || apply H100; lia); rewrite some_bind, CutPrefix_app, some_bind).
  rewrite take_number_dig by (lia || apply H100; lia). rewrite some_bind.
  rewrite take_fraction_format, some_bind by done.
  change (parse_zone "Z") with (Some 0). rewrite some_bind.
  unfold time_of_civil. by rewrite decide_True.
Qed.
