(* ===== verification/GoJson.v ===== *)
(** * Generic JSON values and Go's [encoding/json]

    [any] is what a JSON document decodes to with [UseNumber]: the
    [map[string]any] trees the plugin works on.  [doc] is a document with its
    object members in order, which is what encoding produces and decoding
    reads. *)

From S2P Require Import Prelude GoStrings.

#[local] Open Scope stdpp_scope.

Unset Elimination Schemes.

(** ** Generic values *)

(** A [nil] interface, a bool, a [json.Number], a string, a [[]any] or a
    [map[string]any]. *)
Inductive any :=
| ANil
| ABool (b : bool)
| ANum (literal : string)
| AString (s : string)
| AList (l : list any)
| AMap (m : gmap string any).

Inductive doc :=
| DNull
| DBool (b : bool)
| DNum (literal : string)
| DStr (s : string)
| DArr (l : list doc)
| DObj (l : list (string * doc)).

Set Elimination Schemes.

Abbreviation object := (gmap string any).

(** The number of nodes, for induction. *)
Fixpoint any_size (v : any) : nat :=
  match v with
  | AList l => S (sum_list_with any_size l)
  | AMap m => S (map_fold (λ _ x n, any_size x + n) 0 m)
  | _ => 1
  end.

Lemma any_size_lookup (m : object) k x : m !! k = Some x → any_size x < any_size (AMap m).
Proof.
  intros Hk. simpl. rewrite <-(insert_delete_id m k x Hk).
  rewrite map_fold_insert_L; [lia|intros; lia|apply lookup_delete_eq].
Qed.

Lemma any_size_elem l x : x ∈ l → any_size x < any_size (AList l).
Proof.
  simpl. induction l as [|y l IH]; intros Hx; [by apply elem_of_nil in Hx|].
  apply elem_of_cons in Hx as [->|Hx]; simpl; [lia|]. specialize (IH Hx). lia.
Qed.

Lemma any_ind (P : any → Prop) :
  P ANil → (∀ b, P (ABool b)) → (∀ s, P (ANum s)) → (∀ s, P (AString s)) →
  (∀ l, (∀ x, x ∈ l → P x) → P (AList l)) →
  (∀ m : object, (∀ k x, m !! k = Some x → P x) → P (AMap m)) →
  ∀ v, P v.
Proof.
  intros Hnil Hbool Hnum Hstr Hlist Hmap v.
  remember (any_size v) as n eqn:Hn. revert v Hn.
  induction n as [n IH] using lt_wf_ind. intros v ->.
  destruct v as [| | | |l|m]; [done|done|done|done| |].
  - apply Hlist. intros x Hx. eapply IH; [by apply any_size_elem|done].
  - apply Hmap. intros k x Hk. eapply IH; [by eapply any_size_lookup|done].
Qed.

#[export] Instance any_eq_dec : EqDecision any.
Proof.
  refine (fix go x y {struct x} : Decision (x = y) :=
    match x, y with
    | ANil, ANil => left _
    | ABool b, ABool b' => cast_if (decide (b = b'))
    | ANum s, ANum s' => cast_if (decide (s = s'))
    | AString s, AString s' => cast_if (decide (s = s'))
    | AList l, AList l' => cast_if (@decide (l = l') (list_eq_dec (dec:=go) l l'))
    | AMap m, AMap m' => cast_if (@decide (m = m') (@gmap_eq_dec string _ _ any go m m'))
    | _, _ => right _
    end); clear go; abstract congruence.
Defined.

Lemma doc_ind (P : doc → Prop) :
  P DNull → (∀ b, P (DBool b)) → (∀ s, P (DNum s)) → (∀ s, P (DStr s)) →
  (∀ l, Forall P l → P (DArr l)) →
  (∀ l, Forall (λ kv, P kv.2) l → P (DObj l)) →
  ∀ d, P d.
Proof.
  intros Hnull Hbool Hnum Hstr Harr Hobj. fix FIX 1. intros [| | | |l|l].
  - done.
  - apply Hbool.
  - apply Hnum.
  - apply Hstr.
  - apply Harr. induction l as [|x l IH]; constructor; [apply FIX|apply IH].
  - apply Hobj. induction l as [|[k x] l IH]; constructor; [apply FIX|apply IH].
Qed.

(** ** UTF-8 *)

Definition byte_in (lo hi : N) (a : ascii) : bool :=
  (lo <=? N_of_ascii a)%N && (N_of_ascii a <=? hi)%N.

(** The length of the well-formed rune that starts [s]; 0 when there is none
    ([utf8.DecodeRuneInString] returns [RuneError] with size 1, or the string
    is empty). *)
Definition rune_size (s : string) : nat :=
  match s with
  | EmptyString => 0
  | String a r =>
      if byte_in 0 127 a then 1
      else match r with
      | EmptyString => 0
      | String b r2 =>
          if byte_in 194 223 a then (if byte_in 128 191 b then 2 else 0)
          else match r2 with
          | EmptyString => 0
          | String c r3 =>
              if byte_in 224 239 a then
                let lo := if byte_in 224 224 a then 160%N else 128%N in
                let hi := if byte_in 237 237 a then 159%N else 191%N in
                if byte_in lo hi b && byte_in 128 191 c then 3 else 0
              else match r3 with
              | EmptyString => 0
              | String d _ =>
                  let lo := if byte_in 240 240 a then 144%N else 128%N in
                  let hi := if byte_in 244 244 a then 143%N else 191%N in
                  if byte_in 240 244 a && byte_in lo hi b && byte_in 128 191 c && byte_in 128 191 d
                  then 4 else 0
              end
          end
      end
  end.

Definition byte (n : N) : ascii := ascii_of_N n.

(** U+FFFD, what a malformed byte is read and written as. *)
Definition replacement : string := String (byte 239) (String (byte 191) (String (byte 189) "")).

(** ** Encoding strings: [appendString] with HTML escaping *)

Definition hex_char (n : N) : ascii := if (n <? 10)%N then byte (48 + n) else byte (87 + n).

Definition quote_ascii (a : ascii) : string :=
  let n := N_of_ascii a in
  if (n =? 34)%N then String "\" (String (byte 34) "")
  else if (n =? 92)%N then "\\"
  else if (n =? 8)%N then "\b"
  else if (n =? 12)%N then "\f"
  else if (n =? 10)%N then "\n"
  else if (n =? 13)%N then "\r"
  else if (n =? 9)%N then "\t"
  else if (n <? 32)%N || (n =? 60)%N || (n =? 62)%N || (n =? 38)%N
  then "\u00" +:+ String (hex_char (n / 16)) (String (hex_char (n mod 16)) "")
  else String a "".

(** U+2028 and U+2029 are escaped too. *)
Definition quote_rune3 (a b c : ascii) : string :=
  if (N_of_ascii a =? 226)%N && (N_of_ascii b =? 128)%N && byte_in 168 169 c
  then "\u202" +:+ String (hex_char (N_of_ascii c - 160)) ""
  else String a (String b (String c "")).

Fixpoint quote_body (s : string) : string :=
  match s with
  | EmptyString => ""
  | String a r =>
      match rune_size s, r with
      | 1, _ => quote_ascii a +:+ quote_body r
      | 2, String b r2 => String a (String b (quote_body r2))
      | 3, String b (String c r3) => quote_rune3 a b c +:+ quote_body r3
      | 4, String b (String c (String d r4)) =>
          String a (String b (String c (String d (quote_body r4))))
      | _, _ => "\ufffd" +:+ quote_body r
      end
  end.

Definition dquote : string := String (byte 34) "".
Definition quote (s : string) : string := dquote +:+ quote_body s +:+ dquote.

(** ** Encoding documents: [json.Marshal] and [json.MarshalIndent] *)

Fixpoint encode_doc (d : doc) : string :=
  match d with
  | DNull => "null"
  | DBool true => "true"
  | DBool false => "false"
  | DNum s => s
  | DStr s => quote s
  | DArr l => "[" +:+ Join (encode_doc <$> l) "," +:+ "]"
  | DObj l => "{" +:+ Join ((λ '(k, v), quote k +:+ ":" +:+ encode_doc v) <$> l) "," +:+ "}"
  end.

Definition newline : string := String (byte 10) "".
Fixpoint spaces (n : nat) : string := match n with O => "" | S n' => " " +:+ spaces n' end.
Definition break (depth : nat) : string := newline +:+ spaces (2 * depth).

(** Two-space indentation, as [json.MarshalIndent(v, "", "  ")]. *)
Fixpoint indent_doc (depth : nat) (d : doc) : string :=
  match d with
  | DArr [] => "[]"
  | DObj [] => "{}"
  | DArr l =>
      "[" +:+ break (S depth)
      +:+ Join (indent_doc (S depth) <$> l) ("," +:+ break (S depth)) +:+ break depth +:+ "]"
  | DObj l =>
      "{" +:+ break (S depth)
      +:+ Join ((λ '(k, v), quote k +:+ ": " +:+ indent_doc (S depth) v) <$> l)
               ("," +:+ break (S depth)) +:+ break depth +:+ "}"
  | _ => encode_doc d
  end.

(** ** Scanning *)

Definition is_space (a : ascii) : bool :=
  let n := N_of_ascii a in (n =? 32)%N || (n =? 9)%N || (n =? 13)%N || (n =? 10)%N.
Fixpoint skip_space (s : string) : string :=
  match s with String a r => if is_space a then skip_space r else s | EmptyString => "" end.

Definition is_digit (a : ascii) : bool := byte_in 48 57 a.
(** The digits that start [s], and the rest. *)
Fixpoint take_digits (s : string) : string * string :=
  match s with
  | String a r => if is_digit a then let '(ds, rest) := take_digits r in (String a ds, rest) else ("", s)
  | EmptyString => ("", "")
  end.

(** A JSON number literal and the text after it. *)
Definition scan_number (s : string) : option (string * string) :=
  let '(sign, s) := match CutPrefix s "-" with Some r => ("-", r) | None => ("", s) end in
  '(int, s) ←
    match take_digits s with
    | (String a EmptyString as ds, r) => Some (ds, r)
    | (String a _ as ds, r) => if decide (a = "0"%char) then None else Some (ds, r)
    | (EmptyString, _) => None
    end;
  '(frac, s) ←
    match CutPrefix s "." with
    | None => Some ("", s)
    | Some r => match take_digits r with
                | (EmptyString, _) => None
                | (ds, r') => Some ("." +:+ ds, r')
                end
    end;
  '(exp, s) ←
    match s with
    | String e r =>
        if decide (e = "e"%char ∨ e = "E"%char) then
          let '(sg, r) := match r with
                          | String c r' => if decide (c = "+"%char ∨ c = "-"%char)
                                           then (String c "", r') else ("", r)
                          | EmptyString => ("", r)
                          end in
          match take_digits r with
          | (EmptyString, _) => None
          | (ds, r') => Some (String e (sg +:+ ds), r')
          end
        else Some ("", s)
    | EmptyString => Some ("", s)
    end;
  Some (sign +:+ int +:+ frac +:+ exp, s).

(** [json.Number]'s validity check: the literal is a number and nothing else. *)
Definition valid_number (s : string) : bool :=
  match scan_number s with Some (_, EmptyString) => true | _ => false end.

Definition hex_value (a : ascii) : option N :=
  let n := N_of_ascii a in
  if byte_in 48 57 a then Some (n - 48)%N
  else if byte_in 97 102 a then Some (n - 87)%N
  else if byte_in 65 70 a then Some (n - 55)%N
  else None.
Definition hex4 (a b c d : ascii) : option N :=
  x ← hex_value a; y ← hex_value b; z ← hex_value c; w ← hex_value d;
  Some (((x * 16 + y) * 16 + z) * 16 + w)%N.

(** [utf8.AppendRune]. *)
Definition encode_rune (n : N) : string :=
  if (n <? 128)%N then String (byte n) ""
  else if (n <? 2048)%N then String (byte (192 + n / 64)) (String (byte (128 + n mod 64)) "")
  else if (n <? 65536)%N then
    String (byte (224 + n / 4096))
      (String (byte (128 + n / 64 mod 64)) (String (byte (128 + n mod 64)) ""))
  else String (byte (240 + n / 262144)) (String (byte (128 + n / 4096 mod 64))
         (String (byte (128 + n / 64 mod 64)) (String (byte (128 + n mod 64)) ""))).

Definition is_surrogate (n : N) : bool := (55296 <=? n)%N && (n <=? 57343)%N.

(** The text of a string literal after its opening quote, unescaped, and what
    follows the closing one. *)
Fixpoint unquote (s : string) : option (string * string) :=
  let cons pre (r : option (string * string)) := '(t, rest) ← r; Some (pre +:+ t, rest) in
  match s with
  | EmptyString => None
  | String a r =>
      let n := N_of_ascii a in
      if (n =? 34)%N then Some ("", r)
      else if (n =? 92)%N then
        match r with
        | EmptyString => None
        | String e r2 =>
            let m := N_of_ascii e in
            if (m =? 34)%N || (m =? 92)%N || (m =? 47)%N then cons (String e "") (unquote r2)
            else if (m =? 98)%N then cons (String (byte 8) "") (unquote r2)
            else if (m =? 102)%N then cons (String (byte 12) "") (unquote r2)
            else if (m =? 110)%N then cons (String (byte 10) "") (unquote r2)
            else if (m =? 114)%N then cons (String (byte 13) "") (unquote r2)
            else if (m =? 116)%N then cons (String (byte 9) "") (unquote r2)
            else if (m =? 117)%N then
              match r2 with
              | String h1 (String h2 (String h3 (String h4 r3))) =>
                  rune ← hex4 h1 h2 h3 h4;
                  if is_surrogate rune then
                    match r3 with
                    | String b1 (String b2 (String k1 (String k2 (String k3 (String k4 r4))))) =>
                        match (if decide (b1 = "\"%char ∧ b2 = "u"%char) then hex4 k1 k2 k3 k4 else None) with
                        | Some low =>
                            if (rune <? 56320)%N && (56320 <=? low)%N && (low <=? 57343)%N
                            then cons (encode_rune (65536 + (rune - 55296) * 1024 + (low - 56320)))
                                      (unquote r4)
                            else cons replacement (unquote r3)
                        | None => cons replacement (unquote r3)
                        end
                    | _ => cons replacement (unquote r3)
                    end
                  else cons (encode_rune rune) (unquote r3)
              | _ => None
              end
            else None
        end
      else if (n <? 32)%N then None
      else match rune_size s, r with
      | 1, _ => cons (String a "") (unquote r)
      | 2, String b r2 => cons (String a (String b "")) (unquote r2)
      | 3, String b (String c r3) => cons (String a (String b (String c ""))) (unquote r3)
      | 4, String b (String c (String d r4)) =>
          cons (String a (String b (String c (String d "")))) (unquote r4)
      | _, _ => cons replacement (unquote r)
      end
  end.

(** ** Parsing

    Each call consumes one unit of fuel and at least one byte, so the length of
    the text is enough.  Go's nesting limit of 10000 is not modelled. *)

Fixpoint parse_value (fuel : nat) (s : string) : option (doc * string) :=
  match fuel with
  | O => None
  | S f =>
      match skip_space s with
      | EmptyString => None
      | String a r as s' =>
          let n := N_of_ascii a in
          if (n =? 34)%N then '(t, rest) ← unquote r; Some (DStr t, rest)
          else if (n =? 91)%N then
            match CutPrefix (skip_space r) "]" with
            | Some rest => Some (DArr [], rest)
            | None => '(l, rest) ← parse_elements f r; Some (DArr l, rest)
            end
          else if (n =? 123)%N then
            match CutPrefix (skip_space r) "}" with
            | Some rest => Some (DObj [], rest)
            | None => '(l, rest) ← parse_members f r; Some (DObj l, rest)
            end
          else if (n =? 110)%N then rest ← CutPrefix s' "null"; Some (DNull, rest)
          else if (n =? 116)%N then rest ← CutPrefix s' "true"; Some (DBool true, rest)
          else if (n =? 102)%N then rest ← CutPrefix s' "false"; Some (DBool false, rest)
          else '(lit, rest) ← scan_number s'; Some (DNum lit, rest)
      end
  end
with parse_elements (fuel : nat) (s : string) : option (list doc * string) :=
  match fuel with
  | O => None
  | S f =>
      '(v, s) ← parse_value f s;
      match skip_space s with
      | String a r =>
          if (N_of_ascii a =? 44)%N then '(l, rest) ← parse_elements f r; Some (v :: l, rest)
          else if (N_of_ascii a =? 93)%N then Some ([v], r)
          else None
      | EmptyString => None
      end
  end
with parse_members (fuel : nat) (s : string) : option (list (string * doc) * string) :=
  match fuel with
  | O => None
  | S f =>
      s ← CutPrefix (skip_space s) dquote;
      '(k, s) ← unquote s;
      s ← CutPrefix (skip_space s) ":";
      '(v, s) ← parse_value f s;
      match skip_space s with
      | String a r =>
          if (N_of_ascii a =? 44)%N then '(l, rest) ← parse_members f r; Some ((k, v) :: l, rest)
          else if (N_of_ascii a =? 125)%N then Some ([(k, v)], r)
          else None
      | EmptyString => None
      end
  end.

(** [json.Decoder.Decode]: the first value of the input; what follows it is
    left in the buffer. *)
Definition decode_doc (raw : string) : result doc :=
  match parse_value (2 * String.length raw + 2) raw with
  | Some (d, _) => Ok d
  | None => Err (External OtherKind "encoding/json: syntax error")
  end.

(** [json.Unmarshal]: the input is one value and white space. *)
Definition unmarshal_doc (raw : string) : result doc :=
  match parse_value (2 * String.length raw + 2) raw with
  | Some (d, rest) =>
      if decide (skip_space rest = "") then Ok d
      else Err (External OtherKind "encoding/json: syntax error")
  | None => Err (External OtherKind "encoding/json: syntax error")
  end.

(** ** Between documents and generic values *)

(** A later member replaces an earlier one of the same name. *)
Fixpoint any_of_doc (d : doc) : any :=
  match d with
  | DNull => ANil
  | DBool b => ABool b
  | DNum s => ANum s
  | DStr s => AString s
  | DArr l => AList (any_of_doc <$> l)
  | DObj l => AMap (foldl (λ m '(k, v), <[k := any_of_doc v]> m) ∅ l)
  end.

(** Maps are encoded in the order of their keys. *)
Definition key_le {A} (x y : string * A) : Prop := String.le x.1 y.1.
#[export] Instance key_le_dec {A} : RelDecision (@key_le A).
Proof. intros x y. unfold key_le. apply _. Defined.

Fixpoint doc_of_any (v : any) : doc :=
  match v with
  | ANil => DNull
  | ABool b => DBool b
  | ANum s => DNum s
  | AString s => DStr s
  | AList l => DArr (doc_of_any <$> l)
  | AMap m => DObj (merge_sort key_le (map_fold (λ k x l, (k, doc_of_any x) :: l) [] m))
  end.

Definition doc_of_object (m : object) : doc := doc_of_any (AMap m).
Definition doc_of_strings (m : gmap string string) : doc :=
  DObj (merge_sort key_le (map_fold (λ k x l, (k, DStr x) :: l) [] m)).

(** Every number literal is one: what [json.Marshal] checks. *)
Fixpoint numbers_valid (d : doc) : bool :=
  match d with
  | DNum s => valid_number s
  | DArr l => forallb numbers_valid l
  | DObj l => forallb (λ kv, numbers_valid kv.2) l
  | _ => true
  end.

Definition Marshal (d : doc) : result string :=
  if numbers_valid d then Ok (encode_doc d)
  else Err (External OtherKind "json: invalid number literal").
Definition MarshalIndent (d : doc) : result string :=
  if numbers_valid d then Ok (indent_doc 0 d)
  else Err (External OtherKind "json: invalid number literal").

#[global] Arguments quote : simpl never.
#[global] Arguments encode_doc : simpl never.
#[global] Arguments parse_value : simpl never.
