(* ===== verification/Sha256.v ===== *)
(** * crypto/sha256 and encoding/hex

    SHA-256 on byte strings, executable; [digest] in
    internal/snapshot/canonical.go uses it. *)

From S2P Require Import Prelude GoStrings.

#[local] Open Scope N_scope.

Definition mask32 : N := 4294967295.
Definition add32 (x y : N) : N := N.land (x + y) mask32.
Definition rotr (x n : N) : N :=
  N.lor (N.shiftr x n) (N.land (N.shiftl x (32 - n)) mask32).
Definition not32 (x : N) : N := N.lxor x mask32.

Definition round_constants : list N :=
  [1116352408; 1899447441; 3049323471; 3921009573; 961987163; 1508970993; 2453635748; 2870763221;
   3624381080; 310598401; 607225278; 1426881987; 1925078388; 2162078206; 2614888103; 3248222580;
   3835390401; 4022224774; 264347078; 604807628; 770255983; 1249150122; 1555081692; 1996064986;
   2554220882; 2821834349; 2952996808; 3210313671; 3336571891; 3584528711; 113926993; 338241895;
   666307205; 773529912; 1294757372; 1396182291; 1695183700; 1986661051; 2177026350; 2456956037;
   2730485921; 2820302411; 3259730800; 3345764771; 3516065817; 3600352804; 4094571909; 275423344;
   430227734; 506948616; 659060556; 883997877; 958139571; 1322822218; 1537002063; 1747873779;
   1955562222; 2024104815; 2227730452; 2361852424; 2428436474; 2756734187; 3204031479; 3329325298].

Definition initial_state : list N :=
  [1779033703; 3144134277; 1013904242; 2773480762; 1359893119; 2600822924; 528734635; 1541459225].

Fixpoint bytes_of (s : string) : list N :=
  match s with EmptyString => [] | String a s' => N_of_ascii a :: bytes_of s' end.

(** [n] as [k] big-endian bytes. *)
Fixpoint be_bytes (k : nat) (n : N) : list N :=
  match k with O => [] | S k' => be_bytes k' (N.shiftr n 8) ++ [N.land n 255] end.

Definition pad (m : list N) : list N :=
  let l := length m in
  let zeros := ((119 - l mod 64) mod 64)%nat in
  m ++ [128] ++ replicate zeros 0 ++ be_bytes 8 (N.of_nat l * 8).

Fixpoint be_words (m : list N) : list N :=
  match m with
  | a :: b :: c :: d :: m' => (((a * 256 + b) * 256 + c) * 256 + d) :: be_words m'
  | _ => []
  end.

Definition small_sigma0 x := N.lxor (N.lxor (rotr x 7) (rotr x 18)) (N.shiftr x 3).
Definition small_sigma1 x := N.lxor (N.lxor (rotr x 17) (rotr x 19)) (N.shiftr x 10).
Definition big_sigma0 x := N.lxor (N.lxor (rotr x 2) (rotr x 13)) (rotr x 22).
Definition big_sigma1 x := N.lxor (N.lxor (rotr x 6) (rotr x 11)) (rotr x 25).

(** The message schedule, newest word first. *)
Fixpoint schedule (n : nat) (rev_w : list N) : list N :=
  match n with
  | O => rev_w
  | S n' =>
      let w i := nth i rev_w 0 in
      schedule n' (add32 (add32 (small_sigma1 (w 1%nat)) (w 6%nat))
                         (add32 (small_sigma0 (w 14%nat)) (w 15%nat)) :: rev_w)
  end.

Definition round (st : list N) (kw : N * N) : list N :=
  match st with
  | [a; b; c; d; e; f; g; h] =>
      let ch := N.lxor (N.land e f) (N.land (not32 e) g) in
      let maj := N.lxor (N.lxor (N.land a b) (N.land a c)) (N.land b c) in
      let t1 := add32 (add32 (add32 h (big_sigma1 e)) ch) (add32 kw.1 kw.2) in
      let t2 := add32 (big_sigma0 a) maj in
      [add32 t1 t2; a; b; c; add32 d t1; e; f; g]
  | _ => st
  end.

Definition compress (st block : list N) : list N :=
  let w := rev (schedule 48 (rev block)) in
  zip_with add32 st (foldl round st (zip round_constants w)).

Fixpoint blocks (fuel : nat) (st words : list N) : list N :=
  match fuel, words with
  | S f, _ :: _ => blocks f (compress st (take 16 words)) (drop 16 words)
  | _, _ => st
  end.

Definition sha256_words (s : string) : list N :=
  let words := be_words (pad (bytes_of s)) in
  blocks (length words) initial_state words.

Definition hex_digit (n : N) : ascii := ascii_of_N (if n <? 10 then 48 + n else 87 + n).

(** [hex.EncodeToString] of a 32-bit word. *)
Fixpoint hex_word (k : nat) (n : N) : string :=
  match k with
  | O => ""
  | S k' => hex_word k' (N.shiftr n 4) +:+ String (hex_digit (N.land n 15)) ""
  end.

Definition sha256_hex (s : string) : string :=
  Join (hex_word 8 <$> sha256_words s) "".

#[global] Arguments sha256_hex : simpl never.

Example sha256_abc :
  sha256_hex "abc" = "ba7816bf8f01cfea414140de5dae2223b00361a396177a9cb410ff61f20015ad".
Proof. vm_compute. reflexivity. Qed.

(** The digest text is 64 characters whatever the input. *)
Lemma length_hex_word k n : String.length (hex_word k n) = k.
Proof.
  revert n. induction k as [|k IH]; intros n; [done|].
  change (hex_word (S k) n)
    with (hex_word k (N.shiftr n 4) +:+ String (hex_digit (N.land n 15)) "").
  rewrite str_length_app, IH. simpl. lia.
Qed.

(** ** The digest text is 64 lower-case hexadecimal characters *)

Definition hex_byte (a : ascii) : bool :=
  let n := N_of_ascii a in ((48 <=? n) && (n <=? 57)) || ((97 <=? n) && (n <=? 102)).
Fixpoint all_hex (s : string) : bool :=
  match s with EmptyString => true | String a s' => hex_byte a && all_hex s' end.

Lemma all_hex_app s t : all_hex (s +:+ t) = all_hex s && all_hex t.
Proof.
  induction s as [|a s IH]; [done|]. rewrite str_app_cons. cbn [all_hex].
  by rewrite IH, andb_assoc.
Qed.

Lemma hex_digit_hex n : (n < 16)%N → hex_byte (hex_digit n) = true.
Proof.
  intros Hn. assert (Forall (λ k, hex_byte (hex_digit (N.of_nat k)) = true) (seq 0 16)) as HF
    by (repeat constructor).
  rewrite Forall_forall in HF. specialize (HF (N.to_nat n)). rewrite N2Nat.id in HF.
  apply HF, elem_of_seq. lia.
Qed.

Lemma hex_word_hex k n : all_hex (hex_word k n) = true.
Proof.
  revert n. induction k as [|k IH]; intros n; [done|].
  change (hex_word (S k) n)
    with (hex_word k (N.shiftr n 4) +:+ String (hex_digit (N.land n 15)) "").
  rewrite all_hex_app, IH. cbn [all_hex]. rewrite hex_digit_hex; [done|].
  change 15 with (N.ones 4). rewrite N.land_ones. by apply N.mod_upper_bound.
Qed.

Lemma length_round st kw : length st = 8%nat → length (round st kw) = 8%nat.
Proof. by destruct st as [|? [|? [|? [|? [|? [|? [|? [|? [|]]]]]]]]]. Qed.

Lemma length_compress st block : length st = 8%nat → length (compress st block) = 8%nat.
Proof.
  intros Hst. unfold compress. cbv zeta. generalize (zip round_constants (rev (schedule 48 (rev block)))).
  intros l. rewrite length_zip_with.
  assert (length (foldl round st l) = 8%nat) as ->; [|lia].
  revert st Hst. induction l as [|kw l IH]; intros st Hst; [done|]. simpl.
  by apply IH, length_round.
Qed.

Lemma length_blocks fuel st words : length st = 8%nat → length (blocks fuel st words) = 8%nat.
Proof.
  revert st words. induction fuel as [|f IH]; intros st words Hst; [done|].
  cbn [blocks]. destruct words; [done|]. by apply IH, length_compress.
Qed.

Lemma sha256_hex_spec s : String.length (sha256_hex s) = 64%nat ∧ all_hex (sha256_hex s) = true.
Proof.
  unfold sha256_hex.
  assert (length (sha256_words s) = 8%nat) as Hl by (by apply length_blocks).
  generalize dependent (sha256_words s). intros l Hl.
  assert (∀ l, String.length (Join (hex_word 8 <$> l) "") = (8 * length l)%nat
               ∧ all_hex (Join (hex_word 8 <$> l) "") = true) as Hj.
  { clear. induction l as [|w l [IHl IHh]]; [done|]. rewrite fmap_cons.
    destruct l as [|w' l].
    - change (Join (hex_word 8 w :: (hex_word 8 <$> [])) "") with (hex_word 8 w).
      rewrite length_hex_word, hex_word_hex. split; [simpl; lia|done].
    - rewrite Join_cons, str_app_nil_l, str_length_app, all_hex_app, IHl, IHh, length_hex_word,
        hex_word_hex by done. split; [simpl; lia|done]. }
  destruct (Hj l) as [-> ->]. by rewrite Hl.
Qed.
