(* ===== verification/Pathutil.v ===== *)
(** * internal/pathutil/path.go: dotted-path access to generic JSON

    A Go [map[string]any] is an [object].  [SetSegments] and [Delete] mutate
    their argument in Go; here they return the new object. *)

From S2P Require Import Prelude GoStrings GoJson.

#[local] Open Scope stdpp_scope.

(** ** Operations *)

Definition Split (path : string) : list string :=
  if decide (path = "") then [] else SplitByte "." path.

(** The loop of [GetSegments]. *)
Fixpoint get_any (current : any) (segments : list string) : option any :=
  match segments with
  | [] => Some current
  | segment :: rest =>
      match current with
      | AMap asMap => x ← asMap !! segment; get_any x rest
      | _ => None
      end
  end.

Definition GetSegments (obj : object) (segments : list string) : option any :=
  match segments with [] => None | _ => get_any (AMap obj) segments end.

Definition Get (obj : object) (path : string) : option any := GetSegments obj (Split path).

(** [None] is the Go [false].  A blocked path is found before anything is
    written: once an intermediate map has been created nothing below it can
    block. *)
Fixpoint SetSegments (obj : object) (segments : list string) (value : any) : option object :=
  match segments with
  | [] => None
  | [segment] => Some (<[segment := value]> obj)
  | segment :: rest =>
      match obj !! segment with
      | None | Some ANil => m ← SetSegments ∅ rest value; Some (<[segment := AMap m]> obj)
      | Some (AMap asMap) => m ← SetSegments asMap rest value; Some (<[segment := AMap m]> obj)
      | Some _ => None
      end
  end.

Definition Set_ (obj : object) (path : string) (value : any) : option object :=
  SetSegments obj (Split path) value.

Fixpoint deleteSegments (current : object) (segments : list string) : object :=
  match segments with
  | [] => current
  | [segment] => delete segment current
  | segment :: rest =>
      match current !! segment with
      | Some (AMap next) =>
          let next' := deleteSegments next rest in
          if decide (next' = ∅) then delete segment current
          else <[segment := AMap next']> current
      | _ => current
      end
  end.

(** [Delete] guards the empty path. *)
Definition Delete (obj : object) (path : string) : object := deleteSegments obj (Split path).

Record Leaf := MkLeaf { Segments : list string; Value : any }.

#[export] Instance Leaf_eq_dec : EqDecision Leaf.
Proof. solve_decision. Defined.

Definition Leaf_Path (l : Leaf) : string := Join (Segments l) ".".

(** [walkLeaves].  Go iterates a map in an arbitrary order; this is one such
    order, and what depends on it is stated for every permutation of it. *)
Fixpoint walkLeaves (current : any) (prefix : list string) : list Leaf :=
  match current with
  | AMap m =>
      map_fold (λ key value out,
        let segments := prefix ++ [key] in
        match value with
        | AMap nested => if decide (nested = ∅) then [MkLeaf segments value]
                         else walkLeaves value segments
        | _ => [MkLeaf segments value]
        end ++ out) [] m
  | _ => []
  end.

Definition WalkLeaves (obj : object) : list Leaf := walkLeaves (AMap obj) [].

(** [FromJSON]: [null] decodes to a nil map, which reads as an empty one.  (Writing to
    it would panic; a document that is [null] declares no plugin, and the callers
    leave it before they write.) *)
Definition FromJSON (raw : string) : result object :=
  d ← decode_doc raw;
  match any_of_doc d with
  | AMap m => Ok m
  | ANil => Ok ∅
  | _ => Err (External OtherKind "json: cannot unmarshal into map[string]interface {}")
  end.

(** [ToMap], given what [json.Marshal] makes of the object. *)
Definition ToMap (marshalled : result string) : result object := raw ← marshalled; FromJSON raw.

(** Write a list of values one after the other, stopping when a path is
    blocked. *)
Fixpoint set_all (obj : object) (l : list (list string * any)) : option object :=
  match l with
  | [] => Some obj
  | (segments, value) :: l' => m ← SetSegments obj segments value; set_all m l'
  end.

(** ** Paths that do not lie on one another *)

Definition unrelated (p q : list string) : Prop := ¬ p `prefix_of` q ∧ ¬ q `prefix_of` p.

#[export] Instance unrelated_sym : Symmetric unrelated.
Proof. unfold unrelated. intros p q [? ?]. done. Qed.

Lemma unrelated_cons s p t q :
  unrelated (s :: p) (t :: q) ↔ s ≠ t ∨ unrelated p q.
Proof.
  unfold unrelated. split.
  - intros [H1 H2]. destruct (decide (s = t)) as [->|]; [right|by left].
    split; intros H; [apply H1|apply H2]; by apply prefix_cons.
  - intros [Hne|[H1 H2]]; split; intros H.
    + by apply prefix_cons_inv_1 in H.
    + apply prefix_cons_inv_1 in H. congruence.
    + by apply prefix_cons_inv_2 in H.
    + by apply prefix_cons_inv_2 in H.
Qed.

Lemma unrelated_nil_l q : ¬ unrelated [] q.
Proof. intros [H _]. apply H, prefix_nil. Qed.
Lemma unrelated_nil_r p : ¬ unrelated p [].
Proof. intros [_ H]. apply H, prefix_nil. Qed.

(** A value [WalkLeaves] reports: anything but a non-empty map. *)
Definition terminal (v : any) : bool :=
  match v with AMap m => bool_decide (m = ∅) | _ => true end.

(** ** Reading what was written *)

Lemma get_any_app v p q : get_any v (p ++ q) = x ← get_any v p; get_any x q.
Proof.
  revert v. induction p as [|s p IH]; intros v; [done|]. simpl.
  destruct v as [| | | | |m]; try done. destruct (m !! s); simpl; [apply IH|done].
Qed.

Lemma GetSegments_cons m s p : GetSegments m (s :: p) = x ← m !! s; get_any x p.
Proof. done. Qed.

Lemma GetSegments_get_any m p : p ≠ [] → GetSegments m p = get_any (AMap m) p.
Proof. by destruct p. Qed.

(** The map [SetSegments] continues in below one segment. *)
Definition submap (o : option any) : option object :=
  match o with
  | None | Some ANil => Some ∅
  | Some (AMap m) => Some m
  | Some _ => None
  end.

Lemma SetSegments_cons m s p v :
  p ≠ [] →
  SetSegments m (s :: p) v =
    sub ← submap (m !! s); m' ← SetSegments sub p v; Some (<[s := AMap m']> m).
Proof.
  intros Hp. destruct p as [|t p]; [done|].
  change (SetSegments m (s :: t :: p) v) with
    (match m !! s with
      | None | Some ANil => m' ← SetSegments ∅ (t :: p) v; Some (<[s := AMap m']> m)
      | Some (AMap asMap) => m' ← SetSegments asMap (t :: p) v; Some (<[s := AMap m']> m)
      | Some _ => None
      end).
  by destruct (m !! s) as [[]|].
Qed.

#[global] Arguments SetSegments : simpl never.

(** Induction over the segments of a write. *)
Lemma SetSegments_Some_cons m s p v m' :
  SetSegments m (s :: p) v = Some m' →
  (p = [] ∧ m' = <[s := v]> m) ∨
  (p ≠ [] ∧ ∃ sub sub', submap (m !! s) = Some sub ∧ SetSegments sub p v = Some sub'
     ∧ m' = <[s := AMap sub']> m).
Proof.
  destruct (decide (p = [])) as [->|Hp].
  { intros [= <-]. by left. }
  rewrite SetSegments_cons by done. intros H. right. split; [done|].
  apply bind_Some in H as (sub & Hsub & H). apply bind_Some in H as (sub' & Hs & [= <-]).
  eauto.
Qed.

Lemma SetSegments_nonempty m p v m' : SetSegments m p v = Some m' → p ≠ [] ∧ m' ≠ ∅.
Proof.
  destruct p as [|s p]; [done|]. intros H. split; [done|].
  apply SetSegments_Some_cons in H as [[_ ->]|(_ & ? & ? & _ & _ & ->)]; apply insert_non_empty.
Qed.

(** The value written at a path is the value read at it. *)
Lemma get_set_same m p v m' : SetSegments m p v = Some m' → GetSegments m' p = Some v.
Proof.
  revert m m'. induction p as [|s p IH]; intros m m' H; [done|].
  rewrite GetSegments_cons.
  apply SetSegments_Some_cons in H as [[-> ->]|(Hp & sub & sub' & _ & Hs & ->)];
    rewrite lookup_insert_eq; simpl; [done|].
  apply IH in Hs. by rewrite GetSegments_get_any in Hs.
Qed.

(** ... everything beneath it comes from the value ... *)
Lemma get_set_beneath m p v m' q :
  SetSegments m p v = Some m' → GetSegments m' (p ++ q) = get_any v q.
Proof.
  intros H. pose proof (SetSegments_nonempty _ _ _ _ H) as [Hp _].
  apply get_set_same in H. rewrite GetSegments_get_any in * by (by destruct p).
  by rewrite get_any_app, H.
Qed.

Lemma get_any_submap (m : object) s sub q :
  submap (m !! s) = Some sub → q ≠ [] →
  (x ← m !! s; get_any x q) = get_any (AMap sub) q.
Proof.
  intros H Hq. destruct q as [|t q]; [done|].
  destruct (m !! s) as [[]|]; simplify_eq/=; by rewrite ?lookup_empty.
Qed.

(** ... and every unrelated path reads as before. *)
Lemma get_set_frame m p v m' q :
  SetSegments m p v = Some m' → unrelated p q → GetSegments m' q = GetSegments m q.
Proof.
  revert m m' q. induction p as [|s p IH]; intros m m' q H Hu; [done|].
  destruct q as [|t q]; [done|]. rewrite !GetSegments_cons.
  apply unrelated_cons in Hu.
  apply SetSegments_Some_cons in H as [[-> ->]|(Hp & sub & sub' & Hsub & Hs & ->)].
  - destruct Hu as [Hne|Hu]; [by rewrite lookup_insert_ne|by apply unrelated_nil_l in Hu].
  - destruct (decide (s = t)) as [<-|Hne]; [|by rewrite lookup_insert_ne].
    destruct Hu as [?|Hu]; [done|].
    assert (q ≠ []) as Hq by (intros ->; by apply unrelated_nil_r in Hu).
    rewrite lookup_insert_eq. rewrite (get_any_submap m s sub) by done.
    pose proof (IH _ _ _ Hs Hu) as Hg. by rewrite !GetSegments_get_any in Hg.
Qed.

(** A write fails exactly when a value other than a map or null lies on the
    way to the last segment. *)
Lemma set_blocked m p v :
  p ≠ [] →
  SetSegments m p v = None ↔
    ∃ q t r x, p = q ++ t :: r ∧ q ≠ [] ∧ GetSegments m q = Some x
      ∧ x ≠ ANil ∧ (∀ sub, x ≠ AMap sub).
Proof.
  revert m. induction p as [|s p IH]; intros m Hp0; [done|]. clear Hp0. split.
  - destruct (decide (p = [])) as [->|Hp]; [intros [=]|].
    rewrite SetSegments_cons by done.
    destruct (submap (m !! s)) as [sub|] eqn:Hsub; simpl.
    + destruct (SetSegments sub p v) as [sub'|] eqn:Hs; [done|]. intros _.
      apply IH in Hs as (q & t & r & x & -> & Hq & Hx & Hnil & Hmap); [|done].
      exists (s :: q), t, r, x. split_and!; [done..| |done|done].
      rewrite GetSegments_cons, (get_any_submap m s sub) by done.
      by rewrite <-GetSegments_get_any.
    + intros _. destruct p as [|t p]; [done|].
      destruct (m !! s) as [x|] eqn:Hx; [|done].
      exists [s], t, p, x. rewrite GetSegments_cons, Hx. split_and!; [done..| |].
      * by intros ->.
      * by intros sub ->.
  - intros (q & t & r & x & Heq & Hq & Hx & Hnil & Hmap).
    destruct q as [|s' q]; [done|]. injection Heq as <- ->.
    rewrite GetSegments_cons in Hx.
    rewrite SetSegments_cons by (by destruct q).
    destruct (decide (q = [])) as [->|Hq'].
    + simpl in Hx. destruct (m !! s) as [y|]; simplify_eq/=.
      destruct x; naive_solver.
    + destruct (submap (m !! s)) as [sub|] eqn:Hsub; [|done]. simpl.
      rewrite (get_any_submap m s sub) in Hx by done.
      assert (SetSegments sub (q ++ t :: r) v = None) as ->; [|done].
      apply IH; [by destruct q|]. exists q, t, r, x. split_and!; try done.
      by rewrite GetSegments_get_any.
Qed.

(** ** Leaves *)

Lemma map_fold_app_bind {A B} (f : string → A → list B) (m : gmap string A) :
  map_fold (λ k x out, f k x ++ out) [] m = map_to_list m ≫= (λ '(k, x), f k x).
Proof.
  rewrite map_fold_foldr. induction (map_to_list m) as [|[k x] l IH]; simpl; [done|].
  by rewrite IH.
Qed.

Lemma elem_of_map_fold_app {A B} (f : string → A → list B) (m : gmap string A) y :
  y ∈ map_fold (λ k x out, f k x ++ out) [] m ↔ ∃ k x, m !! k = Some x ∧ y ∈ f k x.
Proof.
  rewrite map_fold_app_bind, list_elem_of_bind. split.
  - intros ([k x] & Hy & Hkx%elem_of_map_to_list). eauto.
  - intros (k & x & Hk%elem_of_map_to_list & Hy). by exists (k, x).
Qed.

Lemma elem_of_walkLeaves x pre p v :
  MkLeaf p v ∈ walkLeaves x pre ↔
    ∃ q, p = pre ++ q ∧ q ≠ [] ∧ get_any x q = Some v ∧ terminal v = true.
Proof.
  revert pre. induction x as [| | | | |m IH] using any_ind; intros pre;
    try solve [simpl; rewrite elem_of_nil; split; [done|];
               intros ([|? q] & _ & Hq & Hz & _); [done|simpl in Hz; done]].
  simpl walkLeaves. rewrite elem_of_map_fold_app. split.
  - intros (k & y & Hk & Hy). specialize (IH k y Hk (pre ++ [k])).
    assert (terminal y = true ∧ MkLeaf p v = MkLeaf (pre ++ [k]) y
      ∨ MkLeaf p v ∈ walkLeaves y (pre ++ [k])) as [[Ht [= -> ->]]|Hw].
    { destruct y as [| | | | |m']; try (apply list_elem_of_singleton in Hy; by left).
      case_decide; [|by right]. apply list_elem_of_singleton in Hy. left.
      split; [|done]. simpl. by rewrite bool_decide_true. }
    + exists [k]. rewrite <-?app_assoc. simpl. by rewrite Hk.
    + apply IH in Hw as (q & -> & Hq & Hg & Ht). exists (k :: q).
      rewrite <-app_assoc. simpl. by rewrite Hk.
  - intros ([|k q] & -> & Hq & Hg & Ht); [done|]. simpl in Hg.
    destruct (m !! k) as [y|] eqn:Hk; [|done]. simpl in Hg.
    exists k, y. split; [done|].
    destruct (decide (q = [])) as [->|Hq'].
    + simpl in Hg. simplify_eq. destruct v as [| | | | |m']; try by left.
      simpl in Ht. apply bool_decide_eq_true in Ht. rewrite decide_True by done. by left.
    + assert (MkLeaf (pre ++ k :: q) v ∈ walkLeaves y (pre ++ [k])) as Hw.
      { apply (IH k y Hk). exists q. by rewrite <-app_assoc. }
      destruct y as [| | | | |m']; try (by apply elem_of_nil in Hw).
      case_decide as Hm'; [|done]. subst m'. destruct q as [|t q]; [done|].
      simpl in Hg. by rewrite lookup_empty in Hg.
Qed.

(** The leaves are exactly the terminal values, each at the path it is read
    at. *)
Lemma elem_of_WalkLeaves m p v :
  MkLeaf p v ∈ WalkLeaves m ↔ GetSegments m p = Some v ∧ terminal v = true.
Proof.
  unfold WalkLeaves. rewrite elem_of_walkLeaves. simpl. split.
  - intros (q & -> & Hq & Hg). by rewrite GetSegments_get_any.
  - intros [Hg Ht]. destruct p as [|s p]; [done|]. by exists (s :: p).
Qed.

Lemma terminal_get_any v p x : terminal v = true → p ≠ [] → get_any v p = Some x → False.
Proof.
  intros Ht Hp Hg. destruct p as [|s p]; [done|]. destruct v as [| | | | |m]; try done.
  simpl in Ht. apply bool_decide_eq_true in Ht. subst m. simpl in Hg. by rewrite lookup_empty in Hg.
Qed.

(** No leaf lies beneath another. *)
Lemma WalkLeaves_unrelated m p v q w :
  MkLeaf p v ∈ WalkLeaves m → MkLeaf q w ∈ WalkLeaves m → p ≠ q → unrelated p q.
Proof.
  rewrite !elem_of_WalkLeaves. intros [Hp Htp] [Hq Htq] Hne.
  assert (∀ p q v w, GetSegments m p = Some v → terminal v = true →
    GetSegments m q = Some w → p ≠ q → ¬ p `prefix_of` q) as Haux.
  { clear. intros p q v w Hp Ht Hq Hne [r ->].
    destruct (decide (r = [])) as [->|Hr]; [by rewrite app_nil_r in Hne|].
    destruct p as [|s p]; [done|].
    rewrite GetSegments_get_any in Hp, Hq by done. rewrite get_any_app, Hp in Hq. simpl in Hq.
    by eapply terminal_get_any. }
  split; [by eapply Haux|]. eapply Haux; [done..|congruence].
Qed.

Lemma NoDup_walkLeaves x pre : NoDup (walkLeaves x pre).
Proof.
  revert pre. induction x as [| | | | |m IH] using any_ind; intros pre; try apply NoDup_nil_2.
  simpl. rewrite map_fold_app_bind.
  assert (∀ k y, m !! k = Some y → ∀ p v,
    MkLeaf p v ∈ (match y with
      | AMap nested => if decide (nested = ∅) then [MkLeaf (pre ++ [k]) y] else walkLeaves y (pre ++ [k])
      | _ => [MkLeaf (pre ++ [k]) y] end) → (pre ++ [k]) `prefix_of` p) as Hpre.
  { intros k y _ p v Hl.
    assert (MkLeaf p v = MkLeaf (pre ++ [k]) y ∨ MkLeaf p v ∈ walkLeaves y (pre ++ [k]))
      as [[= -> _]|Hw].
    { destruct y; try (by apply list_elem_of_singleton in Hl; left).
      case_decide; [by apply list_elem_of_singleton in Hl; left|by right]. }
    - done.
    - apply elem_of_walkLeaves in Hw as (q & -> & _). by apply prefix_app_r. }
  assert (∀ l, NoDup l.*1 → (∀ kx, kx ∈ l → m !! kx.1 = Some kx.2) →
    NoDup (l ≫= λ '(k, y), match y with
      | AMap nested => if decide (nested = ∅) then [MkLeaf (pre ++ [k]) y] else walkLeaves y (pre ++ [k])
      | _ => [MkLeaf (pre ++ [k]) y] end)) as Hl.
  { induction l as [|[k y] l IHl]; intros Hnd Hin; [constructor|].
    apply NoDup_cons in Hnd as [Hk Hnd]. simpl. apply NoDup_app. split_and!.
    - destruct y as [| | | | |m']; try apply NoDup_singleton.
      case_decide; [apply NoDup_singleton|]. apply (IH k). apply (Hin (k, _)). left.
    - intros [p v] Hp Hp'.
      apply list_elem_of_bind in Hp' as ([k' y'] & Hp' & Hk').
      apply Hpre in Hp; [|apply (Hin (k, y)); left].
      apply Hpre in Hp'; [|apply (Hin (k', y')); by right].
      assert (k = k') as ->.
      { destruct Hp as [r ->], Hp' as [r' Heq]. rewrite <-!app_assoc in Heq.
        by apply app_inv_head in Heq; simplify_eq/=. }
      apply Hk. apply list_elem_of_fmap. by exists (k', y').
    - apply IHl; [done|]. intros kx Hkx. apply Hin. by right. }
  apply Hl; [apply NoDup_fst_map_to_list|]. intros [k y]. apply elem_of_map_to_list.
Qed.

Lemma NoDup_WalkLeaves m : NoDup (WalkLeaves m).
Proof. apply NoDup_walkLeaves. Qed.

(** ** Trees are determined by their leaves *)

Lemma has_leaf v :
  v ≠ AMap ∅ → (∃ m, v = AMap m) → ∃ q x, q ≠ [] ∧ get_any v q = Some x ∧ terminal x = true.
Proof.
  induction v as [| | | |l IHl|m IH] using any_ind; intros Hne [m' Hm]; simplify_eq.
  destruct (map_choose m') as (k & y & Hk); [by intros ->|].
  destruct (decide (terminal y = true)) as [Ht|Ht].
  { exists [k], y. simpl. by rewrite Hk. }
  destruct y as [| | | | |my]; try done. simpl in Ht. apply not_true_is_false, bool_decide_eq_false in Ht.
  destruct (IH k _ Hk) as (q & x & Hq & Hg & Hx); [congruence|by eexists|].
  exists (k :: q), x. simpl. rewrite Hk. done.
Qed.

Lemma any_leaf_ext v w :
  (∃ m, v = AMap m) → (∃ m, w = AMap m) →
  (∀ q x, q ≠ [] → terminal x = true → get_any v q = Some x ↔ get_any w q = Some x) → v = w.
Proof.
  revert w. induction v as [| | | |l IHl|m IH] using any_ind; intros w Hv [mw ->] H;
    try (destruct Hv as [? Hv]; discriminate Hv).
  f_equal. apply map_eq. intros k.
  assert (∀ m1 m2 : object, (∀ q x, q ≠ [] → terminal x = true →
      get_any (AMap m1) q = Some x → get_any (AMap m2) q = Some x) →
      ∀ y, m1 !! k = Some y → terminal y = true → m2 !! k = Some y) as Hterm.
  { intros m1 m2 H12 y Hy Ht. specialize (H12 [k] y). simpl in H12. rewrite Hy in H12.
    specialize (H12 ltac:(done) Ht ltac:(done)). destruct (m2 !! k); simplify_eq/=; congruence. }
  assert (∀ m1 m2 : object, (∀ q x, q ≠ [] → terminal x = true →
      get_any (AMap m1) q = Some x → get_any (AMap m2) q = Some x) →
      ∀ y, m1 !! k = Some y → terminal y = false → ∃ z, m2 !! k = Some (AMap z)) as Hdeep.
  { intros m1 m2 H12 y Hy Ht. destruct y as [| | | | |my]; try done.
    simpl in Ht. apply bool_decide_eq_false in Ht.
    destruct (has_leaf (AMap my)) as ([|s q] & x & Hq & Hg & Hx); [congruence|by eexists|done|].
    specialize (H12 (k :: s :: q) x). simpl in H12. rewrite Hy in H12.
    specialize (H12 ltac:(done) Hx Hg). destruct (m2 !! k) as [[]|]; try done. by eexists. }
  assert (∀ q x, q ≠ [] → terminal x = true →
    get_any (AMap m) q = Some x → get_any (AMap mw) q = Some x) as H1 by naive_solver.
  assert (∀ q x, q ≠ [] → terminal x = true →
    get_any (AMap mw) q = Some x → get_any (AMap m) q = Some x) as H2 by naive_solver.
  destruct (m !! k) as [y|] eqn:Hy.
  - destruct (terminal y) eqn:Ht; [by rewrite (Hterm _ _ H1 y)|].
    destruct (Hdeep _ _ H1 y Hy Ht) as [z Hz]. rewrite Hz. f_equal.
    apply (IH k y Hy); [destruct y; try done; by eexists|by eexists|].
    intros q x Hq Hx. specialize (H (k :: q) x ltac:(done) Hx).
    simpl in H. by rewrite Hy, Hz in H.
  - destruct (mw !! k) as [z|] eqn:Hz; [|done]. destruct (terminal z) eqn:Ht.
    + by rewrite (Hterm _ _ H2 z Hz Ht) in Hy.
    + destruct (Hdeep _ _ H2 z Hz Ht) as [z' Hz']. by rewrite Hz' in Hy.
Qed.

Lemma object_leaf_ext (m1 m2 : object) :
  (∀ p x, MkLeaf p x ∈ WalkLeaves m1 ↔ MkLeaf p x ∈ WalkLeaves m2) → m1 = m2.
Proof.
  intros H. enough (AMap m1 = AMap m2) by congruence.
  apply any_leaf_ext; [by eexists..|]. intros q x Hq Hx.
  specialize (H q x). rewrite !elem_of_WalkLeaves in H.
  rewrite !GetSegments_get_any in H by done. naive_solver.
Qed.

(** ** Writing several values *)

(** The paths of a list of writes, none on another. *)
Definition disjoint_paths (l : list (list string * any)) : Prop :=
  NoDup l.*1 ∧ ∀ p q, p ∈ l.*1 → q ∈ l.*1 → p ≠ q → unrelated p q.

Lemma disjoint_paths_cons p v l :
  disjoint_paths ((p, v) :: l) → (∀ q, q ∈ l.*1 → unrelated p q) ∧ disjoint_paths l.
Proof.
  intros [Hnd Hu]. simpl in *. apply NoDup_cons in Hnd as [Hp Hnd]. split.
  - intros q Hq. apply Hu; [left|by right|]. by intros ->.
  - split; [done|]. intros q r Hq Hr. apply Hu; by right.
Qed.

Lemma disjoint_paths_perm l l' : l ≡ₚ l' → disjoint_paths l → disjoint_paths l'.
Proof.
  intros Hp [Hnd Hu]. split; [by rewrite <-Hp|]. intros p q. rewrite <-Hp. apply Hu.
Qed.

Lemma set_all_frame m l m' q :
  set_all m l = Some m' → (∀ p, p ∈ l.*1 → unrelated p q) → GetSegments m' q = GetSegments m q.
Proof.
  revert m. induction l as [|[p v] l IH]; intros m H Hu; simpl in *; [by simplify_eq|].
  apply bind_Some in H as (m1 & Hs & H).
  rewrite (IH m1 H) by (intros r Hr; apply Hu; by right).
  eapply get_set_frame; [done|]. apply Hu. left.
Qed.

Lemma set_all_get m l m' p v :
  set_all m l = Some m' → disjoint_paths l → (p, v) ∈ l → GetSegments m' p = Some v.
Proof.
  revert m. induction l as [|[q w] l IH]; intros m H Hd Hin; [by apply elem_of_nil in Hin|].
  simpl in H. apply bind_Some in H as (m1 & Hs & H).
  apply disjoint_paths_cons in Hd as [Hu Hd].
  apply elem_of_cons in Hin as [[= -> ->]|Hin]; [|by eapply IH].
  rewrite (set_all_frame m1 l m' q H).
  - by eapply get_set_same.
  - intros r Hr. symmetry. by apply Hu.
Qed.

(** What is written under the first key of a path: the value, or the nested
    object with the rest of the path set. *)
Definition step_value (m : object) (s : string) (p : list string) (v : any) : option any :=
  if decide (p = []) then Some v else sub ← submap (m !! s); AMap <$> SetSegments sub p v.

Lemma SetSegments_step (m : object) s p v :
  SetSegments m (s :: p) v = x ← step_value m s p v; Some (<[s := x]> m).
Proof.
  unfold step_value. case_decide; [by subst|]. rewrite SetSegments_cons by done.
  destruct (submap (m !! s)) as [sub|]; [|done]. simpl. by destruct (SetSegments sub p v).
Qed.

(** Two writes under one key happen in its object. *)
Lemma set_set_same (m : object) s p v q w :
  p ≠ [] → q ≠ [] →
  (m1 ← SetSegments m (s :: p) v; SetSegments m1 (s :: q) w) =
  sub ← submap (m !! s); sub' ← (m1 ← SetSegments sub p v; SetSegments m1 q w);
  Some (<[s := AMap sub']> m).
Proof.
  intros Hp Hq. rewrite !SetSegments_cons by done.
  destruct (submap (m !! s)) as [sub|]; [|done]. simpl.
  destruct (SetSegments sub p v) as [sub1|]; [|done]. simpl.
  rewrite SetSegments_cons by done. rewrite lookup_insert_eq. simpl.
  destruct (SetSegments sub1 q w); [|done]. simpl. by rewrite insert_insert_eq.
Qed.

(** Two writes under different keys do not see each other. *)
Lemma set_set_other (m : object) s p v t q w :
  s ≠ t →
  (m1 ← SetSegments m (s :: p) v; SetSegments m1 (t :: q) w) =
  x ← step_value m s p v; y ← step_value m t q w; Some (<[t := y]> (<[s := x]> m)).
Proof.
  intros Hne. rewrite SetSegments_step. destruct (step_value m s p v) as [x|]; [|done]. simpl.
  rewrite SetSegments_step. unfold step_value. by rewrite lookup_insert_ne.
Qed.

(** Writes to unrelated paths commute, failures included. *)
Lemma set_set_comm m p v q w :
  unrelated p q →
  (m1 ← SetSegments m p v; SetSegments m1 q w) = (m1 ← SetSegments m q w; SetSegments m1 p v).
Proof.
  revert m q. induction p as [|s p IH]; intros m q Hu; [by apply unrelated_nil_l in Hu|].
  destruct q as [|t q]; [by apply unrelated_nil_r in Hu|].
  apply unrelated_cons in Hu. destruct (decide (s = t)) as [<-|Hne].
  - destruct Hu as [?|Hu]; [done|].
    assert (p ≠ [] ∧ q ≠ []) as [Hp Hq].
    { split; intros ->; [by apply unrelated_nil_l in Hu|by apply unrelated_nil_r in Hu]. }
    rewrite !set_set_same by done. destruct (submap (m !! s)) as [sub|]; [|done]. simpl. by rewrite IH.
  - rewrite !set_set_other by done.
    destruct (step_value m s p v) as [x|], (step_value m t q w) as [y|]; simpl; try done.
    by rewrite insert_insert_ne.
Qed.

(** C-order: disjoint writes give the same object in whatever order they are
    made. *)
Lemma set_all_perm m l l' : l ≡ₚ l' → disjoint_paths l → set_all m l = set_all m l'.
Proof.
  intros Hp. revert m. induction Hp as [|[p v] l l' Hp IH|[p v] [q w] l|l1 l2 l3 H1 IH1 H2 IH2];
    intros m Hd; simpl.
  - done.
  - apply disjoint_paths_cons in Hd as [_ Hd]. destruct (SetSegments m p v); simpl; [by apply IH|done].
  - apply disjoint_paths_cons in Hd as [Hu _].
    assert (unrelated q p) as Hqp by (apply Hu; left).
    pose proof (set_set_comm m q w p v Hqp) as Hc.
    destruct (SetSegments m q w), (SetSegments m p v); simpl in *;
      first [done|by rewrite Hc|by rewrite <-Hc].
  - rewrite IH1 by done. apply IH2. by eapply disjoint_paths_perm.
Qed.

(** Starting from nothing, disjoint writes are never blocked. *)
Lemma set_all_total m l :
  disjoint_paths l → [] ∉ l.*1 →
  (∀ p, p ∈ l.*1 → ∀ q t r, p = q ++ t :: r → q ≠ [] →
     ∀ x, GetSegments m q = Some x → x = ANil ∨ ∃ sub, x = AMap sub) →
  is_Some (set_all m l).
Proof.
  revert m. induction l as [|[p v] l IH]; intros m Hd Hnil Hfree; simpl in *; [by eexists|].
  apply disjoint_paths_cons in Hd as [Hu Hd].
  apply not_elem_of_cons in Hnil as [Hp Hnil].
  destruct (SetSegments m p v) as [m1|] eqn:Hs; simpl.
  - apply IH; [done..|]. intros q Hq a t r -> Ha x Hx.
    assert (unrelated p (a ++ t :: r)) as Hun by by apply Hu.
    destruct (decide (unrelated p a)) as [Hpa|Hpa].
    { rewrite (get_set_frame _ _ _ _ _ Hs Hpa) in Hx. eapply (Hfree (a ++ t :: r)); eauto. by right. }
    assert (a `prefix_of` p) as [b ->].
    { destruct (decide (a `prefix_of` p)); [done|]. exfalso. apply Hpa. split; [|done].
      intros Hpre. apply (proj1 Hun). by apply prefix_app_r. }
    destruct b as [|b bs].
    { exfalso. apply (proj1 Hun). rewrite app_nil_r. by apply prefix_app_r. }
    right. apply get_set_same in Hs. rewrite GetSegments_get_any in Hs, Hx by (by destruct a).
    rewrite get_any_app, Hx in Hs. destruct x; try done. by eexists.
  - exfalso. apply set_blocked in Hs as (q & t & r & x & -> & Hq & Hx & Hn & Hm); [|done].
    destruct (Hfree (q ++ t :: r) ltac:(left) q t r eq_refl Hq x Hx) as [|[sub ->]]; [done|].
    by apply (Hm sub).
Qed.

Definition leaf_writes (l : list Leaf) : list (list string * any) :=
  (λ lf, (Segments lf, Value lf)) <$> l.

Lemma leaf_writes_disjoint m l : l ≡ₚ WalkLeaves m → disjoint_paths (leaf_writes l).
Proof.
  intros Hp.
  assert (∀ p, p ∈ (leaf_writes l).*1 → ∃ v, MkLeaf p v ∈ WalkLeaves m) as Hin.
  { intros p. unfold leaf_writes. rewrite <-list_fmap_compose. simpl.
    intros ([q v] & -> & Hq)%list_elem_of_fmap. exists v. by rewrite <-Hp. }
  split.
  - unfold leaf_writes. rewrite <-list_fmap_compose. simpl.
    apply NoDup_fmap_2_strong; [|rewrite Hp; apply NoDup_WalkLeaves].
    intros [p v] [q w]. rewrite Hp. simpl. rewrite !elem_of_WalkLeaves.
    intros [Hv _] [Hw _] <-. congruence.
  - intros p q Hv Hw Hne. apply Hin in Hv as [v Hv], Hw as [w Hw].
    by eapply WalkLeaves_unrelated.
Qed.

(** Replaying every leaf of a tree onto an empty object, in any order, rebuilds
    the tree. *)
Lemma replay_leaves m l : l ≡ₚ WalkLeaves m → set_all ∅ (leaf_writes l) = Some m.
Proof.
  intros Hp. pose proof (leaf_writes_disjoint m l Hp) as Hd.
  assert (∀ p v, (p, v) ∈ leaf_writes l ↔ MkLeaf p v ∈ WalkLeaves m) as Hin.
  { intros p v. unfold leaf_writes. rewrite list_elem_of_fmap, <-Hp. split.
    - by intros ([q w] & [= -> ->] & Hq).
    - intros H. by exists (MkLeaf p v). }
  assert (∀ p, p ∈ (leaf_writes l).*1 → ∃ v, MkLeaf p v ∈ WalkLeaves m) as Hin1.
  { intros p ([q v] & -> & Hq)%list_elem_of_fmap. exists v. by apply Hin. }
  destruct (set_all_total ∅ (leaf_writes l) Hd) as [m' Hm'].
  { intros [v Hv]%Hin1. by apply elem_of_WalkLeaves in Hv as [? _]. }
  { intros p _ q t r _ Hq x. destruct q as [|s q]; [done|].
    rewrite GetSegments_cons, lookup_empty. done. }
  rewrite Hm'. f_equal. apply object_leaf_ext. intros p x. split.
  - intros [Hg Ht]%elem_of_WalkLeaves.
    destruct (decide (p ∈ (leaf_writes l).*1)) as [Hpl|Hpl].
    { apply Hin1 in Hpl as [v Hv]. pose proof Hv as Hv'. apply Hin in Hv'.
      eapply set_all_get in Hm'; [|done..]. by rewrite Hm' in Hg; simplify_eq. }
    destruct (decide (Forall (λ q, unrelated q p) (leaf_writes l).*1)) as [Hall|Hall].
    { rewrite Forall_forall in Hall. rewrite (set_all_frame _ _ _ _ Hm' Hall) in Hg.
      destruct p; [done|]. by rewrite GetSegments_cons, lookup_empty in Hg. }
    apply not_Forall_Exists, Exists_exists in Hall as (q & Hq & Hnu); [|apply _].
    assert (q ≠ p) as Hne by (by intros ->).
    pose proof Hq as [v Hv]%Hin1. pose proof Hv as Hv'. apply Hin in Hv'.
    assert (GetSegments m' q = Some v) as Hgq by by eapply set_all_get.
    apply elem_of_WalkLeaves in Hv as [Hqm Htv].
    assert (p ≠ [] ∧ q ≠ []) as [Hpn Hqn] by (split; by intros ->).
    rewrite GetSegments_get_any in Hg, Hgq by done. exfalso. apply Hnu. split; intros [r ->].
    + rewrite get_any_app, Hgq in Hg. simpl in Hg. eapply (terminal_get_any v r x); [done| |done].
      intros ->. by rewrite app_nil_r in Hne.
    + rewrite get_any_app, Hg in Hgq. simpl in Hgq. eapply (terminal_get_any x r v); [done| |done].
      intros ->. by rewrite app_nil_r in Hne.
  - intros Hv. pose proof Hv as Hv'. apply Hin in Hv'. apply elem_of_WalkLeaves in Hv as [_ Ht].
    apply elem_of_WalkLeaves. split; [by eapply set_all_get|done].
Qed.

(** ** Deletion *)

Lemma deleteSegments_cons m s p :
  p ≠ [] →
  deleteSegments m (s :: p) =
    match m !! s with
    | Some (AMap next) =>
        if decide (deleteSegments next p = ∅) then delete s m
        else <[s := AMap (deleteSegments next p)]> m
    | _ => m
    end.
Proof. by destruct p. Qed.

#[global] Arguments deleteSegments : simpl never.

Lemma get_any_nonmap v p x : get_any v p = Some x → (∀ m, v ≠ AMap m) → p = [].
Proof. destruct p; [done|]. destruct v; try done. intros _ H. by destruct (H m). Qed.

(** Nothing is left at or beneath a deleted path. *)
Lemma get_delete_same m p q : p ≠ [] → GetSegments (deleteSegments m p) (p ++ q) = None.
Proof.
  revert m. induction p as [|s p IH]; intros m Hp; [done|]. clear Hp. simpl app.
  rewrite GetSegments_cons.
  destruct (decide (p = [])) as [->|Hp].
  { change (deleteSegments m [s]) with (delete s m). by rewrite lookup_delete_eq. }
  rewrite deleteSegments_cons by done.
  destruct (m !! s) as [y|] eqn:Hy; [|by rewrite Hy].
  destruct y as [| | | | |next]; try (rewrite Hy; simpl; by destruct p).
  case_decide; [by rewrite lookup_delete_eq|]. rewrite lookup_insert_eq. simpl.
  specialize (IH next Hp). by rewrite GetSegments_get_any in IH by (by destruct p).
Qed.

(** Deleting a path leaves every unrelated one alone: only maps left empty are
    pruned. *)
Lemma get_delete_frame m p q :
  unrelated p q → GetSegments (deleteSegments m p) q = GetSegments m q.
Proof.
  revert m q. induction p as [|s p IH]; intros m q Hu; [done|].
  destruct q as [|t q]; [done|]. rewrite !GetSegments_cons. apply unrelated_cons in Hu.
  destruct (decide (p = [])) as [->|Hp].
  { destruct Hu as [Hne|Hu]; [|by apply unrelated_nil_l in Hu].
    change (deleteSegments m [s]) with (delete s m). by rewrite lookup_delete_ne. }
  rewrite deleteSegments_cons by done.
  destruct (m !! s) as [y|] eqn:Hy; [|done].
  destruct y as [| | | | |next]; try done.
  destruct (decide (s = t)) as [<-|Hne].
  - destruct Hu as [?|Hu]; [done|].
    assert (q ≠ []) as Hq by (intros ->; by apply unrelated_nil_r in Hu).
    specialize (IH next q Hu). rewrite !GetSegments_get_any in IH by done.
    rewrite Hy. change (Some (AMap next) ≫= λ x, get_any x q) with (get_any (AMap next) q).
    case_decide as Hd.
    + rewrite lookup_delete_eq. rewrite Hd in IH. rewrite <-IH. destruct q; [done|].
      simpl. by rewrite lookup_empty.
    + rewrite lookup_insert_eq. done.
  - case_decide; [by rewrite lookup_delete_ne|by rewrite lookup_insert_ne].
Qed.

(** Deletion adds nothing. *)
Lemma get_delete_none m p q :
  GetSegments m q = None → GetSegments (deleteSegments m p) q = None.
Proof.
  revert m q. induction p as [|s p IH]; intros m q Hq; [done|].
  destruct q as [|t q]; [done|]. rewrite GetSegments_cons in Hq |- *.
  destruct (decide (p = [])) as [->|Hp].
  { change (deleteSegments m [s]) with (delete s m).
    destruct (decide (s = t)) as [->|]; [by rewrite lookup_delete_eq|by rewrite lookup_delete_ne]. }
  rewrite deleteSegments_cons by done.
  destruct (m !! s) as [y|] eqn:Hy; [|done].
  destruct y as [| | | | |next]; try done.
  destruct (decide (s = t)) as [<-|Hne].
  - rewrite Hy, some_bind in Hq. case_decide; [by rewrite lookup_delete_eq|].
    rewrite lookup_insert_eq, some_bind. destruct q as [|u q]; [done|].
    rewrite <-GetSegments_get_any in Hq |- * by done. by apply IH.
  - case_decide; [by rewrite lookup_delete_ne|by rewrite lookup_insert_ne].
Qed.

Lemma get_delete_all paths m q :
  GetSegments (foldl Delete m paths) q =
    if decide (Exists (λ p, Split p ≠ [] ∧ Split p `prefix_of` q) paths) then None
    else GetSegments (foldl Delete m paths) q.
Proof.
  case_decide as He; [|done].
  assert (∀ paths m, GetSegments m q = None → GetSegments (foldl Delete m paths) q = None) as Hnone.
  { clear. induction paths as [|p paths IH]; intros m Hm; [done|]. simpl. apply IH.
    by apply get_delete_none. }
  revert m. induction He as [p paths [Hp [k ->]]|p paths _ IH]; intros m; simpl; [|by apply IH].
  apply Hnone. by apply get_delete_same.
Qed.

(** A path that is there can be overwritten. *)
Lemma set_over m p v x : GetSegments m p = Some x → is_Some (SetSegments m p v).
Proof.
  intros Hx. destruct (SetSegments m p v) as [m'|] eqn:Hs; [done|].
  apply set_blocked in Hs; [|by intros ->].
  destruct Hs as (q & t & r & y & -> & Hq & Hy & _ & Hmap).
  rewrite GetSegments_get_any in Hx by (by destruct q).
  rewrite GetSegments_get_any in Hy by done.
  rewrite get_any_app, Hy, some_bind in Hx. by apply get_any_nonmap in Hx.
Qed.

Lemma GetSegments_beneath m p q x :
  p ≠ [] → GetSegments m p = Some x → GetSegments m (p ++ q) = get_any x q.
Proof.
  intros Hp. rewrite !GetSegments_get_any by (by destruct p).
  intros Hx. by rewrite get_any_app, Hx.
Qed.

Lemma GetSegments_beneath_none m p q :
  p ≠ [] → GetSegments m p = None → GetSegments m (p ++ q) = None.
Proof.
  intros Hp. rewrite !GetSegments_get_any by (by destruct p).
  intros Hx. by rewrite get_any_app, Hx.
Qed.
