(* ===== verification/Cnpg.v ===== *)
(** * What the plugin relies on from outside the repository

    The CloudNativePG API types and lists, and Go's [reflect] view of
    [apiv1.ClusterSpec].  The types here hold the fields the plugin reads; the
    values of the class are parameters of the development. *)

From S2P Require Import Prelude GoStrings GoJson.

(** ** apiv1.Cluster and apiv1.Backup, by the fields the plugin reads *)

Record PluginDeclaration := {
  pd_Name : string;
  pd_Enabled : option bool;
  pd_Parameters : gmap string string
}.

Record PluginStatus := { ps_Name : string; ps_Status : string }.

Record Cluster := {
  cl_Name : string;
  cl_Namespace : string;
  cl_UID : string;
  cl_Generation : Z;
  cl_Labels : gmap string string;
  cl_Annotations : gmap string string;
  cl_Plugins : list PluginDeclaration;      (* .spec.plugins *)
  cl_Image : string;                        (* .status.image *)
  cl_PluginStatus : list PluginStatus       (* .status.pluginStatus *)
}.

Record Backup := {
  bk_BackupID : string;                     (* .status.backupId *)
  bk_BackupName : string;                   (* .status.backupName *)
  bk_StoppedAt : option Z                   (* .status.stoppedAt *)
}.

(** ** reflect.Type *)

Unset Elimination Schemes.
Inductive gotype :=
| TStruct (name : string) (fields : list (string * bool * gotype))
    (* json tag name, Anonymous, Type *)
| TMap (elem : gotype)
| TPointer (elem : gotype)
| TSlice (elem : gotype)
| TOther.
Set Elimination Schemes.

Definition type_named (name : string) (t : gotype) : bool :=
  match t with TStruct n _ => bool_decide (n = name) | _ => false end.

(** [reflect.TypeOf(resource.Quantity{})] and
    [reflect.TypeOf(apiv1.StorageConfiguration{})], by name. *)
Definition quantityType : string := "resource.Quantity".
Definition storageConfigurationType : string := "apiv1.StorageConfiguration".

Class CnpgLib := {
  (** [postgres.FixedConfigurationParameters], its keys. *)
  FixedConfigurationParameters : gset string;
  (** [postgres.ManagedExtensions], each by its [SharedPreloadLibraries]. *)
  ManagedExtensions : list (list string);
  (** [reflect.TypeOf(apiv1.ClusterSpec{})]. *)
  clusterSpecType : gotype;
  (** [json.Marshal] of a typed Cluster: CloudNativePG's own types. *)
  MarshalCluster : Cluster → result string;
  (** [decoder.DecodeClusterLenient]. *)
  DecodeClusterLenient : string → result Cluster;
  (** [machinerytypes.ParseTargetTime(nil, _)]. *)
  ParseTargetTime : string → result Z
}.
