(* ===== verification/Groups.v ===== *)
(** * internal/snapshot/groups.go: the capture allowlist *)

From S2P Require Import Prelude GoStrings Pathutil.

#[local] Open Scope stdpp_scope.

Definition MetadataGroupName : string := "Metadata".

Record Group := MkGroup {
  Name : string;
  Description : string;
  Paths : list string;
  DefaultEnabled : bool
}.

Definition Groups : list Group := [
  MkGroup "Gucs"
    "PostgreSQL configuration: parameters, pg_hba, pg_ident, shared_preload_libraries, synchronous replication, and the pod selectors pg_hba rules can reference"
    ["spec.postgresql"; "spec.podSelectorRefs"] true;
  MkGroup "Resources" "CPU and memory requests and limits" ["spec.resources"] true;
  MkGroup "Storage" "Data, WAL and tablespace storage sizing and classes"
    ["spec.storage"; "spec.walStorage"; "spec.tablespaces"] true;
  MkGroup "Scheduling"
    "Affinity, tolerations, node selectors, topology spread constraints, priority and scheduler"
    ["spec.affinity"; "spec.topologySpreadConstraints"; "spec.priorityClassName";
     "spec.schedulerName"; "spec.nodeMaintenanceWindow"] true;
  MkGroup "Instances" "Replica count" ["spec.instances"] true;
  MkGroup MetadataGroupName "Cluster labels and annotations, and inheritedMetadata"
    ["spec.inheritedMetadata"] true;
  MkGroup "Image" "Container image, image catalog reference and pull settings"
    ["spec.imageName"; "spec.imageCatalogRef"; "spec.imagePullPolicy"; "spec.imagePullSecrets"] true;
  MkGroup "Monitoring" "Custom queries and pod monitor settings" ["spec.monitoring"] true;
  MkGroup "Managed" "Managed roles and services" ["spec.managed"] true;
  MkGroup "PodEnv" "Environment, projected volumes and service account template"
    ["spec.env"; "spec.envFrom"; "spec.projectedVolumeTemplate"; "spec.serviceAccountTemplate";
     "spec.ephemeralVolumeSource"; "spec.ephemeralVolumesSizeLimit"] true;
  MkGroup "Replication" "Replication slots and synchronous replica bounds"
    ["spec.replicationSlots"; "spec.minSyncReplicas"; "spec.maxSyncReplicas"] true;
  MkGroup "Timings"
    "Startup, shutdown, switchover and failover delays, probes, and primary lease timings"
    ["spec.startDelay"; "spec.stopDelay"; "spec.smartShutdownTimeout"; "spec.switchoverDelay";
     "spec.failoverDelay"; "spec.livenessProbeTimeout"; "spec.probes";
     "spec.primaryUpdateStrategy"; "spec.primaryUpdateMethod"; "spec.primaryLease"] true;
  MkGroup "Security" "Pod and container security contexts and seccomp profile"
    ["spec.podSecurityContext"; "spec.securityContext"; "spec.seccompProfile"] true;
  MkGroup "Misc" "Description, log level and pod disruption budget toggle"
    ["spec.description"; "spec.logLevel"; "spec.enablePDB"] true;
  MkGroup "Identity"
    "postgresUID, postgresGID and serviceAccountName. Off by default: UID/GID changes are a footgun against a restored PGDATA, and serviceAccountName is immutable once the cluster exists."
    ["spec.postgresUID"; "spec.postgresGID"; "spec.serviceAccountName"] false;
  MkGroup "Secrets"
    "certificates, superuserSecret and enableSuperuserAccess. Off by default: the referenced Secrets may not exist in the target namespace."
    ["spec.certificates"; "spec.superuserSecret"; "spec.enableSuperuserAccess"] false
].

Fixpoint lookup_group (groups : list Group) (name : string) : option Group :=
  match groups with
  | [] => None
  | group :: rest => if decide (Name group = name) then Some group else lookup_group rest name
  end.

Definition LookupGroup (name : string) : option Group := lookup_group Groups name.

Definition GroupNames : list string := SortStrings (Name <$> Groups).

Definition DefaultGroupNames : list string :=
  SortStrings (Name <$> filter (λ g, DefaultEnabled g = true) Groups).

Definition EffectiveGroupNames (configured : list string) : list string :=
  match configured with [] => DefaultGroupNames | _ => configured end.

(** The paths captured for a selection of groups. *)
Definition group_paths (names : list string) : list string :=
  names ≫= λ name, match LookupGroup name with Some g => Paths g | None => [] end.

(** ** The shape of the allowlist *)

Lemma LookupGroup_Some name g : LookupGroup name = Some g → g ∈ Groups ∧ Name g = name.
Proof.
  unfold LookupGroup. generalize Groups as l. induction l as [|h l IH]; simpl; [done|].
  case_decide; [intros [= <-]; split; [left|done]|].
  intros H'. destruct (IH H') as [? ?]. split; [by right|done].
Qed.

Lemma LookupGroup_elem g : g ∈ Groups → LookupGroup (Name g) = Some g.
Proof.
  intros Hg. assert (Forall (λ g, LookupGroup (Name g) = Some g) Groups) as HF.
  { unfold Groups. repeat constructor. }
  rewrite Forall_forall in HF. by apply HF.
Qed.

(** Every path of every group is [spec.X] for a field name [X]. *)
Definition spec_field (path : string) : option string :=
  match Split path with
  | [s; x] => if decide (s = "spec" ∧ path = "spec." +:+ x) then Some x else None
  | _ => None
  end.

Lemma group_paths_spec_fields :
  Forall (λ g, Forall (λ p, is_Some (spec_field p)) (Paths g)) Groups.
Proof. unfold Groups. repeat constructor; by eexists. Qed.

Lemma group_path_spec_field name g p :
  LookupGroup name = Some g → p ∈ Paths g →
  ∃ x, Split p = ["spec"; x] ∧ p = "spec." +:+ x ∧ spec_field p = Some x.
Proof.
  intros [Hg _]%LookupGroup_Some Hp.
  pose proof group_paths_spec_fields as HF.
  rewrite Forall_forall in HF. specialize (HF _ Hg). rewrite Forall_forall in HF.
  destruct (HF _ Hp) as [x Hx]. exists x. pose proof Hx as Hx'.
  unfold spec_field in Hx'. destruct (Split p) as [|s [|y [|]]]; try done.
  case_decide as Hd; [|done]. destruct Hd as [-> ->]. by simplify_eq.
Qed.

Lemma EffectiveGroupNames_nonempty configured : EffectiveGroupNames configured ≠ [].
Proof. destruct configured; [by vm_compute|done]. Qed.

Lemma EffectiveGroupNames_idemp configured :
  EffectiveGroupNames (EffectiveGroupNames configured) = EffectiveGroupNames configured.
Proof.
  pose proof (EffectiveGroupNames_nonempty configured).
  by destruct (EffectiveGroupNames configured).
Qed.
