(* ===== verification/Denylist.v ===== *)
(** * internal/snapshot/denylist.go: what is never captured and never restored *)

From S2P Require Import Prelude GoStrings GoJson Pathutil Cnpg Groups.

#[local] Open Scope stdpp_scope.

(** ** Operations *)

(** [metadata.PluginName]. *)
Definition PluginName : string := "chronicle.sharifmshaker.github.io".

Definition DeniedPaths : list string := [
  "spec.plugins"; "spec.backup"; "spec.externalClusters";
  "spec.bootstrap";
  "spec.replica";
  "metadata.name"; "metadata.namespace"; "metadata.uid"; "metadata.resourceVersion";
  "metadata.generation"; "metadata.creationTimestamp"; "metadata.deletionTimestamp";
  "metadata.ownerReferences"; "metadata.managedFields"; "metadata.selfLink";
  "metadata.finalizers"; "status"
].

Definition deniedMetadataDomains : list string := ["cnpg.io"; PluginName].

Definition deniedMetadataKeys : list string :=
  ["kubectl.kubernetes.io/last-applied-configuration"].

Definition ApplyDenylist (obj : object) : object := foldl Delete obj DeniedPaths.

Definition IsDeniedPath (path : string) : bool :=
  existsb (λ denied, bool_decide (path = denied) || HasPrefix path (denied +:+ ".")) DeniedPaths.

Definition IsDeniedMetadataKey (key : string) : bool :=
  if existsb (λ k, bool_decide (key = k)) deniedMetadataKeys then true
  else match Cut key "/" with
       | None => false
       | Some (domain, _) =>
           existsb (λ denied, bool_decide (domain = denied) || HasSuffix domain ("." +:+ denied))
                   deniedMetadataDomains
       end.

(** A [nil] map and an empty one are both [∅]. *)
Definition FilterMetadata (m : gmap string string) : gmap string string :=
  filter (λ kv, IsDeniedMetadataKey kv.1 = false) m.

Section with_cnpg.
Context `{CnpgLib}.

(** [None] is the [nil] the callers test for. *)
Definition FilterGUCs (parameters : object) : option object :=
  let out := filter (λ kv, kv.1 ∉ FixedConfigurationParameters) parameters in
  if decide (out = ∅) then None else Some out.

Definition managedLibraries : gset string := list_to_set (concat ManagedExtensions).

Definition is_managed (library : any) : bool :=
  match library with AString name => bool_decide (name ∈ managedLibraries) | _ => false end.

Definition FilterSharedPreloadLibraries (libraries : list any) : option (list any) :=
  match filter (λ library, is_managed library = false) libraries with
  | [] => None
  | out => Some out
  end.

(** ** The two postgres filters *)

Lemma FilterGUCs_spec parameters key :
  default ∅ (FilterGUCs parameters) !! key =
  if decide (key ∈ FixedConfigurationParameters) then None else parameters !! key.
Proof.
  unfold FilterGUCs.
  set (out := filter _ parameters).
  assert (out !! key = if decide (key ∈ FixedConfigurationParameters) then None
                       else parameters !! key) as Hout.
  { subst out. rewrite map_lookup_filter. destruct (parameters !! key); simpl; [|by case_decide].
    case_guard as Hg; case_decide; simpl in *; naive_solver. }
  rewrite <-Hout. clear Hout. case_decide as He; [|reflexivity]. by rewrite He.
Qed.

Lemma FilterGUCs_nonempty parameters m : FilterGUCs parameters = Some m → m ≠ ∅.
Proof. unfold FilterGUCs. case_decide; naive_solver. Qed.

Lemma FilterGUCs_idemp parameters m :
  FilterGUCs parameters = Some m → FilterGUCs m = Some m.
Proof.
  unfold FilterGUCs. case_decide as He; [done|]. intros [= <-].
  set (out := filter _ parameters) in *.
  assert (filter (λ kv : string * any, kv.1 ∉ FixedConfigurationParameters) out = out) as ->;
    [|by rewrite decide_False].
  apply map_filter_id. intros i x Hx. by apply map_lookup_filter_Some in Hx as [_ ?].
Qed.

Lemma FilterSharedPreloadLibraries_spec libraries :
  default [] (FilterSharedPreloadLibraries libraries)
  = filter (λ library, is_managed library = false) libraries.
Proof. unfold FilterSharedPreloadLibraries. by destruct (filter _ _). Qed.

End with_cnpg.

(** ** Denied paths *)

Lemma DeniedPaths_nonempty : Forall (λ d, d ≠ "") DeniedPaths.
Proof. unfold DeniedPaths. repeat constructor; done. Qed.

Lemma IsDeniedPath_spec path :
  IsDeniedPath path = true ↔
  ∃ denied, denied ∈ DeniedPaths ∧ (path = denied ∨ ∃ r, path = denied +:+ "." +:+ r).
Proof.
  unfold IsDeniedPath. rewrite existsb_exists. setoid_rewrite list_elem_of_In.
  split; intros [d [Hd He]]; exists d; (split; [done|]).
  - apply orb_true_iff in He as [He|He].
    + left. by apply bool_decide_eq_true in He.
    + right. apply HasPrefix_spec in He as [r ->]. exists r. by rewrite <-str_app_assoc.
  - apply orb_true_iff. destruct He as [->|[r ->]].
    + left. by apply bool_decide_eq_true.
    + right. rewrite str_app_assoc. apply HasPrefix_app.
Qed.

Lemma Split_nonempty path : path ≠ "" → Split path = SplitByte "." path.
Proof. intros. unfold Split. by rewrite decide_False. Qed.

(** A path extends another by a dot exactly when its segments extend the
    other's. *)
Lemma Split_prefix p q :
  p ≠ "" → q ≠ "" →
  (q = p ∨ ∃ r, q = p +:+ "." +:+ r) ↔ Split p `prefix_of` Split q.
Proof.
  intros Hp Hq. rewrite !Split_nonempty by done. split.
  - intros [->|[r ->]]; [done|].
    change ("." +:+ r) with (String "."%char r). rewrite SplitByte_app_gen. by eexists.
  - intros [k Hk]. rewrite <-(Join_SplitByte "."%char q), Hk.
    destruct k as [|x k].
    { left. by rewrite app_nil_r, Join_SplitByte. }
    right. exists (Join (x :: k) "."). clear Hk Hq q Hp.
    rewrite <-(Join_SplitByte "."%char p) at 2.
    pose proof (SplitByte_nonempty "."%char p) as Hne.
    induction (SplitByte "." p) as [|y l IH]; [done|].
    destruct l as [|z l].
    + rewrite <-app_comm_cons, app_nil_l, Join_cons by done. done.
    + rewrite <-app_comm_cons, !Join_cons by done.
      rewrite IH by done. by rewrite !str_app_assoc.
Qed.

(** The denylist compares whole segments. *)
Lemma IsDeniedPath_segments path :
  path ≠ "" →
  IsDeniedPath path = true ↔ ∃ denied, denied ∈ DeniedPaths ∧ Split denied `prefix_of` Split path.
Proof.
  intros Hp. rewrite IsDeniedPath_spec.
  split; intros [d [Hd He]]; exists d; (split; [done|]);
    apply Split_prefix; try done;
    pose proof DeniedPaths_nonempty as HF; rewrite Forall_forall in HF; by apply HF.
Qed.

(** The allowlist and the denylist have not drifted apart. *)
Lemma group_paths_not_denied :
  Forall (λ g, Forall (λ p, IsDeniedPath p = false) (Paths g)) Groups.
Proof. unfold Groups. repeat constructor. Qed.

Lemma group_path_not_denied name g p :
  LookupGroup name = Some g → p ∈ Paths g → IsDeniedPath p = false.
Proof.
  intros [Hg _]%LookupGroup_Some Hp. pose proof group_paths_not_denied as HF.
  rewrite Forall_forall in HF. specialize (HF _ Hg).
  rewrite Forall_forall in HF. by apply HF.
Qed.

(** Nothing denied is left after the denylist, at any depth. *)
Lemma ApplyDenylist_removes obj path :
  path ≠ "" → IsDeniedPath path = true → Get (ApplyDenylist obj) path = None.
Proof.
  intros Hp (d & Hd & Hpre)%IsDeniedPath_segments; [|done].
  unfold Get, ApplyDenylist. rewrite get_delete_all, decide_True; [done|].
  apply Exists_exists. exists d. split; [done|]. split; [|done].
  pose proof DeniedPaths_nonempty as HF. rewrite Forall_forall in HF.
  rewrite Split_nonempty by (by apply HF). apply SplitByte_nonempty.
Qed.

(** ** Labels and annotations *)

Lemma FilterMetadata_lookup m key :
  FilterMetadata m !! key = if IsDeniedMetadataKey key then None else m !! key.
Proof.
  unfold FilterMetadata. rewrite map_lookup_filter.
  destruct (m !! key); simpl; destruct (IsDeniedMetadataKey key) eqn:Hd; try done;
    case_guard; simpl in *; congruence.
Qed.

Lemma FilterMetadata_idemp m : FilterMetadata (FilterMetadata m) = FilterMetadata m.
Proof.
  apply map_eq. intros k. rewrite !FilterMetadata_lookup. by destruct (IsDeniedMetadataKey k).
Qed.

(** A domain is denied with all of its subdomains, whatever the key's name. *)
Lemma IsDeniedMetadataKey_domain domain name :
  no_byte "/" domain = true →
  (∃ denied, denied ∈ deniedMetadataDomains ∧
     (domain = denied ∨ ∃ sub, domain = sub +:+ "." +:+ denied)) →
  IsDeniedMetadataKey (domain +:+ "/" +:+ name) = true.
Proof.
  intros Hno (d & Hd & He). unfold IsDeniedMetadataKey. destruct (existsb _ _); [done|].
  assert (Cut (domain +:+ "/" +:+ name) "/" = Some (domain, name)) as ->.
  { clear He. induction domain as [|a domain IH].
    { rewrite str_app_nil_l. change (Cut (String "/" name) "/" = Some ("", name)).
      cbn [Cut]. by rewrite (CutPrefix_app "/" name : CutPrefix (String "/" name) "/" = Some name). }
    simpl in Hno. apply andb_true_iff in Hno as [Ha Hno].
    rewrite str_app_cons. cbn [Cut]. rewrite IH by done.
    assert (CutPrefix (String a (domain +:+ "/" +:+ name)) "/" = None) as ->; [|done].
    apply CutPrefix_None. intros r [= -> _]. by rewrite bool_decide_eq_true_2 in Ha. }
  apply existsb_exists. exists d. split; [by apply list_elem_of_In|].
  apply orb_true_iff. destruct He as [->|[sub ->]].
  - left. by apply bool_decide_eq_true.
  - right. apply HasSuffix_spec. by eexists.
Qed.
