(* ===== verification/Pathcheck.v ===== *)
(** * internal/snapshot/pathcheck.go: which paths can match a snapshot

    [reflect.Type] is the finite tree [gotype]: [apiv1.ClusterSpec] is not a
    recursive type. *)

From S2P Require Import Prelude GoStrings GoJson Pathutil Cnpg Groups Denylist.

#[local] Open Scope stdpp_scope.

(** ** Operations *)

Fixpoint elemType (t : gotype) : gotype :=
  match t with TPointer e | TSlice e => elemType e | _ => t end.

Definition is_struct (t : gotype) : bool := match t with TStruct _ _ => true | _ => false end.

Fixpoint fieldByJSONName (structType : gotype) (name : string) : option gotype :=
  match structType with
  | TStruct _ fields =>
      (fix loop (l : list (string * bool * gotype)) : option gotype :=
         match l with
         | [] => None
         | (tag, Anonymous, Type_) :: rest =>
             if decide (tag = name) then Some Type_
             else match (if decide (tag = "") then
                           if Anonymous && is_struct Type_ then fieldByJSONName Type_ name else None
                         else None) with
                  | Some nested => Some nested
                  | None => loop rest
                  end
         end) fields
  | _ => None
  end.

#[global] Arguments fieldByJSONName : simpl never.

Definition withinCaptureGroups (path : string) : bool :=
  existsb (λ group, existsb (λ claimed,
    bool_decide (path = claimed) || HasPrefix path (claimed +:+ ".")
    || HasPrefix claimed (path +:+ ".")) (Paths group)) Groups.

(** The loop of [resolveInClusterSpec]. *)
Fixpoint resolve_segments (path : string) (current : gotype) (walked : string)
    (segments : list string) : result unit :=
  match segments with
  | [] => Ok ()
  | segment :: rest =>
      match elemType current with
      | TMap _ => Ok ()
      | TStruct _ _ as current =>
          match fieldByJSONName current segment with
          | None => Err (Errorf "%q names no such field: CloudNativePG's %q has no %q"
                           [AStr path; AStr walked; AStr segment])
          | Some next => resolve_segments path next (walked +:+ "." +:+ segment) rest
          end
      | _ => Err (Errorf "%q continues past %q, which holds a single value" [AStr path; AStr walked])
      end
  end.

Section with_cnpg.
Context `{CnpgLib}.

Definition resolveInClusterSpec (path : string) : result unit :=
  if decide (path = "spec") then Ok ()
  else match CutPrefix path "spec." with
       | None => Err (Errorf "%q is not a path into a Cluster" [AStr path])
       | Some rest => resolve_segments path clusterSpecType "spec" (SplitByte "." rest)
       end.

Definition ValidateRulePath (path : string) : result unit :=
  let path := TrimSuffix path ".*" in
  if decide (path = "") then Err (Errorf "a rule has an empty path" [])
  else if IsDeniedPath path then
    Err (Errorf "%q is on the hard denylist, so it is never captured and never restored" [AStr path])
  else if bool_decide (path = "metadata")
       || bool_decide (path = "metadata.labels") || HasPrefix path "metadata.labels."
       || bool_decide (path = "metadata.annotations") || HasPrefix path "metadata.annotations."
  then Ok ()
  else if HasPrefix path "metadata." then
    Err (Errorf "%q names Cluster metadata other than labels and annotations, which is never captured"
           [AStr path])
  else if negb (withinCaptureGroups path) then
    Err (Errorf "%q is covered by no capture group, so no snapshot can contain it" [AStr path])
  else resolveInClusterSpec path.

(** The loop of [NamesMap]. *)
Fixpoint descend_structs (current : gotype) (segments : list string) : option gotype :=
  match segments with
  | [] => Some current
  | segment :: rest =>
      match elemType current with
      | TStruct _ _ as current => next ← fieldByJSONName current segment; descend_structs next rest
      | _ => None
      end
  end.

Fixpoint pointer_elem (t : gotype) : gotype :=
  match t with TPointer e => pointer_elem e | _ => t end.

Definition is_map (t : gotype) : bool := match t with TMap _ => true | _ => false end.

Definition NamesMap (path : string) : bool :=
  if bool_decide (path = "metadata.labels") || bool_decide (path = "metadata.annotations") then true
  else match CutPrefix path "spec." with
       | None => false
       | Some rest =>
           match descend_structs clusterSpecType (SplitByte "." rest) with
           | None => false
           | Some current => is_map (pointer_elem current)
           end
       end.

(** The loop of [EnclosingMap]: [seen] is [path[:i]].  A dot is never part of a
    longer rune, so the bytes are enough. *)
Fixpoint enclosing_loop (seen rest : string) : option string :=
  match rest with
  | EmptyString => if NamesMap seen then Some seen else None
  | String char rest' =>
      if decide (char = "."%char) then
        if NamesMap seen then Some seen else enclosing_loop (seen +:+ String char "") rest'
      else enclosing_loop (seen +:+ String char "") rest'
  end.

Definition EnclosingMap (path : string) : option string := enclosing_loop "" path.

(** The loop of [IsQuantityPath]; the segment is the last one when nothing
    follows it. *)
Fixpoint quantity_loop (current : gotype) (segments : list string) : bool :=
  match segments with
  | [] => type_named quantityType (elemType current)
  | segment :: rest =>
      match elemType current with
      | TMap elem => quantity_loop elem rest
      | TStruct _ _ as current =>
          if type_named storageConfigurationType current && bool_decide (segment = "size")
             && bool_decide (rest = []) then true
          else match fieldByJSONName current segment with
               | None => false
               | Some next => quantity_loop next rest
               end
      | _ => false
      end
  end.

Definition IsQuantityPath (segments : list string) : bool :=
  match segments with
  | first :: (_ :: _) as rest => if decide (first = "spec") then quantity_loop clusterSpecType rest else false
  | _ => false
  end.

(** ** Properties *)

(** A rule that passes names nothing denied, and either captured metadata or a
    path that some capture group contains or is contained in. *)
Lemma ValidateRulePath_sound path :
  ValidateRulePath path = Ok () →
  let path := TrimSuffix path ".*" in
  path ≠ "" ∧ IsDeniedPath path = false ∧
  (HasPrefix path "metadata" = true ∨
   (withinCaptureGroups path = true ∧ resolveInClusterSpec path = Ok ())).
Proof.
  unfold ValidateRulePath. cbv zeta. set (p := TrimSuffix path ".*"). intros Hv.
  case_decide; [done|]. destruct (IsDeniedPath p); [done|].
  split; [done|]. split; [done|].
  destruct (bool_decide (p = "metadata") || _ || _ || _ || _) eqn:Hm.
  - left. rewrite !orb_true_iff, !bool_decide_eq_true in Hm.
    destruct Hm as [[[[->| ->]|Hm]| ->]|Hm]; [done|done| |done|];
      apply HasPrefix_spec in Hm as [r ->]; apply HasPrefix_spec; eexists;
      [change "metadata.labels." with ("metadata" +:+ ".labels.")
      |change "metadata.annotations." with ("metadata" +:+ ".annotations.")];
      by rewrite <-str_app_assoc.
  - destruct (HasPrefix p "metadata."); [done|].
    destruct (withinCaptureGroups p); [|done]. by right.
Qed.

Lemma enclosing_loop_spec seen rest p :
  enclosing_loop seen rest = Some p →
  NamesMap p = true ∧ (p = seen +:+ rest ∨ ∃ r, seen +:+ rest = p +:+ "." +:+ r).
Proof.
  revert seen. induction rest as [|c rest IH]; intros seen; cbn [enclosing_loop].
  - destruct (NamesMap seen) eqn:Hn; [|done]. intros [= <-]. split; [done|].
    left. by rewrite str_app_nil_r.
  - intros He.
    assert (seen +:+ String c rest = (seen +:+ String c "") +:+ rest) as ->
      by (by rewrite <-str_app_assoc).
    case_decide as Hc; [|by apply IH].
    destruct (NamesMap seen) eqn:Hn; [|by apply IH].
    injection He as <-. split; [done|]. right. exists rest. subst c. by rewrite <-str_app_assoc.
Qed.

(** The enclosing map is a map that is the path or one of its dotted
    prefixes. *)
Lemma EnclosingMap_sound path p :
  EnclosingMap path = Some p → NamesMap p = true ∧ (path = p ∨ ∃ r, path = p +:+ "." +:+ r).
Proof.
  intros He. apply enclosing_loop_spec in He as [? [He|[r He]]];
    rewrite str_app_nil_l in He; naive_solver.
Qed.

(** A map that is found is the outermost: no shorter dotted prefix names
    one. *)
Lemma EnclosingMap_complete path p r :
  path = p +:+ "." +:+ r ∨ path = p → NamesMap p = true →
  ∃ q, EnclosingMap path = Some q ∧ (String.length q ≤ String.length p)%nat.
Proof.
  intros Hp Hn. unfold EnclosingMap.
  assert (∀ mid seen rest,
    seen +:+ mid = p → rest = mid +:+ "." +:+ r ∨ rest = mid →
    ∃ q, enclosing_loop seen rest = Some q ∧ (String.length q ≤ String.length p)%nat) as Hloop.
  { clear path Hp. induction mid as [|c mid IH]; intros seen rest Hs Hr.
    - rewrite str_app_nil_r in Hs. subst seen. exists p. split; [|done].
      destruct Hr as [->| ->]; [change ("" +:+ "." +:+ r) with (String "."%char r)|];
        cbn [enclosing_loop]; [rewrite decide_True by done|]; by rewrite Hn.
    - assert (∃ rest', rest = String c rest' ∧ (rest' = mid +:+ "." +:+ r ∨ rest' = mid))
        as (rest' & -> & Hr') by (destruct Hr as [->| ->]; eexists; split; eauto).
      assert ((seen +:+ String c "") +:+ mid = p) as Hs' by (by rewrite <-str_app_assoc).
      cbn [enclosing_loop]. case_decide; [|by apply IH].
      destruct (NamesMap seen); [|by apply IH].
      exists seen. split; [done|]. rewrite <-Hs, str_length_app. lia. }
  by apply (Hloop p "").
Qed.

(** The map that holds a path is the outermost of its dotted prefixes that name
    one. *)
Theorem EnclosingMap_outermost path :
  match EnclosingMap path with
  | Some p =>
      NamesMap p = true ∧ (path = p ∨ ∃ r, path = p +:+ "." +:+ r)
      ∧ ∀ q, NamesMap q = true → (path = q ∨ ∃ r, path = q +:+ "." +:+ r) →
          (String.length p ≤ String.length q)%nat
  | None => ∀ q, (path = q ∨ ∃ r, path = q +:+ "." +:+ r) → NamesMap q = false
  end.
Proof.
  assert (∀ q, NamesMap q = true → (path = q ∨ ∃ r, path = q +:+ "." +:+ r) →
    ∃ p, EnclosingMap path = Some p ∧ (String.length p ≤ String.length q)%nat) as Hc.
  { intros q Hq [Hp|[r Hp]]; [apply (EnclosingMap_complete path q "")|apply (EnclosingMap_complete path q r)];
      auto. }
  destruct (EnclosingMap path) as [p|] eqn:He.
  - destruct (EnclosingMap_sound _ _ He) as [Hn Hp]. split_and!; [done|done|].
    intros q Hq Hpq. destruct (Hc q Hq Hpq) as (p' & [= <-] & Hl). done.
  - intros q Hq. destruct (NamesMap q) eqn:Hn; [|done]. by destruct (Hc q Hn Hq) as (p & ? & _).
Qed.

(** A path that names a map validates no key beneath it: any key is allowed. *)
Lemma resolve_beneath_map path t walked segs rest m :
  descend_structs t segs = Some m → is_map (elemType m) = true →
  resolve_segments path t walked (segs ++ rest) = Ok ().
Proof.
  revert t walked. induction segs as [|s segs IH]; intros t walked; simpl.
  - intros [= ->] Hm. destruct rest; [done|]. simpl. revert Hm. by destruct (elemType m).
  - destruct (elemType t) as [n fs| | | |] eqn:Ht; try done.
    destruct (fieldByJSONName (TStruct n fs) s); [|done]. simpl. apply IH.
Qed.

End with_cnpg.
