(* ===== verification/Snapshot.v ===== *)
(** * internal/snapshot: the snapshot document, its digests and its extraction

    types.go, canonical.go and extract.go.  A document is encoded in the order
    of the Go struct's fields; [omitempty] members are left out. *)

From S2P Require Import Prelude GoStrings GoTime GoJson Sha256 Pathutil Cnpg Groups Denylist.

#[local] Open Scope stdpp_scope.

(** ** types.go *)

Definition APIVersion : string := "chronicle.sharifmshaker.github.io/v1".
Definition Kind : string := "ClusterMetadataSnapshot".

Record ClusterRef := { cr_Name : string; cr_Namespace : string; cr_UID : string }.
Record SourceInfo := { si_PluginVersion : string; si_ImageName : string }.

Record Content := { Spec : object; Labels : gmap string string; Annotations : gmap string string }.

Record Snapshot := {
  sn_APIVersion : string;
  sn_Kind : string;
  sn_CapturedAt : Z;
  sn_Generation : Z;
  sn_Cluster : ClusterRef;
  sn_Source : SourceInfo;
  sn_Groups : list string;
  sn_CaptureRules : string;
  sn_Content : Content;
  sn_Checksum : string
}.

(** A member that [omitempty] drops when it is empty. *)
Definition opt_string (k v : string) : list (string * doc) :=
  if decide (v = "") then [] else [(k, DStr v)].
Definition opt_strings (k : string) (m : gmap string string) : list (string * doc) :=
  if decide (m = ∅) then [] else [(k, doc_of_strings m)].
Definition opt_object (k : string) (m : object) : list (string * doc) :=
  if decide (m = ∅) then [] else [(k, doc_of_object m)].
(** A [[]string]: [nil] is [null]. *)
Definition string_list (l : list string) : doc :=
  match l with [] => DNull | _ => DArr (DStr <$> l) end.

Definition content_members (content : Content) : list (string * doc) :=
  opt_object "spec" (Spec content) ++ opt_strings "labels" (Labels content)
  ++ opt_strings "annotations" (Annotations content).

Definition doc_of_snapshot (snap : Snapshot) : doc :=
  DObj ([("apiVersion", DStr (sn_APIVersion snap)); ("kind", DStr (sn_Kind snap));
         ("capturedAt", DStr (FormatRFC3339Nano (sn_CapturedAt snap)));
         ("generation", DNum (FormatInt (sn_Generation snap)));
         ("cluster", DObj ([("name", DStr (cr_Name (sn_Cluster snap)));
                            ("namespace", DStr (cr_Namespace (sn_Cluster snap)))]
                           ++ opt_string "uid" (cr_UID (sn_Cluster snap))));
         ("source", DObj ([("pluginVersion", DStr (si_PluginVersion (sn_Source snap)))]
                          ++ opt_string "imageName" (si_ImageName (sn_Source snap))));
         ("groups", string_list (sn_Groups snap));
         ("captureRules", DStr (sn_CaptureRules snap))]
        ++ content_members (sn_Content snap)
        ++ [("checksum", DStr (sn_Checksum snap))]).

(** ** canonical.go *)

Definition digest (encoded : string) : string := "sha256:" +:+ sha256_hex encoded.

Definition Canonical (content : Content) : result string := Marshal (DObj (content_members content)).

Definition Checksum (content : Content) : result string :=
  encoded ← Canonical content; Ok (digest encoded).

Definition MetadataFingerprint (labels annotations : gmap string string)
    (groups : list string) (captureRules : string) : result string :=
  let captured := bool_decide (MetadataGroupName ∈ groups) in
  let labels := if captured then labels else ∅ in
  let annotations := if captured then annotations else ∅ in
  encoded ← Marshal (DObj (
    content_members {| Spec := ∅; Labels := FilterMetadata labels;
                       Annotations := FilterMetadata annotations |}
    ++ match SortStrings groups with
       | [] => []
       | sorted => [("captureGroups", string_list sorted)]
       end
    ++ opt_string "captureRules" captureRules));
  Ok (digest encoded).

Section with_cnpg.
Context `{CnpgLib}.

Definition sorted_keys (m : gset string) : list string := SortStrings (elements m).

Definition CaptureRulesDigest (groups : list string) : string :=
  let selected := SortStrings groups in
  let paths : gmap string doc :=
    foldl (λ paths name,
      <[name := string_list (match LookupGroup name with Some g => Paths g | None => [] end)]> paths)
      ∅ selected in
  digest (encode_doc (DObj [
    ("groups", DObj (merge_sort key_le (map_to_list paths)));
    ("deniedPaths", string_list DeniedPaths);
    ("deniedMetadataDomains", string_list deniedMetadataDomains);
    ("deniedMetadataKeys", string_list deniedMetadataKeys);
    ("fixedParameters", string_list (sorted_keys FixedConfigurationParameters));
    ("managedLibraries", string_list (sorted_keys managedLibraries))])).

(** ** extract.go *)

Record ExtractOptions := {
  eo_Groups : list string;
  eo_PluginVersion : string;
  eo_Now : option Z            (* the zero time is None *)
}.

Definition eo_groups (o : ExtractOptions) : list string :=
  match eo_Groups o with [] => DefaultGroupNames | groups => groups end.
Definition eo_now (clock : Z) (o : ExtractOptions) : Z := default clock (eo_Now o).

(** The inner loop of [Extract]: the paths of one group. *)
Fixpoint capture_paths (group : Group) (source captured : object) (paths : list string)
    : result object :=
  match paths with
  | [] => Ok captured
  | path :: rest =>
      if IsDeniedPath path then
        Err (Errorf "capture group %q names denied path %q" [AStr (Name group); AStr path])
      else
        let captured := match Get source path with
                        | None => captured
                        | Some value => default captured (Set_ captured path value)
                        end in
        capture_paths group source captured rest
  end.

(** The outer loop. *)
Fixpoint capture_groups (source captured : object) (metadataEnabled : bool) (names : list string)
    : result (object * bool) :=
  match names with
  | [] => Ok (captured, metadataEnabled)
  | name :: rest =>
      match LookupGroup name with
      | None => Err (Errorf "unknown capture group %q (known: %v)" [AStr name; AStrs GroupNames])
      | Some group =>
          let metadataEnabled := metadataEnabled || bool_decide (Name group = MetadataGroupName) in
          captured ← capture_paths group source captured (Paths group);
          capture_groups source captured metadataEnabled rest
      end
  end.

Definition parameters_path : string := "spec.postgresql.parameters".
Definition libraries_path : string := "spec.postgresql.shared_preload_libraries".

(** [if filtered != nil { Set } else { Delete }]. *)
Definition set_or_delete (obj : object) (path : string) (filtered : option any) : object :=
  match filtered with
  | Some v => default obj (Set_ obj path v)
  | None => Delete obj path
  end.

Definition sanitizePostgresConfiguration (captured : object) : object :=
  let captured :=
    match Get captured parameters_path with
    | Some (AMap asMap) => set_or_delete captured parameters_path (AMap <$> FilterGUCs asMap)
    | _ => captured
    end in
  match Get captured libraries_path with
  | Some (AList asSlice) =>
      set_or_delete captured libraries_path (AList <$> FilterSharedPreloadLibraries asSlice)
  | _ => captured
  end.

Definition captured_spec (captured : object) : object :=
  match captured !! "spec" with Some (AMap spec) => spec | _ => ∅ end.

Definition Extract (clock : Z) (cluster : option Cluster) (options : ExtractOptions)
    : result Snapshot :=
  match cluster with
  | None => Err (Errorf "cannot extract from a nil cluster" [])
  | Some cluster =>
      source ← wrap "while serializing cluster: %w" [] (ToMap (MarshalCluster cluster));
      let enabled := eo_groups options in
      '(captured, metadataEnabled) ← capture_groups source ∅ false enabled;
      let captured := ApplyDenylist captured in
      let captured := sanitizePostgresConfiguration captured in
      let content := {|
        Spec := captured_spec captured;
        Labels := if metadataEnabled : bool then FilterMetadata (cl_Labels cluster) else ∅;
        Annotations := if metadataEnabled then FilterMetadata (cl_Annotations cluster) else ∅ |} in
      checksum ← wrap "while checksumming snapshot: %w" [] (Checksum content);
      Ok {| sn_APIVersion := APIVersion;
            sn_Kind := Kind;
            sn_CapturedAt := eo_now clock options;
            sn_Generation := cl_Generation cluster;
            sn_Cluster := {| cr_Name := cl_Name cluster; cr_Namespace := cl_Namespace cluster;
                             cr_UID := cl_UID cluster |};
            sn_Source := {| si_PluginVersion := eo_PluginVersion options;
                            si_ImageName := cl_Image cluster |};
            sn_Groups := enabled;
            sn_CaptureRules := CaptureRulesDigest enabled;
            sn_Content := content;
            sn_Checksum := checksum |}
  end.

End with_cnpg.

(** ** The captured object is one map, at "spec" *)

Definition spec_object (m : object) : object := if decide (m = ∅) then ∅ else {["spec" := AMap m]}.

Lemma captured_spec_spec_object m : captured_spec (spec_object m) = m.
Proof.
  unfold captured_spec, spec_object. case_decide; [by subst|]. by rewrite lookup_singleton_eq.
Qed.

Lemma spec_object_get m q : q ≠ [] → GetSegments (spec_object m) ("spec" :: q) = GetSegments m q.
Proof.
  intros Hq. rewrite GetSegments_cons. unfold spec_object. case_decide as Hm.
  - subst m. destruct q as [|s q]; [done|]. rewrite GetSegments_cons. by rewrite !lookup_empty.
  - rewrite lookup_singleton_eq, some_bind. by rewrite GetSegments_get_any.
Qed.

Lemma spec_object_set m q v :
  q ≠ [] → SetSegments (spec_object m) ("spec" :: q) v = spec_object <$> SetSegments m q v.
Proof.
  intros Hq. rewrite SetSegments_cons by done.
  assert (submap (spec_object m !! "spec") = Some m) as ->.
  { unfold spec_object. case_decide as Hm; [by rewrite Hm|]. by rewrite lookup_singleton_eq. }
  rewrite some_bind. destruct (SetSegments m q v) as [m'|] eqn:Hs; [|done].
  rewrite some_bind. simpl. f_equal. unfold spec_object at 2.
  apply SetSegments_nonempty in Hs as [_ Hne]. rewrite (decide_False _ _ Hne).
  unfold spec_object. case_decide; [done|]. by rewrite insert_singleton_eq.
Qed.

Lemma spec_object_delete m q :
  q ≠ [] → deleteSegments (spec_object m) ("spec" :: q) = spec_object (deleteSegments m q).
Proof.
  intros Hq. rewrite deleteSegments_cons by done. unfold spec_object.
  destruct (decide (m = ∅)) as [->|Hm].
  - rewrite lookup_empty. destruct q as [|s [|t q]]; [done| |].
    + change (deleteSegments ∅ [s]) with (delete s (∅ : object)).
      rewrite delete_empty. by rewrite decide_True.
    + rewrite deleteSegments_cons by done. rewrite lookup_empty. by rewrite decide_True.
  - rewrite lookup_singleton_eq. destruct (decide (deleteSegments m q = ∅)).
    + apply delete_singleton_eq.
    + apply insert_singleton_eq.
Qed.

(** ** The allowlist walk *)

Definition selected_fields (names : list string) : list string := omap spec_field (group_paths names).

(** The captured map holds exactly the source's fields among [keys]. *)
Definition captured_from (src : object) (keys : list string) (m : object) : Prop :=
  ∀ k, m !! k = if decide (k ∈ keys) then src !! k else None.

Lemma source_field source x :
  GetSegments source ["spec"; x] = captured_spec source !! x.
Proof.
  rewrite GetSegments_cons. unfold captured_spec.
  destruct (source !! "spec") as [[]|]; simpl; rewrite ?lookup_empty; try done.
  by destruct (_ !! x).
Qed.

Lemma captured_from_step src keys m x :
  captured_from src keys m →
  captured_from src (keys ++ [x]) (match src !! x with Some v => <[x := v]> m | None => m end).
Proof.
  intros Hm k. specialize (Hm k).
  destruct (decide (k = x)) as [->|Hne].
  - rewrite decide_True by set_solver.
    destruct (src !! x) as [v|] eqn:Hx; [by rewrite lookup_insert_eq|].
    rewrite Hm. by case_decide.
  - assert (k ∈ keys ++ [x] ↔ k ∈ keys) as Hk by set_solver.
    rewrite (decide_ext _ _ _ _ Hk), <-Hm.
    destruct (src !! x); [by rewrite lookup_insert_ne|done].
Qed.

Lemma capture_paths_spec group source m keys paths :
  captured_from (captured_spec source) keys m →
  Forall (λ p, IsDeniedPath p = false ∧ is_Some (spec_field p)) paths →
  ∃ m', capture_paths group source (spec_object m) paths = Ok (spec_object m')
    ∧ captured_from (captured_spec source) (keys ++ omap spec_field paths) m'.
Proof.
  intros Hm HF. revert m keys Hm. induction HF as [|p paths [Hd [x Hx]] _ IH]; intros m keys Hm.
  { exists m. by rewrite app_nil_r. }
  cbn [capture_paths]. rewrite Hd. cbv zeta.
  assert (Split p = ["spec"; x]) as Hsplit.
  { unfold spec_field in Hx. destruct (Split p) as [|s [|y [|]]]; try done.
    case_decide as Hc; [|done]. destruct Hc as [-> _]. by simplify_eq. }
  unfold Get, Set_. rewrite Hsplit, source_field.
  assert (match captured_spec source !! x with
          | Some value => default (spec_object m) (SetSegments (spec_object m) ["spec"; x] value)
          | None => spec_object m
          end
          = spec_object (match captured_spec source !! x with Some v => <[x := v]> m | None => m end))
    as ->.
  { destruct (captured_spec source !! x); [|done]. by rewrite spec_object_set. }
  destruct (IH _ _ (captured_from_step _ _ _ x Hm)) as (m' & -> & Hm').
  exists m'. split; [done|]. cbn [omap list_omap]. rewrite Hx. by rewrite <-app_assoc in Hm'.
Qed.

Lemma group_paths_ok name g :
  LookupGroup name = Some g →
  Forall (λ p, IsDeniedPath p = false ∧ is_Some (spec_field p)) (Paths g).
Proof.
  intros Hg. apply Forall_forall. intros p Hp.
  destruct (group_path_spec_field _ _ _ Hg Hp) as (x & _ & _ & Hx).
  split; [by eapply group_path_not_denied|by eexists].
Qed.

Lemma capture_groups_spec source m keys b names :
  captured_from (captured_spec source) keys m →
  Forall (λ name, is_Some (LookupGroup name)) names →
  ∃ m', capture_groups source (spec_object m) b names
        = Ok (spec_object m', b || bool_decide (MetadataGroupName ∈ names))
    ∧ captured_from (captured_spec source) (keys ++ selected_fields names) m'.
Proof.
  intros Hm HF. revert m keys b Hm.
  induction HF as [|name names [g Hg] _ IH]; intros m keys b Hm.
  { exists m. rewrite app_nil_r. split; [|done]. simpl. by rewrite orb_false_r. }
  cbn [capture_groups]. rewrite Hg. cbv zeta.
  destruct (capture_paths_spec g source m keys (Paths g) Hm (group_paths_ok _ _ Hg))
    as (m1 & -> & Hm1).
  rewrite ok_bind. destruct (IH _ _ (b || bool_decide (Name g = MetadataGroupName)) Hm1)
    as (m' & -> & Hm').
  exists m'. split.
  - do 2 f_equal. rewrite <-orb_assoc. f_equal.
    pose proof (LookupGroup_Some _ _ Hg) as [_ <-].
    destruct (decide (Name g = MetadataGroupName)) as [He|He].
    + rewrite bool_decide_eq_true_2 by done. symmetry. apply bool_decide_eq_true_2. rewrite He. left.
    + rewrite bool_decide_eq_false_2 by done. apply bool_decide_ext. set_solver.
  - unfold selected_fields, group_paths. rewrite bind_cons, Hg, omap_app, app_assoc. done.
Qed.

Lemma capture_paths_total group source captured paths :
  Forall (λ p, IsDeniedPath p = false ∧ is_Some (spec_field p)) paths →
  ∃ captured', capture_paths group source captured paths = Ok captured'.
Proof.
  intros HF. revert captured. induction HF as [|p paths [Hd _] _ IH]; intros captured.
  - by eexists.
  - cbn [capture_paths]. rewrite Hd. apply IH.
Qed.

Lemma capture_groups_unknown source captured b names :
  ¬ Forall (λ name, is_Some (LookupGroup name)) names →
  ∃ name, name ∈ names ∧ LookupGroup name = None
    ∧ capture_groups source captured b names
      = Err (Errorf "unknown capture group %q (known: %v)" [AStr name; AStrs GroupNames]).
Proof.
  revert captured b. induction names as [|name names IH]; intros captured b HF; [by destruct HF|].
  cbn [capture_groups]. destruct (LookupGroup name) as [g|] eqn:Hg.
  - cbv zeta. destruct (capture_paths_total g source captured (Paths g) (group_paths_ok _ _ Hg))
      as (c' & ->). rewrite ok_bind.
    destruct (IH c' (b || bool_decide (Name g = MetadataGroupName))) as (n & Hn & Hl & ->).
    { intros HF'. apply HF. constructor; [by eexists|done]. }
    exists n. split; [by right|done].
  - exists name. split; [left|]. done.
Qed.

(** ** The denylist finds nothing to remove *)

Lemma denied_shapes :
  Forall (λ d, (∃ y, Split d = ["spec"; y] ∧ IsDeniedPath ("spec." +:+ y) = true)
               ∨ head (Split d) ≠ Some "spec") DeniedPaths.
Proof.
  unfold DeniedPaths.
  repeat (apply Forall_cons; split;
          [first [left; eexists; split; [reflexivity|vm_compute; reflexivity]
                 |right; vm_compute; discriminate]|]).
  by apply Forall_nil.
Qed.

Lemma ApplyDenylist_spec_object m :
  (∀ k, is_Some (m !! k) → IsDeniedPath ("spec." +:+ k) = false) →
  ApplyDenylist (spec_object m) = spec_object m.
Proof.
  intros Hm. unfold ApplyDenylist. induction denied_shapes as [|d l Hd _ IH]; [done|].
  simpl. assert (Delete (spec_object m) d = spec_object m) as ->; [|done].
  unfold Delete. destruct Hd as [(y & -> & Hy)|Hd].
  - rewrite spec_object_delete by done. f_equal. change (deleteSegments m [y]) with (delete y m).
    apply delete_id. destruct (m !! y) eqn:Hl; [|done].
    assert (IsDeniedPath ("spec." +:+ y) = false) as Hf by (apply Hm; by eexists). congruence.
  - destruct (Split d) as [|s [|t q]]; [done| |].
    + change (deleteSegments (spec_object m) [s]) with (delete s (spec_object m)).
      apply delete_id. unfold spec_object. case_decide; [done|].
      apply lookup_singleton_ne. simpl in Hd. congruence.
    + rewrite deleteSegments_cons by done.
      assert (spec_object m !! s = None) as ->; [|done].
      unfold spec_object. case_decide; [done|]. apply lookup_singleton_ne. simpl in Hd. congruence.
Qed.

Lemma selected_field_not_denied names k :
  Forall (λ name, is_Some (LookupGroup name)) names →
  k ∈ selected_fields names → IsDeniedPath ("spec." +:+ k) = false.
Proof.
  intros HF Hk. unfold selected_fields in Hk. apply list_elem_of_omap in Hk as (p & Hp & Hk).
  unfold group_paths in Hp. apply list_elem_of_bind in Hp as (name & Hp & Hn).
  destruct (LookupGroup name) as [g|] eqn:Hg; [|by apply elem_of_nil in Hp].
  pose proof (group_path_not_denied _ _ _ Hg Hp) as Hd.
  destruct (group_path_spec_field _ _ _ Hg Hp) as (x & _ & -> & Hx). by simplify_eq.
Qed.

(** ** Sanitizing, on the captured spec *)

Section sanitize.
Context `{CnpgLib}.

Definition parameters_segments : list string := ["postgresql"; "parameters"].
Definition libraries_segments : list string := ["postgresql"; "shared_preload_libraries"].

Definition set_or_delete_at (m : object) (segments : list string) (filtered : option any) : object :=
  match filtered with
  | Some v => default m (SetSegments m segments v)
  | None => deleteSegments m segments
  end.

Definition sanitize_parameters (m : object) : object :=
  match GetSegments m parameters_segments with
  | Some (AMap asMap) => set_or_delete_at m parameters_segments (AMap <$> FilterGUCs asMap)
  | _ => m
  end.
Definition sanitize_libraries (m : object) : object :=
  match GetSegments m libraries_segments with
  | Some (AList asSlice) =>
      set_or_delete_at m libraries_segments (AList <$> FilterSharedPreloadLibraries asSlice)
  | _ => m
  end.

Lemma set_or_delete_spec_object m path q filtered :
  Split path = "spec" :: q → q ≠ [] →
  set_or_delete (spec_object m) path filtered = spec_object (set_or_delete_at m q filtered).
Proof.
  intros Hp Hq. unfold set_or_delete, set_or_delete_at, Set_, Delete. rewrite Hp.
  destruct filtered as [v|]; [|by apply spec_object_delete].
  rewrite spec_object_set by done. by destruct (SetSegments m q v).
Qed.

Lemma sanitize_spec_object m :
  sanitizePostgresConfiguration (spec_object m)
  = spec_object (sanitize_libraries (sanitize_parameters m)).
Proof.
  unfold sanitizePostgresConfiguration, Get.
  change (Split parameters_path) with ("spec" :: parameters_segments).
  change (Split libraries_path) with ("spec" :: libraries_segments).
  cbv zeta. rewrite spec_object_get by done.
  assert (match GetSegments m parameters_segments with
          | Some (AMap asMap) =>
              set_or_delete (spec_object m) parameters_path (AMap <$> FilterGUCs asMap)
          | _ => spec_object m
          end = spec_object (sanitize_parameters m)) as ->.
  { unfold sanitize_parameters. destruct (GetSegments m parameters_segments) as [[]|]; try done.
    by apply set_or_delete_spec_object. }
  rewrite spec_object_get by done. unfold sanitize_libraries.
  destruct (GetSegments (sanitize_parameters m) libraries_segments) as [[]|]; try done.
  by apply set_or_delete_spec_object.
Qed.

(** What [set_or_delete_at] leaves at, beneath and beside the path. *)
Lemma set_or_delete_at_same m p filtered x q :
  p ≠ [] → GetSegments m p = Some x →
  GetSegments (set_or_delete_at m p filtered) (p ++ q) = v ← filtered; get_any v q.
Proof.
  intros Hp Hx. unfold set_or_delete_at. destruct filtered as [v|]; [|simpl; by apply get_delete_same].
  destruct (set_over m p v x Hx) as [m' Hs]. rewrite Hs. simpl. by apply (get_set_beneath m p v).
Qed.

Lemma set_or_delete_at_frame m p filtered q :
  unrelated p q → GetSegments (set_or_delete_at m p filtered) q = GetSegments m q.
Proof.
  intros Hu. unfold set_or_delete_at. destruct filtered as [v|]; [|by apply get_delete_frame].
  destruct (SetSegments m p v) as [m'|] eqn:Hs; [|done]. by eapply get_set_frame.
Qed.

Lemma sanitize_frame m q :
  unrelated parameters_segments q → unrelated libraries_segments q →
  GetSegments (sanitize_libraries (sanitize_parameters m)) q = GetSegments m q.
Proof.
  intros H1 H2. unfold sanitize_libraries.
  assert (GetSegments (sanitize_parameters m) q = GetSegments m q) as Hq.
  { unfold sanitize_parameters. destruct (GetSegments m parameters_segments) as [[]|]; try done.
    by apply set_or_delete_at_frame. }
  destruct (GetSegments (sanitize_parameters m) libraries_segments) as [[]|]; try done.
  by rewrite set_or_delete_at_frame.
Qed.

Lemma unrelated_parameters_libraries q :
  unrelated libraries_segments (parameters_segments ++ q).
Proof. split; intros [k Hk]; [discriminate|]. destruct q; discriminate Hk. Qed.

Lemma unrelated_libraries_parameters : unrelated parameters_segments libraries_segments.
Proof. split; intros [k Hk]; discriminate. Qed.

(** A parameter survives exactly when CloudNativePG does not fix it. *)
Lemma sanitize_parameter m key :
  GetSegments (sanitize_libraries (sanitize_parameters m)) (parameters_segments ++ [key])
  = if decide (key ∈ FixedConfigurationParameters) then
      match GetSegments m parameters_segments with
      | Some (AMap _) | None => None
      | _ => GetSegments m (parameters_segments ++ [key])
      end
    else GetSegments m (parameters_segments ++ [key]).
Proof.
  assert (∀ n, GetSegments (sanitize_libraries n) (parameters_segments ++ [key])
               = GetSegments n (parameters_segments ++ [key])) as ->.
  { intros n. unfold sanitize_libraries. destruct (GetSegments n libraries_segments) as [[]|]; try done.
    apply set_or_delete_at_frame, unrelated_parameters_libraries. }
  unfold sanitize_parameters.
  destruct (GetSegments m parameters_segments) as [x|] eqn:Hx.
  - pose proof (GetSegments_beneath m parameters_segments [key] x ltac:(done) Hx) as Hb.
    rewrite Hb.
    destruct x as [| | | | |ps]; try (rewrite Hb; by case_decide).
    rewrite (set_or_delete_at_same m parameters_segments _ (AMap ps)) by done.
    pose proof (FilterGUCs_spec ps key) as Hg.
    destruct (FilterGUCs ps) as [f|]; simpl in Hg |- *;
      [rewrite Hg|rewrite lookup_empty in Hg];
      case_decide; try done; destruct (ps !! key); simpl in *; congruence.
  - rewrite GetSegments_beneath_none by done. by case_decide.
Qed.

Lemma parameters_ne : parameters_segments ≠ [].
Proof. done. Qed.
Lemma libraries_ne : libraries_segments ≠ [].
Proof. done. Qed.

Lemma sanitize_library_list m :
  GetSegments (sanitize_libraries (sanitize_parameters m)) libraries_segments
  = match GetSegments m libraries_segments with
    | Some (AList l) => AList <$> FilterSharedPreloadLibraries l
    | o => o
    end.
Proof.
  unfold sanitize_libraries.
  assert (GetSegments (sanitize_parameters m) libraries_segments
          = GetSegments m libraries_segments) as Hq.
  { unfold sanitize_parameters. destruct (GetSegments m parameters_segments) as [[]|]; try done.
    apply set_or_delete_at_frame, unrelated_libraries_parameters. }
  rewrite Hq. destruct (GetSegments m libraries_segments) as [[]|] eqn:Hx; rewrite ?Hq; try done.
  rewrite <-(app_nil_r libraries_segments) at 2.
  rewrite (set_or_delete_at_same _ _ _ _ [] libraries_ne Hq).
  by destruct (FilterSharedPreloadLibraries _).
Qed.

End sanitize.

(** ** What a capture holds *)

Section extract.
Context `{CnpgLib}.

(** The source's own spec, narrowed to the fields the groups select. *)
Definition selected_spec (source : object) (names : list string) : object :=
  filter (λ kv, kv.1 ∈ selected_fields names) (captured_spec source).

Lemma captured_from_selected source names m :
  captured_from (captured_spec source) (selected_fields names) m → m = selected_spec source names.
Proof.
  intros Hm. apply map_eq. intros k. rewrite (Hm k). unfold selected_spec.
  rewrite map_lookup_filter. destruct (captured_spec source !! k); simpl; [|by case_decide].
  case_guard; simpl in *; try case_decide; naive_solver.
Qed.

(** The content of a capture, as the composition of the walk, the denylist and
    the sanitizing. *)
Definition content_of (cluster : Cluster) (source : object) (names : list string) : Content :=
  let metadata := bool_decide (MetadataGroupName ∈ names) in
  {| Spec := sanitize_libraries (sanitize_parameters (selected_spec source names));
     Labels := if metadata then FilterMetadata (cl_Labels cluster) else ∅;
     Annotations := if metadata then FilterMetadata (cl_Annotations cluster) else ∅ |}.

Definition known_groups (names : list string) : Prop :=
  Forall (λ name, is_Some (LookupGroup name)) names.

Lemma Extract_eq clock cluster o source :
  ToMap (MarshalCluster cluster) = Ok source → known_groups (eo_groups o) →
  Extract clock (Some cluster) o =
    let content := content_of cluster source (eo_groups o) in
    checksum ← wrap "while checksumming snapshot: %w" [] (Checksum content);
    Ok {| sn_APIVersion := APIVersion;
          sn_Kind := Kind;
          sn_CapturedAt := eo_now clock o;
          sn_Generation := cl_Generation cluster;
          sn_Cluster := {| cr_Name := cl_Name cluster; cr_Namespace := cl_Namespace cluster;
                           cr_UID := cl_UID cluster |};
          sn_Source := {| si_PluginVersion := eo_PluginVersion o; si_ImageName := cl_Image cluster |};
          sn_Groups := eo_groups o;
          sn_CaptureRules := CaptureRulesDigest (eo_groups o);
          sn_Content := content;
          sn_Checksum := checksum |}.
Proof.
  intros Hs Hk. unfold Extract. rewrite Hs. rewrite wrap_ok, ok_bind. cbv zeta.
  change (capture_groups source ∅ false (eo_groups o))
    with (capture_groups source (spec_object ∅) false (eo_groups o)).
  destruct (capture_groups_spec source ∅ [] false (eo_groups o)) as (m & -> & Hm);
    [intros k; by rewrite lookup_empty|done|].
  rewrite ok_bind. simpl in Hm. rewrite orb_false_l.
  rewrite ApplyDenylist_spec_object.
  - rewrite sanitize_spec_object, captured_spec_spec_object.
    by rewrite (captured_from_selected _ _ _ Hm).
  - intros k [v Hv]. rewrite (Hm k) in Hv. case_decide; [|done].
    by eapply selected_field_not_denied.
Qed.

Lemma Extract_Ok clock cluster o snap :
  Extract clock (Some cluster) o = Ok snap →
  ∃ source, ToMap (MarshalCluster cluster) = Ok source ∧ known_groups (eo_groups o)
    ∧ sn_Content snap = content_of cluster source (eo_groups o)
    ∧ Checksum (sn_Content snap) = Ok (sn_Checksum snap)
    ∧ sn_Groups snap = eo_groups o
    ∧ sn_CaptureRules snap = CaptureRulesDigest (eo_groups o)
    ∧ sn_CapturedAt snap = eo_now clock o ∧ sn_Generation snap = cl_Generation cluster
    ∧ sn_APIVersion snap = APIVersion ∧ sn_Kind snap = Kind.
Proof.
  intros He. destruct (ToMap (MarshalCluster cluster)) as [source|e] eqn:Hs.
  2: { unfold Extract in He. by rewrite Hs in He. }
  destruct (decide (known_groups (eo_groups o))) as [Hk|Hk].
  - rewrite (Extract_eq _ _ _ _ Hs Hk) in He. cbv zeta in He.
    destruct (Checksum _) as [sum|] eqn:Hc; [|done]. injection He as <-. cbn. eauto 12.
  - unfold Extract in He. rewrite Hs in He. rewrite wrap_ok, ok_bind in He.
    cbv zeta in He.
    destruct (capture_groups_unknown source ∅ false (eo_groups o) Hk) as (n & _ & _ & Hu).
    by rewrite Hu in He.
Qed.

(** A library that one of the extensions CloudNativePG manages loads. *)
Definition owned_library (library : any) : Prop :=
  ∃ extension name, extension ∈ ManagedExtensions ∧ name ∈ extension ∧ library = AString name.

(** What is left of a list, in its order, without the libraries that are owned. *)
Inductive without_owned : list any → list any → Prop :=
| without_nil : without_owned [] []
| without_dropped x l kept : owned_library x → without_owned l kept → without_owned (x :: l) kept
| without_kept x l kept : ¬ owned_library x → without_owned l kept → without_owned (x :: l) (x :: kept).

Lemma is_managed_owned x : is_managed x = true ↔ owned_library x.
Proof.
  unfold owned_library. destruct x; simpl; try naive_solver. rewrite bool_decide_eq_true. unfold managedLibraries.
  rewrite elem_of_list_to_set, list_elem_of_In, in_concat. setoid_rewrite <-list_elem_of_In. naive_solver.
Qed.

Lemma filter_without_owned l : without_owned l (filter (λ x, is_managed x = false) l).
Proof.
  induction l as [|x l IH]; [by constructor|]. rewrite filter_cons. pose proof (is_managed_owned x) as Hm.
  case_decide; [apply without_kept|apply without_dropped]; try done; rewrite <-Hm; [congruence|].
  by destruct (is_managed x).
Qed.

(** C24: The spec of a capture is the source's, narrowed to the fields its groups
    select, less the parameters and libraries CloudNativePG owns: a fixed parameter
    is gone and every other keeps its value, and of the preloaded libraries those
    that no managed extension loads are left, in their order; a list of which
    nothing is left is gone as well. *)
Theorem Extract_spec clock cluster o snap :
  Extract clock (Some cluster) o = Ok snap →
  ∃ source, ToMap (MarshalCluster cluster) = Ok source ∧
  let src := selected_spec source (eo_groups o) in
  let spec := Spec (sn_Content snap) in
  (∀ q, unrelated parameters_segments q → unrelated libraries_segments q →
    GetSegments spec q = GetSegments src q)
  ∧ (∀ ps key, GetSegments src parameters_segments = Some (AMap ps) →
      GetSegments spec (parameters_segments ++ [key])
      = if decide (key ∈ FixedConfigurationParameters) then None else ps !! key)
  ∧ (∀ l, GetSegments src libraries_segments = Some (AList l) →
      ∃ kept, without_owned l kept
        ∧ GetSegments spec libraries_segments = if decide (kept = []) then None else Some (AList kept)).
Proof.
  intros (source & Hs & _ & Hc & _)%Extract_Ok. exists source. split; [done|].
  cbv zeta. rewrite Hc. cbn [Spec content_of]. split_and!.
  - intros q H1 H2. by rewrite sanitize_frame.
  - intros ps key Hps. rewrite sanitize_parameter, Hps. case_decide; [done|].
    rewrite (GetSegments_beneath _ _ [key] _ parameters_ne Hps). simpl. by destruct (ps !! key).
  - intros l Hl. exists (filter (λ x, is_managed x = false) l). split; [apply filter_without_owned|].
    rewrite sanitize_library_list, Hl. unfold FilterSharedPreloadLibraries. by destruct (filter _ _).
Qed.

(** C25: Captures fail only for a cluster that cannot be serialized, an unknown
    group, or a number that is no JSON literal: the allowlist never runs into
    the denylist. *)
Theorem Extract_outcome clock cluster o source :
  ToMap (MarshalCluster cluster) = Ok source →
  (known_groups (eo_groups o) →
     numbers_valid (DObj (content_members (content_of cluster source (eo_groups o)))) = true →
     ∃ snap, Extract clock (Some cluster) o = Ok snap)
  ∧ (¬ known_groups (eo_groups o) →
     ∃ name, name ∈ eo_groups o ∧ LookupGroup name = None ∧
       Extract clock (Some cluster) o =
         Err (Errorf "unknown capture group %q (known: %v)" [AStr name; AStrs GroupNames])).
Proof.
  intros Hs. split.
  - intros Hk Hv. rewrite (Extract_eq _ _ _ _ Hs Hk). cbv zeta.
    unfold Checksum, Canonical, Marshal. rewrite Hv. by eexists.
  - intros Hk. destruct (capture_groups_unknown source ∅ false _ Hk) as (n & Hn & Hl & Hu).
    exists n. split_and!; [done|done|]. unfold Extract. rewrite Hs. rewrite wrap_ok, ok_bind. cbv zeta. by rewrite Hu.
Qed.

Lemma fingerprint_of_capture clock cluster o snap :
  Extract clock (Some cluster) o = Ok snap →
  MetadataFingerprint (Labels (sn_Content snap)) (Annotations (sn_Content snap))
    (sn_Groups snap) (sn_CaptureRules snap)
  = MetadataFingerprint (cl_Labels cluster) (cl_Annotations cluster)
    (eo_groups o) (CaptureRulesDigest (eo_groups o)).
Proof.
  intros (source & _ & _ & -> & _ & -> & -> & _)%Extract_Ok.
  unfold MetadataFingerprint, content_of. cbn [Labels Annotations].
  destruct (bool_decide _); [by rewrite !FilterMetadata_idemp|done].
Qed.

End extract.
