(* ===== verification/Api.v ===== *)
(** * api/v1: the ConfigStore and RestorePolicy types and their accessors

    The schema rules the API server enforces ([+kubebuilder] markers) are not
    assumed: the code reads objects that may predate them. *)

From S2P Require Import Prelude GoStrings GoTime.

#[local] Open Scope stdpp_scope.

(** ** objectstore_config.go *)

Record SecretKeySelector := { sel_Name : string; sel_Key : string }.

Record S3Credentials := {
  AccessKeyID : option SecretKeySelector;
  SecretAccessKey : option SecretKeySelector;
  Region : option SecretKeySelector;
  SessionToken : option SecretKeySelector;
  InheritFromIAMRole : bool
}.

Record ObjectStoreConfiguration := {
  DestinationPath : string;
  EndpointURL : string;
  EndpointCA : option SecretKeySelector;
  s3Credentials : option S3Credentials
}.

(** ** configstore_types.go *)

Definition DefaultPrefix : string := "chronicle".
Definition ConditionReady : string := "Ready".
Definition ReasonResolved : string := "Resolved".
Definition ReasonObjectStoreMissing : string := "ObjectStoreNotFound".
Definition ReasonObjectStoreCRDAbsent : string := "ObjectStoreCRDNotInstalled".
Definition ReasonConfigurationInvalid : string := "ConfigurationInvalid".
Definition ReasonObjectStoreUnreachable : string := "ObjectStoreUnreachable".

(** [metav1.Condition]. *)
Record Condition := {
  cond_Type : string;
  cond_Status : string;
  cond_ObservedGeneration : Z;
  cond_LastTransitionTime : Z;
  cond_Reason : string;
  cond_Message : string
}.
#[export] Instance Condition_eq_dec : EqDecision Condition.
Proof. solve_decision. Defined.

(** [DerivedFrom] by the name it refers to. *)
Record ConfigStoreSpec := {
  DerivedFrom : option string;
  Configuration : option ObjectStoreConfiguration;
  Retention : string;
  CaptureGroups : list string;
  Prefix : string
}.

Record ResolvedStore := {
  rs_DestinationPath : string;
  rs_EndpointURL : string;
  rs_Provider : string;
  rs_Retention : string;
  rs_CaptureGroups : list string;
  rs_Source : string;
  rs_ObservedAt : option Z
}.
#[export] Instance ResolvedStore_eq_dec : EqDecision ResolvedStore.
Proof. solve_decision. Defined.

Record ConfigStoreStatus := {
  css_Resolved : option ResolvedStore;
  css_Conditions : list Condition
}.
#[export] Instance ConfigStoreStatus_eq_dec : EqDecision ConfigStoreStatus.
Proof. solve_decision. Defined.

Record ConfigStore := {
  cs_Name : string;
  cs_Namespace : string;
  cs_Generation : Z;
  cs_Spec : ConfigStoreSpec;
  cs_Status : ConfigStoreStatus
}.

Definition RetentionForever : string := "Forever".
Definition RetentionInherit : string := "InheritFromObjectStore".

Definition GetRetention (s : ConfigStore) : string :=
  if decide (Retention (cs_Spec s) = "") then RetentionForever else Retention (cs_Spec s).

(** The string without its last byte, and that byte. *)
Fixpoint SplitLast (s : string) : option (string * ascii) :=
  match s with
  | EmptyString => None
  | String a EmptyString => Some ("", a)
  | String a r => prod_map (String a) id <$> SplitLast r
  end.

Definition day : Z := 24 * Hour.

(** A duration is an [int64] of nanoseconds: each product wraps around. *)
Definition ParseRetentionWindow (value : string) : result Z :=
  let not_a_duration := Err (Errorf "retention %q is not a duration like 30d, 4w or 6m" [AStr value]) in
  if decide (String.length value < 2)%nat then not_a_duration
  else match SplitLast value with
  | None => not_a_duration
  | Some (digits, unit) =>
      match ParseInt digits with
      | None => not_a_duration
      | Some count =>
          if decide (count < 1)%Z then not_a_duration
          else if decide (unit = "d"%char) then Ok (wrap64 (count * day))
          else if decide (unit = "w"%char) then Ok (wrap64 (wrap64 (count * 7) * day))
          else if decide (unit = "m"%char) then Ok (wrap64 (wrap64 (count * 30) * day))
          else Err (Errorf "retention %q has an unknown unit; use d, w or m" [AStr value])
      end
  end.

Definition GetCaptureGroups (s : ConfigStore) : list string := CaptureGroups (cs_Spec s).

Definition GetPrefix (s : ConfigStore) : string :=
  if decide (Prefix (cs_Spec s) = "") then DefaultPrefix else Prefix (cs_Spec s).

(** ** restorepolicy_types.go

    A [SelectMode], an [UnresolvableAction] and a [MissingAction] are strings:
    nothing in the code rules out another value. *)

Definition SelectLatest : string := "Latest".
Definition SelectGeneration : string := "Generation".
Definition SelectTimestamp : string := "Timestamp".
Definition SelectAlignWithRecoveryTarget : string := "AlignWithRecoveryTarget".
Definition UnresolvableFail : string := "Fail".
Definition UnresolvableUseLatest : string := "UseLatest".
Definition MissingFail : string := "Fail".
Definition MissingIgnore : string := "Ignore".

Record RestoreSelect := {
  Mode : string;
  Generation : option Z;
  Timestamp : option Z;
  OnUnresolvable : string
}.

Record SkipRule := {
  sk_Group : string;
  sk_Path : string;
  sk_KeyPrefix : string;
  sk_Except : list string
}.

Record TransformRule := {
  tr_Path : string;
  tr_OnMissing : string;
  tr_Expression : string
}.

Record RestorePolicySpec := {
  Select : RestoreSelect;
  Skip : list SkipRule;
  Transform : list TransformRule
}.

Record RestorePolicyStatus := { rps_Conditions : list Condition }.
#[export] Instance RestorePolicyStatus_eq_dec : EqDecision RestorePolicyStatus.
Proof. solve_decision. Defined.

Record RestorePolicy := {
  rp_Name : string;
  rp_Namespace : string;
  rp_Generation : Z;
  rp_Spec : RestorePolicySpec;
  rp_Status : RestorePolicyStatus
}.

(** A method on a nil policy: the policy is optional. *)
Definition GetMode (r : option RestorePolicy) : string :=
  match r with None => "" | Some r => Mode (Select (rp_Spec r)) end.

Definition ResolveMode (policy : option RestorePolicy) (bootstrapsFromRecovery : bool) : string :=
  let mode := GetMode policy in
  if decide (mode ≠ "") then mode
  else if bootstrapsFromRecovery then SelectAlignWithRecoveryTarget
  else SelectLatest.

Definition GetOnUnresolvable (r : option RestorePolicy) : string :=
  match r with
  | None => UnresolvableFail
  | Some r => if decide (OnUnresolvable (Select (rp_Spec r)) = "") then UnresolvableFail
              else OnUnresolvable (Select (rp_Spec r))
  end.

(** ** Retention windows *)

Lemma SplitLast_app s a : SplitLast (s +:+ String a "") = Some (s, a).
Proof.
  induction s as [|b s IH]; [done|]. rewrite str_app_cons. cbn [SplitLast].
  rewrite IH. by destruct s.
Qed.

(** The days one unit of a window stands for. *)
Definition unit_days (unit : ascii) : option Z :=
  if decide (unit = "d"%char) then Some 1%Z
  else if decide (unit = "w"%char) then Some 7%Z
  else if decide (unit = "m"%char) then Some 30%Z
  else None.

Lemma wrap64_mul_wrap64 a b : wrap64 (wrap64 a * b) = wrap64 (a * b).
Proof.
  unfold wrap64. f_equal.
  set (r := ((a + 2 ^ 63) mod 2 ^ 64)%Z).
  assert (∃ k, r - 2 ^ 63 = a + k * 2 ^ 64)%Z as [k ->].
  { exists (- ((a + 2 ^ 63) / 2 ^ 64))%Z. subst r.
    pose proof (Z.div_mod (a + 2 ^ 63) (2 ^ 64) ltac:(lia)). lia. }
  replace ((a + k * 2 ^ 64) * b + 2 ^ 63)%Z with ((a * b + 2 ^ 63) + (k * b) * 2 ^ 64)%Z by ring.
  by apply Z.mod_add.
Qed.

(** What a window parses to: the count of its unit, in nanoseconds modulo
    2^64. *)
Lemma ParseRetentionWindow_spec value d :
  ParseRetentionWindow value = Ok d ↔
  ∃ digits unit count days,
    value = digits +:+ String unit "" ∧ ParseInt digits = Some count ∧ (1 ≤ count)%Z
    ∧ unit_days unit = Some days ∧ d = wrap64 (count * days * day).
Proof.
  assert (∀ s a r, SplitLast s = Some (r, a) → s = r +:+ String a "") as Hsplit.
  { induction s as [|b s IH]; intros a r; [done|]. cbn [SplitLast]. destruct s as [|c s].
    - by intros [= <- <-].
    - destruct (SplitLast (String c s)) as [[r' a']|]; [|done].
      simpl. intros [= <- <-]. rewrite str_app_cons. f_equal. by apply IH. }
  unfold ParseRetentionWindow, unit_days. split.
  - cbv zeta. case_decide; [done|].
    destruct (SplitLast value) as [[digits unit]|] eqn:Hs; [|done]. apply Hsplit in Hs as ->.
    destruct (ParseInt digits) as [count|] eqn:Hp; [|done]. case_decide as Hc; [done|].
    intros Hd. exists digits, unit, count.
    repeat (case_decide; [eexists; split_and!;
      [done|done|lia|done|injection Hd as <-; rewrite ?wrap64_mul_wrap64; f_equal; ring]|]).
    done.
  - intros (digits & unit & count & days & -> & Hp & Hc & Hu & ->). cbv zeta.
    rewrite decide_False.
    2: { rewrite str_length_app. destruct digits; [done|]. simpl. lia. }
    rewrite SplitLast_app, Hp, decide_False by lia.
    repeat (case_decide; [injection Hu as <-; rewrite ?wrap64_mul_wrap64; do 2 f_equal; ring|]).
    done.
Qed.

(** Within the 292 years a duration can hold, a window is what it says. *)
Theorem ParseRetentionWindow_exact digits unit count days :
  ParseInt digits = Some count → (1 ≤ count)%Z → unit_days unit = Some days →
  (count * days ≤ 106751)%Z →
  ParseRetentionWindow (digits +:+ String unit "") = Ok (count * days * day)%Z.
Proof.
  intros Hp Hc Hu Hr. apply ParseRetentionWindow_spec.
  exists digits, unit, count, days. split_and!; [done|done|lia|done|].
  symmetry. apply wrap64_id. unfold in_int64, min_int64, max_int64, day, Hour, Minute, Second.
  assert (0 ≤ days)%Z by (unfold unit_days in Hu; repeat case_decide; simplify_eq; lia). nia.
Qed.

(** Beyond it the product wraps: 584 years is read as less than an hour. *)
Theorem ParseRetentionWindow_overflow :
  ∃ d, ParseRetentionWindow "213504d" = Ok d ∧ (0 < d < Hour)%Z.
Proof. eexists. split; [vm_compute; reflexivity|]. done. Qed.

Lemma ResolveMode_nonempty policy recovery : ResolveMode policy recovery ≠ "".
Proof. unfold ResolveMode. cbv zeta. case_decide; [done|]. by destruct recovery. Qed.
