(* ===== verification/Memory.v ===== *)
(** * Memory: pointers, slices and deep copies

    Where the code mutates an object it shares, values are not enough: a struct
    is then what it holds in memory, with pointers and slice headers, and what it
    stands for is read off the memory.  This file has the memory, the shapes of
    the generated deep copies (a pointer, a slice of structs, a slice of plain
    values) and their one law: a deep copy reads the same in the memory it
    allocated, and that memory alone. *)

From S2P Require Import Prelude.
From stdpp Require Import fin_maps.

#[local] Open Scope stdpp_scope.

(** ** The memory *)

(** The types of variables, and what a variable of each holds. *)
Class MemTypes := {
  ty : Type;
  ty_eq_dec :: EqDecision ty;
  val : ty → Type;
  zero : ∀ t, val t
}.

Definition ptr : Type := option positive.

(** A slice header.  The capacity is never used here. *)
Record slice := { sl_array : ptr; sl_off : nat; sl_len : nat }.
#[export] Instance slice_eq_dec : EqDecision slice.
Proof. solve_decision. Defined.
Definition nil_slice : slice := {| sl_array := None; sl_off := 0; sl_len := 0 |}.

Section memory.
Context `{MemTypes}.

(** A variable is an array of one. *)
Definition cell : Type := { t : ty & list (val t) }.
Abbreviation heap := (gmap positive cell).
Definition array (t : ty) (vs : list (val t)) : cell := existT t vs.

Definition as_array (t : ty) (c : cell) : option (list (val t)) :=
  match decide (projT1 c = t) with
  | left e => Some (eq_rect _ (λ t, list (val t)) (projT2 c) t e)
  | right _ => None
  end.

Definition array_at (t : ty) (h : heap) (l : positive) : option (list (val t)) := h !! l ≫= as_array t.
Definition value_at (t : ty) (h : heap) (l : positive) : option (val t) :=
  match array_at t h l with Some [v] => Some v | _ => None end.

(** The code, which panics on a nil or a wild pointer. *)
Definition go (A : Type) : Type := heap → option (heap * A).
#[global] Instance go_ret : MRet go := λ A a h, Some (h, a).
#[global] Instance go_bind : MBind go := λ A B f m h,
  match m h with None => None | Some (h, a) => f a h end.

(** [make([]T, n)], an array of zeros, and [new(T)]. *)
Definition make (t : ty) (n : nat) : go positive := λ h,
  let l := fresh (dom h) in Some (<[l := array t (replicate n (zero t))]> h, l).
Definition new (t : ty) : go positive := make t 1.

Definition load_array (t : ty) (l : positive) : go (list (val t)) := λ h, pair h <$> array_at t h l.
Definition load (t : ty) (l : positive) : go (val t) := λ h, pair h <$> value_at t h l.
Definition store_array (t : ty) (l : positive) (vs : list (val t)) : go unit := λ h,
  match array_at t h l with None => None | Some _ => Some (<[l := array t vs]> h, tt) end.
Definition store (t : ty) (l : positive) (v : val t) : go unit := store_array t l [v].

(** Indexing, which panics out of range. *)
Definition index {A} (vs : list A) (i : nat) : go A := λ h, pair h <$> vs !! i.

(** ** The shapes of a deep copy *)

(** [if in != nil { out = new(T); in.DeepCopyInto(out) }] *)
Definition copy_pointer (t : ty) (deep : val t → go (val t)) (p : ptr) : go ptr :=
  match p with
  | None => mret None
  | Some l =>
      out ← new t;
      v ← load t l;
      v ← deep v;
      store t out v;;
      mret (Some out)
  end.

(** [for i := range in { in[i].DeepCopyInto(&out[i]) }] *)
Fixpoint copy_elements (t : ty) (deep : val t → go (val t)) (src out : positive) (off i n : nat) : go unit :=
  match n with
  | O => mret tt
  | S n =>
      vs ← load_array t src;
      v ← index vs (off + i);
      v ← deep v;
      ws ← load_array t out;
      store_array t out (<[i := v]> ws);;
      copy_elements t deep src out off (S i) n
  end.

(** [if in != nil { out = make([]T, len(in)); ... }] *)
Definition copy_slice (t : ty) (deep : val t → go (val t)) (s : slice) : go slice :=
  match sl_array s with
  | None => mret nil_slice
  | Some src =>
      out ← make t (sl_len s);
      copy_elements t deep src out (sl_off s) 0 (sl_len s);;
      mret {| sl_array := Some out; sl_off := 0; sl_len := sl_len s |}
  end.

(** [if in != nil { out = make([]T, len(in)); copy(out, in) }] *)
Definition copy_flat_slice (t : ty) (s : slice) : go slice :=
  match sl_array s with
  | None => mret nil_slice
  | Some src =>
      out ← make t (sl_len s);
      vs ← load_array t src;
      store_array t out (take (sl_len s) (drop (sl_off s) vs));;
      mret {| sl_array := Some out; sl_off := 0; sl_len := sl_len s |}
  end.

(** ** What memory holds *)

(** Reading a value [T] that [M] stands for: nothing when a pointer is wild. *)
Definition reader (M T : Type) : Type := heap → M → option T.

Definition read_flat {M} : reader M M := λ _ v, Some v.

Definition read_pointer {T} (t : ty) (read : reader (val t) T) : reader ptr (option T) := λ h p,
  match p with
  | None => Some None
  | Some l => v ← value_at t h l; Some <$> read h v
  end.

Definition read_slice {T} (t : ty) (read : reader (val t) T) : reader slice (option (list T)) := λ h s,
  match sl_array s with
  | None => if decide (s = nil_slice) then Some None else None
  | Some l =>
      vs ← array_at t h l;
      if decide (sl_off s + sl_len s ≤ length vs)%nat
      then Some <$> mapM (read h) (take (sl_len s) (drop (sl_off s) vs)) else None
  end.

(** ** The law *)

(** More memory reads no less. *)
Class Mono {M T} (read : reader M T) :=
  read_mono : ∀ h h' v t, h ⊆ h' → read h v = Some t → read h' v = Some t.

(** A deep copy of what can be read does not panic and touches nothing that was
    there, and the copy reads the same from the new memory alone. *)
Class Copies {M T} (read : reader M T) (deep : M → go M) := {
  copies_mono :: Mono read;
  copies_spec h v t : read h v = Some t →
    ∃ h' v', deep v h = Some (h', v') ∧ h ⊆ h' ∧ read (h' ∖ h) v' = Some t
}.

(** ** Arrays in memory *)

Lemma as_array_array t vs : as_array t (array t vs) = Some vs.
Proof. unfold as_array, array. simpl. by rewrite (decide_True_pi (eq_refl : t = t)). Qed.

Lemma array_at_insert t h l vs : array_at t (<[l := array t vs]> h) l = Some vs.
Proof. unfold array_at. rewrite lookup_insert_eq. apply as_array_array. Qed.

Lemma array_at_weaken t h h' l vs : h ⊆ h' → array_at t h l = Some vs → array_at t h' l = Some vs.
Proof.
  intros Hs. unfold array_at. destruct (h !! l) as [c|] eqn:Hl; [|done]. by rewrite (lookup_weaken _ _ _ _ Hl Hs).
Qed.
Lemma value_at_weaken t h h' l v : h ⊆ h' → value_at t h l = Some v → value_at t h' l = Some v.
Proof.
  intros Hs. unfold value_at. destruct (array_at t h l) as [vs|] eqn:Hl; [|done]. by rewrite (array_at_weaken _ _ _ _ _ Hs Hl).
Qed.
Lemma value_at_array t h l v : value_at t h l = Some v ↔ array_at t h l = Some [v].
Proof.
  unfold value_at. destruct (array_at t h l) as [[|x [|y vs]]|]; split; try done; congruence.
Qed.

(** Variables of two types are two variables. *)
Lemma array_at_apart t t' h l l' vs vs' :
  t ≠ t' → array_at t h l = Some vs → array_at t' h l' = Some vs' → l ≠ l'.
Proof.
  intros Ht Hl Hl' ->. unfold array_at in *. destruct (h !! l') as [c|]; [|done]. simpl in *.
  unfold as_array in *. by repeat case_decide; [congruence|..].
Qed.
Lemma array_at_insert_ne t h l l' c : l ≠ l' → array_at t (<[l := c]> h) l' = array_at t h l'.
Proof. intros Hl. unfold array_at. by rewrite lookup_insert_ne. Qed.

(** ** What the copies grow *)

Lemma difference_mono_l (h h1 h2 : heap) : h1 ⊆ h2 → h1 ∖ h ⊆ h2 ∖ h.
Proof. intros Hs. apply map_subseteq_spec. intros i x. rewrite !lookup_difference_Some. intros [Hi ?]. split; [|done]. by eapply lookup_weaken. Qed.
Lemma difference_mono_r (h1 h2 h : heap) :
  (∀ i, is_Some (h1 !! i) → is_Some (h2 !! i)) → h ∖ h2 ⊆ h ∖ h1.
Proof.
  intros Hs. apply map_subseteq_spec. intros i x. rewrite !lookup_difference_Some. intros [Hi Hn]. split; [done|].
  apply eq_None_not_Some. intros Hc%Hs. rewrite Hn in Hc. by destruct Hc.
Qed.
Lemma subseteq_is_Some (h h' : heap) i : h ⊆ h' → is_Some (h !! i) → is_Some (h' !! i).
Proof. intros Hs [c Hc]. exists c. by eapply lookup_weaken. Qed.
Lemma insert_difference (h h' : heap) l c : is_Some (h !! l) → <[l := c]> h' ∖ h = h' ∖ h.
Proof.
  intros [c0 Hl]. apply map_eq. intros i. rewrite !lookup_difference.
  destruct (decide (i = l)) as [->|Hi]; [by rewrite Hl|by rewrite lookup_insert_ne].
Qed.

(** Two copies, one after the other: the first is not touched by the second, and
    both are in the new memory. *)
Lemma grow_first {M T} (read : reader M T) `{!Mono read} h h1 h2 v t :
  h1 ⊆ h2 → read (h1 ∖ h) v = Some t → read (h2 ∖ h) v = Some t.
Proof. intros Hs. apply read_mono. by apply difference_mono_l. Qed.
Lemma grow_second {M T} (read : reader M T) `{!Mono read} h h1 h2 v t :
  h ⊆ h1 → read (h2 ∖ h1) v = Some t → read (h2 ∖ h) v = Some t.
Proof. intros Hs. apply read_mono. apply difference_mono_r. intros i. by apply subseteq_is_Some. Qed.

Lemma make_spec t n h : ∃ l, make t n h = Some (<[l := array t (replicate n (zero t))]> h, l) ∧ h !! l = None.
Proof. eexists. split; [done|]. apply not_elem_of_dom, is_fresh. Qed.

(** A variable that is new since [h]. *)
Lemma fresh_in_difference (h h' : heap) l c : h !! l = None → (<[l := c]> h' ∖ h) !! l = Some c.
Proof. intros Hn. rewrite lookup_difference_Some. by rewrite lookup_insert_eq. Qed.

(** Filling a new variable. *)
Lemma fill_subseteq (h h' : heap) l c c0 : h !! l = None → <[l := c0]> h ⊆ h' → h ⊆ <[l := c]> h'.
Proof.
  intros Hn Hs. apply insert_subseteq_r; [done|]. etrans; [|done]. by apply insert_subseteq.
Qed.
Lemma fill_difference (h h' : heap) l c c0 :
  h !! l = None → h' ∖ <[l := c0]> h ⊆ <[l := c]> h' ∖ h.
Proof.
  intros Hn. apply map_subseteq_spec. intros i x. rewrite !lookup_difference_Some.
  intros [Hi Hni]. apply lookup_insert_None in Hni as [Hni Hne]. by rewrite lookup_insert_ne.
Qed.

#[global] Instance read_flat_mono {M} : Mono (@read_flat M).
Proof. by intros h h' v t _. Qed.
#[global] Instance read_flat_copies {M} : Copies (@read_flat M) mret.
Proof. split; [apply _|]. intros h v t [= <-]. by exists h, v. Qed.

#[global] Instance read_pointer_mono {T} t (read : reader (val t) T) : Mono read → Mono (read_pointer t read).
Proof.
  intros Hm h h' [l|] x Hs; [|done]. unfold read_pointer.
  destruct (value_at t h l) as [v|] eqn:Hv; [|done]. rewrite (value_at_weaken _ _ _ _ _ Hs Hv). simpl.
  destruct (read h v) as [y|] eqn:Hy; [|done]. by rewrite (read_mono _ _ _ _ Hs Hy).
Qed.

Lemma mapM_read_mono {M T} (read : reader M T) `{!Mono read} h h' vs ts :
  h ⊆ h' → mapM (read h) vs = Some ts → mapM (read h') vs = Some ts.
Proof.
  intros Hs. rewrite !mapM_Some. intros Hf. eapply Forall2_impl; [done|]. intros v t. by apply read_mono.
Qed.

#[global] Instance read_slice_mono {T} t (read : reader (val t) T) : Mono read → Mono (read_slice t read).
Proof.
  intros Hm h h' s x Hs. unfold read_slice. destruct (sl_array s) as [l|]; [|done].
  destruct (array_at t h l) as [vs|] eqn:Hv; [|done]. rewrite (array_at_weaken _ _ _ _ _ Hs Hv). simpl.
  case_decide; [|done]. destruct (mapM (read h) _) as [ts|] eqn:Ht; [|done].
  by rewrite (mapM_read_mono _ _ _ _ _ Hs Ht).
Qed.

(** ** Every shape is a deep copy when what it copies is *)

Lemma store_array_spec t l vs h ws :
  array_at t h l = Some ws → store_array t l vs h = Some (<[l := array t vs]> h, tt).
Proof. unfold store_array. by intros ->. Qed.

#[global] Instance copy_pointer_copies {T} t (read : reader (val t) T) deep :
  Copies read deep → Copies (read_pointer t read) (copy_pointer t deep).
Proof.
  intros Hc. split; [apply _|]. intros h [l|] x Hr; [|by exists h, None; injection Hr as <-].
  unfold read_pointer in Hr. destruct (value_at t h l) as [v|] eqn:Hv; [|done]. simpl in Hr.
  destruct (read h v) as [y|] eqn:Hy; [|done]. injection Hr as <-.
  unfold copy_pointer, new, mbind, go_bind. destruct (make_spec t 1 h) as (out & -> & Hout).
  set (h1 := <[out := _]> h). assert (h ⊆ h1) as H01 by by apply insert_subseteq.
  unfold load. rewrite (value_at_weaken _ _ _ _ _ H01 Hv). simpl.
  destruct (copies_spec h1 v y (read_mono _ _ _ _ H01 Hy)) as (h2 & v' & -> & H12 & Hy').
  unfold store. erewrite store_array_spec by (eapply array_at_weaken; [done|]; apply array_at_insert).
  eexists _, (Some out). split; [done|]. split; [by eapply fill_subseteq|].
  unfold read_pointer, value_at, array_at. rewrite fresh_in_difference by done. simpl. rewrite as_array_array.
  simpl. by rewrite (read_mono _ _ _ _ (fill_difference _ _ _ _ _ Hout) Hy').
Qed.

(** The loop has copied the first [i] elements; [hm] is the memory it started
    from, without what the array holds. *)
Lemma copy_elements_spec {T} t (read : reader (val t) T) deep `{!Copies read deep} src out off vs ts n :
  ∀ i (h0 hm h : heap) ws done_,
  (∀ j, is_Some (hm !! j) → is_Some (h !! j)) → is_Some (hm !! out) →
  h0 ⊆ h → h0 !! out = None → array_at t h0 src = Some vs →
  array_at t h out = Some ws → length ws = (i + n)%nat →
  Forall2 (λ v x, read h0 v = Some x) (take n (drop (off + i) vs)) ts → (off + i + n ≤ length vs)%nat →
  Forall2 (λ v x, read (h ∖ hm) v = Some x) (take i ws) done_ →
  ∃ h' ws', copy_elements t deep src out off i n h = Some (h', tt) ∧ h0 ⊆ h'
    ∧ array_at t h' out = Some ws' ∧ length ws' = (i + n)%nat
    ∧ Forall2 (λ v x, read (h' ∖ hm) v = Some x) ws' (done_ ++ ts).
Proof.
  revert ts. induction n as [|n IH]; intros ts i h0 hm h ws done_ Hdom Hm H0 Hout Hsrc Hws Hlen Hts Hle Hdone.
  - apply Forall2_nil_inv_l in Hts as ->. exists h, ws. rewrite app_nil_r. rewrite take_ge in Hdone by lia.
    by split_and!.
  - simpl. unfold mbind, go_bind, load_array. rewrite (array_at_weaken _ _ _ _ _ H0 Hsrc). simpl.
    destruct (lookup_lt_is_Some_2 vs (off + i)) as [v Hv]; [lia|].
    rewrite (drop_S _ _ _ Hv) in Hts. simpl in Hts. apply Forall2_cons_inv_l in Hts as (x & ts' & Hx & Hts & ->).
    unfold index. rewrite Hv. simpl.
    destruct (copies_spec h v x (read_mono _ _ _ _ H0 Hx)) as (h1 & v' & -> & H1 & Hx').
    rewrite (array_at_weaken _ _ _ _ _ H1 Hws). simpl.
    erewrite store_array_spec by by eapply array_at_weaken.
    set (h2 := <[out := _]> h1). assert (h2 ∖ hm = h1 ∖ hm) as Hd by by apply insert_difference.
    destruct (IH ts' (S i) h0 hm h2 (<[i := v']> ws) (done_ ++ [x])) as (h' & ws' & Hrun & ? & ? & ? & Hres).
    + intros j Hj. apply lookup_insert_is_Some'. right. eapply subseteq_is_Some; [done|by apply Hdom].
    + done.
    + apply insert_subseteq_r; [done|by etrans].
    + done.
    + done.
    + apply array_at_insert.
    + rewrite length_insert. lia.
    + by replace (off + S i)%nat with (S (off + i)) by lia.
    + lia.
    + rewrite Hd. rewrite (take_S_r _ _ v') by (apply list_lookup_insert_eq; lia).
      apply Forall2_app.
      * rewrite take_insert, decide_False by lia. eapply Forall2_impl; [done|]. intros a y. apply read_mono. by apply difference_mono_l.
      * repeat constructor. revert Hx'. apply read_mono, difference_mono_r, Hdom.
    + exists h', ws'. rewrite <-app_assoc in Hres. split_and!; try done. lia.
Qed.

Lemma read_slice_Some {T} t (read : reader (val t) T) h s x :
  read_slice t read h s = Some x →
  x = None ∧ s = nil_slice
  ∨ ∃ l vs ts, sl_array s = Some l ∧ array_at t h l = Some vs ∧ (sl_off s + sl_len s ≤ length vs)%nat
      ∧ Forall2 (λ v x, read h v = Some x) (take (sl_len s) (drop (sl_off s) vs)) ts ∧ x = Some ts.
Proof.
  unfold read_slice. destruct (sl_array s) as [l|] eqn:Hl.
  - destruct (array_at t h l) as [vs|] eqn:Hv; [|done]. simpl. case_decide; [|done].
    destruct (mapM _ _) as [ts|] eqn:Ht; [|done]. intros [= <-]. right. exists l, vs, ts. by rewrite <-mapM_Some.
  - case_decide; [|done]. intros [= <-]. by left.
Qed.

Lemma read_flat_Forall2 {M} h (vs ts : list M) : Forall2 (λ v x, read_flat h v = Some x) vs ts → ts = vs.
Proof. induction 1 as [|v x vs ts [= ->] _ ->]; done. Qed.

Lemma read_slice_length {T} t (read : reader (val t) T) h s x :
  read_slice t read h s = Some x → length (default [] x) = sl_len s.
Proof.
  intros [[-> ->]|(l & vs & ts & _ & _ & Hle & Hts & ->)]%read_slice_Some; [done|].
  apply Forall2_length in Hts. simpl. rewrite <-Hts, length_take, length_drop. lia.
Qed.

(** A slice of plain values does not see a write to a variable of another type. *)
Lemma read_slice_write {T} t t' (read : reader (val t) T) h l c s (vs : list (val t')) x :
  t ≠ t' → (∀ h h', read h = read h') → array_at t' h l = Some vs → read_slice t read h s = Some x →
  read_slice t read (<[l := c]> h) s = Some x.
Proof.
  intros Ht Hflat Hl Hr. pose proof Hr as [[-> ->]|(a & vs' & ts & Hs & Ha & _)]%read_slice_Some; [done|].
  rewrite <-Hr. unfold read_slice. rewrite Hs, (Hflat _ h), array_at_insert_ne; [done|].
  apply not_eq_sym. by eapply array_at_apart.
Qed.

Lemma read_pointer_intro {T} t (read : reader (val t) T) h l v x :
  array_at t h l = Some [v] → read h v = Some x → read_pointer t read h (Some l) = Some (Some x).
Proof. intros Hv Hr. unfold read_pointer. rewrite (proj2 (value_at_array _ _ _ _) Hv). simpl. by rewrite Hr. Qed.

Lemma read_pointer_write {T} t t' (read : reader (val t) T) h l c p (vs : list (val t')) x :
  t ≠ t' → (∀ h h', read h = read h') → array_at t' h l = Some vs → read_pointer t read h p = Some x →
  read_pointer t read (<[l := c]> h) p = Some x.
Proof.
  intros Ht Hflat Hl. unfold read_pointer. destruct p as [q|]; [|done].
  destruct (value_at t h q) as [v|] eqn:Hv; [|done]. apply value_at_array in Hv.
  rewrite (Hflat (<[l := c]> h) h). intros Hr. rewrite (proj2 (value_at_array t (<[l := c]> h) q v)); [done|].
  rewrite array_at_insert_ne; [done|]. apply not_eq_sym. by eapply array_at_apart.
Qed.

(** A new array that is the whole of a slice. *)
Lemma read_whole_slice {T} t (read : reader (val t) T) h l vs ts :
  array_at t h l = Some vs → Forall2 (λ v x, read h v = Some x) vs ts →
  read_slice t read h {| sl_array := Some l; sl_off := 0; sl_len := length vs |} = Some (Some ts).
Proof.
  intros Hv Hts. unfold read_slice. simpl. rewrite Hv. simpl. rewrite decide_True by lia.
  rewrite drop_0, firstn_all. apply mapM_Some in Hts. by rewrite Hts.
Qed.

#[global] Instance copy_slice_copies {T} t (read : reader (val t) T) deep :
  Copies read deep → Copies (read_slice t read) (copy_slice t deep).
Proof.
  intros Hc. split; [apply _|]. intros h s x [[-> ->]|(src & vs & ts & Hs & Hv & Hle & Hts & ->)]%read_slice_Some.
  { by exists h, nil_slice. }
  unfold copy_slice, mbind, go_bind. rewrite Hs. destruct (make_spec t (sl_len s) h) as (out & -> & Hout).
  set (h1 := <[out := _]> h).
  destruct (copy_elements_spec t read deep src out (sl_off s) vs ts (sl_len s) 0 h h1 h1
    (replicate (sl_len s) (zero t)) []) as (h' & ws' & -> & Hsub & Hws & Hlen & Hres); try done.
  - unfold h1. rewrite lookup_insert_eq. by eexists.
  - by apply insert_subseteq.
  - apply array_at_insert.
  - by rewrite length_replicate.
  - by rewrite Nat.add_0_r.
  - lia.
  - eexists h', _. split; [done|]. split; [done|]. simpl in Hlen. rewrite <-Hlen. apply read_whole_slice.
    + unfold array_at in Hws |- *. destruct (h' !! out) as [c|] eqn:Hc'; [|done].
      by rewrite (proj2 (lookup_difference_Some h' h out c)).
    + eapply Forall2_impl; [done|]. intros v y. apply read_mono, difference_mono_r. intros j Hj.
      by apply lookup_insert_is_Some'; right.
Qed.

#[global] Instance copy_flat_slice_copies t : Copies (read_slice t read_flat) (copy_flat_slice t).
Proof.
  split; [apply _|]. intros h s x [[-> ->]|(src & vs & ts & Hs & Hv & Hle & Hts & ->)]%read_slice_Some.
  { by exists h, nil_slice. }
  unfold copy_flat_slice, mbind, go_bind. rewrite Hs. destruct (make_spec t (sl_len s) h) as (out & -> & Hout).
  set (h1 := <[out := _]> h). assert (h ⊆ h1) as H01 by by apply insert_subseteq.
  unfold load_array. rewrite (array_at_weaken _ _ _ _ _ H01 Hv). simpl.
  erewrite store_array_spec by apply array_at_insert.
  eexists _, _. split; [done|]. split; [by apply (fill_subseteq _ _ _ _ _ Hout (reflexivity h1))|].
  set (ws := take _ _) in *. assert (length ws = sl_len s) as <- by (unfold ws; rewrite length_take, length_drop; lia).
  apply read_whole_slice; [|done]. unfold array_at. rewrite fresh_in_difference by done. apply as_array_array.
Qed.

(** ** A copy and its original are apart *)

(** Copying a pointer does not panic, gives nil for nil and a new variable
    otherwise, and writes to nothing that was there.  Whatever is later written
    to what was there, the copy reads the same; and whatever is written to the
    copy, the original does. *)
Definition apart {T} (t : ty) (read : reader (val t) T) (copy : ptr → go ptr) : Prop :=
  ∀ h p x, read_pointer t read h p = Some x →
    ∃ h' p', copy p h = Some (h', p') ∧ h ⊆ h'
      ∧ match p, p' with
        | None, None => True
        | Some _, Some l' => h !! l' = None
        | _, _ => False
        end
      ∧ (∀ later, h' ∖ h ⊆ later → read_pointer t read later p' = Some x)
      ∧ (∀ later, h ⊆ later → read_pointer t read later p = Some x).

Lemma copy_pointer_apart {T} (t : ty) (read : reader (val t) T) deep :
  Copies read deep → apart t read (copy_pointer t deep).
Proof.
  intros Hc h p x Hr. pose proof (read_pointer_mono t read _) as Hm.
  destruct (copies_spec (deep := copy_pointer t deep) h p x Hr) as (h' & p' & Hcopy & Hs & Hr').
  exists h', p'. split_and!; [done|done| |intros later Hl; by eapply Hm|intros later Hl; by eapply Hm].
  destruct p as [l|], p' as [l'|]; try done.
  - unfold read_pointer in Hr'. destruct (value_at t (h' ∖ h) l') as [v|] eqn:Hv; [|done].
    apply value_at_array in Hv. unfold array_at in Hv. destruct ((h' ∖ h) !! l') as [c|] eqn:Hl; [|done].
    by apply lookup_difference_Some in Hl as [_ ?].
  - injection Hr' as <-. by unfold read_pointer in Hr; destruct (value_at t h l) as [v|]; [|done];
      simpl in Hr; destruct (read h v).
Qed.

(** ** Writing in place *)

(** The memory but for the variables [X], and a run that writes at most to those
    and to new ones. *)
Definition without (X : gset positive) (h : heap) : heap := filter (λ kv, kv.1 ∉ X) h.
Definition keeps (X : gset positive) (h h' : heap) : Prop := without X h ⊆ without X h'.

#[global] Instance keeps_preorder X : PreOrder (keeps X).
Proof. unfold keeps. split; [intros h; reflexivity|intros x y z; apply transitivity]. Qed.

Lemma without_subseteq X h : without X h ⊆ h.
Proof. apply map_filter_subseteq. Qed.

Lemma subseteq_keeps X h h' : h ⊆ h' → keeps X h h'.
Proof. apply map_filter_subseteq_mono. Qed.

Lemma keeps_intro X h h' : (∀ l c, l ∉ X → h !! l = Some c → h' !! l = Some c) → keeps X h h'.
Proof.
  intros Hk. apply map_subseteq_spec. intros l c [Hl Hx]%map_lookup_filter_Some. apply map_lookup_filter_Some.
  split; [by apply Hk|done].
Qed.

Lemma write_keeps X h l c : l ∈ X → keeps X h (<[l := c]> h).
Proof. intros Hl. apply keeps_intro. intros l' c' Hx Hc. rewrite lookup_insert_ne; [done|]. by intros ->. Qed.

Lemma keeps_read {M T} (read : reader M T) `{!Mono read} X h h' v t :
  keeps X h h' → read (without X h) v = Some t → read (without X h') v = Some t.
Proof. intros Hk. by apply read_mono. Qed.

Lemma read_without {M T} (read : reader M T) `{!Mono read} X h v t :
  read (without X h) v = Some t → read h v = Some t.
Proof. apply read_mono, without_subseteq. Qed.

(** What is new and stays out of [X]. *)
Lemma without_new X h l c : l ∉ X → <[l := c]> (without X h) = without X (<[l := c]> h).
Proof. intros Hl. unfold without. by rewrite map_filter_insert_True. Qed.

(** Allocating and filling. *)
Lemma make_fill t n vs h :
  ∃ l, h !! l = None ∧ ∀ A (k : positive → go A),
    (l ← make t n; store_array t l vs;; k l) h = k l (<[l := array t vs]> h).
Proof.
  destruct (make_spec t n h) as (l & Hm & Hl). exists l. split; [done|]. intros A k. unfold mbind, go_bind.
  rewrite Hm. erewrite store_array_spec by apply array_at_insert. by rewrite insert_insert_eq.
Qed.

(** ** Structs: their fields one after the other *)

Lemma bind_mono {A B} (m m' : option A) (f f' : A → option B) t :
  (∀ a, m = Some a → m' = Some a) → (∀ a, f a = Some t → f' a = Some t) → m ≫= f = Some t → m' ≫= f' = Some t.
Proof. intros Hm Hf. destruct m as [a|]; [|done]. rewrite (Hm a eq_refl). apply Hf. Qed.

Lemma bind_intro {A B} (m : option A) (f : A → option B) a t : m = Some a → f a = Some t → m ≫= f = Some t.
Proof. by intros ->. Qed.

(** Running on from [h], what is returned reads as [t] in what is new since
    [h0]. *)
Definition grows {M T} (read : reader M T) (h0 h : heap) (m : go M) (t : T) : Prop :=
  ∃ h' v', m h = Some (h', v') ∧ h ⊆ h' ∧ read (h' ∖ h0) v' = Some t.

Lemma Copies_grows {M T} (read : reader M T) deep :
  Mono read → (∀ h v t, read h v = Some t → grows read h h (deep v) t) → Copies read deep.
Proof. intros Hm Hg. split; [done|]. apply Hg. Qed.

Lemma grows_ret {M T} (read : reader M T) h0 h v t : read (h ∖ h0) v = Some t → grows read h0 h (mret v) t.
Proof. intros Hr. by exists h, v. Qed.

(** A field is copied, and those copied before are as they were. *)
Lemma grows_bind {M T N U} (read : reader M T) (r : reader N U) d `{!Copies r d} h0 h v u (k : N → go M) t :
  h0 ⊆ h → r h0 v = Some u →
  (∀ h1 v', h0 ⊆ h1 → h ∖ h0 ⊆ h1 ∖ h0 → r (h1 ∖ h0) v' = Some u → grows read h0 h1 (k v') t) →
  grows read h0 h (d v ≫= k) t.
Proof.
  intros H0 Hr Hk. destruct (copies_spec h v u (read_mono _ _ _ _ H0 Hr)) as (h1 & v' & Hd & Hs & Hv).
  destruct (Hk h1 v') as (h' & x & Hx & Hs' & Ht).
  - exact (transitivity H0 Hs).
  - by apply difference_mono_l.
  - exact (grow_second r _ _ _ _ _ H0 Hv).
  - exists h', x. unfold mbind, go_bind. rewrite Hd. split_and!; [done|exact (transitivity Hs Hs')|done].
Qed.

End memory.

Abbreviation heap := (gmap positive cell).

(** A struct is deep-copied field by field: read the fields of the original, copy
    them in turn, and read the copy. *)
Ltac read_fields H :=
  match type of H with
  | ?m ≫= ?f = Some _ =>
      let E := fresh "Hf" in destruct m eqn:E; [cbn [mbind option_bind] in H; read_fields H|discriminate H]
  | Some _ = Some _ => injection H as <-
  end.
Ltac carry_fields Hs :=
  repeat match goal with
  | Hv : ?r ?h ?v = Some ?u |- _ =>
      match type of Hs with h ⊆ _ => apply (read_mono _ _ _ _ Hs) in Hv end
  end.
Ltac copy_fields :=
  match goal with
  | |- grows _ _ _ (mret _) _ => apply grows_ret
  | Hf : ?r ?h0 ?v = Some _ |- grows _ ?h0 ?h (?d ?v ≫= _) _ =>
      let Hs := fresh "Hs" in let H0 := fresh "Hs" in let Hv := fresh "Hv" in
      eapply (grows_bind _ r d);
      [done|exact Hf|intros ? ? H0 Hs Hv; clear Hf; carry_fields Hs; clear Hs; copy_fields]
  end.
Ltac deep_copy read deep :=
  apply Copies_grows;
  [ intros ? ? ? ? ?; unfold read; repeat (apply bind_mono; [intros ?; by apply read_mono|intros ?]); done
  | let Hr := fresh "Hr" in intros ? ? ? Hr; unfold read in Hr; read_fields Hr; unfold deep; copy_fields;
    unfold read; repeat (eapply bind_intro; [eassumption|]); reflexivity ].
