(* ===== verification/DeepCopy.v ===== *)
(** * api/v1/zz_generated.deepcopy.go: deep copies of the API types

    The structs as they lie in memory, with pointers and slice headers, and the
    generated functions over them.  The types of apimachinery and their own deep
    copies are parameters. *)

From S2P Require Import Prelude GoTime Api Memory.

#[local] Open Scope stdpp_scope.

(** ** The structs

    Over what a pointer and a slice are: in memory a [ptr] and a [slice], and
    what they stand for an [option] and an optional list, since a nil slice is
    not an empty one. *)

Section structs.
Context (Ptr Slice : Type → Type) (TypeMeta ObjectMeta ListMeta : Type).

Record g_S3Credentials := {
  g_AccessKeyID : Ptr SecretKeySelector;
  g_SecretAccessKey : Ptr SecretKeySelector;
  g_Region : Ptr SecretKeySelector;
  g_SessionToken : Ptr SecretKeySelector;
  g_InheritFromIAMRole : bool
}.

Record g_ObjectStoreConfiguration := {
  g_DestinationPath : string;
  g_EndpointURL : string;
  g_EndpointCA : Ptr SecretKeySelector;
  g_S3 : Ptr g_S3Credentials
}.

(** [BarmanObjectStoreRef] is the name it holds. *)
Record g_ConfigStoreSpec := {
  g_DerivedFrom : Ptr string;
  g_Configuration : Ptr g_ObjectStoreConfiguration;
  g_Retention : string;
  g_CaptureGroups : Slice string;
  g_Prefix : string
}.

Record g_ResolvedStore := {
  g_rs_DestinationPath : string;
  g_rs_EndpointURL : string;
  g_rs_Provider : string;
  g_rs_Retention : string;
  g_rs_CaptureGroups : Slice string;
  g_rs_Source : string;
  g_rs_ObservedAt : Ptr Z
}.

Record g_ConfigStoreStatus := {
  g_Resolved : Ptr g_ResolvedStore;
  g_Conditions : Slice Condition
}.

Record g_ConfigStore := {
  g_cs_TypeMeta : TypeMeta;
  g_cs_ObjectMeta : ObjectMeta;
  g_cs_Spec : g_ConfigStoreSpec;
  g_cs_Status : g_ConfigStoreStatus
}.

Record g_ConfigStoreList := {
  g_csl_TypeMeta : TypeMeta;
  g_csl_ListMeta : ListMeta;
  g_csl_Items : Slice g_ConfigStore
}.

Record g_RestoreSelect := {
  g_Mode : string;
  g_Generation : Ptr Z;
  g_Timestamp : Ptr Z;
  g_OnUnresolvable : string
}.

Record g_SkipRule := {
  g_Group : string;
  g_Path : string;
  g_KeyPrefix : string;
  g_Except : Slice string
}.

Record g_RestorePolicySpec := {
  g_Select : g_RestoreSelect;
  g_Skip : Slice g_SkipRule;
  g_Transform : Slice TransformRule
}.

Record g_RestorePolicyStatus := { g_rps_Conditions : Slice Condition }.

Record g_RestorePolicy := {
  g_rp_TypeMeta : TypeMeta;
  g_rp_ObjectMeta : ObjectMeta;
  g_rp_Spec : g_RestorePolicySpec;
  g_rp_Status : g_RestorePolicyStatus
}.

Record g_RestorePolicyList := {
  g_rpl_TypeMeta : TypeMeta;
  g_rpl_ListMeta : ListMeta;
  g_rpl_Items : Slice g_RestorePolicy
}.

End structs.

Abbreviation Pointers := (λ _ : Type, ptr).
Abbreviation Slices := (λ _ : Type, slice).
Abbreviation Lists := (λ T : Type, option (list T)).

(** ** apimachinery *)

(** Its structs, and the types of the variables only it allocates. *)
Class MetaTypes := {
  TypeMeta : Type;
  ObjectMeta : Type;
  ListMeta : Type;
  foreign : Type;
  foreign_eq_dec :: EqDecision foreign;
  foreign_val : foreign → Type;
  zero_TypeMeta : TypeMeta;
  zero_ObjectMeta : ObjectMeta;
  zero_ListMeta : ListMeta;
  zero_foreign : ∀ t, foreign_val t
}.

Section types.
Context `{MetaTypes}.

Inductive go_type :=
| TString | TInt64 | TTime | TBarmanObjectStoreRef | TSecretKeySelector | TS3Credentials
| TObjectStoreConfiguration | TConfigStoreSpec | TResolvedStore | TCondition | TConfigStoreStatus | TConfigStore
| TConfigStoreList | TRestoreSelect | TSkipRule | TTransformRule | TRestorePolicySpec | TRestorePolicyStatus
| TRestorePolicy | TRestorePolicyList | TForeign (t : foreign).
#[global] Instance go_type_eq_dec : EqDecision go_type.
Proof. solve_decision. Defined.

Definition go_val (t : go_type) : Type :=
  match t with
  | TString | TBarmanObjectStoreRef => string
  | TInt64 | TTime => Z
  | TSecretKeySelector => SecretKeySelector
  | TS3Credentials => g_S3Credentials Pointers
  | TObjectStoreConfiguration => g_ObjectStoreConfiguration Pointers
  | TConfigStoreSpec => g_ConfigStoreSpec Pointers Slices
  | TResolvedStore => g_ResolvedStore Pointers Slices
  | TCondition => Condition
  | TConfigStoreStatus => g_ConfigStoreStatus Pointers Slices
  | TConfigStore => g_ConfigStore Pointers Slices TypeMeta ObjectMeta
  | TConfigStoreList => g_ConfigStoreList Pointers Slices TypeMeta ObjectMeta ListMeta
  | TRestoreSelect => g_RestoreSelect Pointers
  | TSkipRule => g_SkipRule Slices
  | TTransformRule => TransformRule
  | TRestorePolicySpec => g_RestorePolicySpec Pointers Slices
  | TRestorePolicyStatus => g_RestorePolicyStatus Slices
  | TRestorePolicy => g_RestorePolicy Pointers Slices TypeMeta ObjectMeta
  | TRestorePolicyList => g_RestorePolicyList Pointers Slices TypeMeta ObjectMeta ListMeta
  | TForeign t => foreign_val t
  end.

Definition zero_S3Credentials : g_S3Credentials Pointers :=
  {| g_AccessKeyID := None; g_SecretAccessKey := None; g_Region := None; g_SessionToken := None;
     g_InheritFromIAMRole := false |}.
Definition zero_ObjectStoreConfiguration : g_ObjectStoreConfiguration Pointers :=
  {| g_DestinationPath := ""; g_EndpointURL := ""; g_EndpointCA := None; g_S3 := None |}.
Definition zero_ConfigStoreSpec : g_ConfigStoreSpec Pointers Slices :=
  {| g_DerivedFrom := None; g_Configuration := None; g_Retention := ""; g_CaptureGroups := nil_slice;
     g_Prefix := "" |}.
Definition zero_ResolvedStore : g_ResolvedStore Pointers Slices :=
  {| g_rs_DestinationPath := ""; g_rs_EndpointURL := ""; g_rs_Provider := ""; g_rs_Retention := "";
     g_rs_CaptureGroups := nil_slice; g_rs_Source := ""; g_rs_ObservedAt := None |}.
Definition zero_Condition : Condition :=
  {| cond_Type := ""; cond_Status := ""; cond_ObservedGeneration := 0; cond_LastTransitionTime := zero_time;
     cond_Reason := ""; cond_Message := "" |}.
Definition zero_ConfigStoreStatus : g_ConfigStoreStatus Pointers Slices :=
  {| g_Resolved := None; g_Conditions := nil_slice |}.
Definition zero_ConfigStore : g_ConfigStore Pointers Slices TypeMeta ObjectMeta :=
  {| g_cs_TypeMeta := zero_TypeMeta; g_cs_ObjectMeta := zero_ObjectMeta;
     g_cs_Spec := zero_ConfigStoreSpec; g_cs_Status := zero_ConfigStoreStatus |}.
Definition zero_RestoreSelect : g_RestoreSelect Pointers :=
  {| g_Mode := ""; g_Generation := None; g_Timestamp := None; g_OnUnresolvable := "" |}.
Definition zero_RestorePolicySpec : g_RestorePolicySpec Pointers Slices :=
  {| g_Select := zero_RestoreSelect; g_Skip := nil_slice; g_Transform := nil_slice |}.
Definition zero_RestorePolicyStatus : g_RestorePolicyStatus Slices := {| g_rps_Conditions := nil_slice |}.
Definition zero_RestorePolicy : g_RestorePolicy Pointers Slices TypeMeta ObjectMeta :=
  {| g_rp_TypeMeta := zero_TypeMeta; g_rp_ObjectMeta := zero_ObjectMeta;
     g_rp_Spec := zero_RestorePolicySpec; g_rp_Status := zero_RestorePolicyStatus |}.

Definition go_zero (t : go_type) : go_val t :=
  match t with
  | TString | TBarmanObjectStoreRef => ""
  | TInt64 => 0%Z
  | TTime => zero_time
  | TSecretKeySelector => {| sel_Name := ""; sel_Key := "" |}
  | TS3Credentials => zero_S3Credentials
  | TObjectStoreConfiguration => zero_ObjectStoreConfiguration
  | TConfigStoreSpec => zero_ConfigStoreSpec
  | TResolvedStore => zero_ResolvedStore
  | TCondition => zero_Condition
  | TConfigStoreStatus => zero_ConfigStoreStatus
  | TConfigStore => zero_ConfigStore
  | TConfigStoreList =>
      {| g_csl_TypeMeta := zero_TypeMeta; g_csl_ListMeta := zero_ListMeta; g_csl_Items := nil_slice |}
  | TRestoreSelect => zero_RestoreSelect
  | TSkipRule => {| g_Group := ""; g_Path := ""; g_KeyPrefix := ""; g_Except := nil_slice |}
  | TTransformRule => {| tr_Path := ""; tr_OnMissing := ""; tr_Expression := "" |}
  | TRestorePolicySpec => zero_RestorePolicySpec
  | TRestorePolicyStatus => zero_RestorePolicyStatus
  | TRestorePolicy => zero_RestorePolicy
  | TRestorePolicyList =>
      {| g_rpl_TypeMeta := zero_TypeMeta; g_rpl_ListMeta := zero_ListMeta; g_rpl_Items := nil_slice |}
  | TForeign t => zero_foreign t
  end.

#[global] Instance api_types : MemTypes := {| ty := go_type; val := go_val; zero := go_zero |}.
End types.
Canonical api_types.

(** The deep copies of apimachinery, and what its structs stand for.  They are
    documented to be deep: a copy shares nothing with what it copies. *)
Class MetaV1 `{MetaTypes} := {
  ObjectMeta_tree : Type;
  ListMeta_tree : Type;
  ObjectMeta_read : reader ObjectMeta ObjectMeta_tree;
  ListMeta_read : reader ListMeta ListMeta_tree;
  ObjectMeta_DeepCopyInto : ObjectMeta → go ObjectMeta;
  ListMeta_DeepCopyInto : ListMeta → go ListMeta;
  Condition_DeepCopyInto : Condition → go Condition;
  Time_DeepCopy : ptr → go ptr;
  ObjectMeta_copies :: Copies ObjectMeta_read ObjectMeta_DeepCopyInto;
  ListMeta_copies :: Copies ListMeta_read ListMeta_DeepCopyInto;
  Condition_copies :: Copies read_flat Condition_DeepCopyInto;
  Time_copies :: Copies (read_pointer TTime read_flat) Time_DeepCopy
}.

(** ** The generated functions *)

Section deepcopy.
Context `{MetaV1}.

Definition BarmanObjectStoreRef_DeepCopyInto (in_ : val TBarmanObjectStoreRef) : go (val TBarmanObjectStoreRef) :=
  mret in_.
Definition BarmanObjectStoreRef_DeepCopy (in_ : ptr) : go ptr :=
  copy_pointer TBarmanObjectStoreRef BarmanObjectStoreRef_DeepCopyInto in_.

Definition S3Credentials_DeepCopyInto (in_ : val TS3Credentials) : go (val TS3Credentials) :=
  AccessKeyID ← copy_pointer TSecretKeySelector mret (g_AccessKeyID _ in_);
  SecretAccessKey ← copy_pointer TSecretKeySelector mret (g_SecretAccessKey _ in_);
  Region ← copy_pointer TSecretKeySelector mret (g_Region _ in_);
  SessionToken ← copy_pointer TSecretKeySelector mret (g_SessionToken _ in_);
  mret {| g_AccessKeyID := AccessKeyID; g_SecretAccessKey := SecretAccessKey; g_Region := Region;
          g_SessionToken := SessionToken; g_InheritFromIAMRole := g_InheritFromIAMRole _ in_ |}.
Definition S3Credentials_DeepCopy (in_ : ptr) : go ptr := copy_pointer TS3Credentials S3Credentials_DeepCopyInto in_.

Definition ObjectStoreConfiguration_DeepCopyInto (in_ : val TObjectStoreConfiguration)
    : go (val TObjectStoreConfiguration) :=
  EndpointCA ← copy_pointer TSecretKeySelector mret (g_EndpointCA _ in_);
  S3Credentials ← copy_pointer TS3Credentials S3Credentials_DeepCopyInto (g_S3 _ in_);
  mret {| g_DestinationPath := g_DestinationPath _ in_; g_EndpointURL := g_EndpointURL _ in_;
          g_EndpointCA := EndpointCA; g_S3 := S3Credentials |}.
Definition ObjectStoreConfiguration_DeepCopy (in_ : ptr) : go ptr :=
  copy_pointer TObjectStoreConfiguration ObjectStoreConfiguration_DeepCopyInto in_.

Definition ConfigStoreSpec_DeepCopyInto (in_ : val TConfigStoreSpec) : go (val TConfigStoreSpec) :=
  DerivedFrom ← copy_pointer TBarmanObjectStoreRef mret (g_DerivedFrom _ _ in_);
  Configuration ← copy_pointer TObjectStoreConfiguration ObjectStoreConfiguration_DeepCopyInto (g_Configuration _ _ in_);
  CaptureGroups ← copy_flat_slice TString (g_CaptureGroups _ _ in_);
  mret {| g_DerivedFrom := DerivedFrom; g_Configuration := Configuration; g_Retention := g_Retention _ _ in_;
          g_CaptureGroups := CaptureGroups; g_Prefix := g_Prefix _ _ in_ |}.
Definition ConfigStoreSpec_DeepCopy (in_ : ptr) : go ptr :=
  copy_pointer TConfigStoreSpec ConfigStoreSpec_DeepCopyInto in_.

(** [if in != nil { out = in.DeepCopy() }] *)
Definition copy_time (in_ : ptr) : go ptr :=
  match in_ with None => mret None | Some _ => Time_DeepCopy in_ end.

Definition ResolvedStore_DeepCopyInto (in_ : val TResolvedStore) : go (val TResolvedStore) :=
  CaptureGroups ← copy_flat_slice TString (g_rs_CaptureGroups _ _ in_);
  ObservedAt ← copy_time (g_rs_ObservedAt _ _ in_);
  mret {| g_rs_DestinationPath := g_rs_DestinationPath _ _ in_; g_rs_EndpointURL := g_rs_EndpointURL _ _ in_;
          g_rs_Provider := g_rs_Provider _ _ in_; g_rs_Retention := g_rs_Retention _ _ in_;
          g_rs_CaptureGroups := CaptureGroups; g_rs_Source := g_rs_Source _ _ in_;
          g_rs_ObservedAt := ObservedAt |}.
Definition ResolvedStore_DeepCopy (in_ : ptr) : go ptr := copy_pointer TResolvedStore ResolvedStore_DeepCopyInto in_.

Definition ConfigStoreStatus_DeepCopyInto (in_ : val TConfigStoreStatus) : go (val TConfigStoreStatus) :=
  Resolved ← copy_pointer TResolvedStore ResolvedStore_DeepCopyInto (g_Resolved _ _ in_);
  Conditions ← copy_slice TCondition Condition_DeepCopyInto (g_Conditions _ _ in_);
  mret {| g_Resolved := Resolved; g_Conditions := Conditions |}.
Definition ConfigStoreStatus_DeepCopy (in_ : ptr) : go ptr :=
  copy_pointer TConfigStoreStatus ConfigStoreStatus_DeepCopyInto in_.

Definition ConfigStore_DeepCopyInto (in_ : val TConfigStore) : go (val TConfigStore) :=
  ObjectMeta ← ObjectMeta_DeepCopyInto (g_cs_ObjectMeta _ _ _ _ in_);
  Spec ← ConfigStoreSpec_DeepCopyInto (g_cs_Spec _ _ _ _ in_);
  Status ← ConfigStoreStatus_DeepCopyInto (g_cs_Status _ _ _ _ in_);
  mret {| g_cs_TypeMeta := g_cs_TypeMeta _ _ _ _ in_; g_cs_ObjectMeta := ObjectMeta;
          g_cs_Spec := Spec; g_cs_Status := Status |}.
Definition ConfigStore_DeepCopy (in_ : ptr) : go ptr := copy_pointer TConfigStore ConfigStore_DeepCopyInto in_.

Definition ConfigStoreList_DeepCopyInto (in_ : val TConfigStoreList) : go (val TConfigStoreList) :=
  ListMeta ← ListMeta_DeepCopyInto (g_csl_ListMeta _ _ _ _ _ in_);
  Items ← copy_slice TConfigStore ConfigStore_DeepCopyInto (g_csl_Items _ _ _ _ _ in_);
  mret {| g_csl_TypeMeta := g_csl_TypeMeta _ _ _ _ _ in_; g_csl_ListMeta := ListMeta; g_csl_Items := Items |}.
Definition ConfigStoreList_DeepCopy (in_ : ptr) : go ptr :=
  copy_pointer TConfigStoreList ConfigStoreList_DeepCopyInto in_.

Definition SkipRule_DeepCopyInto (in_ : val TSkipRule) : go (val TSkipRule) :=
  Except ← copy_flat_slice TString (g_Except _ in_);
  mret {| g_Group := g_Group _ in_; g_Path := g_Path _ in_; g_KeyPrefix := g_KeyPrefix _ in_; g_Except := Except |}.
Definition SkipRule_DeepCopy (in_ : ptr) : go ptr := copy_pointer TSkipRule SkipRule_DeepCopyInto in_.

Definition TransformRule_DeepCopyInto (in_ : val TTransformRule) : go (val TTransformRule) := mret in_.
Definition TransformRule_DeepCopy (in_ : ptr) : go ptr := copy_pointer TTransformRule TransformRule_DeepCopyInto in_.

Definition RestoreSelect_DeepCopyInto (in_ : val TRestoreSelect) : go (val TRestoreSelect) :=
  Generation ← copy_pointer TInt64 mret (g_Generation _ in_);
  Timestamp ← copy_time (g_Timestamp _ in_);
  mret {| g_Mode := g_Mode _ in_; g_Generation := Generation; g_Timestamp := Timestamp;
          g_OnUnresolvable := g_OnUnresolvable _ in_ |}.
Definition RestoreSelect_DeepCopy (in_ : ptr) : go ptr := copy_pointer TRestoreSelect RestoreSelect_DeepCopyInto in_.

Definition RestorePolicySpec_DeepCopyInto (in_ : val TRestorePolicySpec) : go (val TRestorePolicySpec) :=
  Select ← RestoreSelect_DeepCopyInto (g_Select _ _ in_);
  Skip ← copy_slice TSkipRule SkipRule_DeepCopyInto (g_Skip _ _ in_);
  Transform ← copy_flat_slice TTransformRule (g_Transform _ _ in_);
  mret {| g_Select := Select; g_Skip := Skip; g_Transform := Transform |}.
Definition RestorePolicySpec_DeepCopy (in_ : ptr) : go ptr :=
  copy_pointer TRestorePolicySpec RestorePolicySpec_DeepCopyInto in_.

Definition RestorePolicyStatus_DeepCopyInto (in_ : val TRestorePolicyStatus) : go (val TRestorePolicyStatus) :=
  Conditions ← copy_slice TCondition Condition_DeepCopyInto (g_rps_Conditions _ in_);
  mret {| g_rps_Conditions := Conditions |}.
Definition RestorePolicyStatus_DeepCopy (in_ : ptr) : go ptr :=
  copy_pointer TRestorePolicyStatus RestorePolicyStatus_DeepCopyInto in_.

Definition RestorePolicy_DeepCopyInto (in_ : val TRestorePolicy) : go (val TRestorePolicy) :=
  ObjectMeta ← ObjectMeta_DeepCopyInto (g_rp_ObjectMeta _ _ _ _ in_);
  Spec ← RestorePolicySpec_DeepCopyInto (g_rp_Spec _ _ _ _ in_);
  Status ← RestorePolicyStatus_DeepCopyInto (g_rp_Status _ _ _ _ in_);
  mret {| g_rp_TypeMeta := g_rp_TypeMeta _ _ _ _ in_; g_rp_ObjectMeta := ObjectMeta;
          g_rp_Spec := Spec; g_rp_Status := Status |}.
Definition RestorePolicy_DeepCopy (in_ : ptr) : go ptr := copy_pointer TRestorePolicy RestorePolicy_DeepCopyInto in_.

Definition RestorePolicyList_DeepCopyInto (in_ : val TRestorePolicyList) : go (val TRestorePolicyList) :=
  ListMeta ← ListMeta_DeepCopyInto (g_rpl_ListMeta _ _ _ _ _ in_);
  Items ← copy_slice TRestorePolicy RestorePolicy_DeepCopyInto (g_rpl_Items _ _ _ _ _ in_);
  mret {| g_rpl_TypeMeta := g_rpl_TypeMeta _ _ _ _ _ in_; g_rpl_ListMeta := ListMeta; g_rpl_Items := Items |}.
Definition RestorePolicyList_DeepCopy (in_ : ptr) : go ptr :=
  copy_pointer TRestorePolicyList RestorePolicyList_DeepCopyInto in_.

(** A [runtime.Object]: a type and a pointer.  [None] is the nil interface,
    which is not an object with a nil pointer. *)
Inductive runtime_Object := Object (t : go_type) (p : ptr).

Definition deep_copy_object (t : go_type) (deep : ptr → go ptr) (in_ : ptr) : go (option runtime_Object) :=
  c ← deep in_;
  mret (match c with Some _ => Some (Object t c) | None => None end).

Definition ConfigStore_DeepCopyObject : ptr → go (option runtime_Object) :=
  deep_copy_object TConfigStore ConfigStore_DeepCopy.
Definition ConfigStoreList_DeepCopyObject : ptr → go (option runtime_Object) :=
  deep_copy_object TConfigStoreList ConfigStoreList_DeepCopy.
Definition RestorePolicy_DeepCopyObject : ptr → go (option runtime_Object) :=
  deep_copy_object TRestorePolicy RestorePolicy_DeepCopy.
Definition RestorePolicyList_DeepCopyObject : ptr → go (option runtime_Object) :=
  deep_copy_object TRestorePolicyList RestorePolicyList_DeepCopy.

(** ** What the structs stand for *)

Definition S3Credentials_read : reader (val TS3Credentials) (g_S3Credentials option) := λ h v,
  AccessKeyID ← read_pointer TSecretKeySelector read_flat h (g_AccessKeyID _ v);
  SecretAccessKey ← read_pointer TSecretKeySelector read_flat h (g_SecretAccessKey _ v);
  Region ← read_pointer TSecretKeySelector read_flat h (g_Region _ v);
  SessionToken ← read_pointer TSecretKeySelector read_flat h (g_SessionToken _ v);
  Some {| g_AccessKeyID := AccessKeyID; g_SecretAccessKey := SecretAccessKey; g_Region := Region;
          g_SessionToken := SessionToken; g_InheritFromIAMRole := g_InheritFromIAMRole _ v |}.

Definition ObjectStoreConfiguration_read
    : reader (val TObjectStoreConfiguration) (g_ObjectStoreConfiguration option) := λ h v,
  EndpointCA ← read_pointer TSecretKeySelector read_flat h (g_EndpointCA _ v);
  S3Credentials ← read_pointer TS3Credentials S3Credentials_read h (g_S3 _ v);
  Some {| g_DestinationPath := g_DestinationPath _ v; g_EndpointURL := g_EndpointURL _ v;
          g_EndpointCA := EndpointCA; g_S3 := S3Credentials |}.

Definition ConfigStoreSpec_read : reader (val TConfigStoreSpec) (g_ConfigStoreSpec option Lists) := λ h v,
  DerivedFrom ← read_pointer TBarmanObjectStoreRef read_flat h (g_DerivedFrom _ _ v);
  Configuration ← read_pointer TObjectStoreConfiguration ObjectStoreConfiguration_read h (g_Configuration _ _ v);
  CaptureGroups ← read_slice TString read_flat h (g_CaptureGroups _ _ v);
  Some ({| g_DerivedFrom := DerivedFrom; g_Configuration := Configuration; g_Retention := g_Retention _ _ v;
          g_CaptureGroups := CaptureGroups; g_Prefix := g_Prefix _ _ v |} :
    g_ConfigStoreSpec option Lists).

Definition ResolvedStore_read : reader (val TResolvedStore) (g_ResolvedStore option Lists) := λ h v,
  CaptureGroups ← read_slice TString read_flat h (g_rs_CaptureGroups _ _ v);
  ObservedAt ← read_pointer TTime read_flat h (g_rs_ObservedAt _ _ v);
  Some ({| g_rs_DestinationPath := g_rs_DestinationPath _ _ v; g_rs_EndpointURL := g_rs_EndpointURL _ _ v;
          g_rs_Provider := g_rs_Provider _ _ v; g_rs_Retention := g_rs_Retention _ _ v;
          g_rs_CaptureGroups := CaptureGroups; g_rs_Source := g_rs_Source _ _ v;
          g_rs_ObservedAt := ObservedAt |} :
    g_ResolvedStore option Lists).

Definition ConfigStoreStatus_read : reader (val TConfigStoreStatus) (g_ConfigStoreStatus option Lists) := λ h v,
  Resolved ← read_pointer TResolvedStore ResolvedStore_read h (g_Resolved _ _ v);
  Conditions ← read_slice TCondition read_flat h (g_Conditions _ _ v);
  Some ({| g_Resolved := Resolved; g_Conditions := Conditions |} :
    g_ConfigStoreStatus option Lists).

Definition ConfigStore_read
    : reader (val TConfigStore) (g_ConfigStore option Lists TypeMeta ObjectMeta_tree) := λ h v,
  ObjectMeta ← ObjectMeta_read h (g_cs_ObjectMeta _ _ _ _ v);
  Spec ← ConfigStoreSpec_read h (g_cs_Spec _ _ _ _ v);
  Status ← ConfigStoreStatus_read h (g_cs_Status _ _ _ _ v);
  Some ({| g_cs_TypeMeta := g_cs_TypeMeta _ _ _ _ v; g_cs_ObjectMeta := ObjectMeta;
          g_cs_Spec := Spec; g_cs_Status := Status |} :
    g_ConfigStore option Lists TypeMeta ObjectMeta_tree).

Definition ConfigStoreList_read
    : reader (val TConfigStoreList) (g_ConfigStoreList option Lists TypeMeta ObjectMeta_tree ListMeta_tree) := λ h v,
  ListMeta ← ListMeta_read h (g_csl_ListMeta _ _ _ _ _ v);
  Items ← read_slice TConfigStore ConfigStore_read h (g_csl_Items _ _ _ _ _ v);
  Some ({| g_csl_TypeMeta := g_csl_TypeMeta _ _ _ _ _ v; g_csl_ListMeta := ListMeta; g_csl_Items := Items |} :
    g_ConfigStoreList option Lists TypeMeta ObjectMeta_tree ListMeta_tree).

Definition SkipRule_read : reader (val TSkipRule) (g_SkipRule Lists) := λ h v,
  Except ← read_slice TString read_flat h (g_Except _ v);
  Some ({| g_Group := g_Group _ v; g_Path := g_Path _ v; g_KeyPrefix := g_KeyPrefix _ v; g_Except := Except |} :
    g_SkipRule Lists).

Definition RestoreSelect_read : reader (val TRestoreSelect) (g_RestoreSelect option) := λ h v,
  Generation ← read_pointer TInt64 read_flat h (g_Generation _ v);
  Timestamp ← read_pointer TTime read_flat h (g_Timestamp _ v);
  Some {| g_Mode := g_Mode _ v; g_Generation := Generation; g_Timestamp := Timestamp;
          g_OnUnresolvable := g_OnUnresolvable _ v |}.

Definition RestorePolicySpec_read : reader (val TRestorePolicySpec) (g_RestorePolicySpec option Lists) := λ h v,
  Select ← RestoreSelect_read h (g_Select _ _ v);
  Skip ← read_slice TSkipRule SkipRule_read h (g_Skip _ _ v);
  Transform ← read_slice TTransformRule read_flat h (g_Transform _ _ v);
  Some ({| g_Select := Select; g_Skip := Skip; g_Transform := Transform |} :
    g_RestorePolicySpec option Lists).

Definition RestorePolicyStatus_read : reader (val TRestorePolicyStatus) (g_RestorePolicyStatus Lists) := λ h v,
  Conditions ← read_slice TCondition read_flat h (g_rps_Conditions _ v);
  Some ({| g_rps_Conditions := Conditions |} :
    g_RestorePolicyStatus Lists).

Definition RestorePolicy_read
    : reader (val TRestorePolicy) (g_RestorePolicy option Lists TypeMeta ObjectMeta_tree) := λ h v,
  ObjectMeta ← ObjectMeta_read h (g_rp_ObjectMeta _ _ _ _ v);
  Spec ← RestorePolicySpec_read h (g_rp_Spec _ _ _ _ v);
  Status ← RestorePolicyStatus_read h (g_rp_Status _ _ _ _ v);
  Some ({| g_rp_TypeMeta := g_rp_TypeMeta _ _ _ _ v; g_rp_ObjectMeta := ObjectMeta;
          g_rp_Spec := Spec; g_rp_Status := Status |} :
    g_RestorePolicy option Lists TypeMeta ObjectMeta_tree).

Definition RestorePolicyList_read
    : reader (val TRestorePolicyList) (g_RestorePolicyList option Lists TypeMeta ObjectMeta_tree ListMeta_tree) := λ h v,
  ListMeta ← ListMeta_read h (g_rpl_ListMeta _ _ _ _ _ v);
  Items ← read_slice TRestorePolicy RestorePolicy_read h (g_rpl_Items _ _ _ _ _ v);
  Some ({| g_rpl_TypeMeta := g_rpl_TypeMeta _ _ _ _ _ v; g_rpl_ListMeta := ListMeta; g_rpl_Items := Items |} :
    g_RestorePolicyList option Lists TypeMeta ObjectMeta_tree ListMeta_tree).

(** ** Each is a deep copy *)

#[global] Instance copy_time_copies : Copies (read_pointer TTime read_flat) copy_time.
Proof.
  split; [apply _|]. intros h [l|] x Hr; [by apply (copies_spec (deep := Time_DeepCopy))|].
  injection Hr as <-. by exists h, None.
Qed.

#[global] Instance S3Credentials_copies : Copies S3Credentials_read S3Credentials_DeepCopyInto.
Proof. deep_copy S3Credentials_read S3Credentials_DeepCopyInto. Qed.
#[global] Instance ObjectStoreConfiguration_copies :
  Copies ObjectStoreConfiguration_read ObjectStoreConfiguration_DeepCopyInto.
Proof. deep_copy ObjectStoreConfiguration_read ObjectStoreConfiguration_DeepCopyInto. Qed.
#[global] Instance ConfigStoreSpec_copies : Copies ConfigStoreSpec_read ConfigStoreSpec_DeepCopyInto.
Proof. deep_copy ConfigStoreSpec_read ConfigStoreSpec_DeepCopyInto. Qed.
#[global] Instance ResolvedStore_copies : Copies ResolvedStore_read ResolvedStore_DeepCopyInto.
Proof. deep_copy ResolvedStore_read ResolvedStore_DeepCopyInto. Qed.
#[global] Instance ConfigStoreStatus_copies : Copies ConfigStoreStatus_read ConfigStoreStatus_DeepCopyInto.
Proof. deep_copy ConfigStoreStatus_read ConfigStoreStatus_DeepCopyInto. Qed.
#[global] Instance ConfigStore_copies : Copies ConfigStore_read ConfigStore_DeepCopyInto.
Proof. deep_copy ConfigStore_read ConfigStore_DeepCopyInto. Qed.
#[global] Instance ConfigStoreList_copies : Copies ConfigStoreList_read ConfigStoreList_DeepCopyInto.
Proof. deep_copy ConfigStoreList_read ConfigStoreList_DeepCopyInto. Qed.
#[global] Instance SkipRule_copies : Copies SkipRule_read SkipRule_DeepCopyInto.
Proof. deep_copy SkipRule_read SkipRule_DeepCopyInto. Qed.
#[global] Instance RestoreSelect_copies : Copies RestoreSelect_read RestoreSelect_DeepCopyInto.
Proof. deep_copy RestoreSelect_read RestoreSelect_DeepCopyInto. Qed.
#[global] Instance RestorePolicySpec_copies : Copies RestorePolicySpec_read RestorePolicySpec_DeepCopyInto.
Proof. deep_copy RestorePolicySpec_read RestorePolicySpec_DeepCopyInto. Qed.
#[global] Instance RestorePolicyStatus_copies : Copies RestorePolicyStatus_read RestorePolicyStatus_DeepCopyInto.
Proof. deep_copy RestorePolicyStatus_read RestorePolicyStatus_DeepCopyInto. Qed.
#[global] Instance RestorePolicy_copies : Copies RestorePolicy_read RestorePolicy_DeepCopyInto.
Proof. deep_copy RestorePolicy_read RestorePolicy_DeepCopyInto. Qed.
#[global] Instance RestorePolicyList_copies : Copies RestorePolicyList_read RestorePolicyList_DeepCopyInto.
Proof. deep_copy RestorePolicyList_read RestorePolicyList_DeepCopyInto. Qed.

(** ** A copy and its original are apart *)

(** C23: The generated deep copies are deep: of every API object, a copy shares no
    memory with its original, whichever nils, empty slices and aliases are in
    it. *)
Theorem DeepCopy_apart :
  apart TConfigStore ConfigStore_read ConfigStore_DeepCopy
  ∧ apart TConfigStoreList ConfigStoreList_read ConfigStoreList_DeepCopy
  ∧ apart TRestorePolicy RestorePolicy_read RestorePolicy_DeepCopy
  ∧ apart TRestorePolicyList RestorePolicyList_read RestorePolicyList_DeepCopy
  ∧ apart TConfigStoreSpec ConfigStoreSpec_read ConfigStoreSpec_DeepCopy
  ∧ apart TConfigStoreStatus ConfigStoreStatus_read ConfigStoreStatus_DeepCopy
  ∧ apart TResolvedStore ResolvedStore_read ResolvedStore_DeepCopy
  ∧ apart TObjectStoreConfiguration ObjectStoreConfiguration_read ObjectStoreConfiguration_DeepCopy
  ∧ apart TS3Credentials S3Credentials_read S3Credentials_DeepCopy
  ∧ apart TRestorePolicySpec RestorePolicySpec_read RestorePolicySpec_DeepCopy
  ∧ apart TRestorePolicyStatus RestorePolicyStatus_read RestorePolicyStatus_DeepCopy
  ∧ apart TRestoreSelect RestoreSelect_read RestoreSelect_DeepCopy
  ∧ apart TSkipRule SkipRule_read SkipRule_DeepCopy
  ∧ apart TTransformRule read_flat TransformRule_DeepCopy
  ∧ apart TBarmanObjectStoreRef read_flat BarmanObjectStoreRef_DeepCopy.
Proof. split_and!; apply copy_pointer_apart; first [apply _|exact read_flat_copies]. Qed.

(** A nil object is the nil interface, not an object with a nil pointer. *)
Lemma DeepCopyObject_nil h :
  ConfigStore_DeepCopyObject None h = Some (h, None)
  ∧ ConfigStoreList_DeepCopyObject None h = Some (h, None)
  ∧ RestorePolicy_DeepCopyObject None h = Some (h, None)
  ∧ RestorePolicyList_DeepCopyObject None h = Some (h, None).
Proof. done. Qed.

End deepcopy.
