(* ===== verification/Layout.v ===== *)
(** * internal/store/layout.go: object keys *)

From S2P Require Import Prelude GoStrings GoTime Sha256 Snapshot.

#[local] Open Scope stdpp_scope.

(** ** Operations *)

Definition generationDigits : nat := 10.

Record Layout := { BasePath : string; ServerName : string; ly_Prefix : string }.

Definition joinKey (segments : list string) : string :=
  Join (filter (λ segment, segment ≠ "") (TrimByte "/" <$> segments)) "/".

Definition Root (l : Layout) : string := joinKey [BasePath l; ServerName l; ly_Prefix l].

Definition SnapshotsPrefix (l : Layout) : string := joinKey [Root l; "snapshots"] +:+ "/".

(** [hex[:8]]. *)
Definition shortHash (checksum : string) : string :=
  let hex := match Cut checksum ":" with Some (_, hex) => hex | None => checksum end in
  if decide (String.length hex < 8)%nat then "00000000" else String.substring 0 8 hex.

(** The last element of a snapshot key. *)
Definition snapshot_name (capturedAt generation : Z) (checksum : string) : string :=
  FormatCompact capturedAt +:+ "-g" +:+ PadInt generationDigits generation
  +:+ "-" +:+ shortHash checksum +:+ ".json".

Definition SnapshotKey (l : Layout) (capturedAt generation : Z) (checksum : string) : string :=
  SnapshotsPrefix l +:+ snapshot_name capturedAt generation checksum.

Definition LatestKey (l : Layout) : string := joinKey [Root l; "latest.json"].

(** The submatches of
    [^(\d{8}T\d{6}Z)-g(\d{10})-[0-9a-f]{8}\.json$]. *)
Definition match_snapshot_name (name : string) : option (string * string) :=
  '(date, s) ← TakeBytes 8 name;
  s ← CutPrefix s "T";
  '(time, s) ← TakeBytes 6 s;
  s ← CutPrefix s "Z-g";
  '(generation, s) ← TakeBytes 10 s;
  s ← CutPrefix s "-";
  '(hash, s) ← TakeBytes 8 s;
  if all_digits date && all_digits time && all_digits generation && all_hex hash
     && bool_decide (s = ".json")
  then Some (date +:+ "T" +:+ time +:+ "Z", generation) else None.

Definition ParseSnapshotKey (key : string) : result (Z * Z) :=
  match match_snapshot_name (PathBase key) with
  | None => Err (Errorf "%q is not a snapshot key" [AStr key])
  | Some (timestamp, digits) =>
      match ParseCompact timestamp with
      | None => Err (Wrapf "while parsing timestamp in %q: %w" [AStr key]
                       (External OtherKind "time: cannot parse"))
      | Some capturedAt =>
          match ParseInt digits with
          | None => Err (Wrapf "while parsing generation in %q: %w" [AStr key]
                           (External OtherKind "strconv: cannot parse"))
          | Some generation => Ok (capturedAt, generation)
          end
      end
  end.

Record Destination := { Scheme : string; Bucket : string; Path : string }.

Definition ParseDestination (destinationPath : string) : result Destination :=
  if decide (destinationPath = "") then Err (Errorf "destinationPath is empty" [])
  else match Cut destinationPath "://" with
  | None => Err (Errorf "destinationPath %q has no scheme; expected s3://, azure:// or gs://"
                   [AStr destinationPath])
  | Some (scheme, remainder) =>
      let scheme := ToLower scheme in
      if decide (scheme ∉ ["s3"; "azure"; "gs"]) then
        Err (Errorf "unsupported destinationPath scheme %q" [AStr scheme])
      else
        let remainder := TrimByte "/" remainder in
        if decide (remainder = "") then
          Err (Errorf "destinationPath %q names no bucket" [AStr destinationPath])
        else
          let '(bucket, prefix) := match Cut remainder "/" with
                                   | Some (b, p) => (b, p)
                                   | None => (remainder, "")
                                   end in
          Ok {| Scheme := scheme; Bucket := bucket; Path := TrimByte "/" prefix |}
  end.

(** ** Slashes *)

Lemma no_byte_app c s t : no_byte c (s +:+ t) = no_byte c s && no_byte c t.
Proof.
  induction s as [|a s IH]; [done|]. rewrite str_app_cons. cbn [no_byte].
  by rewrite IH, andb_assoc.
Qed.

Lemma TrimRightByte_no_byte c s : no_byte c s = true → TrimRightByte c s = s.
Proof.
  induction s as [|a s IH]; [done|]. cbn [no_byte TrimRightByte]. intros [Ha Hs]%andb_true_iff.
  apply negb_true_iff, bool_decide_eq_false in Ha. rewrite IH by done.
  destruct s; [by rewrite decide_False|done].
Qed.

Lemma TrimRightByte_app c s t :
  t ≠ "" → no_byte c t = true → TrimRightByte c (s +:+ t) = s +:+ t.
Proof.
  intros Ht Hno. induction s as [|a s IH].
  { by apply TrimRightByte_no_byte. }
  rewrite str_app_cons. cbn [TrimRightByte]. rewrite IH.
  destruct (s +:+ t) eqn:He; [|done]. by apply str_app_eq_nil in He as [_ ?].
Qed.

(** The base of a key below a directory is its last element. *)
Lemma PathBase_app p s : s ≠ "" → no_byte "/" s = true → PathBase (p +:+ "/" +:+ s) = s.
Proof.
  intros Hs Hno. unfold PathBase.
  assert (TrimRightByte "/" (p +:+ "/" +:+ s) = p +:+ "/" +:+ s) as Ht.
  { rewrite str_app_assoc. by apply TrimRightByte_app. }
  rewrite Ht. destruct (p +:+ "/" +:+ s) as [|a r] eqn:He.
  { apply str_app_eq_nil in He as [_ He]. by apply str_app_eq_nil in He as [? _]. }
  rewrite <-He. change ("/" +:+ s) with (String "/"%char s).
  rewrite SplitByte_app_gen, last_app.
  rewrite SplitByte_no_byte by done. done.
Qed.

Lemma all_hex_no_byte c s : all_hex s = true → hex_byte c = false → no_byte c s = true.
Proof.
  intros Hs Hc. induction s as [|a s IH]; [done|].
  cbn [all_hex no_byte] in *. apply andb_true_iff in Hs as [Ha Hs].
  rewrite IH by done. rewrite andb_true_r. apply negb_true_iff, bool_decide_eq_false.
  intros ->. congruence.
Qed.

(** ** The hash of a key *)

Lemma Cut_app a s t : no_byte a s = true → Cut (s +:+ String a t) (String a "") = Some (s, t).
Proof.
  intros Hs. induction s as [|b s IH].
  - rewrite str_app_nil_l. cbn [Cut].
    by rewrite (CutPrefix_app (String a "") t : CutPrefix (String a t) (String a "") = Some t).
  - cbn [no_byte] in Hs. apply andb_true_iff in Hs as [Hb Hs].
    apply negb_true_iff, bool_decide_eq_false in Hb.
    rewrite str_app_cons. cbn [Cut]. rewrite IH by done.
    assert (CutPrefix (String b (s +:+ String a t)) (String a "") = None) as ->; [|done].
    apply CutPrefix_None. intros r Hr. injection Hr as Hr _. congruence.
Qed.

Lemma substring_all_hex n s : all_hex s = true → all_hex (String.substring 0 n s) = true.
Proof.
  revert s. induction n as [|n IH]; intros s Hs; [by destruct s|].
  destruct s as [|a s]; [done|]. cbn [all_hex String.substring] in *.
  apply andb_true_iff in Hs as [-> Hs]. by apply IH.
Qed.

(** The checksum of any content yields eight hexadecimal characters. *)
Lemma shortHash_digest x :
  String.length (shortHash (digest x)) = 8%nat ∧ all_hex (shortHash (digest x)) = true.
Proof.
  destruct (sha256_hex_spec x) as [Hl Hh].
  assert (shortHash (digest x) = String.substring 0 8 (sha256_hex x)) as ->.
  { unfold shortHash, digest.
    change ("sha256:" +:+ sha256_hex x) with ("sha256" +:+ String ":"%char (sha256_hex x)).
    rewrite Cut_app by done. cbv zeta iota. rewrite decide_False; [done|]. rewrite Hl. lia. }
  split; [apply length_prefix; lia|by apply substring_all_hex].
Qed.

(** ** Round trip *)

Lemma TakeBytes_app_n n s t : String.length s = n → TakeBytes n (s +:+ t) = Some (s, t).
Proof. intros <-. apply TakeBytes_app. Qed.

Lemma all_digits_app s t : all_digits s = true → all_digits t = true → all_digits (s +:+ t) = true.
Proof.
  unfold all_digits. rewrite digits_value_app. destruct (digits_value 0 s) as [z|]; [|done].
  intros _. simpl. assert (∀ t a b, is_Some (digits_value a t) → is_Some (digits_value b t)) as Hd.
  { clear. induction t as [|c t IH]; intros a b; [by eexists|]. cbn [digits_value].
    destruct (char_digit c); [|done]. simpl. apply IH. }
  destruct (digits_value 0 t) as [y|] eqn:Hy; [|done]. intros _.
  destruct (Hd t 0%Z z) as [w ->]; [by rewrite Hy|done].
Qed.

Lemma all_digits_dig w z : all_digits (dig w z) = true.
Proof. unfold all_digits. by rewrite digits_value_dig. Qed.

Lemma FormatCompact_fields t :
  four_digit_year t →
  ∃ date time, FormatCompact t = date +:+ "T" +:+ time +:+ "Z"
    ∧ String.length date = 8%nat ∧ String.length time = 6%nat
    ∧ all_digits date = true ∧ all_digits time = true.
Proof.
  unfold four_digit_year, FormatCompact. cbv zeta.
  destruct (civil_of_seconds (unix_seconds t)) as [y m d hh mm ss]. simpl. intros Hy.
  exists (dig 4 y +:+ dig 2 m +:+ dig 2 d), (dig 2 hh +:+ dig 2 mm +:+ dig 2 ss).
  rewrite format_year_dig by done. rewrite !str_length_app, !length_dig.
  split_and!; [|done|done|
    apply all_digits_app; [apply all_digits_dig|apply all_digits_app; apply all_digits_dig]..].
  by rewrite <-!str_app_assoc.
Qed.

Lemma PadInt_dig g : (0 ≤ g < 10 ^ 10)%Z → PadInt generationDigits g = dig 10 g.
Proof.
  intros Hg. unfold PadInt, generationDigits. rewrite decide_False by lia. f_equal.
  pose proof (ndigits_upper 20 g 10 ltac:(lia) Hg). lia.
Qed.

Lemma match_snapshot_name_own t g c :
  four_digit_year t → (0 ≤ g < 10 ^ 10)%Z →
  String.length (shortHash c) = 8%nat → all_hex (shortHash c) = true →
  match_snapshot_name (snapshot_name t g c) = Some (FormatCompact t, dig 10 g).
Proof.
  intros Ht Hg Hl Hh. unfold snapshot_name. rewrite PadInt_dig by done.
  destruct (FormatCompact_fields t Ht) as (date & time & -> & Hld & Hlt & Hd & Htm).
  rewrite <-!str_app_assoc. unfold match_snapshot_name.
  rewrite (TakeBytes_app_n 8) by done. rewrite some_bind. cbv beta iota.
  rewrite CutPrefix_app, some_bind.
  rewrite (TakeBytes_app_n 6) by done. rewrite some_bind. cbv beta iota.
  rewrite (str_app_assoc "Z" "-g"). change ("Z" +:+ "-g") with "Z-g".
  rewrite CutPrefix_app, some_bind.
  rewrite (TakeBytes_app_n 10) by apply length_dig. rewrite some_bind. cbv beta iota.
  rewrite CutPrefix_app, some_bind.
  rewrite (TakeBytes_app_n 8) by done. rewrite some_bind. cbv beta iota.
  rewrite Hd, Htm, all_digits_dig, Hh. done.
Qed.

Lemma snapshot_name_no_slash t g c :
  four_digit_year t → (0 ≤ g < 10 ^ 10)%Z → all_hex (shortHash c) = true →
  no_byte "/" (snapshot_name t g c) = true.
Proof.
  intros Ht Hg Hh. unfold snapshot_name. rewrite PadInt_dig by done.
  destruct (FormatCompact_fields t Ht) as (date & time & -> & _ & _ & Hd & Htm).
  assert (∀ s, all_digits s = true → no_byte "/" s = true) as Hno.
  { intros s. unfold all_digits. generalize 0%Z as z. induction s as [|a s IH]; intros z; [done|].
    cbn [digits_value no_byte]. destruct (char_digit a) as [v|] eqn:Ha; [|done].
    simpl. intros Hs. rewrite (IH _ Hs), andb_true_r. apply negb_true_iff, bool_decide_eq_false.
    intros ->. by vm_compute in Ha. }
  rewrite !no_byte_app, (Hno date), (Hno time), (Hno (dig 10 g)) by (try apply all_digits_dig; done).
  rewrite (all_hex_no_byte "/"%char (shortHash c)) by done. done.
Qed.

(** The key of a capture says when it was taken, to the second, and at which
    generation. *)
Lemma parse_snapshot_key l t g x :
  four_digit_year t → (0 ≤ g < 10 ^ 10)%Z →
  ParseSnapshotKey (SnapshotKey l t g (digest x)) = Ok ((unix_seconds t * Second)%Z, g).
Proof.
  intros Ht Hg. destruct (shortHash_digest x) as [Hl Hh].
  unfold ParseSnapshotKey, SnapshotKey, SnapshotsPrefix.
  rewrite <-str_app_assoc, PathBase_app.
  - rewrite match_snapshot_name_own by done.
    rewrite ParseCompact_FormatCompact by done.
    rewrite ParseInt_dig; [done|lia|done|].
    unfold in_int64, min_int64, max_int64. lia.
  - unfold snapshot_name. destruct (FormatCompact_fields t Ht) as (date & time & -> & Hld & _).
    by destruct date.
  - by apply snapshot_name_no_slash.
Qed.

(** What [Write] names, [List] reads back: the instant to the second, and the
    generation. *)
Theorem SnapshotKey_roundtrip l t g x :
  four_digit_year t → (0 ≤ g < 10 ^ 10)%Z →
  ParseSnapshotKey (SnapshotKey l t g (digest x)) = Ok ((unix_seconds t * Second)%Z, g)
  ∧ HasPrefix (SnapshotKey l t g (digest x)) (SnapshotsPrefix l) = true.
Proof. intros Ht Hg. split; [by apply parse_snapshot_key|apply HasPrefix_app]. Qed.

(** ** Order *)

(** Keys of one layout are ordered by second, then by generation, then by
    content hash: bytewise order is chronological. *)
Lemma SnapshotKey_compare_lex l t g x t' g' x' :
  four_digit_year t → four_digit_year t' → (0 ≤ g < 10 ^ 10)%Z → (0 ≤ g' < 10 ^ 10)%Z →
  String.compare (SnapshotKey l t g (digest x)) (SnapshotKey l t' g' (digest x'))
  = match Z.compare (unix_seconds t) (unix_seconds t') with
    | Eq => match Z.compare g g' with
            | Eq => String.compare (shortHash (digest x)) (shortHash (digest x'))
            | c => c
            end
    | c => c
    end.
Proof.
  intros Ht Ht' Hg Hg'. unfold SnapshotKey. rewrite str_compare_app_l.
  unfold snapshot_name. rewrite FormatCompact_compare by done.
  destruct (Z.compare (unix_seconds t) (unix_seconds t')); [|done|done].
  rewrite str_compare_app_l, !PadInt_dig by done.
  rewrite str_compare_app by (by rewrite !length_dig). rewrite dig_compare by done.
  destruct (Z.compare g g'); [|done|done].
  rewrite str_compare_app_l.
  destruct (shortHash_digest x) as [Hl _], (shortHash_digest x') as [Hl' _].
  rewrite str_compare_app by congruence.
  by destruct (String.compare (shortHash (digest x)) (shortHash (digest x'))).
Qed.

(** ** The latest pointer is not among the snapshots *)

Lemma joinKey_two a b :
  joinKey [a; b] =
    let a' := TrimByte "/" a in let b' := TrimByte "/" b in
    if decide (a' = "") then b' else if decide (b' = "") then a' else a' +:+ "/" +:+ b'.
Proof.
  unfold joinKey. simpl. rewrite !filter_cons, filter_nil.
  repeat case_decide; simpl; first [done|tauto|congruence].
Qed.

Lemma LatestKey_not_listed l : HasPrefix (LatestKey l) (SnapshotsPrefix l) = false.
Proof.
  apply not_true_iff_false. intros (r & Hr)%HasPrefix_spec.
  unfold LatestKey, SnapshotsPrefix in Hr. rewrite !joinKey_two in Hr. cbv zeta in Hr.
  change (TrimByte "/" "latest.json") with "latest.json" in Hr.
  change (TrimByte "/" "snapshots") with "snapshots" in Hr.
  rewrite (decide_False (P := "latest.json" = "")) in Hr by done.
  rewrite (decide_False (P := "snapshots" = "")) in Hr by done.
  destruct (decide (TrimByte "/" (Root l) = "")) as [He|He].
  - discriminate Hr.
  - rewrite <-!str_app_assoc in Hr.
    apply str_app_inv_length in Hr as [_ Hr]; [|done]. discriminate Hr.
Qed.

(** ** Destinations *)

Definition starts_with (c : ascii) (s : string) : bool :=
  match s with String a _ => bool_decide (a = c) | EmptyString => false end.

Lemma TrimLeftByte_start c s : starts_with c (TrimLeftByte c s) = false.
Proof.
  induction s as [|a s IH]; [done|]. cbn [TrimLeftByte]. case_decide; [done|].
  by apply bool_decide_eq_false.
Qed.

Lemma TrimLeftByte_id c s : starts_with c s = false → TrimLeftByte c s = s.
Proof.
  destruct s as [|a s]; [done|]. cbn [starts_with TrimLeftByte].
  intros Ha%bool_decide_eq_false. by rewrite decide_False.
Qed.

Lemma TrimRightByte_idemp c s : TrimRightByte c (TrimRightByte c s) = TrimRightByte c s.
Proof.
  induction s as [|a s IH]; [done|]. cbn [TrimRightByte].
  destruct (TrimRightByte c s) as [|b r] eqn:Hs.
  - case_decide; [done|]. cbn. by rewrite decide_False.
  - cbn [TrimRightByte] in IH |- *. by rewrite IH.
Qed.

Lemma TrimRightByte_start c s : starts_with c s = false → starts_with c (TrimRightByte c s) = false.
Proof.
  destruct s as [|a s]; [done|]. cbn [starts_with TrimRightByte]. intros Ha.
  destruct (TrimRightByte c s); [|exact Ha].
  apply bool_decide_eq_false in Ha. rewrite decide_False by done. by apply bool_decide_eq_false.
Qed.

Lemma TrimByte_start c s : starts_with c (TrimByte c s) = false.
Proof. apply TrimRightByte_start, TrimLeftByte_start. Qed.

Lemma TrimByte_idemp c s : TrimByte c (TrimByte c s) = TrimByte c s.
Proof.
  unfold TrimByte at 1. rewrite TrimLeftByte_id by apply TrimByte_start.
  apply TrimRightByte_idemp.
Qed.

Lemma Cut_Some a s b p :
  Cut s (String a "") = Some (b, p) → s = b +:+ String a p ∧ no_byte a b = true.
Proof.
  revert b p. induction s as [|c s IH]; intros b p; [done|]. cbn [Cut].
  destruct (CutPrefix (String c s) (String a "")) as [r|] eqn:Hp.
  - apply CutPrefix_Some in Hp. intros [= <- <-]. by rewrite Hp.
  - destruct (Cut s (String a "")) as [[b' p']|]; [|done]. simpl. intros [= <- <-].
    destruct (IH b' p' eq_refl) as [-> Hb]. split; [done|]. cbn [no_byte]. rewrite Hb, andb_true_r.
    apply negb_true_iff, bool_decide_eq_false. intros ->.
    by rewrite (CutPrefix_app (String a "") (b' +:+ String a p')
      : CutPrefix (String a (b' +:+ String a p')) (String a "") = _) in Hp.
Qed.

Lemma Cut_None a s : Cut s (String a "") = None → no_byte a s = true.
Proof.
  induction s as [|c s IH]; [done|]. cbn [Cut no_byte].
  destruct (CutPrefix (String c s) (String a "")) as [r|] eqn:Hp; [done|].
  destruct (Cut s (String a "")); [done|]. intros _. rewrite IH, andb_true_r by done.
  apply negb_true_iff, bool_decide_eq_false. intros ->.
  by rewrite (CutPrefix_app (String a "") s : CutPrefix (String a s) (String a "") = _) in Hp.
Qed.

(** C39: A parsed destination names a supported scheme, a bucket that is one path
    element, and a prefix without slashes at its ends. *)
Theorem ParseDestination_sound s d :
  ParseDestination s = Ok d →
  Scheme d ∈ ["s3"; "azure"; "gs"] ∧ Bucket d ≠ "" ∧ no_byte "/" (Bucket d) = true
  ∧ TrimByte "/" (Path d) = Path d.
Proof.
  unfold ParseDestination. case_decide; [done|].
  destruct (Cut s "://") as [[scheme remainder]|]; [|done]. cbv zeta.
  case_decide as Hsc; [done|]. case_decide as Hr; [done|].
  pose proof (TrimByte_start "/" remainder) as Hst. set (rem := TrimByte "/" remainder) in *.
  destruct (Cut rem "/") as [[b p]|] eqn:Hc; intros [= <-]; cbn [Scheme Bucket Path].
  - apply Cut_Some in Hc as [He Hb]. split_and!.
    + exact Hsc.
    + intros ->. rewrite He in Hst. by vm_compute in Hst.
    + done.
    + apply TrimByte_idemp.
  - apply Cut_None in Hc. split_and!; [|done|done|done].
    exact Hsc.
Qed.

Example ParseDestination_example :
  ParseDestination "S3://backups//some/prefix/"
  = Ok {| Scheme := "s3"; Bucket := "backups"; Path := "some/prefix" |}.
Proof. reflexivity. Qed.

(** ** Histories of one store do not meet *)

(** A server name that is one path element. *)
Definition one_element (s : string) : Prop := s ≠ "" ∧ no_byte "/" s = true.
#[export] Instance one_element_dec s : Decision (one_element s).
Proof. unfold one_element. apply _. Defined.

Lemma TrimRightByte_app_id c s t :
  t ≠ "" → TrimRightByte c t = t → TrimRightByte c (s +:+ t) = s +:+ t.
Proof.
  intros Ht Hid. induction s as [|a s IH]; [done|].
  rewrite str_app_cons. cbn [TrimRightByte]. rewrite IH.
  destruct (s +:+ t) eqn:He; [|done]. by apply str_app_eq_nil in He as [_ ?].
Qed.

Lemma no_byte_start c s : no_byte c s = true → starts_with c s = false.
Proof. destruct s; [done|]. cbn [no_byte starts_with]. intros [H _]%andb_true_iff. by apply negb_true_iff. Qed.

Lemma starts_with_app c s t : s ≠ "" → starts_with c (s +:+ t) = starts_with c s.
Proof. by destruct s. Qed.

Lemma TrimByte_one_element s : one_element s → TrimByte "/" s = s.
Proof.
  intros [_ Hno]. unfold TrimByte. rewrite TrimLeftByte_id by by apply no_byte_start.
  by apply TrimRightByte_no_byte.
Qed.

(** What is around the server name in a history's keys. *)
Definition before_server (l : Layout) : string :=
  let base := TrimByte "/" (BasePath l) in if decide (base = "") then "" else base +:+ "/".
Definition after_server (l : Layout) : string :=
  let prefix := TrimByte "/" (ly_Prefix l) in if decide (prefix = "") then "" else "/" +:+ prefix.

Lemma Root_around l :
  one_element (ServerName l) →
  Root l = before_server l +:+ ServerName l +:+ after_server l
  ∧ Root l ≠ "" ∧ TrimByte "/" (Root l) = Root l.
Proof.
  intros Hs. pose proof (TrimByte_one_element _ Hs) as Ht. destruct Hs as [Hne Hno].
  assert (Root l = before_server l +:+ ServerName l +:+ after_server l) as Hr.
  { unfold Root, joinKey, before_server, after_server. simpl. rewrite Ht, !filter_cons, filter_nil.
    repeat case_decide; simpl; rewrite ?str_app_nil_r, <-?str_app_assoc; first [done|tauto|congruence]. }
  rewrite Hr. split_and!; [done|by intros [_ [? _]%str_app_eq_nil]%str_app_eq_nil|].
  unfold TrimByte. rewrite TrimLeftByte_id.
  - apply TrimRightByte_app_id; [by intros [? _]%str_app_eq_nil|].
    unfold after_server. cbv zeta. case_decide as Hp.
    + rewrite str_app_nil_r. by apply TrimRightByte_no_byte.
    + rewrite str_app_assoc. apply TrimRightByte_app_id; [done|apply TrimRightByte_idemp].
  - unfold before_server. cbv zeta. case_decide as Hb.
    + rewrite str_app_nil_l, starts_with_app by done. by apply no_byte_start.
    + rewrite <-str_app_assoc, starts_with_app by done. apply TrimByte_start.
Qed.

(** Everything of a history is beneath its root. *)
Lemma SnapshotsPrefix_beneath l :
  one_element (ServerName l) → HasPrefix (SnapshotsPrefix l) (Root l +:+ "/") = true.
Proof.
  intros Hs. destruct (Root_around l Hs) as (_ & Hne & Ht). unfold SnapshotsPrefix. rewrite joinKey_two, Ht. cbv zeta.
  rewrite decide_False by done. change (TrimByte "/" "snapshots") with "snapshots". rewrite decide_False by done.
  rewrite str_app_assoc, <-str_app_assoc. apply HasPrefix_app.
Qed.

Lemma LatestKey_beneath l :
  one_element (ServerName l) → HasPrefix (LatestKey l) (Root l +:+ "/") = true.
Proof.
  intros Hs. destruct (Root_around l Hs) as (_ & Hne & Ht). unfold LatestKey. rewrite joinKey_two, Ht. cbv zeta.
  rewrite decide_False by done. change (TrimByte "/" "latest.json") with "latest.json". rewrite decide_False by done.
  rewrite str_app_assoc. apply HasPrefix_app.
Qed.

Definition same_store (l l' : Layout) : Prop := BasePath l = BasePath l' ∧ ly_Prefix l = ly_Prefix l'.

(** No key is beneath the roots of two servers. *)
Lemma roots_apart l l' key :
  same_store l l' → one_element (ServerName l) → one_element (ServerName l') →
  HasPrefix key (Root l +:+ "/") = true → HasPrefix key (Root l' +:+ "/") = true →
  ServerName l = ServerName l'.
Proof.
  intros [Hb Hp] Hs Hs'. destruct (Root_around l Hs) as [-> _], (Root_around l' Hs') as [-> _].
  assert (before_server l' = before_server l) as -> by (unfold before_server; by rewrite Hb).
  assert (after_server l' = after_server l) as -> by (unfold after_server; by rewrite Hp).
  intros (r & ->)%HasPrefix_spec (r' & He)%HasPrefix_spec. revert He.
  assert (∃ tail, after_server l +:+ "/" = String "/"%char tail) as [tail Htail].
  { unfold after_server. cbv zeta. case_decide; [by exists ""|]. eexists. by rewrite <-str_app_assoc. }
  rewrite <-!str_app_assoc, !(str_app_assoc (after_server l)), Htail, !str_app_cons.
  intros [_ He]%str_app_inv_length; [|done].
  destruct Hs as [_ Hs], Hs' as [_ Hs'].
  pose proof (Cut_app "/"%char _ (tail +:+ r) Hs) as H1. rewrite He, Cut_app in H1 by done. by injection H1.
Qed.

Lemma beneath_apart l l' key :
  same_store l l' → one_element (ServerName l) → one_element (ServerName l') →
  ServerName l ≠ ServerName l' →
  HasPrefix key (Root l +:+ "/") = true → HasPrefix key (Root l' +:+ "/") = false.
Proof. intros Hst Hs Hs' Hne Hk. apply not_true_iff_false. intros Hk'. by eapply Hne, roots_apart. Qed.

(** C30: Two servers' histories in one store are apart: a snapshot of the one is
    neither listed with the other's nor its latest pointer, and their pointers
    differ. *)
Theorem histories_apart l l' :
  same_store l l' → one_element (ServerName l) → one_element (ServerName l') →
  ServerName l ≠ ServerName l' →
  (∀ key, HasPrefix key (SnapshotsPrefix l) = true →
     HasPrefix key (SnapshotsPrefix l') = false ∧ key ≠ LatestKey l')
  ∧ LatestKey l ≠ LatestKey l'.
Proof.
  intros Hst Hs Hs' Hne. pose proof (λ key, beneath_apart l l' key Hst Hs Hs' Hne) as Hap.
  pose proof (LatestKey_beneath l' Hs') as Hl'. split.
  - intros key Hk. assert (HasPrefix key (Root l +:+ "/") = true) as Hb
      by (eapply HasPrefix_trans; [done|by apply SnapshotsPrefix_beneath]).
    apply Hap in Hb. split; [|by intros ->; rewrite Hl' in Hb].
    apply not_true_iff_false. intros Hk'. apply not_true_iff_false in Hb. apply Hb.
    eapply HasPrefix_trans; [done|by apply SnapshotsPrefix_beneath].
  - intros He. pose proof (Hap _ (LatestKey_beneath l Hs)) as Hb. rewrite He in Hb. by rewrite Hl' in Hb.
Qed.

(** With a slash in a name they need not be: the snapshots of this server are
    listed as snapshots of [prod]. *)
Example nested_server_listed :
  let prod := {| BasePath := "backups"; ServerName := "prod"; ly_Prefix := "config" |} in
  let nested := {| BasePath := "backups"; ServerName := "prod/config/snapshots/dev"; ly_Prefix := "config" |} in
  let key := SnapshotsPrefix nested +:+ "20260102T030405Z-g0000000007-0123abcd.json" in
  HasPrefix key (SnapshotsPrefix prod) = true
  ∧ match ParseSnapshotKey key with Ok (_, g) => g = 7%Z | Err _ => False end.
Proof. split; by vm_compute. Qed.
