(* ===== verification/GoDecode.v ===== *)
(** * Decoding JSON documents into Go structs

    What [encoding/json] does with one member of an object, by the field's Go
    type.  A member is assigned to the field whose name it equals up to case, as
    Unicode folds it; a later member of the same name is assigned again; a
    [null] leaves the field as it is; a value of the wrong type is an error. *)

From S2P Require Import Prelude GoStrings GoTime GoJson.

#[local] Open Scope stdpp_scope.

Definition type_error {A} : result A := Err (External OtherKind "json: cannot unmarshal").

(** The decoder of one field, given the value it holds already. *)
Definition decoder (A : Type) : Type := A → doc → result A.

Definition decode_string : decoder string := λ old d,
  match d with DNull => Ok old | DStr s => Ok s | _ => type_error end.

Definition decode_bool : decoder bool := λ old d,
  match d with DNull => Ok old | DBool b => Ok b | _ => type_error end.

Definition decode_int64 : decoder Z := λ old d,
  match d with
  | DNull => Ok old
  | DNum s => match ParseInt s with Some z => Ok z | None => type_error end
  | _ => type_error
  end.

Definition decode_time : decoder Z := λ old d,
  match d with
  | DNull => Ok old
  | DStr s => match ParseRFC3339 s with Some t => Ok t | None => type_error end
  | _ => type_error
  end.

(** [[]string]: the elements of an array are decoded into zero values. *)
Fixpoint decode_elements (l : list doc) : result (list string) :=
  match l with
  | [] => Ok []
  | d :: l => x ← decode_string "" d; xs ← decode_elements l; Ok (x :: xs)
  end.
Definition decode_strings : decoder (list string) := λ old d,
  match d with DNull => Ok [] | DArr l => decode_elements l | _ => type_error end.

(** [map[string]string] and [map[string]any]: members are added to the map. *)
Fixpoint decode_string_members (m : gmap string string) (l : list (string * doc))
    : result (gmap string string) :=
  match l with
  | [] => Ok m
  | (k, d) :: l => x ← decode_string "" d; decode_string_members (<[k := x]> m) l
  end.
Definition decode_string_map : decoder (gmap string string) := λ old d,
  match d with DNull => Ok ∅ | DObj l => decode_string_members old l | _ => type_error end.

Definition decode_object : decoder object := λ old d,
  match d with
  | DNull => Ok ∅
  | DObj l => Ok (foldl (λ m '(k, x), <[k := any_of_doc x]> m) old l)
  | _ => type_error
  end.

(** [foldName] of a name that is compared with an ASCII one: the letters of ASCII,
    and the two other characters Unicode folds to one of them, U+212A (K) and
    U+017F (s). *)
Fixpoint fold_marks (s : string) : string :=
  match s with
  | EmptyString => ""
  | String a s1 =>
      match s1 with
      | String b s2 =>
          if Ascii.eqb a "197" && Ascii.eqb b "191" then String "s" (fold_marks s2)
          else match s2 with
               | String c s3 =>
                   if Ascii.eqb a "226" && Ascii.eqb b "132" && Ascii.eqb c "170" then String "k" (fold_marks s3)
                   else String a (fold_marks s1)
               | EmptyString => String a (fold_marks s1)
               end
      | EmptyString => String a ""
      end
  end.
Definition foldName (name : string) : string := fold_marks (ToLower name).

#[global] Arguments foldName : simpl never.
#[global] Opaque foldName.

Example foldName_marks :
  foldName (String "226" (String "132" (String "170" "ind"))) = foldName "Kind"
  ∧ foldName (String "197" (String "191" "pec")) = foldName "spec".
Proof. by vm_compute. Qed.

(** The members that are assigned to one field, in order. *)
Fixpoint field {A} (name : string) (dec : decoder A) (old : A) (members : list (string * doc))
    : result A :=
  match members with
  | [] => Ok old
  | (k, d) :: rest =>
      if decide (foldName k = foldName name) then new ← dec old d; field name dec new rest
      else field name dec old rest
  end.

(** A struct: [null] decodes to the value it has. *)
Definition decode_struct {A} (fields : A → list (string * doc) → result A) : decoder A := λ old d,
  match d with DNull => Ok old | DObj l => fields old l | _ => type_error end.

(** A pointer to a struct: [null] is [nil], anything else decodes into the
    struct there is, or a new zero one. *)
Definition decode_pointer {A} (zero : A) (dec : decoder A) : decoder (option A) := λ old d,
  match d with DNull => Ok None | _ => x ← dec (default zero old) d; Ok (Some x) end.

(** ** Fields of a document with no repeated names *)

Lemma field_absent {A} name (dec : decoder A) old members :
  Forall (λ kd, foldName kd.1 ≠ foldName name) members → field name dec old members = Ok old.
Proof.
  induction 1 as [|[k d] l Hk _ IH]; [done|]. simpl in *. by rewrite decide_False.
Qed.

Lemma field_cons_ne {A} name (dec : decoder A) old k d rest :
  foldName k ≠ foldName name → field name dec old ((k, d) :: rest) = field name dec old rest.
Proof. intros. simpl. by rewrite decide_False. Qed.

Lemma field_cons_eq {A} name (dec : decoder A) old d rest :
  field name dec old ((name, d) :: rest) = new ← dec old d; field name dec new rest.
Proof. simpl. by rewrite decide_True. Qed.

Lemma field_app {A} name (dec : decoder A) old l1 l2 :
  field name dec old (l1 ++ l2) = new ← field name dec old l1; field name dec new l2.
Proof.
  revert old. induction l1 as [|[k d] l1 IH]; intros old; [done|]. simpl.
  case_decide; [|apply IH]. destruct (dec old d); simpl; [apply IH|done].
Qed.
