(* ===== verification/Kube.v ===== *)
(** * The Kubernetes API, as the plugin reads it

    The client is a parameter: a read is a function of the world that does not
    change it.  Its errors are kept by what [apierrs] and [meta] can tell of
    them. *)

From S2P Require Import Prelude GoStrings GoJson Api Cnpg.

Record NamespacedName := { nn_Namespace : string; nn_Name : string }.
#[export] Instance NamespacedName_eq_dec : EqDecision NamespacedName.
Proof. solve_decision. Defined.
#[export] Instance NamespacedName_countable : Countable NamespacedName.
Proof.
  refine (inj_countable' (λ n, (nn_Namespace n, nn_Name n))
            (λ p, {| nn_Namespace := p.1; nn_Name := p.2 |}) _).
  by intros [].
Defined.

(** [NamespacedName.String()]. *)
Definition key_string (n : NamespacedName) : string := nn_Namespace n +:+ "/" +:+ nn_Name n.

Class KubeReader (W : Type) := {
  (** The data of a Secret. *)
  kube_secret : W → NamespacedName → result (gmap string string);
  (** A barman-cloud ObjectStore, unstructured. *)
  kube_object_store : W → NamespacedName → result object;
  kube_config_store : W → NamespacedName → result ConfigStore;
  kube_restore_policy : W → NamespacedName → result RestorePolicy;
  (** One Backup by name, and the Backups of a namespace. *)
  kube_backup : W → NamespacedName → result Backup;
  kube_backups : W → string → result (list Backup)
}.

(** [unstructured.NestedMap] and [unstructured.NestedString]: the value at a
    path, [None] when there is none. *)
Class Unstructured := {
  NestedMap : object → list string → result (option object);
  NestedString : object → list string → result (option string)
}.
