(* ===== verification/Backend.v ===== *)
(** * internal/store/backend.go: the object storage interface, and its
    in-memory implementation of internal/store/storetest *)

From S2P Require Import Prelude GoStrings.

#[local] Open Scope stdpp_scope.

(** ** The interface *)

Class Backend (W : Type) := {
  Check_ : string → prog W unit;
  Get_ : string → prog W string;
  Put_ : string → string → prog W unit;
  List_ : string → prog W (list string);
  Delete_ : string → prog W unit
}.

(** The keys of a map of objects under a prefix, in lexical order. *)
Definition keys_under (objs : gmap string string) (prefix : string) : list string :=
  SortStrings (filter (λ key, HasPrefix key prefix = true) ((map_to_list objs).*1)).

(** What an implementation promises, over the map of objects it stands for.  A
    failed write may or may not have been applied; a check only reads. *)
Class BackendSpec (W : Type) `{Backend W} (objects : W → gmap string string) := {
  check_spec w prefix w' r : Check_ prefix w = (w', r) → objects w' = objects w;
  get_spec w key w' r : Get_ key w = (w', r) →
    objects w' = objects w ∧
    match r with
    | Ok data => objects w !! key = Some data
    | Err e => errors_is ErrNotFound e = true → objects w !! key = None
    end;
  put_spec w key data w' r : Put_ key data w = (w', r) →
    match r with
    | Ok _ => objects w' = <[key := data]> (objects w)
    | Err _ => objects w' = objects w ∨ objects w' = <[key := data]> (objects w)
    end;
  list_spec w prefix w' r : List_ prefix w = (w', r) →
    objects w' = objects w ∧
    match r with Ok keys => keys = keys_under (objects w) prefix | Err _ => True end;
  delete_spec w key w' r : Delete_ key w = (w', r) →
    match r with
    | Ok _ => objects w' = delete key (objects w)
    | Err _ => objects w' = objects w ∨ objects w' = delete key (objects w)
    end
}.

(** ** storetest.Backend *)

Module storetest.

Record state := {
  Objects : gmap string string;
  Gets : Z;
  Puts : Z;
  CheckErr : option error
}.

Definition NewBackend : state := {| Objects := ∅; Gets := 0; Puts := 0; CheckErr := None |}.

Definition Get (key : string) : prog state string := λ b,
  let b := {| Objects := Objects b; Gets := Gets b + 1; Puts := Puts b; CheckErr := CheckErr b |} in
  match Objects b !! key with
  | None => (b, Err (Wrapf "%w: %s" [AStr key] (Sentinel ErrNotFound)))
  | Some data => (b, Ok data)
  end.

Definition Put (key data : string) : prog state unit := λ b,
  ({| Objects := <[key := data]> (Objects b); Gets := Gets b; Puts := Puts b + 1;
      CheckErr := CheckErr b |}, Ok ()).

Definition List (prefix : string) : prog state (list string) := λ b,
  (b, Ok (SortStrings (filter (λ key, HasPrefix key prefix = true) ((map_to_list (Objects b)).*1)))).

Definition Check (prefix : string) : prog state unit := λ b,
  (b, match CheckErr b with Some e => Err e | None => Ok () end).

Definition Delete (key : string) : prog state unit := λ b,
  ({| Objects := delete key (Objects b); Gets := Gets b; Puts := Puts b; CheckErr := CheckErr b |}, Ok ()).

End storetest.

#[export] Instance storetest_backend : Backend storetest.state := {
  Check_ := storetest.Check;
  Get_ := storetest.Get;
  Put_ := storetest.Put;
  List_ := storetest.List;
  Delete_ := storetest.Delete
}.

(** The in-memory backend keeps the contract. *)
#[export] Instance storetest_spec : BackendSpec storetest.state storetest.Objects.
Proof.
  split.
  - by intros w prefix w' r [= <- _].
  - intros w key w' r. simpl. unfold storetest.Get. cbn.
    destruct (storetest.Objects w !! key) eqn:Hk; intros [= <- <-]; done.
  - intros w key data w' r [= <- <-]. done.
  - intros w prefix w' r [= <- <-]. done.
  - intros w key w' r [= <- <-]. done.
Qed.

(** ** Listing *)

Lemma elem_of_keys_under objs prefix key :
  key ∈ keys_under objs prefix ↔ is_Some (objs !! key) ∧ HasPrefix key prefix = true.
Proof.
  unfold keys_under, SortStrings. rewrite (merge_sort_Permutation String.le).
  rewrite list_elem_of_filter, list_elem_of_fmap. split.
  - intros [Hp ([k v] & -> & Hk)]. apply elem_of_map_to_list in Hk. split; [by eexists|done].
  - intros [[v Hv] Hp]. split; [done|]. exists (key, v). split; [done|]. by apply elem_of_map_to_list.
Qed.

Lemma NoDup_keys_under objs prefix : NoDup (keys_under objs prefix).
Proof.
  unfold keys_under, SortStrings. rewrite (merge_sort_Permutation String.le).
  apply NoDup_filter, NoDup_fst_map_to_list.
Qed.
