(* ===== verification/JsonText.v ===== *)
(** * What is encoded is decoded again

    The round trips of [encoding/json] that reading back a snapshot rests on:
    string literals, number literals, documents (compact or indented) and
    generic values. *)

From S2P Require Import Prelude GoStrings GoJson.

#[local] Open Scope stdpp_scope.

(** ** Strings *)

(** Well-formed UTF-8: encoding leaves such a string as it is. *)
Fixpoint utf8 (s : string) : bool :=
  match s with
  | EmptyString => true
  | String a r =>
      match rune_size s, r with
      | 1, _ => utf8 r
      | 2, String b r2 => utf8 r2
      | 3, String b (String c r3) => utf8 r3
      | 4, String b (String c (String d r4)) => utf8 r4
      | _, _ => false
      end
  end.

Definition prepend (pre : string) (r : option (string * string)) : option (string * string) :=
  '(t, rest) ← r; Some (pre +:+ t, rest).

Lemma rune_size_cases s :
  match s with
  | EmptyString => True
  | String a r =>
      match rune_size s, r with
      | 1, _ => byte_in 0 127 a = true
      | 2, String b r2 => byte_in 194 223 a = true
      | 3, String b (String c r3) => byte_in 224 239 a = true
      | 4, String b (String c (String d r4)) => byte_in 240 244 a = true
      | _, _ => True
      end
  end.
Proof.
  destruct s as [|a r]; [done|]. unfold rune_size.
  destruct (byte_in 0 127 a) eqn:H1; [done|].
  destruct r as [|b r]; [done|].
  destruct (byte_in 194 223 a) eqn:H2; [by destruct (byte_in 128 191 b)|].
  destruct r as [|c r]; [done|].
  destruct (byte_in 224 239 a) eqn:H3; [by destruct (_ && _)|].
  destruct r as [|d r]; [done|].
  destruct (byte_in 240 244 a) eqn:H4; simpl; [by destruct (_ && _)|done].
Qed.

(** A rune's length is decided by its own bytes. *)
Lemma rune_size_1 a r : byte_in 0 127 a = true → rune_size (String a r) = 1.
Proof. intros Ha. unfold rune_size. by rewrite Ha. Qed.

Lemma rune_size_2 a b r r' : rune_size (String a (String b r)) = 2 → rune_size (String a (String b r')) = 2.
Proof.
  unfold rune_size. repeat destruct_match; try done; repeat case_match; naive_solver.
Qed.
Lemma rune_size_3 a b c r r' :
  rune_size (String a (String b (String c r))) = 3 → rune_size (String a (String b (String c r'))) = 3.
Proof.
  unfold rune_size. repeat case_match; naive_solver.
Qed.
Lemma rune_size_4 a b c d r r' :
  rune_size (String a (String b (String c (String d r)))) = 4 →
  rune_size (String a (String b (String c (String d r')))) = 4.
Proof.
  unfold rune_size. repeat case_match; naive_solver.
Qed.

Lemma unquote_ascii a t :
  byte_in 0 127 a = true → unquote (quote_ascii a +:+ t) = prepend (String a "") (unquote t).
Proof.
  destruct a as [[] [] [] [] [] [] [] []]; intros Ha; try done; reflexivity.
Qed.

(** A byte that is neither a quote, a backslash nor a control character starts
    a rune. *)
Lemma unquote_rune a r :
  byte_in 128 255 a = true →
  unquote (String a r) =
    match rune_size (String a r), r with
    | 1, _ => prepend (String a "") (unquote r)
    | 2, String b r2 => prepend (String a (String b "")) (unquote r2)
    | 3, String b (String c r3) => prepend (String a (String b (String c ""))) (unquote r3)
    | 4, String b (String c (String d r4)) =>
        prepend (String a (String b (String c (String d "")))) (unquote r4)
    | _, _ => prepend replacement (unquote r)
    end.
Proof.
  unfold byte_in. intros [Hlo _]%andb_true_iff. apply N.leb_le in Hlo.
  cbn [unquote]. cbv zeta.
  rewrite (proj2 (N.eqb_neq _ _)), (proj2 (N.eqb_neq _ _)), (proj2 (N.ltb_ge _ _)) by lia. done.
Qed.

Lemma byte_in_high lo hi a : (128 ≤ lo)%N → byte_in lo hi a = true → byte_in 128 255 a = true.
Proof.
  unfold byte_in. intros Hlo [H1 H2]%andb_true_iff. apply N.leb_le in H1.
  apply andb_true_iff. split; apply N.leb_le; [lia|]. pose proof (N_ascii_bounded a). lia.
Qed.

Lemma unquote_rune3 a b c t :
  byte_in 224 239 a = true → rune_size (String a (String b (String c t))) = 3 →
  unquote (quote_rune3 a b c +:+ t) = prepend (String a (String b (String c ""))) (unquote t).
Proof.
  intros Ha Hr. unfold quote_rune3. destruct (_ && _) eqn:He.
  - apply andb_true_iff in He as [[Ea Eb]%andb_true_iff Ec].
    apply N.eqb_eq in Ea, Eb.
    assert (a = byte 226) as -> by (rewrite <-(ascii_N_embedding a), Ea; done).
    assert (b = byte 128) as -> by (rewrite <-(ascii_N_embedding b), Eb; done).
    clear Ha Hr Ea Eb. destruct c as [[] [] [] [] [] [] [] []]; try done; reflexivity.
  - rewrite !str_app_cons, str_app_nil_l. rewrite unquote_rune by (by eapply byte_in_high; [|exact Ha]). by rewrite Hr.
Qed.

(** An encoded string is read back as it was. *)
Lemma unquote_quote_body s t :
  utf8 s = true → unquote (quote_body s +:+ dquote +:+ t) = Some (s, t).
Proof.
  remember (String.length s) as n eqn:Hn. revert s Hn.
  induction n as [n IH] using lt_wf_ind. intros s -> Hs.
  assert (∀ s', String.length s' < String.length s → utf8 s' = true →
    unquote (quote_body s' +:+ dquote +:+ t) = Some (s', t)) as IHs
    by (intros s' Hl; by eapply IH).
  clear IH. pose proof (rune_size_cases s) as Hc.
  destruct s as [|a r]; [done|]. cbn [utf8 quote_body] in *.
  destruct (rune_size (String a r)) as [|[|[|[|[|k]]]]] eqn:Hr; try done.
  - rewrite <-str_app_assoc, unquote_ascii by done. rewrite IHs by (simpl; done || lia). done.
  - destruct r as [|b r]; [done|]. cbn [String.length] in IHs.
    rewrite !str_app_cons, unquote_rune by (by eapply byte_in_high; [|exact Hc]).
    rewrite (rune_size_2 _ _ _ _ Hr), IHs by (done || lia). done.
  - destruct r as [|b [|c r]]; try done. cbn [String.length] in IHs.
    rewrite <-str_app_assoc, unquote_rune3 by (done || by eapply rune_size_3).
    rewrite IHs by (done || lia). done.
  - destruct r as [|b [|c [|d r]]]; try done. cbn [String.length] in IHs.
    rewrite !str_app_cons, unquote_rune by (by eapply byte_in_high; [|exact Hc]).
    rewrite (rune_size_4 _ _ _ _ _ _ Hr), IHs by (done || lia). done.
Qed.

(** ** Numbers *)

Definition head_digit (s : string) : bool := match s with String a _ => is_digit a | _ => false end.
(** The text after a value: what could not belong to a number. *)
Definition ends_number (s : string) : bool :=
  match s with
  | EmptyString => true
  | String a _ => negb (is_digit a || bool_decide (a ∈ ["."; "e"; "E"]%char))
  end.

Lemma take_digits_app s ds r t :
  GoJson.take_digits s = (ds, r) → (r = "" → head_digit t = false) →
  GoJson.take_digits (s +:+ t) = (ds, r +:+ t) ∧ s = ds +:+ r ∧ head_digit r = false.
Proof.
  revert ds r. induction s as [|a s IH]; intros ds r.
  - intros [= <- <-] Ht. rewrite !str_app_nil_l. split_and!; try done.
    specialize (Ht eq_refl). destruct t as [|b t]; [done|]. simpl in *. by rewrite Ht.
  - simpl. destruct (is_digit a) eqn:Ha.
    + destruct (GoJson.take_digits s) as [ds' r'] eqn:Hd. intros [= <- <-] Ht.
      destruct (IH _ _ eq_refl Ht) as (Hd' & -> & Hh). by rewrite Hd'.
    + intros [= <- <-] _. by rewrite !str_app_nil_l.
Qed.

(** The three parts of a number after its sign. *)
Definition scan_int (s : string) : option (string * string) :=
  match GoJson.take_digits s with
  | (String a EmptyString as ds, r) => Some (ds, r)
  | (String a _ as ds, r) => if decide (a = "0"%char) then None else Some (ds, r)
  | (EmptyString, _) => None
  end.
Definition scan_frac (s : string) : option (string * string) :=
  match CutPrefix s "." with
  | None => Some ("", s)
  | Some r => match GoJson.take_digits r with
              | (EmptyString, _) => None
              | (ds, r') => Some ("." +:+ ds, r')
              end
  end.
Definition scan_exp (s : string) : option (string * string) :=
  match s with
  | String e r =>
      if decide (e = "e"%char ∨ e = "E"%char) then
        let '(sg, r) := match r with
                        | String c r' => if decide (c = "+"%char ∨ c = "-"%char)
                                         then (String c "", r') else ("", r)
                        | EmptyString => ("", r)
                        end in
        match GoJson.take_digits r with
        | (EmptyString, _) => None
        | (ds, r') => Some (String e (sg +:+ ds), r')
        end
      else Some ("", s)
  | EmptyString => Some ("", s)
  end.
Definition scan_sign (s : string) : string * string :=
  match CutPrefix s "-" with Some r => ("-", r) | None => ("", s) end.

Lemma scan_number_parts s :
  scan_number s =
    let '(sign, s) := scan_sign s in
    '(int, s) ← scan_int s; '(frac, s) ← scan_frac s; '(exp, s) ← scan_exp s;
    Some (sign +:+ int +:+ frac +:+ exp, s).
Proof. reflexivity. Qed.

(** A part is read the same with a text after it. *)
Definition extends (f : string → option (string * string)) : Prop := ∀ s x r t,
  f s = Some (x, r) → (r = "" → ends_number t = true) →
  f (s +:+ t) = Some (x, r +:+ t) ∧ s = x +:+ r.

Lemma ends_no_digit t : ends_number t = true → head_digit t = false.
Proof. destruct t as [|a t]; [done|]. simpl. by destruct (is_digit a). Qed.

Lemma scan_int_extends : extends scan_int.
Proof.
  intros s x r t. unfold scan_int. destruct (GoJson.take_digits s) as [ds r'] eqn:Hd. intros Hs Ht.
  assert (ds = x ∧ r' = r) as [-> ->] by (repeat case_match; naive_solver).
  destruct (take_digits_app _ _ _ t Hd) as (-> & Hx & _); [intros ?; by apply ends_no_digit, Ht|].
  split; [|done]. repeat case_match; naive_solver.
Qed.

Lemma CutPrefix_byte c s :
  CutPrefix s (String c "") = match s with String a r => if decide (a = c) then Some r else None
                              | EmptyString => None end.
Proof. destruct s as [|a r]; [done|]. simpl. destruct (decide (c = a)) as [->|]; [|by rewrite decide_False by congruence].
  rewrite decide_True by done. by destruct r.
Qed.

Lemma scan_frac_extends : extends scan_frac.
Proof.
  intros s x r t. unfold scan_frac. rewrite !CutPrefix_byte. destruct s as [|a s].
  - intros [= <- <-] Ht. rewrite !str_app_nil_l. split; [|done].
    specialize (Ht eq_refl). destruct t as [|b t]; [done|].
    case_decide; [|done]. subst. done.
  - rewrite str_app_cons. destruct (decide (a = "."%char)) as [->|].
    + destruct (GoJson.take_digits s) as [ds r'] eqn:Hd. destruct ds as [|d ds]; [done|].
      intros [= <- <-] Ht.
      destruct (take_digits_app _ _ _ t Hd) as (-> & -> & _); [intros ?; by apply ends_no_digit, Ht|].
      split; [done|]. by rewrite <-str_app_assoc.
    + by intros [= <- <-] _.
Qed.

Lemma scan_exp_extends : extends scan_exp.
Proof.
  intros s x r t. destruct s as [|e s].
  - intros [= <- <-] Ht. rewrite !str_app_nil_l. split; [|done].
    specialize (Ht eq_refl). destruct t as [|b t]; [done|]. simpl.
    rewrite decide_False; [done|]. intros [->| ->]; done.
  - rewrite str_app_cons. unfold scan_exp. destruct (decide (e = "e"%char ∨ e = "E"%char)).
    2: by intros [= <- <-] _.
    set (sg := λ s : string, match s with
                  | String c r' => if decide (c = "+"%char ∨ c = "-"%char)
                                   then (String c "", r') else ("", s)
                  | EmptyString => ("", s) end).
    change (match s with String c r' => _ | EmptyString => _ end) with (sg s) at 1.
    change (match s +:+ t with String c r' => _ | EmptyString => _ end) with (sg (s +:+ t)).
    destruct (sg s) as [sign s'] eqn:Hsg.
    destruct (GoJson.take_digits s') as [ds r'] eqn:Hd. destruct ds as [|d ds]; [done|].
    intros [= <- <-] Ht.
    destruct (take_digits_app _ _ _ t Hd) as (Hd' & Hs' & _); [intros ?; by apply ends_no_digit, Ht|].
    assert (sg (s +:+ t) = (sign, s' +:+ t) ∧ s = sign +:+ s') as [-> ->].
    { destruct s as [|c s]; simpl in Hsg.
      - injection Hsg as <- <-. done.
      - rewrite str_app_cons. simpl. case_decide; by injection Hsg as <- <-. }
    rewrite Hd'. split; [done|]. rewrite Hs'.
    change (String e (sign +:+ (String d ds +:+ r')) = String e ((sign +:+ String d ds) +:+ r')).
    f_equal. apply str_app_assoc.
Qed.

Lemma scan_number_extends : extends scan_number.
Proof.
  intros s x r t. rewrite !scan_number_parts. destruct (scan_sign s) as [sign s1] eqn:Hsign. cbv zeta.
  destruct (scan_int s1) as [[i s2]|] eqn:Hi; [|done]. rewrite some_bind.
  destruct (scan_frac s2) as [[fr s3]|] eqn:Hf; [|done]. rewrite some_bind.
  destruct (scan_exp s3) as [[e s4]|] eqn:He; [|done]. rewrite some_bind. intros [= <- <-] Ht.
  assert (scan_sign (s +:+ t) = (sign, s1 +:+ t) ∧ s = sign +:+ s1) as [-> ->].
  { unfold scan_sign in *. rewrite CutPrefix_byte in *. destruct s as [|a s].
    - injection Hsign as <- <-. done.
    - rewrite str_app_cons. by destruct (decide (a = "-"%char)) as [->|]; injection Hsign as <- <-. }
  pose proof (scan_exp_extends _ _ _ t He Ht) as [He' H3].
  assert (s3 = "" → ends_number t = true) as Ht3.
  { intros ->. apply Ht. symmetry in H3. by apply str_app_eq_nil in H3 as [_ ?]. }
  pose proof (scan_frac_extends _ _ _ t Hf Ht3) as [Hf' H2].
  assert (s2 = "" → ends_number t = true) as Ht2.
  { intros ->. apply Ht3. symmetry in H2. by apply str_app_eq_nil in H2 as [_ ?]. }
  pose proof (scan_int_extends _ _ _ t Hi Ht2) as [Hi' H1].
  rewrite Hi', some_bind, Hf', some_bind, He', some_bind.
  split; [done|]. rewrite H1, H2, H3. by rewrite !str_app_assoc.
Qed.

Lemma scan_valid_number s t :
  valid_number s = true → ends_number t = true → scan_number (s +:+ t) = Some (s, t).
Proof.
  unfold valid_number. destruct (scan_number s) as [[x r]|] eqn:Hs; [|done].
  destruct r; [|done]. intros _ Ht.
  apply (scan_number_extends _ _ _ t) in Hs as [Hs Hx]; [|done].
  rewrite Hs, str_app_nil_l. by rewrite Hx, str_app_nil_r.
Qed.

Lemma valid_number_head s :
  valid_number s = true → ∃ a r, s = String a r ∧ (is_digit a = true ∨ a = "-"%char).
Proof.
  unfold valid_number. rewrite scan_number_parts. destruct s as [|a r]; [done|]. intros Hv.
  exists a, r. split; [done|]. unfold scan_sign in Hv. rewrite CutPrefix_byte in Hv.
  destruct (decide (a = "-"%char)); [by right|]. left. cbv zeta in Hv.
  unfold scan_int in Hv. simpl in Hv. by destruct (is_digit a).
Qed.

(** ** Documents *)

(** Compact and indented encoding are one layout, with or without breaks. *)
Section render.
Context (br : nat → string) (sp : string).

Fixpoint render (depth : nat) (d : doc) : string :=
  match d with
  | DArr [] => "[]"
  | DObj [] => "{}"
  | DArr l =>
      "[" +:+ br (S depth)
      +:+ Join (render (S depth) <$> l) ("," +:+ br (S depth)) +:+ br depth +:+ "]"
  | DObj l =>
      "{" +:+ br (S depth)
      +:+ Join ((λ '(k, v), quote k +:+ ":" +:+ sp +:+ render (S depth) v) <$> l)
               ("," +:+ br (S depth)) +:+ br depth +:+ "}"
  | _ => encode_doc d
  end.

End render.

Lemma indent_doc_render depth d : indent_doc depth d = render break " " depth d.
Proof. reflexivity. Qed.

Lemma encode_doc_render depth d : encode_doc d = render (λ _, "") "" depth d.
Proof.
  revert depth. induction d as [| | | |l IH|l IH] using doc_ind; intros depth; try done.
  - destruct l as [|x l]; [done|].
    change ("[" +:+ Join (encode_doc <$> x :: l) "," +:+ "]"
            = "[" +:+ Join (render (λ _, "") "" (S depth) <$> x :: l) "," +:+ "]").
    do 3 f_equal. apply list_fmap_ext. intros i y Hi. rewrite Forall_forall in IH.
    apply IH. by eapply list_elem_of_lookup_2.
  - destruct l as [|x l]; [done|].
    change ("{" +:+ Join ((λ '(k, v), quote k +:+ ":" +:+ encode_doc v) <$> x :: l) "," +:+ "}"
            = "{" +:+ Join ((λ '(k, v), quote k +:+ ":" +:+ render (λ _, "") "" (S depth) v) <$> x :: l)
                        "," +:+ "}").
    do 3 f_equal. apply list_fmap_ext. intros i [k y] Hi. rewrite Forall_forall in IH.
    do 2 f_equal. apply (IH (k, y)). by eapply list_elem_of_lookup_2.
Qed.

(** A document that survives encoding: strings and names are well-formed, and
    numbers are number literals. *)
Fixpoint doc_ok (d : doc) : bool :=
  match d with
  | DNum s => valid_number s
  | DStr s => utf8 s
  | DArr l => forallb doc_ok l
  | DObj l => forallb (λ kv, utf8 kv.1 && doc_ok kv.2) l
  | _ => true
  end.

Fixpoint blank (s : string) : bool :=
  match s with EmptyString => true | String a r => is_space a && blank r end.

Lemma skip_space_blank w t : blank w = true → skip_space (w +:+ t) = skip_space t.
Proof.
  induction w as [|a w IH]; [done|]. simpl. intros [Ha Hw]%andb_true_iff. rewrite Ha. by apply IH.
Qed.

Lemma blank_spaces n : blank (spaces n) = true.
Proof. induction n; simpl; auto. Qed.
Lemma blank_break n : blank (break n) = true.
Proof. unfold break, newline. simpl. apply blank_spaces. Qed.

Definition no_space_head (s : string) : bool :=
  match s with String a _ => negb (is_space a) | EmptyString => false end.
Lemma skip_space_head s : no_space_head s = true → skip_space s = s.
Proof. destruct s as [|a s]; [done|]. simpl. by destruct (is_space a). Qed.

(** The first byte of a value is neither white space nor a closing bracket. *)
Definition value_head (s : string) : bool :=
  match s with
  | String a _ => negb (is_space a) && negb (bool_decide (a ∈ ["]"; "}"]%char))
  | EmptyString => false
  end.

Lemma value_head_no_space s t : value_head s = true → no_space_head (s +:+ t) = true.
Proof. destruct s as [|a s]; [done|]. simpl. by intros [? _]%andb_true_iff. Qed.

Lemma number_head a :
  is_digit a = true ∨ a = "-"%char →
  let n := N_of_ascii a in
  is_space a = false ∧ n ≠ 34%N ∧ n ≠ 91%N ∧ n ≠ 123%N ∧ n ≠ 110%N ∧ n ≠ 116%N ∧ n ≠ 102%N
  ∧ a ∉ ["]"; "}"]%char.
Proof.
  intros [Ha | ->]; cbv zeta; [|repeat split; (done || set_solver)].
  unfold is_digit, byte_in in Ha. apply andb_true_iff in Ha as [H1 H2].
  apply N.leb_le in H1, H2. split_and!; try lia.
  - unfold is_space. repeat rewrite (proj2 (N.eqb_neq _ _)) by lia. done.
  - rewrite not_elem_of_cons, list_elem_of_singleton. split; intros ->; by apply H2.
Qed.

Lemma render_head br sp depth d : doc_ok d = true → value_head (render br sp depth d) = true.
Proof.
  destruct d as [|[]|s|s|[|x l]|[|x l]]; try done. simpl. intros Hs.
  apply valid_number_head in Hs as (a & r & -> & Ha). unfold encode_doc. simpl.
  destruct (number_head a Ha) as (-> & _ & _ & _ & _ & _ & _ & Hn).
  by rewrite bool_decide_eq_false_2.
Qed.

(** ** Reading a rendered document *)

Abbreviation scanner A := (string → option (A * string)).

(** [parse_value] after the white space, over the parsers of what is nested in
    the value. *)
Definition value_step (els : scanner (list doc)) (mems : scanner (list (string * doc))) : scanner doc :=
  λ s, match s with
       | EmptyString => None
       | String a r as s' =>
           let n := N_of_ascii a in
           if (n =? 34)%N then '(t, rest) ← unquote r; Some (DStr t, rest)
           else if (n =? 91)%N then
             match CutPrefix (skip_space r) "]" with
             | Some rest => Some (DArr [], rest)
             | None => '(l, rest) ← els r; Some (DArr l, rest)
             end
           else if (n =? 123)%N then
             match CutPrefix (skip_space r) "}" with
             | Some rest => Some (DObj [], rest)
             | None => '(l, rest) ← mems r; Some (DObj l, rest)
             end
           else if (n =? 110)%N then rest ← CutPrefix s' "null"; Some (DNull, rest)
           else if (n =? 116)%N then rest ← CutPrefix s' "true"; Some (DBool true, rest)
           else if (n =? 102)%N then rest ← CutPrefix s' "false"; Some (DBool false, rest)
           else '(lit, rest) ← scan_number s'; Some (DNum lit, rest)
       end.
Definition parse_dispatch (f : nat) : scanner doc := value_step (parse_elements f) (parse_members f).

Lemma parse_value_S f s : parse_value (S f) s = parse_dispatch f (skip_space s).
Proof. unfold parse_value, parse_dispatch, value_step. by destruct (skip_space s). Qed.

Definition after_element (f : nat) (v : doc) (s : string) : option (list doc * string) :=
  match skip_space s with
  | String a r =>
      if (N_of_ascii a =? 44)%N then '(l, rest) ← parse_elements f r; Some (v :: l, rest)
      else if (N_of_ascii a =? 93)%N then Some ([v], r)
      else None
  | EmptyString => None
  end.
Lemma parse_elements_S f s :
  parse_elements (S f) s = '(v, s) ← parse_value f s; after_element f v s.
Proof. reflexivity. Qed.

Definition after_member (f : nat) (k : string) (v : doc) (s : string)
    : option (list (string * doc) * string) :=
  match skip_space s with
  | String a r =>
      if (N_of_ascii a =? 44)%N then '(l, rest) ← parse_members f r; Some ((k, v) :: l, rest)
      else if (N_of_ascii a =? 125)%N then Some ([(k, v)], r)
      else None
  | EmptyString => None
  end.
Lemma parse_members_S f s :
  parse_members (S f) s =
    s ← CutPrefix (skip_space s) dquote; '(k, s) ← unquote s;
    s ← CutPrefix (skip_space s) ":"; '(v, s) ← parse_value f s; after_member f k v s.
Proof. reflexivity. Qed.

Lemma ends_blank w u : blank w = true → ends_number u = true → ends_number (w +:+ u) = true.
Proof.
  destruct w as [|a w]; [done|]. intros [Ha _]%andb_true_iff _.
  destruct a as [[] [] [] [] [] [] [] []]; try done; reflexivity.
Qed.

Lemma dispatch_number f s t :
  valid_number s = true → ends_number t = true → parse_dispatch f (s +:+ t) = Some (DNum s, t).
Proof.
  intros Hv Ht. pose proof (scan_valid_number _ _ Hv Ht) as Hs.
  apply valid_number_head in Hv as (a & r & -> & Ha). rewrite str_app_cons in Hs |- *.
  destruct (number_head a Ha) as (_ & H1 & H2 & H3 & H4 & H5 & H6 & _).
  unfold parse_dispatch, value_step. cbv zeta. rewrite !(proj2 (N.eqb_neq _ _)) by done. by rewrite Hs.
Qed.

Section parse_render.
Context (br : nat → string) (sp : string).
Context (Hbr : ∀ n, blank (br n) = true) (Hsp : blank sp = true).

(** What is read back, for one document. *)
Definition reads_back (d : doc) : Prop := ∀ depth fuel w t,
  blank w = true → ends_number t = true → (String.length (render br sp depth d) ≤ fuel)%nat →
  parse_value fuel (w +:+ render br sp depth d +:+ t) = Some (d, t).

Lemma parse_value_render depth f w d t :
  doc_ok d = true → blank w = true →
  parse_value (S f) (w +:+ render br sp depth d +:+ t) = parse_dispatch f (render br sp depth d +:+ t).
Proof.
  intros Hd Hw. rewrite parse_value_S, skip_space_blank, skip_space_head; [done| |done].
  by apply value_head_no_space, render_head.
Qed.

Lemma parse_elements_render l depth fuel w e t :
  l ≠ [] → Forall (λ d, doc_ok d = true ∧ reads_back d) l → blank w = true → blank e = true →
  (S (String.length (Join (render br sp depth <$> l) ("," +:+ br depth))) ≤ fuel)%nat →
  parse_elements fuel (w +:+ Join (render br sp depth <$> l) ("," +:+ br depth) +:+ e +:+ "]" +:+ t)
  = Some (l, t).
Proof.
  intros Hne HF Hw He. revert Hne w fuel Hw.
  induction HF as [|d l [Hd Hb] _ IH]; intros Hne w fuel Hw Hf; [done|]. clear Hne.
  destruct fuel as [|f]; [lia|]. rewrite parse_elements_S.
  destruct l as [|d' l].
  - cbn [fmap list_fmap Join] in *. rewrite Hb; [|done|by apply ends_blank|lia].
    rewrite some_bind. unfold after_element. by rewrite skip_space_blank.
  - remember (d' :: l) as l' eqn:Hl'. rewrite fmap_cons, Join_cons in Hf |- * by by rewrite Hl'.
    assert (l' ≠ []) as Hl by by rewrite Hl'. clear d' l Hl'.
    rewrite !str_length_app in Hf. change (String.length ",") with 1%nat in Hf.
    rewrite <-!str_app_assoc. rewrite Hb; [|done|done|lia]. rewrite some_bind.
    unfold after_element. rewrite str_app_cons. cbn [skip_space].
    change (is_space ",") with false. cbv iota. change (N_of_ascii "," =? 44)%N with true. cbv iota.
    rewrite str_app_nil_l, IH; [done|done|apply Hbr|lia].
Qed.

Definition member_text (depth : nat) (kv : string * doc) : string :=
  quote kv.1 +:+ ":" +:+ sp +:+ render br sp depth kv.2.

Lemma parse_members_render l depth fuel w e t :
  l ≠ [] → Forall (λ kv, utf8 kv.1 = true ∧ doc_ok kv.2 = true ∧ reads_back kv.2) l →
  blank w = true → blank e = true →
  (S (String.length (Join (member_text depth <$> l) ("," +:+ br depth))) ≤ fuel)%nat →
  parse_members fuel (w +:+ Join (member_text depth <$> l) ("," +:+ br depth) +:+ e +:+ "}" +:+ t)
  = Some (l, t).
Proof.
  intros Hne HF Hw He. revert Hne w fuel Hw.
  induction HF as [|[k d] l (Hk & Hd & Hb) _ IH]; intros Hne w fuel Hw Hf; [done|]. clear Hne.
  destruct fuel as [|f]; [lia|]. rewrite parse_members_S. simpl in Hk, Hd, Hb.
  assert (∀ u, ends_number u = true → (String.length (render br sp depth d) ≤ f)%nat →
    (s ← CutPrefix (skip_space (w +:+ member_text depth (k, d) +:+ u)) dquote; '(k, s) ← unquote s;
     s ← CutPrefix (skip_space s) ":"; '(v, s) ← parse_value f s; after_member f k v s)
    = after_member f k d u) as Hone.
  { intros u Hu Hl. unfold member_text, quote. cbn [fst snd]. rewrite <-!str_app_assoc.
    rewrite skip_space_blank, skip_space_head by done. rewrite CutPrefix_app, some_bind.
    rewrite unquote_quote_body, some_bind by done. rewrite str_app_cons, str_app_nil_l.
    rewrite skip_space_head by done. rewrite CutPrefix_byte, decide_True, some_bind by done.
    by rewrite Hb by done. }
  destruct l as [|d' l].
  - cbn [fmap list_fmap Join] in *. rewrite Hone.
    + unfold after_member. by rewrite skip_space_blank.
    + by apply ends_blank.
    + unfold member_text in Hf. rewrite !str_length_app in Hf. simpl snd in Hf. lia.
  - remember (d' :: l) as l' eqn:Hl'. rewrite fmap_cons, Join_cons in Hf |- * by by rewrite Hl'.
    assert (l' ≠ []) as Hl by by rewrite Hl'. clear d' l Hl'.
    unfold member_text at 1 in Hf.
    rewrite !str_length_app in Hf. change (String.length ",") with 1%nat in Hf. simpl snd in Hf.
    rewrite <-!str_app_assoc. rewrite Hone by (done || lia).
    unfold after_member. rewrite str_app_cons. cbn [skip_space].
    change (is_space ",") with false. cbv iota. change (N_of_ascii "," =? 44)%N with true. cbv iota.
    rewrite str_app_nil_l, IH; [done|done|apply Hbr|lia].
Qed.

Lemma Forall_doc_ok l :
  forallb doc_ok l = true → Forall (λ d, doc_ok d = true → reads_back d) l →
  Forall (λ d, doc_ok d = true ∧ reads_back d) l.
Proof.
  intros Hl. rewrite forallb_forall in Hl. rewrite !Forall_forall. intros IH d Hd.
  assert (doc_ok d = true) by by apply Hl, list_elem_of_In. auto.
Qed.
Lemma Forall_members_ok l :
  forallb (λ kv, utf8 kv.1 && doc_ok kv.2) l = true →
  Forall (λ kv, doc_ok kv.2 = true → reads_back kv.2) l →
  Forall (λ kv, utf8 kv.1 = true ∧ doc_ok kv.2 = true ∧ reads_back kv.2) l.
Proof.
  intros Hl. rewrite forallb_forall in Hl. rewrite !Forall_forall. intros IH kv Hd.
  assert (utf8 kv.1 && doc_ok kv.2 = true) as [? ?]%andb_true_iff by by apply Hl, list_elem_of_In. auto.
Qed.

(** What follows an opening bracket is not the closing one. *)
Lemma no_close c w s t :
  c ∈ ["]"; "}"]%char → blank w = true → value_head s = true →
  CutPrefix (skip_space (w +:+ s +:+ t)) (String c "") = None.
Proof.
  intros Hc Hw Hs. rewrite skip_space_blank, skip_space_head by (done || by apply value_head_no_space).
  destruct s as [|a s]; [done|]. rewrite str_app_cons, CutPrefix_byte. rewrite decide_False; [done|].
  intros ->. simpl in Hs. rewrite bool_decide_eq_true_2 in Hs by done. by rewrite andb_comm in Hs.
Qed.

Lemma Join_head f (l : list doc) sep :
  l ≠ [] → (∀ d, d ∈ l → value_head (f d) = true) → value_head (Join (f <$> l) sep) = true.
Proof.
  destruct l as [|x [|y l]]; intros Hne Hh; [done|by apply Hh; left|].
  assert (value_head (f x) = true) as Hx by (apply Hh; left).
  rewrite fmap_cons, Join_cons by done. destruct (f x); done.
Qed.

(** No rendered value is empty, so there is fuel to spend on it. *)
Lemma render_fuel d depth fuel :
  doc_ok d = true → (String.length (render br sp depth d) ≤ fuel)%nat → ∃ f, fuel = S f.
Proof.
  intros Hd%(render_head br sp depth) Hf. destruct fuel as [|f]; [|by exists f].
  exfalso. destruct (render br sp depth d); [done|simpl in Hf; lia].
Qed.

Lemma parse_render_array l :
  Forall (λ d, doc_ok d = true → reads_back d) l → doc_ok (DArr l) = true → reads_back (DArr l).
Proof.
  intros IH Hd depth fuel w t Hw Ht Hf. destruct (render_fuel _ _ _ Hd Hf) as [f ->].
  rewrite parse_value_render by done. destruct l as [|x l]; [by destruct t|].
  remember (x :: l) as l' eqn:Hl'. assert (l' ≠ []) as Hl by by rewrite Hl'.
  assert (render br sp depth (DArr l') = "[" +:+ br (S depth)
    +:+ Join (render br sp (S depth) <$> l') ("," +:+ br (S depth)) +:+ br depth +:+ "]") as Hr
    by by rewrite Hl'.
  clear x l Hl'. rewrite Hr in Hf |- *. clear Hr. rewrite <-!str_app_assoc.
  rewrite str_app_cons, str_app_nil_l. unfold parse_dispatch, value_step.
  change (N_of_ascii "[" =? 34)%N with false. change (N_of_ascii "[" =? 91)%N with true. cbv iota zeta.
  pose proof (Forall_doc_ok _ Hd IH) as HF.
  rewrite no_close; [| |apply Hbr|].
  2: { left. }
  2: { apply Join_head; [done|]. rewrite Forall_forall in HF. intros d Hin. by apply render_head, HF. }
  rewrite !str_length_app in Hf. change (String.length "[") with 1%nat in Hf.
  change (String.length "]") with 1%nat in Hf.
  rewrite parse_elements_render; [done|done|done|apply Hbr|apply Hbr|lia].
Qed.

Lemma parse_render_object l :
  Forall (λ kv, doc_ok kv.2 = true → reads_back kv.2) l → doc_ok (DObj l) = true → reads_back (DObj l).
Proof.
  intros IH Hd depth fuel w t Hw Ht Hf. destruct (render_fuel _ _ _ Hd Hf) as [f ->].
  rewrite parse_value_render by done. destruct l as [|x l]; [by destruct t|].
  remember (x :: l) as l' eqn:Hl'. assert (l' ≠ []) as Hl by by rewrite Hl'.
  assert (render br sp depth (DObj l') = "{" +:+ br (S depth)
    +:+ Join (member_text (S depth) <$> l') ("," +:+ br (S depth)) +:+ br depth +:+ "}") as Hr.
  { rewrite Hl'. cbn [render]. do 4 f_equal. apply list_fmap_ext. by intros i [k y] _. }
  assert (value_head (Join (member_text (S depth) <$> l') ("," +:+ br (S depth))) = true) as Hj.
  { rewrite Hl'. destruct l; [done|]. by rewrite fmap_cons, Join_cons. }
  clear x l Hl'. rewrite Hr in Hf |- *. clear Hr. rewrite <-!str_app_assoc.
  rewrite str_app_cons, str_app_nil_l. unfold parse_dispatch, value_step.
  change (N_of_ascii "{" =? 34)%N with false. change (N_of_ascii "{" =? 91)%N with false.
  change (N_of_ascii "{" =? 123)%N with true. cbv iota zeta.
  pose proof (Forall_members_ok _ Hd IH) as HF.
  rewrite no_close; [|right; left|apply Hbr|done].
  rewrite !str_length_app in Hf. change (String.length "{") with 1%nat in Hf.
  change (String.length "}") with 1%nat in Hf.
  rewrite parse_members_render; [done|done|done|apply Hbr|apply Hbr|lia].
Qed.

Lemma parse_render d : doc_ok d = true → reads_back d.
Proof.
  induction d as [|b|s|s|l IH|l IH] using doc_ind; intros Hd;
    [..|by apply parse_render_array|by apply parse_render_object].
  all: intros depth fuel w t Hw Ht Hf; destruct (render_fuel _ _ _ Hd Hf) as [f ->].
  all: rewrite parse_value_render by done.
  - cbn [render]. unfold encode_doc, parse_dispatch, value_step. by rewrite CutPrefix_app.
  - destruct b; cbn [render]; unfold encode_doc, parse_dispatch, value_step; by rewrite CutPrefix_app.
  - by apply dispatch_number.
  - change (render br sp depth (DStr s)) with (quote s). unfold quote. rewrite <-!str_app_assoc.
    unfold dquote at 1. rewrite str_app_cons, str_app_nil_l. unfold parse_dispatch, value_step.
    change (N_of_ascii (byte 34) =? 34)%N with true. cbv iota zeta.
    by rewrite unquote_quote_body.
Qed.

End parse_render.

(** ** Texts and documents *)

Lemma decode_indent d : doc_ok d = true → decode_doc (indent_doc 0 d) = Ok d.
Proof.
  intros Hd. unfold decode_doc. rewrite indent_doc_render.
  assert (String.length (render break " " 0 d) ≤ 2 * String.length (render break " " 0 d) + 2) as Hl by lia.
  pose proof (parse_render break " " blank_break eq_refl d Hd 0 _ "" "" eq_refl eq_refl Hl) as Hp.
  rewrite str_app_nil_r, str_app_nil_l in Hp. by rewrite Hp.
Qed.

Lemma unmarshal_encode d : doc_ok d = true → unmarshal_doc (encode_doc d) = Ok d.
Proof.
  intros Hd. unfold unmarshal_doc. rewrite (encode_doc_render 0 d). set (br := λ _ : nat, "").
  assert (String.length (render br "" 0 d) ≤ 2 * String.length (render br "" 0 d) + 2) as Hl by lia.
  pose proof (parse_render br "" (λ _, eq_refl) eq_refl d Hd 0 _ "" "" eq_refl eq_refl Hl) as Hp.
  rewrite str_app_nil_r, str_app_nil_l in Hp. by rewrite Hp.
Qed.

Lemma decode_encode d : doc_ok d = true → decode_doc (encode_doc d) = Ok d.
Proof.
  intros Hd. unfold decode_doc. rewrite (encode_doc_render 0 d). set (br := λ _ : nat, "").
  assert (String.length (render br "" 0 d) ≤ 2 * String.length (render br "" 0 d) + 2) as Hl by lia.
  pose proof (parse_render br "" (λ _, eq_refl) eq_refl d Hd 0 _ "" "" eq_refl eq_refl Hl) as Hp.
  rewrite str_app_nil_r, str_app_nil_l in Hp. by rewrite Hp.
Qed.

Lemma doc_ok_numbers d : doc_ok d = true → numbers_valid d = true.
Proof.
  induction d as [| | | |l IH|l IH] using doc_ind; try done; simpl.
  - rewrite !forallb_forall. rewrite Forall_forall in IH. intros Hl x Hx. apply IH; [|by apply Hl].
    by apply list_elem_of_In.
  - rewrite !forallb_forall. rewrite Forall_forall in IH. intros Hl x Hx.
    apply IH; [by apply list_elem_of_In|]. by apply Hl in Hx as [_ ?]%andb_true_iff.
Qed.

(** ** Maps *)

Lemma foldl_insert {A B} (g : B → A) (acc : gmap string A) (l : list (string * B)) :
  NoDup l.*1 →
  foldl (λ m '(k, v), <[k := g v]> m) acc l = list_to_map (prod_map id g <$> l) ∪ acc.
Proof.
  revert acc. induction l as [|[k v] l IH]; intros acc Hnd; [simpl; by rewrite (left_id_L ∅ (∪))|].
  rewrite fmap_cons in Hnd. apply NoDup_cons in Hnd as [Hk Hnd]. simpl. rewrite IH by done.
  rewrite <-insert_union_l, insert_union_r; [done|].
  apply not_elem_of_list_to_map_1. intros Hin. apply Hk. rewrite <-list_fmap_compose in Hin.
  by erewrite list_fmap_ext in Hin; [|by intros ? []].
Qed.

(** The members a map is encoded as, in some order. *)
Lemma map_members {A B} (f : A → B) (m : gmap string A) :
  map_fold (λ k x l, (k, f x) :: l) [] m = prod_map id f <$> map_to_list m.
Proof.
  rewrite map_fold_foldr. induction (map_to_list m) as [|[k x] l IH]; [done|]. simpl. by rewrite IH.
Qed.

Lemma members_NoDup {A B} (f : A → B) (m : gmap string A) :
  NoDup (merge_sort key_le (map_fold (λ k x l, (k, f x) :: l) [] m)).*1.
Proof.
  rewrite (merge_sort_Permutation key_le), map_members, <-list_fmap_compose.
  erewrite list_fmap_ext; [apply NoDup_fst_map_to_list|]. by intros ? [].
Qed.

Lemma fold_members {A B} (f : A → B) (g : B → A) (m : gmap string A) :
  (∀ k x, m !! k = Some x → g (f x) = x) →
  foldl (λ m '(k, v), <[k := g v]> m) ∅ (merge_sort key_le (map_fold (λ k x l, (k, f x) :: l) [] m)) = m.
Proof.
  intros Hgf. rewrite foldl_insert by apply members_NoDup. rewrite (right_id_L ∅ (∪)).
  rewrite <-(list_to_map_to_list m) at 2. apply list_to_map_proper.
  - rewrite <-list_fmap_compose. erewrite list_fmap_ext; [apply members_NoDup|]. by intros ? [].
  - rewrite (merge_sort_Permutation key_le), map_members, <-list_fmap_compose.
    rewrite <-(list_fmap_id (map_to_list m)) at 2. erewrite Forall_fmap_ext_1; [done|].
    apply Forall_forall. intros [k x] Hk. apply elem_of_map_to_list in Hk. simpl. by rewrite (Hgf k).
Qed.

(** A generic value is read back as it was. *)
Lemma any_of_doc_of_any v : any_of_doc (doc_of_any v) = v.
Proof.
  induction v as [| | | |l IH|m IH] using any_ind; try done; simpl.
  - f_equal. induction l as [|x l IHl]; [done|]. simpl. f_equal; [apply IH; left|].
    apply IHl. intros y Hy. apply IH. by right.
  - f_equal. apply (fold_members doc_of_any any_of_doc m). intros k x Hk. by eapply IH.
Qed.
