(* ===== verification/JsonFuel.v ===== *)
(** * The fuel of the JSON parser is enough

    Every call of the parser that succeeds leaves a shorter text, so no text is
    refused for want of fuel: what parses with some fuel parses with the fuel
    [decode_doc] and [unmarshal_doc] supply. *)

From S2P Require Import Prelude GoStrings GoJson JsonText.

#[local] Open Scope stdpp_scope.

(** ** Scanners shorten the text *)

Lemma skip_space_length s : (String.length (skip_space s) ≤ String.length s)%nat.
Proof. induction s as [|a s IH]; simpl; [lia|]. destruct (is_space a); simpl; lia. Qed.

Lemma CutPrefix_length s p r :
  CutPrefix s p = Some r → String.length s = (String.length p + String.length r)%nat.
Proof. intros ->%CutPrefix_Some. apply str_length_app. Qed.

Lemma unquote_shorter n s t rest :
  (String.length s ≤ n)%nat → unquote s = Some (t, rest) → (String.length rest < String.length s)%nat.
Proof.
  revert s t rest. induction n as [|n IH]; intros s t rest Hn; destruct s as [|a s]; simpl in Hn; try done; [lia|].
  assert (∀ pre u, (String.length u ≤ String.length s)%nat →
    ('(t', rest') ← unquote u; Some ((pre +:+ t')%string, rest')) = Some (t, rest) →
    (String.length rest < String.length (String a s))%nat) as Hstep.
  { intros pre u Hu. destruct (unquote u) as [[t' rest']|] eqn:E; [|done]. simpl. intros [= <- <-].
    assert (String.length rest' < String.length u)%nat by (eapply IH; [lia|done]). simpl. lia. }
  cbn [unquote]. cbv zeta. intros Hr.
  repeat (case_match; try discriminate); subst;
    repeat match goal with
    | H : hex4 ?b ?c ?d ?e ≫= _ = _ |- _ =>
        destruct (hex4 b c d e) as [rune|]; [|discriminate H]; rewrite some_bind in H
    end;
    repeat (case_match; try discriminate); subst;
    first [injection Hr as <- <-; simpl; lia | eapply Hstep; [|exact Hr]; simpl; lia].
Qed.

(** A scanner that splits the text in front of the rest leaves less of it. *)
Lemma extends_length f s x r :
  extends f → f s = Some (x, r) → String.length s = (String.length x + String.length r)%nat.
Proof. intros Hf Hs. destruct (Hf s x r "" Hs) as [_ ->]; [done|]. apply str_length_app. Qed.

Lemma scan_number_shorter s lit rest :
  scan_number s = Some (lit, rest) → (String.length rest < String.length s)%nat.
Proof.
  intros Hs. rewrite (extends_length _ _ _ _ scan_number_extends Hs).
  rewrite scan_number_parts in Hs. destruct (scan_sign s) as [sign s1].
  destruct (scan_int s1) as [[int s2]|] eqn:Hi; [|done]. rewrite some_bind in Hs.
  destruct (scan_frac s2) as [[frac s3]|]; [|done]. rewrite some_bind in Hs.
  destruct (scan_exp s3) as [[exp s4]|]; [|done]. rewrite some_bind in Hs.
  injection Hs as <- <-. rewrite !str_length_app.
  unfold scan_int in Hi. repeat case_match; simplify_eq; simpl; lia.
Qed.

(** ** Fuel *)

(** What follows an item: a comma and the items after it, or the closing byte. *)
Definition tail_step {A} (close : N) (x : A) (more : scanner (list A)) : scanner (list A) :=
  λ s, match skip_space s with
       | String a r =>
           if (N_of_ascii a =? 44)%N then '(l, rest) ← more r; Some (x :: l, rest)
           else if (N_of_ascii a =? close)%N then Some ([x], r)
           else None
       | EmptyString => None
       end.
Definition elements_step (value : scanner doc) (more : scanner (list doc)) : scanner (list doc) :=
  λ s, '(v, s) ← value s; tail_step 93 v more s.
Definition members_step (value : scanner doc) (more : scanner (list (string * doc)))
    : scanner (list (string * doc)) :=
  λ s, s ← CutPrefix (skip_space s) dquote; '(k, s) ← unquote s; s ← CutPrefix (skip_space s) ":";
       '(v, s) ← value s; tail_step 125 (k, v) more s.

(** One level of the parser. *)
Lemma parse_steps f s :
  parse_value (S f) s = value_step (parse_elements f) (parse_members f) (skip_space s)
  ∧ parse_elements (S f) s = elements_step (parse_value f) (parse_elements f) s
  ∧ parse_members (S f) s = members_step (parse_value f) (parse_members f) s.
Proof. split_and!; [apply parse_value_S|done|done]. Qed.

(** [p'] makes of every text of at most [n] bytes what [p] makes of it, and
    leaves less of it. *)
Definition follows {A} (n : nat) (p p' : scanner A) : Prop := ∀ s x rest,
  (String.length s ≤ n)%nat → p s = Some (x, rest) →
  (String.length rest < String.length s)%nat ∧ p' s = Some (x, rest).

Lemma follows_weaken {A} m n (p p' : scanner A) : follows n p p' → (m ≤ n)%nat → follows m p p'.
Proof. intros H Hm s x rest Hs. apply H. lia. Qed.

Lemma value_step_follows n els els' mems mems' :
  follows n els els' → follows n mems mems' →
  follows (S n) (λ s, value_step els mems (skip_space s)) (λ s, value_step els' mems' (skip_space s)).
Proof.
  intros Hels Hmems s x rest Hn. unfold value_step. pose proof (skip_space_length s) as Hsp.
  destruct (skip_space s) as [|a r]; [done|]. cbn [String.length] in Hsp. cbv zeta.
  destruct (_ =? 34)%N.
  { destruct (unquote r) as [[t q]|] eqn:Hu; [|done]. intros [= <- <-].
    apply unquote_shorter with (n := String.length r) in Hu; [|lia]. split; [lia|done]. }
  destruct (_ =? 91)%N; [|destruct (_ =? 123)%N].
  1,2: pose proof (skip_space_length r) as Hr;
    match goal with |- context [CutPrefix ?u ?c] => destruct (CutPrefix u c) as [q|] eqn:Hc end;
    [apply CutPrefix_length in Hc; simpl in Hc; intros [= <- <-]; split; [lia|done]|].
  - destruct (els r) as [[l q]|] eqn:Hl; [|done]. intros [= <- <-].
    apply Hels in Hl as [Hq ->]; [|lia]. split; [lia|done].
  - destruct (mems r) as [[l q]|] eqn:Hl; [|done]. intros [= <- <-].
    apply Hmems in Hl as [Hq ->]; [|lia]. split; [lia|done].
  - destruct (_ =? 110)%N; [|destruct (_ =? 116)%N; [|destruct (_ =? 102)%N]].
    1-3: match goal with |- context [CutPrefix ?u ?c] => destruct (CutPrefix u c) as [q|] eqn:Hc end; [|done];
      intros [= <- <-]; apply CutPrefix_length in Hc; simpl in Hc; split; [lia|done].
    destruct (scan_number (String a r)) as [[lit q]|] eqn:Hl; [|done]. intros [= <- <-].
    apply scan_number_shorter in Hl. simpl in Hl. split; [lia|done].
Qed.

Lemma tail_step_follows {A} n close (x : A) more more' :
  follows n more more' → follows (S n) (tail_step close x more) (tail_step close x more').
Proof.
  intros Hmore s l rest Hn. unfold tail_step. pose proof (skip_space_length s) as Hsp.
  destruct (skip_space s) as [|a r]; [done|]. cbn [String.length] in Hsp.
  destruct (_ =? 44)%N; [|destruct (_ =? close)%N; [|done]].
  - destruct (more r) as [[l' q]|] eqn:Hl; [|done]. intros [= <- <-].
    apply Hmore in Hl as [Hq ->]; [|lia]. split; [lia|done].
  - intros [= <- <-]. split; [lia|done].
Qed.

Lemma elements_step_follows n value value' more more' :
  follows (S n) value value' → follows n more more' →
  follows (S n) (elements_step value more) (elements_step value' more').
Proof.
  intros Hv Hmore s l rest Hn. unfold elements_step.
  destruct (value s) as [[v q]|] eqn:Hs; [|done]. apply Hv in Hs as [Hq ->]; [|done]. rewrite !some_bind.
  intros Ht. apply (tail_step_follows n 93 v _ _ Hmore) in Ht as [? ->]; [|lia]. split; [lia|done].
Qed.

Lemma members_step_follows n value value' more more' :
  follows n value value' → follows n more more' →
  follows (S n) (members_step value more) (members_step value' more').
Proof.
  intros Hv Hmore s l rest Hn. unfold members_step. pose proof (skip_space_length s) as Hsp.
  destruct (CutPrefix _ dquote) as [s1|] eqn:H1; [|done]. apply CutPrefix_length in H1. simpl in H1.
  rewrite !some_bind. destruct (unquote s1) as [[k s2]|] eqn:H2; [|done].
  apply unquote_shorter with (n := String.length s1) in H2; [|lia].
  rewrite !some_bind. pose proof (skip_space_length s2) as Hsp2.
  destruct (CutPrefix _ ":") as [s3|] eqn:H3; [|done]. apply CutPrefix_length in H3. simpl in H3.
  rewrite !some_bind. destruct (value s3) as [[v s4]|] eqn:H4; [|done]. apply Hv in H4 as [Hq ->]; [|lia].
  rewrite !some_bind. intros Ht.
  apply (tail_step_follows n 125 (k, v) _ _ Hmore) in Ht as [? ->]; [|lia]. split; [lia|done].
Qed.

(** Fuel in proportion to the text is as good as any. *)
Lemma parse_fuel f : ∀ n g, (2 * n + 2 ≤ g)%nat →
  follows n (parse_value f) (parse_value (pred g))
  ∧ follows n (parse_elements f) (parse_elements g)
  ∧ follows n (parse_members f) (parse_members g).
Proof.
  induction f as [|f IH]; intros n g Hg; [by split_and!; intros ????|].
  destruct n as [|n].
  { split_and!; intros s x rest Hs; assert (s = "") as -> by (destruct s; [done|simpl in Hs; lia]); [done| |done].
    rewrite (proj1 (proj2 (parse_steps f _))). unfold elements_step. by destruct f. }
  destruct g as [|[|g]]; [lia..|]. cbn [pred].
  destruct (IH (S n) (S (S g)) Hg) as (Hv & _ & _). destruct (IH n g) as (_ & Hels & Hmems); [lia|].
  destruct (IH n (S g)) as (_ & Hels' & Hmems'); [lia|].
  split_and!; intros s x rest; rewrite !(proj1 (parse_steps _ _)) || rewrite !(proj1 (proj2 (parse_steps _ _)))
    || rewrite !(proj2 (proj2 (parse_steps _ _))).
  - by apply value_step_follows.
  - by apply elements_step_follows.
  - apply members_step_follows; [|done]. eapply follows_weaken; [done|lia].
Qed.

Lemma decode_doc_complete fuel raw d rest :
  parse_value fuel raw = Some (d, rest) →
  (String.length rest < String.length raw)%nat ∧ parse_value (2 * String.length raw + 2) raw = Some (d, rest).
Proof.
  intros Hp. destruct (parse_fuel fuel (String.length raw) (S (2 * String.length raw + 2))) as [Hf _]; [lia|].
  by apply (Hf raw).
Qed.

(** No text is refused for want of fuel, and none by [json.Unmarshal] alone
    because its parser stopped early: a text that parses with any fuel decodes,
    and what does not decode parses with no fuel at all. *)
Theorem decode_doc_total raw :
  match decode_doc raw with
  | Ok d => ∃ rest, parse_value (2 * String.length raw + 2) raw = Some (d, rest)
                    ∧ (String.length rest < String.length raw)%nat
  | Err _ => ∀ fuel, parse_value fuel raw = None
  end.
Proof.
  unfold decode_doc. destruct (parse_value _ raw) as [[d rest]|] eqn:Hp.
  - exists rest. split; [done|]. by destruct (decode_doc_complete _ _ _ _ Hp).
  - intros fuel. destruct (parse_value fuel raw) as [[d rest]|] eqn:Hf; [|done].
    destruct (decode_doc_complete _ _ _ _ Hf) as [_ ?]. congruence.
Qed.
