(* ===== verification/JsonWf.v ===== *)
(** * What is parsed is well-formed

    Decoding replaces malformed bytes and unpaired surrogates, and takes only
    number literals for numbers: whatever text is decoded, the document that
    comes out can be encoded, and is then read back as it was. *)

From S2P Require Import Prelude GoStrings GoJson JsonText JsonFuel.

#[local] Open Scope stdpp_scope.

(** ** Runes *)

(** Arithmetic with division by numerals. *)
#[local] Ltac dlia := zify; Z.to_euclidean_division_equations; lia.

Lemma byte_in_byte lo hi n : (n < 256)%N → byte_in lo hi (byte n) = ((lo <=? n) && (n <=? hi))%N.
Proof. intros Hn. unfold byte_in, byte. by rewrite N_ascii_embedding. Qed.

(** A test on a byte, decided by arithmetic. *)
Lemma byte_in_yes lo hi n : (n < 256)%N → (lo ≤ n ≤ hi)%N → byte_in lo hi (byte n) = true.
Proof. intros Hn [H1 H2]. rewrite byte_in_byte by done. apply andb_true_iff. split; by apply N.leb_le. Qed.
Lemma byte_in_no lo hi n : (n < 256)%N → (n < lo ∨ hi < n)%N → byte_in lo hi (byte n) = false.
Proof. intros Hn Ho. rewrite byte_in_byte by done. apply andb_false_iff. destruct Ho; [left|right]; apply N.leb_gt; lia. Qed.

Lemma utf8_encode_rune n t :
  (n < 1114112)%N → is_surrogate n = false → utf8 (encode_rune n +:+ t) = utf8 t.
Proof.
  unfold is_surrogate. intros Hn Hs. apply andb_false_iff in Hs. rewrite !N.leb_gt in Hs. unfold encode_rune.
  destruct (n <? 128)%N eqn:H1; [|destruct (n <? 2048)%N eqn:H2; [|destruct (n <? 65536)%N eqn:H3]];
    rewrite ?N.ltb_lt, ?N.ltb_ge in *; rewrite !str_app_cons, str_app_nil_l; cbn [utf8 rune_size]; cbv zeta.
  - by rewrite byte_in_yes by lia.
  - rewrite (byte_in_no 0 127), !byte_in_yes by dlia. done.
  - rewrite (byte_in_no 0 127), (byte_in_no 194 223), (byte_in_yes 224 239) by dlia.
    destruct (decide (n < 4096)%N) as [|]; [rewrite (byte_in_yes 224 224), (byte_in_no 237 237) by dlia; rewrite !byte_in_yes by dlia; done|].
    rewrite (byte_in_no 224 224) by dlia.
    destruct (decide (53248 ≤ n < 57344)%N) as [|]; [rewrite (byte_in_yes 237 237) by dlia|rewrite (byte_in_no 237 237) by dlia];
      rewrite !byte_in_yes by dlia; done.
  - rewrite (byte_in_no 0 127), (byte_in_no 194 223), (byte_in_no 224 239), (byte_in_yes 240 244) by dlia.
    destruct (decide (n < 262144)%N) as [|]; [rewrite (byte_in_yes 240 240), (byte_in_no 244 244) by dlia|
      rewrite (byte_in_no 240 240) by dlia;
      destruct (decide (1048576 ≤ n)%N) as [|]; [rewrite (byte_in_yes 244 244) by dlia|rewrite (byte_in_no 244 244) by dlia]];
      rewrite !byte_in_yes by dlia; done.
Qed.

(** A text that decoding may put in front of another. *)
Definition whole (pre : string) : Prop := ∀ t, utf8 (pre +:+ t) = utf8 t.

Lemma whole_ascii a : (N_of_ascii a < 128)%N → whole (String a "").
Proof.
  intros Ha t. rewrite str_app_cons, str_app_nil_l. cbn [utf8].
  rewrite rune_size_1; [done|]. unfold byte_in. apply andb_true_iff. split; apply N.leb_le; lia.
Qed.
Lemma whole_replacement : whole replacement.
Proof. by intros t. Qed.

Lemma hex4_bound a b c d n : hex4 a b c d = Some n → (n < 65536)%N.
Proof.
  assert (∀ a n, hex_value a = Some n → (n < 16)%N) as Hh.
  { intros x m. unfold hex_value. repeat case_match; intros [= <-];
      repeat match goal with Hb : byte_in _ _ _ = true |- _ =>
        unfold byte_in in Hb; apply andb_true_iff in Hb as [?%N.leb_le ?%N.leb_le] end; lia. }
  unfold hex4. destruct (hex_value a) as [x|] eqn:Hx; [|done]. rewrite some_bind.
  destruct (hex_value b) as [y|] eqn:Hy; [|done]. rewrite some_bind.
  destruct (hex_value c) as [z|] eqn:Hz; [|done]. rewrite some_bind.
  destruct (hex_value d) as [w|] eqn:Hw; [|done]. rewrite some_bind. intros [= <-].
  apply Hh in Hx, Hy, Hz, Hw. lia.
Qed.

Lemma whole_rune n : (n < 1114112)%N → is_surrogate n = false → whole (encode_rune n).
Proof. intros ?? t. by apply utf8_encode_rune. Qed.

Lemma whole_pair rune low :
  (rune < 56320)%N → is_surrogate rune = true → (56320 ≤ low ≤ 57343)%N →
  whole (encode_rune (65536 + (rune - 55296) * 1024 + (low - 56320))).
Proof.
  unfold is_surrogate. intros Hr [?%N.leb_le _]%andb_true_iff Hl. apply whole_rune; [lia|].
  unfold is_surrogate. apply andb_false_iff. right. apply N.leb_gt. lia.
Qed.

Lemma unquote_utf8 n s t rest :
  (String.length s ≤ n)%nat → unquote s = Some (t, rest) → utf8 t = true.
Proof.
  revert s t rest. induction n as [|n IH]; intros s t rest Hn; destruct s as [|a s]; simpl in Hn; try done; [lia|].
  assert (∀ pre u, (String.length u ≤ String.length s)%nat → whole pre →
    ('(t', rest') ← unquote u; Some ((pre +:+ t')%string, rest')) = Some (t, rest) → utf8 t = true) as Hstep.
  { intros pre u Hu Hpre. destruct (unquote u) as [[t' rest']|] eqn:E; [|done]. simpl. intros [= <- <-].
    rewrite Hpre. eapply IH; [|exact E]. lia. }
  clear IH. pose proof (rune_size_cases (String a s)) as Hc. cbn [unquote]. cbv zeta. intros Hr.
  destruct (N_of_ascii a =? 34)%N; [by injection Hr as <- _|].
  destruct (N_of_ascii a =? 92)%N.
  - clear Hc. destruct s as [|e r2]; [done|]. cbv zeta in Hr.
    destruct ((_ || _) || _) eqn:He.
    { eapply Hstep; [|apply whole_ascii|exact Hr]; [simpl; lia|].
      rewrite !orb_true_iff, !N.eqb_eq in He. lia. }
    clear He. do 5 (destruct (_ =? _)%N; [by eapply Hstep; [|apply whole_ascii|exact Hr]; [simpl; lia|]|]).
    destruct (_ =? 117)%N; [|done].
    destruct r2 as [|h1 [|h2 [|h3 [|h4 r3]]]]; [done..|]. cbn [String.length] in Hstep.
    destruct (hex4 h1 h2 h3 h4) as [rune|] eqn:Hh; [|done]. apply hex4_bound in Hh. rewrite some_bind in Hr.
    destruct (is_surrogate rune) eqn:Hs.
    2: { eapply Hstep; [|apply whole_rune|exact Hr]; [lia|lia|done]. }
    repeat case_match; try (eapply Hstep; [|apply whole_replacement|exact Hr]; simpl; lia).
    all: match goal with Hb : _ && _ = true |- _ =>
      apply andb_true_iff in Hb as [[?%N.ltb_lt ?%N.leb_le]%andb_true_iff ?%N.leb_le] end.
    all: eapply Hstep; [|by apply (whole_pair rune)|exact Hr]; simpl; lia.
  - destruct (_ <? 32)%N; [done|]. destruct (rune_size (String a s)) as [|[|[|[|[|k]]]]] eqn:Hrune.
    1,6: by eapply Hstep; [|apply whole_replacement|exact Hr].
    + eapply Hstep; [done| |exact Hr]. apply whole_ascii.
      unfold byte_in in Hc. apply andb_true_iff in Hc as [_ Hc%N.leb_le]. lia.
    + destruct s as [|b r]; [by eapply Hstep; [|apply whole_replacement|exact Hr]|].
      eapply Hstep; [| |exact Hr]; [simpl; lia|]. intros u. rewrite !str_app_cons, str_app_nil_l. cbn [utf8].
      by rewrite (rune_size_2 _ _ _ _ Hrune).
    + destruct s as [|b [|c r]]; try by eapply Hstep; [|apply whole_replacement|exact Hr].
      eapply Hstep; [| |exact Hr]; [simpl; lia|]. intros u. rewrite !str_app_cons, str_app_nil_l. cbn [utf8].
      by rewrite (rune_size_3 _ _ _ _ _ Hrune).
    + destruct s as [|b [|c [|d r]]]; try by eapply Hstep; [|apply whole_replacement|exact Hr].
      eapply Hstep; [| |exact Hr]; [simpl; lia|]. intros u. rewrite !str_app_cons, str_app_nil_l. cbn [utf8].
      by rewrite (rune_size_4 _ _ _ _ _ _ Hrune).
Qed.

(** ** Numbers *)

(** What a scanner takes does not depend on how the rest of the text ends. *)
Definition restricts (f : string → option (string * string)) : Prop := ∀ x u t,
  f (x +:+ (u +:+ t)) = Some (x, u +:+ t) → f (x +:+ u) = Some (x, u).

Lemma take_digits_restricts ds u t :
  take_digits (ds +:+ (u +:+ t)) = (ds, u +:+ t) → take_digits (ds +:+ u) = (ds, u).
Proof.
  induction ds as [|a ds IH]; rewrite ?str_app_nil_l, ?str_app_cons.
  - destruct u as [|b u]; [done|]. rewrite str_app_cons. simpl. destruct (is_digit b); [|done].
    by destruct (take_digits (u +:+ t)).
  - simpl. destruct (is_digit a); [|done]. destruct (take_digits (ds +:+ (u +:+ t))) as [ds' r'] eqn:E.
    intros [= -> ->]. by rewrite IH.
Qed.

Lemma take_digits_split s ds r : take_digits s = (ds, r) → s = ds +:+ r.
Proof.
  revert ds r. induction s as [|a s IH]; intros ds r; simpl; [by intros [= <- <-]|].
  destruct (is_digit a); [|by intros [= <- <-]].
  destruct (take_digits s) as [ds' r'] eqn:Hd. intros [= <- <-]. rewrite str_app_cons. f_equal. by apply IH.
Qed.

Lemma scan_int_restricts : restricts scan_int.
Proof.
  intros x u t. unfold scan_int. destruct (take_digits (x +:+ (u +:+ t))) as [ds r] eqn:Hd.
  destruct ds as [|a [|b ds]]; [done|..]; [|case_decide as Ha; [done|]]; intros [= <- ->];
    rewrite (take_digits_restricts _ _ _ Hd); [done|by rewrite decide_False].
Qed.

Lemma scan_frac_restricts : restricts scan_frac.
Proof.
  intros x u t. unfold scan_frac. rewrite !CutPrefix_byte. destruct x as [|a x].
  - rewrite !str_app_nil_l. destruct u as [|b u]; [by destruct t; repeat case_match|].
    rewrite str_app_cons. case_decide; [|done]. destruct (take_digits (u +:+ t)) as [[|] r]; [done|].
    intros [=].
  - rewrite !str_app_cons. case_decide as Ha; [|done].
    destruct (take_digits (x +:+ (u +:+ t))) as [ds r] eqn:Hd. destruct ds as [|d ds]; [done|].
    intros Hs. assert (x = String d ds ∧ r = u +:+ t) as [-> ->].
    { change ("." +:+ String d ds) with (String "." (String d ds)) in Hs. by simplify_eq. }
    by rewrite (take_digits_restricts _ _ _ Hd), Ha.
Qed.

Lemma scan_sign_restricts x u t : scan_sign (x +:+ (u +:+ t)) = (x, u +:+ t) → scan_sign (x +:+ u) = (x, u).
Proof.
  unfold scan_sign. rewrite !CutPrefix_byte. destruct x as [|a x].
  - rewrite !str_app_nil_l. destruct u as [|b u]; [done|]. rewrite str_app_cons. by case_decide.
  - rewrite !str_app_cons. case_decide as Ha; [|done]. intros Hs. by simplify_eq.
Qed.

Lemma scan_exp_restricts : restricts scan_exp.
Proof.
  intros x u t. unfold scan_exp. destruct x as [|e x].
  - rewrite !str_app_nil_l. destruct u as [|b u]; [done|]. rewrite str_app_cons.
    case_decide; [|done]. set (sg := match u +:+ t with String _ _ => _ | EmptyString => _ end).
    destruct sg as [sign r]. by destruct (take_digits r) as [[|] ?].
  - rewrite !str_app_cons. case_decide as He; [|done]. destruct x as [|c x].
    { set (sg := match "" +:+ (u +:+ t) with String _ _ => _ | EmptyString => _ end).
      destruct sg as [sign r]. destruct (take_digits r) as [[|d ds] q]; [done|]. by destruct sign. }
    rewrite !str_app_cons. case_decide as Hc.
    + destruct (take_digits (x +:+ (u +:+ t))) as [ds r] eqn:Hd. destruct ds as [|d ds]; [done|].
      intros Hs. assert (x = String d ds ∧ r = u +:+ t) as [-> ->].
      { change (String c "" +:+ String d ds) with (String c (String d ds)) in Hs. by simplify_eq. }
      by rewrite (take_digits_restricts _ _ _ Hd).
    + rewrite <-!str_app_cons. destruct (take_digits (String c x +:+ (u +:+ t))) as [ds r] eqn:Hd.
      destruct ds as [|d ds]; [done|]. rewrite str_app_nil_l. intros Hs.
      assert (String c x = String d ds ∧ r = u +:+ t) as [Hx ->] by by simplify_eq.
      rewrite Hx in Hd |- *. by rewrite (take_digits_restricts _ _ _ Hd).
Qed.

(** A number literal is a number by itself. *)
Lemma scan_number_valid s lit rest : scan_number s = Some (lit, rest) → valid_number lit = true.
Proof.
  intros Hs. destruct (scan_number_extends _ _ _ "" Hs) as [_ Heq]; [done|]. subst s.
  rewrite scan_number_parts in Hs. unfold valid_number. rewrite scan_number_parts. cbv zeta in *.
  destruct (scan_sign (lit +:+ rest)) as [sign s1] eqn:H0.
  destruct (scan_int s1) as [[int s2]|] eqn:H1; [|done]. rewrite some_bind in Hs.
  destruct (scan_frac s2) as [[frac s3]|] eqn:H2; [|done]. rewrite some_bind in Hs.
  destruct (scan_exp s3) as [[exp s4]|] eqn:H3; [|done]. rewrite some_bind in Hs.
  injection Hs as <- <-. rewrite <-!str_app_assoc in H0.
  destruct (scan_exp_extends _ _ _ "" H3) as [_ ->]; [done|].
  destruct (scan_frac_extends _ _ _ "" H2) as [_ ->]; [done|].
  destruct (scan_int_extends _ _ _ "" H1) as [_ ->]; [done|].
  assert (∀ s, s = s +:+ "") as Hnil by (intros; by rewrite str_app_nil_r).
  rewrite (scan_sign_restricts sign (int +:+ (frac +:+ exp)) s4) by (by rewrite <-!str_app_assoc).
  rewrite (scan_int_restricts int (frac +:+ exp) s4) by (by rewrite <-!str_app_assoc). rewrite some_bind.
  rewrite (scan_frac_restricts frac exp s4) by done. rewrite some_bind.
  rewrite (Hnil exp) at 1. rewrite (scan_exp_restricts exp "" s4) by done. done.
Qed.

(** ** Documents *)

(** The parser yields only documents that survive encoding. *)
Lemma parse_ok f :
  (∀ s d rest, parse_value f s = Some (d, rest) → doc_ok d = true)
  ∧ (∀ s l rest, parse_elements f s = Some (l, rest) → forallb doc_ok l = true)
  ∧ (∀ s l rest, parse_members f s = Some (l, rest) →
       forallb (λ kv, utf8 kv.1 && doc_ok kv.2) l = true).
Proof.
  induction f as [|f (IHv & IHe & IHm)]; [done|].
  split_and!; intros s x rest; rewrite !(proj1 (parse_steps _ _)) || rewrite !(proj1 (proj2 (parse_steps _ _)))
    || rewrite !(proj2 (proj2 (parse_steps _ _))).
  - unfold value_step. destruct (skip_space s) as [|a r]; [done|]. cbv zeta.
    destruct (_ =? 34)%N.
    { destruct (unquote r) as [[t q]|] eqn:Hu; [|done]. intros [= <- _]. by eapply unquote_utf8. }
    destruct (_ =? 91)%N; [|destruct (_ =? 123)%N].
    1,2: match goal with |- context [CutPrefix ?u ?c] => destruct (CutPrefix u c) end; [by intros [= <- _]|].
    + destruct (parse_elements f r) as [[l q]|] eqn:He; [|done]. intros [= <- _]. by eapply IHe.
    + destruct (parse_members f r) as [[l q]|] eqn:He; [|done]. intros [= <- _]. by eapply IHm.
    + destruct (_ =? 110)%N; [|destruct (_ =? 116)%N; [|destruct (_ =? 102)%N]].
      1-3: match goal with |- context [CutPrefix ?u ?c] => destruct (CutPrefix u c) end; [by intros [= <- _]|done].
      destruct (scan_number (String a r)) as [[lit q]|] eqn:Hn; [|done]. intros [= <- _]. by eapply scan_number_valid.
  - unfold elements_step. destruct (parse_value f s) as [[v q]|] eqn:Hv; [|done]. apply IHv in Hv.
    rewrite some_bind. unfold tail_step. destruct (skip_space q) as [|a r]; [done|].
    destruct (_ =? 44)%N; [|destruct (_ =? 93)%N; [|done]].
    + destruct (parse_elements f r) as [[l q']|] eqn:He; [|done]. intros [= <- _]. simpl. rewrite Hv. by eapply IHe.
    + intros [= <- _]. simpl. by rewrite Hv.
  - unfold members_step. destruct (CutPrefix _ dquote) as [s1|]; [|done]. rewrite some_bind.
    destruct (unquote s1) as [[k s2]|] eqn:Hk; [|done]. apply (unquote_utf8 _ _ _ _ (le_n _)) in Hk. rewrite some_bind.
    destruct (CutPrefix _ ":") as [s3|]; [|done]. rewrite some_bind.
    destruct (parse_value f s3) as [[v q]|] eqn:Hv; [|done]. apply IHv in Hv.
    rewrite some_bind. unfold tail_step. destruct (skip_space q) as [|a r]; [done|].
    destruct (_ =? 44)%N; [|destruct (_ =? 125)%N; [|done]].
    + destruct (parse_members f r) as [[l q']|] eqn:He; [|done]. intros [= <- _]. simpl. rewrite Hk, Hv. by eapply IHm.
    + intros [= <- _]. simpl. by rewrite Hk, Hv.
Qed.

Lemma decode_doc_ok raw d : decode_doc raw = Ok d → doc_ok d = true.
Proof.
  unfold decode_doc. destruct (parse_value _ raw) as [[d' rest]|] eqn:Hp; [|done]. intros [= <-].
  by eapply (proj1 (parse_ok _)).
Qed.
