(* ===== verification/SnapshotStore.v ===== *)
(** * internal/store/snapshots.go: reading and writing a cluster's history *)

From S2P Require Import Prelude GoStrings GoTime GoJson JsonFuel GoDecode Sha256 Snapshot Layout Backend.

#[local] Open Scope stdpp_scope.

(** ** Operations *)

Record SnapshotRef := { Key : string; CapturedAt : Z; Generation : Z }.

#[export] Instance SnapshotRef_eq_dec : EqDecision SnapshotRef.
Proof. solve_decision. Defined.

(** The order of [sortRefs]: time, then generation, then key. *)
Definition ref_less (x y : SnapshotRef) : bool :=
  if decide (CapturedAt x ≠ CapturedAt y) then bool_decide (CapturedAt x < CapturedAt y)%Z
  else if decide (Generation x ≠ Generation y) then bool_decide (Generation x < Generation y)%Z
  else str_ltb (Key x) (Key y).

Definition ref_le (x y : SnapshotRef) : Prop := ref_less y x = false.
#[export] Instance ref_le_dec : RelDecision ref_le.
Proof. intros x y. unfold ref_le. apply _. Defined.

Definition sortRefs (refs : list SnapshotRef) : list SnapshotRef := merge_sort ref_le refs.

(** The refs of the keys that parse; the others are skipped. *)
Fixpoint refs_of_keys (keys : list string) : list SnapshotRef :=
  match keys with
  | [] => []
  | key :: rest =>
      match ParseSnapshotKey key with
      | Err _ => refs_of_keys rest
      | Ok (capturedAt, generation) =>
          {| Key := key; CapturedAt := capturedAt; Generation := generation |} :: refs_of_keys rest
      end
  end.

Definition zero_content : Content := {| Spec := ∅; Labels := ∅; Annotations := ∅ |}.
Definition zero_cluster_ref : ClusterRef := {| cr_Name := ""; cr_Namespace := ""; cr_UID := "" |}.
Definition zero_source : SourceInfo := {| si_PluginVersion := ""; si_ImageName := "" |}.

Definition decode_cluster_ref : decoder ClusterRef := decode_struct (λ old l,
  name ← field "name" decode_string (cr_Name old) l;
  namespace ← field "namespace" decode_string (cr_Namespace old) l;
  uid ← field "uid" decode_string (cr_UID old) l;
  Ok {| cr_Name := name; cr_Namespace := namespace; cr_UID := uid |}).

Definition decode_source : decoder SourceInfo := decode_struct (λ old l,
  version ← field "pluginVersion" decode_string (si_PluginVersion old) l;
  image ← field "imageName" decode_string (si_ImageName old) l;
  Ok {| si_PluginVersion := version; si_ImageName := image |}).

(** The embedded Content shares the members of the snapshot. *)
Definition decode_content_members (l : list (string * doc)) : result Content :=
  spec ← field "spec" decode_object ∅ l;
  labels ← field "labels" decode_string_map ∅ l;
  annotations ← field "annotations" decode_string_map ∅ l;
  Ok {| Spec := spec; Labels := labels; Annotations := annotations |}.

Definition decode_members (l : list (string * doc)) : result Snapshot :=
  apiVersion ← field "apiVersion" decode_string "" l;
  kind ← field "kind" decode_string "" l;
  capturedAt ← field "capturedAt" decode_time zero_time l;
  generation ← field "generation" decode_int64 0%Z l;
  cluster ← field "cluster" decode_cluster_ref zero_cluster_ref l;
  source ← field "source" decode_source zero_source l;
  groups ← field "groups" decode_strings [] l;
  captureRules ← field "captureRules" decode_string "" l;
  content ← decode_content_members l;
  checksum ← field "checksum" decode_string "" l;
  Ok {| sn_APIVersion := apiVersion; sn_Kind := kind; sn_CapturedAt := capturedAt;
        sn_Generation := generation; sn_Cluster := cluster; sn_Source := source;
        sn_Groups := groups; sn_CaptureRules := captureRules; sn_Content := content;
        sn_Checksum := checksum |}.

Definition decode_document (raw : string) : result Snapshot :=
  d ← decode_doc raw;
  match d with DNull => decode_members [] | DObj l => decode_members l | _ => type_error end.

Definition decodeSnapshot (raw key : string) : result Snapshot :=
  snap ← wrap "while decoding snapshot %s: %w" [AStr key] (decode_document raw);
  if decide (sn_Kind snap ≠ Kind) then
    Err (Errorf "object %s is not a %s (kind=%q)" [AStr key; AStr Kind; AStr (sn_Kind snap)])
  else if decide (sn_APIVersion snap ≠ APIVersion) then
    Err (Errorf "snapshot %s has unsupported apiVersion %q; this plugin understands %q"
           [AStr key; AStr (sn_APIVersion snap); AStr APIVersion])
  else if decide (sn_Checksum snap = "") then
    Err (Errorf "snapshot %s carries no checksum and cannot be verified" [AStr key])
  else
    computed ← wrap "while verifying snapshot %s: %w" [AStr key] (Checksum (sn_Content snap));
    if decide (computed ≠ sn_Checksum snap) then
      Err (Errorf "snapshot %s failed checksum verification: recorded %s, computed %s"
             [AStr key; AStr (sn_Checksum snap); AStr computed])
    else Ok snap.

(** [json.MarshalIndent] of a snapshot: [time.Time] refuses years of more than
    four digits. *)
Definition encode_snapshot (snap : Snapshot) : result string :=
  if decide (four_digit_year (sn_CapturedAt snap)) then MarshalIndent (doc_of_snapshot snap)
  else Err (External OtherKind "Time.MarshalJSON: year outside of range [0,9999]").

(** The key a snapshot lives under. *)
Definition key_of (l : Layout) (snap : Snapshot) : string :=
  SnapshotKey l (sn_CapturedAt snap) (sn_Generation snap) (sn_Checksum snap).

Section store.
Context {W : Type} `{Backend W}.

Definition Write (l : Layout) (snap : Snapshot) : prog W string :=
  encoded ← lift (wrap "while encoding snapshot: %w" [] (encode_snapshot snap));
  let key := key_of l snap in
  _ ← Put_ key encoded;
  _ ← wrapM "while updating the latest pointer: %w" [] (Put_ (LatestKey l) encoded);
  mret key.

Definition Read (l : Layout) (key : string) : prog W Snapshot :=
  raw ← Get_ key;
  lift (decodeSnapshot raw key).

Definition List (l : Layout) : prog W (list SnapshotRef) :=
  keys ← List_ (SnapshotsPrefix l);
  mret (sortRefs (refs_of_keys keys)).

Definition Latest (l : Layout) : prog W (Snapshot * string) :=
  got ← attempt (Get_ (LatestKey l));
  match got with
  | Ok raw =>
      snap ← lift (decodeSnapshot raw (LatestKey l));
      mret (snap, key_of l snap)
  | Err e =>
      if negb (errors_is ErrNotFound e) then throw e
      else
        refs ← List l;
        match last refs with
        | None => throw (Wrapf "%w: no snapshots under %s" [AStr (SnapshotsPrefix l)]
                           (Sentinel ErrNotFound))
        | Some ref =>
            snap ← Read l (Key ref);
            mret (snap, Key ref)
        end
  end.

End store.

(** ** sortRefs is a total order's sort *)

Lemma ref_less_spec x y :
  ref_less x y = true ↔
  (CapturedAt x < CapturedAt y)%Z ∨
  (CapturedAt x = CapturedAt y ∧
   ((Generation x < Generation y)%Z ∨
    (Generation x = Generation y ∧ String.compare (Key x) (Key y) = Lt))).
Proof.
  unfold ref_less. repeat case_decide; rewrite ?bool_decide_eq_true, ?str_ltb_lt; split;
    intros; intuition (try lia).
Qed.

Lemma ref_le_spec x y :
  ref_le x y ↔
  (CapturedAt x < CapturedAt y)%Z ∨
  (CapturedAt x = CapturedAt y ∧
   ((Generation x < Generation y)%Z ∨
    (Generation x = Generation y ∧ String.le (Key x) (Key y)))).
Proof.
  unfold ref_le. rewrite <-not_true_iff_false, ref_less_spec, str_le_compare.
  rewrite (String.compare_antisym (Key x) (Key y)).
  destruct (Z.lt_total (CapturedAt x) (CapturedAt y)) as [|[|]];
    destruct (Z.lt_total (Generation x) (Generation y)) as [|[|]];
    destruct (String.compare (Key y) (Key x)); simpl; naive_solver (lia || congruence).
Qed.

#[export] Instance ref_le_total : Total ref_le.
Proof.
  intros x y. rewrite !ref_le_spec. destruct (total String.le (Key x) (Key y));
    destruct (Z.lt_total (CapturedAt x) (CapturedAt y)) as [|[|]];
    destruct (Z.lt_total (Generation x) (Generation y)) as [|[|]]; intuition lia.
Qed.
#[export] Instance ref_le_trans : Transitive ref_le.
Proof.
  intros x y z. rewrite !ref_le_spec. intros Hxy Hyz.
  assert (String.le (Key x) (Key y) → String.le (Key y) (Key z) → String.le (Key x) (Key z)) as Hk
    by (intros; by trans (Key y)).
  intuition (try lia).
Qed.
Lemma ref_le_antisymm x y : ref_le x y → ref_le y x → x = y.
Proof.
  rewrite !ref_le_spec. intros Hxy Hyx.
  assert (CapturedAt x = CapturedAt y ∧ Generation x = Generation y
          ∧ String.le (Key x) (Key y) ∧ String.le (Key y) (Key x)) as (? & ? & Hk & Hk')
    by intuition lia.
  assert (Key x = Key y) by (by apply (anti_symm String.le)).
  destruct x, y; simpl in *; congruence.
Qed.

Lemma sortRefs_sorted refs : StronglySorted ref_le (sortRefs refs).
Proof. apply StronglySorted_merge_sort; apply _. Qed.

Lemma sortRefs_Permutation refs : sortRefs refs ≡ₚ refs.
Proof. apply merge_sort_Permutation. Qed.

(** The list of refs is a function of their set: no run can order them
    differently. *)
Lemma sortRefs_unique refs refs' : refs ≡ₚ refs' → sortRefs refs = sortRefs refs'.
Proof.
  intros Hp. apply (NoDup_Permutation_sorted_unique ref_le).
  - intros x y _ _. apply ref_le_antisymm.
  - apply sortRefs_sorted.
  - apply sortRefs_sorted.
  - by rewrite !sortRefs_Permutation.
Qed.

(** ** Only verified snapshots are returned *)

Definition verified (snap : Snapshot) : Prop :=
  sn_Kind snap = Kind ∧ sn_APIVersion snap = APIVersion ∧ sn_Checksum snap ≠ ""
  ∧ Checksum (sn_Content snap) = Ok (sn_Checksum snap).

Lemma decodeSnapshot_Ok raw key snap :
  decodeSnapshot raw key = Ok snap ↔ decode_document raw = Ok snap ∧ verified snap.
Proof.
  unfold decodeSnapshot, verified. destruct (decode_document raw) as [s|e]; simpl.
  2: { split; [done|]. by intros [? _]. }
  split.
  - repeat case_decide; try done. destruct (Checksum (sn_Content s)) as [c|] eqn:Hs; simpl; [|done].
    case_decide as Hc; [done|]. intros [= <-]. split; [done|].
    split_and!; congruence.
  - intros ([= ->] & Hk & Ha & Hc & Hs).
    rewrite !decide_False by tauto. rewrite Hs. simpl. by rewrite decide_False by tauto.
Qed.

(** What [null] decodes to is no snapshot. *)
Lemma null_unverified snap : decode_members [] = Ok snap → ¬ verified snap.
Proof. intros Hd. vm_compute in Hd. injection Hd as <-. by intros [Hk _]. Qed.

(** C17: A text is read as a snapshot exactly when it parses, with whatever
    fuel, as an object whose members decode to a snapshot that verifies: no text
    is refused because the parser gave up. *)
Theorem decodeSnapshot_complete raw key snap :
  decodeSnapshot raw key = Ok snap ↔
  ∃ fuel members rest, parse_value fuel raw = Some (DObj members, rest)
    ∧ decode_members members = Ok snap ∧ verified snap.
Proof.
  rewrite decodeSnapshot_Ok. unfold decode_document. split.
  - intros [Hd Hv]. pose proof (decode_doc_total raw) as Ht.
    destruct (decode_doc raw) as [d|]; [|done]. rewrite ok_bind in Hd. destruct Ht as (rest & Hp & _).
    destruct d as [| | | | |l]; try done; [by apply null_unverified in Hd|by eexists _, l, rest].
  - intros (fuel & l & rest & Hp & Hd & Hv). split; [|done].
    apply decode_doc_complete in Hp as [_ Hp]. unfold decode_doc. by rewrite Hp.
Qed.

(** ** Listing *)

Lemma elem_of_refs_of_keys keys ref :
  ref ∈ refs_of_keys keys ↔
  Key ref ∈ keys ∧ ParseSnapshotKey (Key ref) = Ok (CapturedAt ref, Generation ref).
Proof.
  induction keys as [|key keys IH]; simpl; [split; [by intros ?%elem_of_nil|by intros [?%elem_of_nil _]]|].
  destruct (ParseSnapshotKey key) as [[t g]|e] eqn:Hp.
  - rewrite !elem_of_cons, IH. split.
    + intros [->|[? ?]]; simpl; [by split; [left|]|by split; [right|]].
    + intros [[<-|?] Hr]; [|by right]. left. rewrite Hp in Hr. injection Hr as -> ->. by destruct ref.
  - rewrite elem_of_cons, IH. split; [naive_solver|]. intros [[<-|?] Hr]; [congruence|done].
Qed.

Lemma refs_of_keys_NoDup keys : NoDup keys → NoDup (Key <$> refs_of_keys keys).
Proof.
  intros Hnd. eapply sublist_NoDup; [exact Hnd|].
  clear Hnd. induction keys as [|k keys IH]; [constructor|]. simpl.
  destruct (ParseSnapshotKey k) as [[t g]|]; simpl; [by apply sublist_skip|by apply sublist_cons].
Qed.

Section store_spec.
Context {W : Type} `{Backend W} (objects : W → gmap string string) `{!BackendSpec W objects}.

(** A listing is every object under the prefix whose name is a snapshot key,
    oldest first. *)
Theorem List_spec l w w' refs :
  List l w = (w', Ok refs) →
  objects w' = objects w ∧ StronglySorted ref_le refs
  ∧ ∀ ref, ref ∈ refs ↔
      is_Some (objects w !! Key ref) ∧ HasPrefix (Key ref) (SnapshotsPrefix l) = true
      ∧ ParseSnapshotKey (Key ref) = Ok (CapturedAt ref, Generation ref).
Proof.
  unfold List, mbind, prog_bind. destruct (List_ (SnapshotsPrefix l) w) as [w1 [keys|e]] eqn:Hl; [|done].
  intros [= <- <-]. apply list_spec in Hl as [Ho ->].
  split; [done|]. split; [apply sortRefs_sorted|]. intros ref.
  rewrite sortRefs_Permutation, elem_of_refs_of_keys, elem_of_keys_under. tauto.
Qed.

End store_spec.
