(* ===== verification/History.v ===== *)
(** * A history keeps what is written to it

    The encoding of a snapshot is read back as that snapshot, so the
    operations of SnapshotStore.v compose: what [Write] stores, [Read] and
    [Latest] return. *)

From S2P Require Import Prelude GoStrings GoTime GoJson GoDecode Sha256 Snapshot Layout Backend.
From S2P Require Import JsonText SnapshotStore.

#[local] Open Scope stdpp_scope.

(** ** A snapshot that JSON can hold *)

(** Its instant has a four-digit year, its generation is an [int64] and its
    texts are well-formed. *)
Record encodable (snap : Snapshot) : Prop := {
  enc_time : four_digit_year (sn_CapturedAt snap);
  enc_generation : in_int64 (sn_Generation snap);
  enc_doc : doc_ok (doc_of_snapshot snap) = true
}.

(** ** Reading the members back *)

Lemma decode_object_doc (m : object) : decode_object ∅ (doc_of_object m) = Ok m.
Proof.
  change (Ok (foldl (λ m '(k, x), <[k := any_of_doc x]> m) ∅
            (merge_sort key_le (map_fold (λ k x l, (k, doc_of_any x) :: l) [] m))) = Ok m).
  f_equal. apply (fold_members doc_of_any any_of_doc). intros k x _. apply any_of_doc_of_any.
Qed.

Definition text_of (d : doc) : string := match d with DStr s => s | _ => "" end.
Lemma decode_string_members_fold acc l :
  Forall (λ kd, ∃ s, kd.2 = DStr s) l →
  decode_string_members acc l = Ok (foldl (λ m '(k, d), <[k := text_of d]> m) acc l).
Proof.
  intros HF. revert acc. induction HF as [|[k d] l [s Hs] _ IH]; intros acc; [done|].
  simpl in *. subst d. apply IH.
Qed.

Lemma decode_string_map_doc m : decode_string_map ∅ (doc_of_strings m) = Ok m.
Proof.
  unfold doc_of_strings, decode_string_map. rewrite decode_string_members_fold.
  - f_equal. by apply (fold_members DStr text_of).
  - rewrite (merge_sort_Permutation key_le), map_members. apply Forall_fmap, Forall_true.
    intros [k x]. simpl. by eexists.
Qed.

Lemma decode_strings_list l : decode_strings [] (string_list l) = Ok l.
Proof.
  destruct l as [|x l]; [done|]. unfold string_list. remember (x :: l) as l' eqn:E. clear x l E.
  change (decode_elements (DStr <$> l') = Ok l').
  induction l' as [|x l IH]; [done|]. rewrite fmap_cons. cbn [decode_elements decode_string].
  by rewrite ok_bind, IH.
Qed.

(** The members of a struct that [omitempty] may drop. *)
Lemma field_opt_string name v rest :
  Forall (λ kd, foldName kd.1 ≠ foldName name) rest →
  field name decode_string "" (opt_string name v ++ rest) = Ok v.
Proof.
  intros Hr. unfold opt_string. case_decide as Hv; [subst; by apply field_absent|].
  simpl app. rewrite field_cons_eq. simpl. by apply field_absent.
Qed.

Definition absent (name : string) (l : list (string * doc)) : Prop :=
  Forall (λ kd, foldName kd.1 ≠ foldName name) l.

Lemma absent_keys name keys l :
  forallb (λ k, negb (bool_decide (foldName k = foldName name))) keys = true →
  Forall (λ kd, kd.1 ∈ keys) l → absent name l.
Proof.
  intros Hk Hl. eapply Forall_impl; [exact Hl|]. intros [k d] Hin. simpl in *.
  rewrite forallb_forall in Hk. apply list_elem_of_In, Hk, negb_true_iff, bool_decide_eq_false in Hin.
  done.
Qed.

Lemma absent_app name l1 l2 : absent name l1 → absent name l2 → absent name (l1 ++ l2).
Proof. apply Forall_app_2. Qed.

Lemma opt_object_keys k m : Forall (λ kd, kd.1 ∈ [k]) (opt_object k m).
Proof. unfold opt_object. case_decide; repeat constructor. Qed.
Lemma opt_strings_keys k m : Forall (λ kd, kd.1 ∈ [k]) (opt_strings k m).
Proof. unfold opt_strings. case_decide; repeat constructor. Qed.
Lemma opt_string_keys k v : Forall (λ kd, kd.1 ∈ [k]) (opt_string k v).
Proof. unfold opt_string. case_decide; repeat constructor. Qed.

(** A name that differs from all of a concrete list's, up to case. *)
Ltac absent :=
  repeat first
    [ apply absent_app
    | eapply absent_keys; [|first [apply opt_object_keys|apply opt_strings_keys|apply opt_string_keys]];
      vm_compute; reflexivity
    | apply Forall_nil; exact I
    | apply Forall_cons; split; [vm_compute; discriminate|] ].

(** Walk to the one member a field is assigned from. *)
Ltac walk :=
  repeat lazymatch goal with |- field _ _ _ (_ :: _) = _ =>
    refine (eq_trans (field_cons_ne _ _ _ _ _ _ _) _); [vm_compute; let H := fresh in intros H; discriminate H|] end.

Lemma field_opt_object name m rest :
  absent name rest → field name decode_object ∅ (opt_object name m ++ rest) = Ok m.
Proof.
  intros Hr. unfold opt_object. case_decide as Hm; [subst; by apply field_absent|].
  rewrite <-app_comm_cons, app_nil_l, field_cons_eq, decode_object_doc, ok_bind. by apply field_absent.
Qed.
Lemma field_opt_strings name m rest :
  absent name rest → field name decode_string_map ∅ (opt_strings name m ++ rest) = Ok m.
Proof.
  intros Hr. unfold opt_strings. case_decide as Hm; [subst; by apply field_absent|].
  rewrite <-app_comm_cons, app_nil_l, field_cons_eq, decode_string_map_doc, ok_bind. by apply field_absent.
Qed.

(** Members before the one that is looked for. *)
Lemma field_skip {A} name (dec : decoder A) old l1 l2 :
  absent name l1 → field name dec old (l1 ++ l2) = field name dec old l2.
Proof. intros Hl. by rewrite field_app, (field_absent _ _ _ _ Hl), ok_bind. Qed.

Lemma decode_content_doc content before after :
  absent "spec" before → absent "labels" before → absent "annotations" before →
  absent "spec" after → absent "labels" after → absent "annotations" after →
  decode_content_members (before ++ content_members content ++ after) = Ok content.
Proof.
  intros H1 H2 H3 H4 H5 H6. unfold decode_content_members, content_members.
  rewrite <-!app_assoc. rewrite (field_skip "spec") by done.
  rewrite field_opt_object, ok_bind by (absent; done).
  rewrite (field_skip "labels") by done. rewrite (field_skip "labels") by absent.
  rewrite field_opt_strings, ok_bind by (absent; done).
  rewrite (field_skip "annotations") by done. rewrite !(field_skip "annotations") by absent.
  rewrite field_opt_strings, ok_bind by (absent; done).
  by destruct content.
Qed.

(** The snapshot's own members around the embedded content. *)
Definition header_members (snap : Snapshot) : list (string * doc) :=
  [("apiVersion", DStr (sn_APIVersion snap)); ("kind", DStr (sn_Kind snap));
   ("capturedAt", DStr (FormatRFC3339Nano (sn_CapturedAt snap)));
   ("generation", DNum (FormatInt (sn_Generation snap)));
   ("cluster", DObj ([("name", DStr (cr_Name (sn_Cluster snap)));
                      ("namespace", DStr (cr_Namespace (sn_Cluster snap)))]
                     ++ opt_string "uid" (cr_UID (sn_Cluster snap))));
   ("source", DObj ([("pluginVersion", DStr (si_PluginVersion (sn_Source snap)))]
                    ++ opt_string "imageName" (si_ImageName (sn_Source snap))));
   ("groups", string_list (sn_Groups snap));
   ("captureRules", DStr (sn_CaptureRules snap))].

(** The member at the head is the one: it is assigned, and nothing after it
    is. *)
Lemma field_hit {A} name (dec : decoder A) old d value rest :
  dec old d = Ok value → absent name rest → field name dec old ((name, d) :: rest) = Ok value.
Proof. intros Hd Hr. rewrite field_cons_eq, Hd, ok_bind. by apply field_absent. Qed.

(** A bind whose first step is known. *)
Lemma bind_field {A B} (x : result A) v (f : A → result B) r : x = Ok v → f v = r → x ≫= f = r.
Proof. by intros ->. Qed.

Ltac hit := eapply bind_field; [walk; apply field_hit; [reflexivity|absent]|cbv beta].

Lemma decode_cluster_ref_doc c :
  decode_cluster_ref zero_cluster_ref
    (DObj ([("name", DStr (cr_Name c)); ("namespace", DStr (cr_Namespace c))]
           ++ opt_string "uid" (cr_UID c))) = Ok c.
Proof.
  unfold decode_cluster_ref, decode_struct. rewrite <-!app_comm_cons, app_nil_l.
  hit. hit. eapply bind_field; [walk; rewrite <-(app_nil_r (opt_string _ _)); apply field_opt_string; absent|].
  by destruct c.
Qed.

Lemma decode_source_doc c :
  decode_source zero_source
    (DObj ([("pluginVersion", DStr (si_PluginVersion c))] ++ opt_string "imageName" (si_ImageName c)))
  = Ok c.
Proof.
  unfold decode_source, decode_struct. rewrite <-!app_comm_cons, app_nil_l.
  hit. eapply bind_field; [walk; rewrite <-(app_nil_r (opt_string _ _)); apply field_opt_string; absent|].
  by destruct c.
Qed.

Definition tail_members (snap : Snapshot) : list (string * doc) :=
  content_members (sn_Content snap) ++ [("checksum", DStr (sn_Checksum snap))].

Lemma tail_absent name snap :
  forallb (λ k, negb (bool_decide (foldName k = foldName name)))
    ["spec"; "labels"; "annotations"; "checksum"] = true → absent name (tail_members snap).
Proof.
  intros Hn. apply (absent_keys _ ["spec"; "labels"; "annotations"; "checksum"]); [done|]. clear Hn.
  unfold tail_members, content_members. rewrite !Forall_app. split_and!.
  - eapply Forall_impl; [apply opt_object_keys|]. intros kd ->%list_elem_of_singleton. rewrite !elem_of_cons; tauto.
  - eapply Forall_impl; [apply opt_strings_keys|]. intros kd ->%list_elem_of_singleton. rewrite !elem_of_cons; tauto.
  - eapply Forall_impl; [apply opt_strings_keys|]. intros kd ->%list_elem_of_singleton. rewrite !elem_of_cons; tauto.
  - repeat constructor.
Qed.

(** A member of the header. *)
Ltac header_hit H :=
  eapply bind_field;
    [walk; apply field_hit;
       [exact H|unfold absent;
                repeat lazymatch goal with
                  |- Forall _ (_ :: _) => apply Forall_cons; split; [cbn [fst]; vm_compute; discriminate|] end;
                apply tail_absent; vm_compute; reflexivity]
    |cbv beta].

Lemma decode_members_doc snap :
  four_digit_year (sn_CapturedAt snap) → in_int64 (sn_Generation snap) →
  decode_members (header_members snap ++ tail_members snap) = Ok snap.
Proof.
  intros Ht Hg. unfold decode_members.
  assert (decode_time zero_time (DStr (FormatRFC3339Nano (sn_CapturedAt snap))) = Ok (sn_CapturedAt snap))
    as Htime by (simpl; by rewrite ParseRFC3339_Format).
  assert (decode_int64 0%Z (DNum (FormatInt (sn_Generation snap))) = Ok (sn_Generation snap))
    as Hgen by (unfold decode_int64; by rewrite ParseInt_FormatInt).
  assert (decode_content_members (header_members snap ++ tail_members snap) = Ok (sn_Content snap))
    as Hcontent by (apply decode_content_doc; unfold header_members; absent).
  assert (field "checksum" decode_string "" (header_members snap ++ tail_members snap)
          = Ok (sn_Checksum snap)) as Hsum.
  { unfold tail_members. rewrite field_skip by (unfold header_members; absent).
    rewrite field_skip by (unfold content_members; absent). by apply field_hit; [|constructor]. }
  unfold header_members in *. rewrite <-!app_comm_cons, app_nil_l in *.
  header_hit (eq_refl (Ok (sn_APIVersion snap))). header_hit (eq_refl (Ok (sn_Kind snap))).
  header_hit Htime. header_hit Hgen.
  header_hit (decode_cluster_ref_doc (sn_Cluster snap)). header_hit (decode_source_doc (sn_Source snap)).
  header_hit (decode_strings_list (sn_Groups snap)). header_hit (eq_refl (Ok (sn_CaptureRules snap))).
  rewrite Hcontent, ok_bind, Hsum, ok_bind. by destruct snap.
Qed.

(** ** The codec *)

Lemma encode_encodable snap :
  encodable snap → encode_snapshot snap = Ok (indent_doc 0 (doc_of_snapshot snap)).
Proof.
  intros [Ht _ Hd]. unfold encode_snapshot, MarshalIndent.
  by rewrite decide_True, (doc_ok_numbers _ Hd) by done.
Qed.

Lemma decode_encoded snap raw :
  encodable snap → encode_snapshot snap = Ok raw → decode_document raw = Ok snap.
Proof.
  intros He Hr. rewrite encode_encodable in Hr by done.
  assert (raw = indent_doc 0 (doc_of_snapshot snap)) as -> by congruence.
  destruct He as [Ht Hg Hd]. unfold decode_document. rewrite (decode_indent _ Hd), ok_bind.
  exact (decode_members_doc snap Ht Hg).
Qed.

Lemma decodeSnapshot_encoded snap raw key :
  encodable snap → verified snap → encode_snapshot snap = Ok raw → decodeSnapshot raw key = Ok snap.
Proof.
  intros He Hv Hr. apply decodeSnapshot_Ok. split; [by apply decode_encoded|done].
Qed.

(** C16: A snapshot that verifies and that JSON can hold is read back from the bytes
    it is written as, member for member. *)
Theorem snapshot_roundtrip snap key :
  encodable snap → verified snap →
  ∃ raw, encode_snapshot snap = Ok raw ∧ decodeSnapshot raw key = Ok snap.
Proof.
  intros He Hv. eexists. split; [by apply encode_encodable|].
  apply decodeSnapshot_encoded; [done|done|by apply encode_encodable].
Qed.

(** ** The history *)

Lemma key_of_ne_latest l snap : key_of l snap ≠ LatestKey l.
Proof.
  intros He. pose proof (LatestKey_not_listed l) as Hl. rewrite <-He in Hl.
  unfold key_of, SnapshotKey in Hl. by rewrite HasPrefix_app in Hl.
Qed.

Section history.
Context {W : Type} `{Backend W} (objects : W → gmap string string) `{!BackendSpec W objects}.

(** What [Write] may leave behind. *)
Lemma Write_outcome l snap w w' r :
  Write l snap w = (w', r) →
  match encode_snapshot snap with
  | Err e => w' = w ∧ r = Err (Wrapf "while encoding snapshot: %w" [] e)
  | Ok raw =>
      let first := <[key_of l snap := raw]> (objects w) in
      match r with
      | Ok key => key = key_of l snap ∧ objects w' = <[LatestKey l := raw]> first
      | Err _ => objects w' = objects w ∨ objects w' = first ∨ objects w' = <[LatestKey l := raw]> first
      end
  end.
Proof.
  unfold Write, mbind, prog_bind, lift, wrapM. destruct (encode_snapshot snap) as [raw|e]; simpl.
  2: by intros [= <- <-].
  destruct (Put_ (key_of l snap) raw w) as [w1 [u|e]] eqn:H1; apply put_spec in H1.
  2: { intros [= <- <-]. destruct H1 as [->| ->]; auto. }
  destruct (Put_ (LatestKey l) raw w1) as [w2 [u'|e]] eqn:H2; apply put_spec in H2; simpl.
  - intros [= <- <-]. by rewrite H2, H1.
  - intros [= <- <-]. rewrite H1 in H2. destruct H2; auto.
Qed.

(** A read of an object that is there returns it, unless the store fails. *)
Lemma get_present w key raw w2 r :
  objects w !! key = Some raw → Get_ key w = (w2, r) →
  r = Ok raw ∨ ∃ e, r = Err e ∧ errors_is ErrNotFound e = false.
Proof.
  intros Hk Hg. apply get_spec in Hg as [_ Hg]. rewrite Hk in Hg.
  destruct r as [data|e]; [left; congruence|right; exists e]. split; [done|].
  destruct (errors_is ErrNotFound e); [by specialize (Hg eq_refl)|done].
Qed.

Lemma Latest_pointer l w raw snap w2 r :
  objects w !! LatestKey l = Some raw → decodeSnapshot raw (LatestKey l) = Ok snap →
  Latest l w = (w2, r) →
  r = Ok (snap, key_of l snap)
  ∨ ∃ e, Get_ (LatestKey l) w = (w2, Err e) ∧ errors_is ErrNotFound e = false ∧ r = Err e.
Proof.
  intros Hk Hd. unfold Latest, attempt, mbind, prog_bind.
  destruct (Get_ (LatestKey l) w) as [w3 g] eqn:Hg.
  destruct (get_present _ _ _ _ _ Hk Hg) as [->|(e & -> & Hn)].
  - unfold lift. rewrite Hd. intros [= <- <-]. by left.
  - rewrite Hn. simpl. intros [= <- <-]. right. by exists e.
Qed.

Lemma Read_present l key w raw snap w2 r :
  objects w !! key = Some raw → decodeSnapshot raw key = Ok snap → Read l key w = (w2, r) →
  r = Ok snap ∨ ∃ e, Get_ key w = (w2, Err e) ∧ errors_is ErrNotFound e = false ∧ r = Err e.
Proof.
  intros Hk Hd. unfold Read, mbind, prog_bind. destruct (Get_ key w) as [w3 g] eqn:Hg.
  destruct (get_present _ _ _ _ _ Hk Hg) as [->|(e & -> & Hn)].
  - unfold lift. rewrite Hd. intros [= <- <-]. by left.
  - intros [= <- <-]. right. by exists e.
Qed.

Lemma Write_objects l snap w w' key :
  encodable snap → Write l snap w = (w', Ok key) →
  key = key_of l snap ∧
  let raw := indent_doc 0 (doc_of_snapshot snap) in
  encode_snapshot snap = Ok raw ∧
  objects w' = <[LatestKey l := raw]> (<[key_of l snap := raw]> (objects w)).
Proof.
  intros He Hw. pose proof (encode_encodable _ He) as Henc.
  apply Write_outcome in Hw. rewrite Henc in Hw. by destruct Hw as [-> ->].
Qed.

(** C15: What was written is what is read: by its key, and as the latest. *)
Theorem Write_then_read l snap w w' key :
  encodable snap → verified snap → Write l snap w = (w', Ok key) →
  key = key_of l snap
  ∧ (∀ w2 r, Latest l w' = (w2, r) →
      r = Ok (snap, key)
      ∨ ∃ e, Get_ (LatestKey l) w' = (w2, Err e) ∧ errors_is ErrNotFound e = false ∧ r = Err e)
  ∧ (∀ w2 r, Read l key w' = (w2, r) →
      r = Ok snap ∨ ∃ e, Get_ key w' = (w2, Err e) ∧ errors_is ErrNotFound e = false ∧ r = Err e)
  ∧ (∀ k, k ≠ key → k ≠ LatestKey l → objects w' !! k = objects w !! k).
Proof.
  intros He Hv Hw. destruct (Write_objects _ _ _ _ _ He Hw) as (-> & Henc & Ho). split; [done|].
  split_and!.
  - intros w2 r. eapply Latest_pointer; [rewrite Ho; by rewrite lookup_insert_eq|].
    by apply decodeSnapshot_encoded.
  - intros w2 r. eapply Read_present; [|by apply decodeSnapshot_encoded].
    rewrite Ho, lookup_insert_ne by (symmetry; apply key_of_ne_latest). by rewrite lookup_insert_eq.
  - intros k H1 H2. by rewrite Ho, !lookup_insert_ne by done.
Qed.

(** ** Reading is a function of the objects *)

Lemma List_objects l w w' r : List l w = (w', r) → objects w' = objects w.
Proof.
  unfold List, mbind, prog_bind. destruct (List_ (SnapshotsPrefix l) w) as [w1 [keys|e]] eqn:Hl;
    intros [= <- <-]; by apply list_spec in Hl as [? _].
Qed.
Lemma Read_objects l key w w' r : Read l key w = (w', r) → objects w' = objects w.
Proof.
  unfold Read, mbind, prog_bind, lift. destruct (Get_ key w) as [w1 [raw|e]] eqn:Hg;
    intros [= <- <-]; by apply get_spec in Hg as [? _].
Qed.
Lemma Latest_objects l w w' r : Latest l w = (w', r) → objects w' = objects w.
Proof.
  unfold Latest, attempt, mbind, prog_bind, lift.
  destruct (Get_ (LatestKey l) w) as [w1 [raw|e]] eqn:Hg; apply get_spec in Hg as [Hw _].
  - destruct (decodeSnapshot raw _); by intros [= <- <-].
  - destruct (errors_is ErrNotFound e); simpl; [|by intros [= <- <-]].
    destruct (List l w1) as [w2 [refs|e']] eqn:Hl; apply List_objects in Hl.
    + destruct (last refs) as [ref|]; [|intros [= <- <-]; congruence].
      destruct (Read l (Key ref) w2) as [w3 [snap|e']] eqn:Hr; apply Read_objects in Hr;
        intros [= <- <-]; congruence.
    + intros [= <- <-]; congruence.
Qed.

(** The newest snapshot, by the objects: what the pointer holds, or the last of
    the listing when there is none. *)
Definition newest (l : Layout) (objs : gmap string string) (snap : Snapshot) (key : string) : Prop :=
  match objs !! LatestKey l with
  | Some raw => decodeSnapshot raw (LatestKey l) = Ok snap ∧ key = key_of l snap
  | None =>
      ∃ ref raw, last (sortRefs (refs_of_keys (keys_under objs (SnapshotsPrefix l)))) = Some ref
        ∧ key = Key ref ∧ objs !! key = Some raw ∧ decodeSnapshot raw key = Ok snap
  end.

Lemma Latest_newest l w w' snap key :
  Latest l w = (w', Ok (snap, key)) → newest l (objects w) snap key.
Proof.
  unfold Latest, attempt, mbind, prog_bind, lift, newest.
  destruct (Get_ (LatestKey l) w) as [w1 [raw|e]] eqn:Hg; apply get_spec in Hg as [Hw Hk].
  - rewrite Hk. destruct (decodeSnapshot raw _) as [s|] eqn:Hd; [|done]. by intros [= <- <- <-].
  - destruct (errors_is ErrNotFound e); simpl; [|done]. rewrite (Hk eq_refl).
    unfold List, mbind, prog_bind. destruct (List_ (SnapshotsPrefix l) w1) as [w2 [keys|e']] eqn:Hl; [|done].
    apply list_spec in Hl as [Hw2 ->]. simpl. rewrite Hw. destruct (last _) as [ref|]; [|done].
    unfold Read, mbind, prog_bind, lift. destruct (Get_ (Key ref) w2) as [w3 [raw|e']] eqn:Hr; [|done].
    apply get_spec in Hr as [_ Hr]. destruct (decodeSnapshot raw (Key ref)) as [s|] eqn:Hd; [|done].
    intros [= <- <- <-]. exists ref, raw. split_and!; congruence.
Qed.

Lemma newest_functional l objs s1 k1 s2 k2 :
  newest l objs s1 k1 → newest l objs s2 k2 → s1 = s2 ∧ k1 = k2.
Proof.
  unfold newest. destruct (objs !! LatestKey l).
  - intros [H1 ->] [H2 ->]. split; congruence.
  - intros (r1 & w1 & Hl1 & -> & Ho1 & Hd1) (r2 & w2 & Hl2 & -> & Ho2 & Hd2). simplify_eq. split; congruence.
Qed.

(** The newest snapshot is one the store holds. *)
Lemma newest_held l objs snap key :
  newest l objs snap key → ∃ k raw, objs !! k = Some raw ∧ decodeSnapshot raw k = Ok snap.
Proof.
  unfold newest. destruct (objs !! LatestKey l) as [raw|] eqn:Hl.
  - intros [Hd _]. eauto.
  - intros (ref & raw & _ & _ & Ho & Hd). eauto.
Qed.

(** The newest snapshot, by the objects, is what Latest returns, and again on a
    second call with no write between; it verifies, and the store holds it. *)
Theorem Latest_stable l w w1 snap key w2 snap2 key2 :
  Latest l w = (w1, Ok (snap, key)) → Latest l w1 = (w2, Ok (snap2, key2)) →
  snap2 = snap ∧ key2 = key ∧ newest l (objects w) snap key ∧ verified snap
  ∧ ∃ k raw, objects w !! k = Some raw ∧ decodeSnapshot raw k = Ok snap.
Proof.
  intros H1 H2. pose proof (Latest_objects _ _ _ _ H1) as Ho.
  apply Latest_newest in H1, H2. rewrite Ho in H2.
  destruct (newest_functional _ _ _ _ _ _ H1 H2) as [<- <-].
  pose proof (newest_held _ _ _ _ H1) as Hh. split_and!; try done.
  destruct Hh as (k & raw & _ & Hd). by apply decodeSnapshot_Ok in Hd as [_ ?].
Qed.

(** ** The pointer *)

(** The latest pointer holds a snapshot that the history has an object for. *)
Definition pointer_backed (l : Layout) (objs : gmap string string) : Prop :=
  ∀ raw snap, objs !! LatestKey l = Some raw → decodeSnapshot raw (LatestKey l) = Ok snap →
    ∃ raw' snap', objs !! key_of l snap = Some raw' ∧ decodeSnapshot raw' (key_of l snap) = Ok snap'
      ∧ key_of l snap' = key_of l snap.

(** However a write ends, the pointer names an object that is there: the object
    is put first. *)
Theorem Write_pointer_backed l snap w w' r :
  encodable snap → verified snap → Write l snap w = (w', r) →
  pointer_backed l (objects w) → pointer_backed l (objects w').
Proof.
  intros He Hv Hw Hp. pose proof (encode_encodable _ He) as Henc.
  apply Write_outcome in Hw. rewrite Henc in Hw. cbv zeta in Hw.
  set (raw := indent_doc 0 (doc_of_snapshot snap)) in *.
  assert (∀ k, decodeSnapshot raw k = Ok snap) as Hdec by (intros k; by apply decodeSnapshot_encoded).
  assert (pointer_backed l (<[key_of l snap := raw]> (objects w))) as H1.
  { intros raw0 s0 Hl Hd. rewrite lookup_insert_ne in Hl by apply key_of_ne_latest.
    destruct (decide (key_of l s0 = key_of l snap)) as [Hk|Hk].
    - exists raw, snap. rewrite Hk, lookup_insert_eq. auto.
    - rewrite lookup_insert_ne by done. by apply (Hp raw0). }
  assert (pointer_backed l (<[LatestKey l := raw]> (<[key_of l snap := raw]> (objects w)))) as H2.
  { intros raw0 s0 Hl Hd. rewrite lookup_insert_eq in Hl. injection Hl as <-.
    rewrite Hdec in Hd. injection Hd as <-. exists raw, snap.
    rewrite lookup_insert_ne by (symmetry; apply key_of_ne_latest). by rewrite lookup_insert_eq. }
  destruct r as [key|e]; [by destruct Hw as [_ ->]|]. by destruct Hw as [->|[->| ->]].
Qed.

End history.
