(* ===== verification/Integrity.v ===== *)
(** * What a checksum vouches for

    The checksum of a snapshot is the digest of its content's canonical text.
    That text determines the content, so two snapshots that verify under one
    checksum hold the same configuration, unless their own two canonical texts
    are different and have one SHA-256. *)

From S2P Require Import Prelude GoStrings GoTime GoJson JsonText JsonFuel JsonWf GoDecode Sha256 Snapshot.
From S2P Require Import Layout Backend SnapshotStore History.

#[local] Open Scope stdpp_scope.

(** ** Values that JSON can hold *)

Definition any_ok (v : any) : Prop := doc_ok (doc_of_any v) = true.

Lemma forallb_Forall {A} (f : A → bool) l : forallb f l = true ↔ Forall (λ x, f x = true) l.
Proof. induction l as [|x l IH]; simpl; [done|]. by rewrite andb_true_iff, Forall_cons, IH. Qed.

(** A map is well-formed when its names and values are. *)
Lemma members_ok {A} (f : A → doc) (m : gmap string A) :
  doc_ok (DObj (merge_sort key_le (map_fold (λ k x l, (k, f x) :: l) [] m))) = true
  ↔ ∀ k x, m !! k = Some x → utf8 k = true ∧ doc_ok (f x) = true.
Proof.
  simpl. rewrite forallb_Forall, (merge_sort_Permutation key_le), map_members, Forall_fmap, Forall_forall.
  split.
  - intros Hall k x Hk. apply elem_of_map_to_list in Hk. by apply Hall, andb_true_iff in Hk.
  - intros Hall [k x] Hk. apply andb_true_iff. by apply Hall, elem_of_map_to_list.
Qed.

Definition object_ok (m : object) : Prop := ∀ k x, m !! k = Some x → utf8 k = true ∧ any_ok x.
Definition strings_ok (m : gmap string string) : Prop := ∀ k x, m !! k = Some x → utf8 k = true ∧ utf8 x = true.

Lemma object_ok_doc m : doc_ok (doc_of_object m) = true ↔ object_ok m.
Proof. apply members_ok. Qed.
Lemma strings_ok_doc m : doc_ok (doc_of_strings m) = true ↔ strings_ok m.
Proof. apply (members_ok DStr). Qed.

(** Inserting decoded members. *)
Lemma insert_members_ok l (m : object) :
  Forall (λ kd, utf8 kd.1 = true ∧ any_ok (any_of_doc kd.2)) l → object_ok m →
  object_ok (foldl (λ m '(k, d), <[k := any_of_doc d]> m) m l).
Proof.
  intros Hl. revert m. induction Hl as [|[k d] l [Hk Hd] _ IH]; intros m Hm; [done|]. simpl. apply IH.
  intros k' x. rewrite lookup_insert_Some. intros [[<- <-]|[_ Hx]]; [done|by apply Hm].
Qed.

(** What a well-formed document decodes to is well-formed. *)
Lemma any_of_doc_ok d : doc_ok d = true → any_ok (any_of_doc d).
Proof.
  unfold any_ok. induction d as [| | | |l IH|l IH] using doc_ind; try done; simpl; rewrite !forallb_Forall.
  - intros Hl. rewrite <-list_fmap_compose, Forall_fmap.
    rewrite Forall_forall in IH, Hl |- *. intros x Hx. apply IH; auto.
  - intros Hl. rewrite <-forallb_Forall. apply object_ok_doc, insert_members_ok; [|by intros ??].
    rewrite Forall_forall in IH, Hl |- *. intros kd Hkd.
    specialize (Hl _ Hkd). apply andb_true_iff in Hl as [? ?]. split; [done|]. by apply IH.
Qed.

(** ** Decoded content *)

Definition content_ok (c : Content) : Prop :=
  object_ok (Spec c) ∧ strings_ok (Labels c) ∧ strings_ok (Annotations c).

(** A field keeps what every member that is assigned to it keeps. *)
Lemma field_keeps {A} (P : A → Prop) name (dec : decoder A) old members v :
  P old → (∀ o d n, P o → doc_ok d = true → dec o d = Ok n → P n) →
  forallb (λ kv, utf8 kv.1 && doc_ok kv.2) members = true →
  field name dec old members = Ok v → P v.
Proof.
  intros Hold Hdec. revert old Hold. induction members as [|[k d] l IH]; intros old Hold; simpl.
  { by intros _ [= <-]. }
  intros [[_ Hd]%andb_true_iff Hl]%andb_true_iff. case_decide; [|by apply IH].
  destruct (dec old d) as [n|] eqn:Hn; [|done]. rewrite ok_bind. apply IH; [|done]. by eapply Hdec.
Qed.

Lemma decode_object_ok old d m : object_ok old → doc_ok d = true → decode_object old d = Ok m → object_ok m.
Proof.
  intros Hold Hd. destruct d as [| | | | |l]; try done; simpl in *; intros [= <-]; [by intros ??|].
  apply insert_members_ok; [|done]. rewrite forallb_Forall in Hd. eapply Forall_impl; [exact Hd|].
  intros kd [? ?]%andb_true_iff. split; [done|]. by apply any_of_doc_ok.
Qed.

Lemma decode_string_map_ok old d m :
  strings_ok old → doc_ok d = true → decode_string_map old d = Ok m → strings_ok m.
Proof.
  intros Hold Hd. destruct d as [| | | | |l]; try done; simpl in *; [by intros [= <-]; intros ??|].
  revert old Hold Hd. induction l as [|[k d] l IH]; intros old Hold; simpl; [by intros _ [= <-]|].
  intros [[Hk Hd]%andb_true_iff Hl]%andb_true_iff.
  destruct (decode_string "" d) as [x|] eqn:Hx; [|done]. rewrite ok_bind. apply IH; [|done].
  intros k' y. rewrite lookup_insert_Some. intros [[<- <-]|[_ Hy]]; [|by apply Hold]. split; [done|].
  destruct d; try done; simpl in *; by simplify_eq.
Qed.

Lemma decode_content_ok members c :
  forallb (λ kv, utf8 kv.1 && doc_ok kv.2) members = true → decode_content_members members = Ok c → content_ok c.
Proof.
  intros Hm. unfold decode_content_members.
  destruct (field "spec" _ _ _) as [spec|] eqn:Hs; [|done]. rewrite ok_bind.
  destruct (field "labels" _ _ _) as [labels|] eqn:Hl; [|done]. rewrite ok_bind.
  destruct (field "annotations" _ _ _) as [annotations|] eqn:Ha; [|done]. rewrite ok_bind. intros [= <-].
  split_and!; simpl.
  - eapply (field_keeps object_ok); [|apply decode_object_ok|exact Hm|exact Hs]. by intros ??.
  - eapply (field_keeps strings_ok); [|apply decode_string_map_ok|exact Hm|exact Hl]. by intros ??.
  - eapply (field_keeps strings_ok); [|apply decode_string_map_ok|exact Hm|exact Ha]. by intros ??.
Qed.

Lemma decoded_content_ok raw key snap : decodeSnapshot raw key = Ok snap → content_ok (sn_Content snap).
Proof.
  intros [Hd _]%decodeSnapshot_Ok. unfold decode_document in Hd.
  destruct (decode_doc raw) as [d|] eqn:Hr; [|done]. apply decode_doc_ok in Hr. rewrite ok_bind in Hd.
  assert (∃ members, forallb (λ kv, utf8 kv.1 && doc_ok kv.2) members = true ∧ decode_members members = Ok snap)
    as (members & Hm & Hs) by (destruct d; try done; [by exists []|by eexists]).
  unfold decode_members in Hs.
  repeat match type of Hs with (?x ≫= _) = _ =>
    let E := fresh "E" in destruct x eqn:E; [|done]; rewrite ok_bind in Hs end.
  injection Hs as <-. simpl. by eapply decode_content_ok.
Qed.

(** ** Canonical text *)

Lemma opt_object_ok k m :
  utf8 k = true → forallb (λ kv, utf8 kv.1 && doc_ok kv.2) (opt_object k m) = true ↔ object_ok m.
Proof.
  intros Hk. unfold opt_object. case_decide as Hm; [subst m; split; [by intros _ ??|done]|].
  cbn [forallb fst snd]. rewrite Hk, <-object_ok_doc. simpl. by rewrite andb_true_r.
Qed.
Lemma opt_strings_ok k m :
  utf8 k = true → forallb (λ kv, utf8 kv.1 && doc_ok kv.2) (opt_strings k m) = true ↔ strings_ok m.
Proof.
  intros Hk. unfold opt_strings. case_decide as Hm; [subst m; split; [by intros _ ??|done]|].
  cbn [forallb fst snd]. rewrite Hk, <-strings_ok_doc. simpl. by rewrite andb_true_r.
Qed.

Lemma content_members_ok c :
  forallb (λ kv, utf8 kv.1 && doc_ok kv.2) (content_members c) = true ↔ content_ok c.
Proof.
  unfold content_members, content_ok. rewrite !forallb_app, !andb_true_iff.
  by rewrite opt_object_ok, !opt_strings_ok.
Qed.

Lemma encodable_content_ok snap : encodable snap → content_ok (sn_Content snap).
Proof.
  intros [_ _ Hd]. apply content_members_ok. unfold doc_of_snapshot in Hd. cbn [doc_ok] in Hd.
  rewrite !forallb_app, !andb_true_iff in Hd. tauto.
Qed.

(** The canonical text can be read back. *)
Lemma Canonical_inj c1 c2 encoded :
  content_ok c1 → content_ok c2 → Canonical c1 = Ok encoded → Canonical c2 = Ok encoded → c1 = c2.
Proof.
  assert (∀ c, content_ok c → Canonical c = Ok encoded →
    decode_doc encoded = Ok (DObj (content_members c))) as Hread.
  { intros c Hc. unfold Canonical, Marshal. case_match; [|done]. intros [= <-].
    apply decode_encode. by apply content_members_ok. }
  intros H1 H2 He1 He2. apply Hread in He1, He2; [|done..]. rewrite He1 in He2. injection He2 as He.
  assert (∀ c, decode_content_members (content_members c) = Ok c) as Hdec.
  { intros c. rewrite <-(app_nil_r (content_members c)), <-(app_nil_l (_ ++ _)). apply decode_content_doc; absent. }
  pose proof (Hdec c1) as Hd. rewrite He, Hdec in Hd. congruence.
Qed.

(** Two texts that SHA-256 does not tell apart. *)
Definition collide (x y : string) : Prop := x ≠ y ∧ sha256_hex x = sha256_hex y.

(** The canonical texts of two contents collide: a statement about these two
    contents, false of equal ones. *)
Definition contents_collide (c1 c2 : Content) : Prop :=
  ∃ e1 e2, Canonical c1 = Ok e1 ∧ Canonical c2 = Ok e2 ∧ collide e1 e2.

Lemma contents_collide_irrefl c : ¬ contents_collide c c.
Proof. intros (e1 & e2 & H1 & H2 & Hne & _). congruence. Qed.

(** A checksum is the digest of the canonical text. *)
Lemma Checksum_Ok c sum : Checksum c = Ok sum → ∃ e, Canonical c = Ok e ∧ sum = digest e.
Proof. unfold Checksum. destruct (Canonical c) as [e|]; [|done]. intros [= <-]. by exists e. Qed.

Lemma digest_inj_or x y : digest x = digest y → x = y ∨ collide x y.
Proof.
  intros Hs. destruct (decide (x = y)) as [|Hne]; [by left|right; split; [done|]].
  unfold digest in Hs. by apply (inj (String.append _)) in Hs.
Qed.

Lemma Checksum_inj c1 c2 sum :
  content_ok c1 → content_ok c2 → Checksum c1 = Ok sum → Checksum c2 = Ok sum →
  c1 = c2 ∨ contents_collide c1 c2.
Proof.
  intros H1 H2 (x & Hx & Hsx)%Checksum_Ok (y & Hy & Hsy)%Checksum_Ok.
  destruct (digest_inj_or x y) as [->|Hc]; [congruence|left; by eapply Canonical_inj|right; by exists x, y].
Qed.

(** What a store holds under the checksum of a snapshot is that snapshot's content. *)
Lemma held_content raw key held snap :
  decodeSnapshot raw key = Ok held → verified snap → encodable snap →
  sn_Checksum held = sn_Checksum snap →
  sn_Content held = sn_Content snap ∨ contents_collide (sn_Content held) (sn_Content snap).
Proof.
  intros Hd (_ & _ & _ & Hc) He Hs. pose proof (decoded_content_ok _ _ _ Hd) as Hok.
  apply decodeSnapshot_Ok in Hd as [_ (_ & _ & _ & Hl)]. rewrite Hs in Hl.
  by eapply Checksum_inj; [|apply encodable_content_ok|..].
Qed.

(** C14: A checksum vouches for the content: the checksum of each snapshot a store
    verifies is the SHA-256 of the canonical text of its content, and two
    snapshots that verify under one checksum hold the same configuration, or
    those very two texts, different as they are, have one SHA-256. *)
Theorem checksum_binds raw1 key1 snap1 raw2 key2 snap2 :
  decodeSnapshot raw1 key1 = Ok snap1 → decodeSnapshot raw2 key2 = Ok snap2 →
  sn_Checksum snap1 = sn_Checksum snap2 →
  ∃ text1 text2, Canonical (sn_Content snap1) = Ok text1 ∧ Canonical (sn_Content snap2) = Ok text2
    ∧ sn_Checksum snap1 = "sha256:" +:+ sha256_hex text1 ∧ sn_Checksum snap2 = "sha256:" +:+ sha256_hex text2
    ∧ (sn_Content snap1 = sn_Content snap2 ∨ (text1 ≠ text2 ∧ sha256_hex text1 = sha256_hex text2)).
Proof.
  intros H1 H2 Hs. pose proof (decoded_content_ok _ _ _ H1) as Hc1. pose proof (decoded_content_ok _ _ _ H2) as Hc2.
  apply decodeSnapshot_Ok in H1 as [_ (_ & _ & _ & (x & Hx & Hsx)%Checksum_Ok)].
  apply decodeSnapshot_Ok in H2 as [_ (_ & _ & _ & (y & Hy & Hsy)%Checksum_Ok)].
  exists x, y. do 4 (split; [done|]).
  destruct (digest_inj_or x y) as [->|Hc]; [congruence|left; by eapply Canonical_inj|by right].
Qed.
