(* ===== verification/Retention.v ===== *)
(** * internal/store/retention.go: which snapshots may be deleted *)

From S2P Require Import Prelude GoStrings GoTime SnapshotStore.

#[local] Open Scope stdpp_scope.

(** ** PlanRetention *)

Definition key_order (x y : SnapshotRef) : Prop := String.le (Key x) (Key y).
#[export] Instance key_order_dec : RelDecision key_order.
Proof. intros x y. unfold key_order. apply _. Defined.

(** The anchor loop: the index of the last of the leading refs captured before
    the cutoff. *)
Fixpoint anchor_loop (cutoff : Z) (i anchor : Z) (ordered : list SnapshotRef) : Z :=
  match ordered with
  | [] => anchor
  | ref :: rest =>
      if decide (CapturedAt ref < cutoff)%Z then anchor_loop cutoff (i + 1) i rest else anchor
  end.

Definition PlanRetention (refs : list SnapshotRef) (cutoff : Z) : list string :=
  if decide (length refs < 2)%nat then []
  else
    let ordered := merge_sort key_order refs in
    let anchor := anchor_loop cutoff 0 (-1) ordered in
    if decide (anchor < 1)%Z then [] else Key <$> take (Z.to_nat anchor) ordered.

(** ** The anchor *)

(** The refs before the cutoff that lead the list. *)
Fixpoint leading (cutoff : Z) (l : list SnapshotRef) : nat :=
  match l with
  | [] => 0
  | ref :: rest => if decide (CapturedAt ref < cutoff)%Z then S (leading cutoff rest) else 0
  end.

Lemma anchor_loop_leading cutoff i l :
  anchor_loop cutoff i (i - 1) l = (i - 1 + Z.of_nat (leading cutoff l))%Z.
Proof.
  revert i. induction l as [|r l IH]; intros i; simpl; [lia|].
  case_decide; [|lia]. replace i with (i + 1 - 1)%Z at 2 by lia. rewrite IH. lia.
Qed.

(** What is planned for deletion: all but the last of the leading refs. *)
Lemma PlanRetention_take refs cutoff :
  PlanRetention refs cutoff
  = Key <$> take (leading cutoff (merge_sort key_order refs) - 1) (merge_sort key_order refs).
Proof.
  unfold PlanRetention. cbv zeta. pose proof (anchor_loop_leading cutoff 0 (merge_sort key_order refs)) as Ha.
  change (0 - 1)%Z with (-1)%Z in Ha. rewrite Ha.
  pose proof (Permutation_length (merge_sort_Permutation key_order refs)) as Hlen.
  assert (∀ l, (leading cutoff l ≤ length l)%nat) as Hle.
  { induction l as [|r l IH]; simpl; [lia|]. case_decide; lia. }
  specialize (Hle (merge_sort key_order refs)).
  case_decide as Hl.
  - replace (leading _ _ - 1) with 0 by lia. done.
  - case_decide.
    + replace (leading _ _ - 1) with 0 by lia. done.
    + do 2 f_equal. lia.
Qed.

(** ** What is planned for deletion is superseded *)

Lemma leading_before cutoff l i r :
  l !! i = Some r → (i < leading cutoff l)%nat → (CapturedAt r < cutoff)%Z.
Proof.
  revert i. induction l as [|x l IH]; intros i Hi Hl; [done|]. simpl in Hl. case_decide; [|lia].
  destruct i as [|i]; simpl in Hi; [by simplify_eq|]. eapply IH; [done|lia].
Qed.

Lemma leading_length cutoff l : (leading cutoff l ≤ length l)%nat.
Proof. induction l as [|x l IH]; simpl; [lia|]. case_decide; lia. Qed.

#[export] Instance key_order_total : Total key_order.
Proof. intros x y. unfold key_order. apply (total String.le). Qed.
#[export] Instance key_order_trans : Transitive key_order.
Proof. intros x y z. unfold key_order. apply transitivity. Qed.

Lemma PlanRetention_superseded refs cutoff key :
  NoDup (Key <$> refs) → key ∈ PlanRetention refs cutoff →
  ∃ ref anchor, ref ∈ refs ∧ Key ref = key ∧ (CapturedAt ref < cutoff)%Z
    ∧ anchor ∈ refs ∧ (CapturedAt anchor < cutoff)%Z ∧ String.compare key (Key anchor) = Lt
    ∧ Key anchor ∉ PlanRetention refs cutoff.
Proof.
  rewrite PlanRetention_take. intros Hnd.
  pose proof (merge_sort_Permutation key_order refs) as Hp.
  pose proof (StronglySorted_merge_sort key_order refs) as Hs.
  assert (NoDup (Key <$> merge_sort key_order refs)) as Hnd' by (by rewrite Hp).
  revert Hp Hs Hnd'. generalize (merge_sort key_order refs) as l. intros l Hp Hs Hnd' Hin.
  apply list_elem_of_fmap in Hin as (ref & -> & Hr).
  apply list_elem_of_lookup in Hr as [i Hi]. apply lookup_take_Some in Hi as [Hi Hlt].
  pose proof (leading_length cutoff l) as Hlen.
  destruct (lookup_lt_is_Some_2 l (leading cutoff l - 1)) as [anchor Ha]; [lia|].
  exists ref, anchor. split_and!.
  - rewrite <-Hp. by eapply list_elem_of_lookup_2.
  - done.
  - eapply leading_before; [exact Hi|lia].
  - rewrite <-Hp. by eapply list_elem_of_lookup_2.
  - eapply leading_before; [exact Ha|lia].
  - assert (key_order ref anchor) as Hle by (eapply sorted_lookup_lt; [exact Hs|exact Hi|exact Ha|lia]).
    unfold key_order in Hle. apply str_le_compare in Hle.
    destruct (String.compare (Key ref) (Key anchor)) eqn:Hc; [|done|done].
    apply String.compare_eq_iff in Hc. exfalso.
    assert (i = leading cutoff l - 1) as -> by
      (eapply (NoDup_lookup (Key <$> l)); [done| |]; rewrite list_lookup_fmap; [by rewrite Hi|rewrite Ha; simpl; by rewrite Hc]).
    lia.
  - intros (r & Hk & Hr)%list_elem_of_fmap. apply list_elem_of_lookup in Hr as [j Hj].
    apply lookup_take_Some in Hj as [Hj Hjl].
    assert (j = leading cutoff l - 1) as -> by
      (eapply (NoDup_lookup (Key <$> l)); [done| |]; rewrite list_lookup_fmap; [by rewrite Hj|rewrite Ha; simpl; by rewrite Hk]).
    lia.
Qed.
