(* ===== verification/RecoveryTarget.v ===== *)
(** * internal/restore/recoverytarget.go and backuplookup.go: the moment a
    recovery target stands for *)

From S2P Require Import Prelude GoStrings GoTime GoJson Pathutil Cnpg Kube.

#[local] Open Scope stdpp_scope.

(** ** Operations *)

(** [TargetKind], by its constants. *)
Inductive TargetKind :=
| TargetNone | TargetTime | TargetBackupName | TargetBackupID | TargetApproximate
| TargetUnresolvable.
#[export] Instance TargetKind_eq_dec : EqDecision TargetKind.
Proof. solve_decision. Defined.

(** [Moment] is [None] when [HasMoment] is false.  The detail is kept as a
    format with its arguments; the error it may quote is an argument of its
    own. *)
Record detail := Detail_ { d_format : string; d_args : list earg; d_error : option error }.
Definition text (format : string) (args : list earg) : detail := Detail_ format args None.

Record TargetResolution := {
  tg_Kind : TargetKind;
  tg_Moment : option Z;
  tg_Detail : detail
}.

(** [BackupLookup]. *)
Record BackupLookup := {
  ByName : string → string → result Backup;
  ByBackupID : string → string → result Backup
}.

Definition opaqueTargets : list string := ["targetXID"; "targetLSN"; "targetName"; "targetImmediate"].

Definition recovery_path : string := "spec.bootstrap.recovery".

Definition opaqueTargetIn (cluster : object) : string :=
  default "" (head (filter (λ name,
    is_Some (Get cluster ("spec.bootstrap.recovery.recoveryTarget." +:+ name))) opaqueTargets)).

Definition stringAt (obj : object) (path : string) : option string :=
  match Get obj path with
  | Some (AString value) => if decide (value = "") then None else Some value
  | _ => None
  end.

Definition unresolvable (detail : detail) : TargetResolution :=
  {| tg_Kind := TargetUnresolvable; tg_Moment := None; tg_Detail := detail |}.

Definition resolutionFromBackup (kind : TargetKind) (backup : Backup) (detail : detail)
    : TargetResolution :=
  match bk_StoppedAt backup with
  | None =>
      unresolvable (Detail_ (d_format detail +:+ " has not recorded a stoppedAt time, so the moment it corresponds to is unknown")
                      (d_args detail) (d_error detail))
  | Some moment =>
      {| tg_Kind := kind; tg_Moment := Some moment;
         tg_Detail := Detail_ (d_format detail +:+ " (%s)")
                        (d_args detail ++ [AStr (FormatRFC3339 moment)]) (d_error detail) |}
  end.

Section with_cnpg.
Context `{CnpgLib}.

Definition ResolveRecoveryTarget (cluster : object) (namespace : string)
    (backups : option BackupLookup) : result TargetResolution :=
  match Get cluster recovery_path with
  | None =>
      Ok {| tg_Kind := TargetNone; tg_Moment := None;
            tg_Detail := text "the cluster is not bootstrapping from a recovery, so the latest configuration applies" [] |}
  | Some (AMap _) =>
      match stringAt cluster "spec.bootstrap.recovery.recoveryTarget.targetTime" with
      | Some raw =>
          moment ← wrap "cannot parse recoveryTarget.targetTime %q: %w" [AStr raw] (ParseTargetTime raw);
          Ok {| tg_Kind := TargetTime; tg_Moment := Some moment;
                tg_Detail := text "recoveryTarget.targetTime %s" [AStr (FormatRFC3339 moment)] |}
      | None =>
          let opaque := opaqueTargetIn cluster in
          match stringAt cluster "spec.bootstrap.recovery.recoveryTarget.backupID" with
          | Some backupID =>
              match backups with
              | None =>
                  Ok (unresolvable (text "recoveryTarget.backupID %q cannot be resolved here" [AStr backupID]))
              | Some lookup =>
                  match ByBackupID lookup namespace backupID with
                  | Err err =>
                      Ok (unresolvable (Detail_ "no Backup resource in namespace %q records backupID %q, so the moment it corresponds to is unknown (%v)"
                            [AStr namespace; AStr backupID] (Some err)))
                  | Ok backup =>
                      if decide (opaque ≠ "") then
                        Ok (resolutionFromBackup TargetApproximate backup
                          (text "recoveryTarget.%s anchored to backupID %s; the configuration is taken from the end of that backup, which is the closest knowable point"
                             [AStr opaque; AStr backupID]))
                      else
                        Ok (resolutionFromBackup TargetBackupID backup
                          (text "recoveryTarget.backupID %s" [AStr backupID]))
                  end
              end
          | None =>
              if decide (opaque ≠ "") then
                Ok (unresolvable (text "recoveryTarget.%s cannot be mapped to a point in time without replaying WAL, and no backupID anchors it to a base backup"
                      [AStr opaque]))
              else
                match stringAt cluster "spec.bootstrap.recovery.backup.name" with
                | Some name =>
                    match backups with
                    | None => Ok (unresolvable (text "Backup %q cannot be resolved here" [AStr name]))
                    | Some lookup =>
                        match ByName lookup namespace name with
                        | Err err =>
                            Ok (unresolvable (Detail_ "Backup %q named by bootstrap.recovery.backup was not found in namespace %q (%v)"
                                  [AStr name; AStr namespace] (Some err)))
                        | Ok backup =>
                            Ok (resolutionFromBackup TargetBackupName backup (text "Backup %s" [AStr name]))
                        end
                    end
                | None =>
                    Ok {| tg_Kind := TargetNone; tg_Moment := None;
                          tg_Detail := text "the recovery has no target, so it restores to the end of the archive" [] |}
                end
          end
      end
  | Some _ => Ok {| tg_Kind := TargetNone; tg_Moment := None; tg_Detail := text "no recovery configuration" [] |}
  end.

End with_cnpg.

(** ** backuplookup.go *)

Section kube.
Context {W : Type} `{KubeReader W} (w : W).

(** The loop of [ByBackupID]. *)
Definition records_backup (backupID : string) (backup : Backup) : bool :=
  bool_decide (bk_BackupID backup = backupID)
  || (bool_decide (bk_BackupName backup ≠ "") && bool_decide (bk_BackupName backup = backupID)).

Definition KubeBackupLookup : BackupLookup := {|
  ByName := λ namespace name, kube_backup w {| nn_Namespace := namespace; nn_Name := name |};
  ByBackupID := λ namespace backupID,
    backups ← kube_backups w namespace;
    match head (filter (λ b, records_backup backupID b = true) backups) with
    | Some backup => Ok backup
    | None => Err (Errorf "no Backup in namespace %q has status.backupId %q"
                     [AStr namespace; AStr backupID])
    end
|}.

End kube.

(** ** Precedence *)

Section precedence.
Context `{CnpgLib}.

(** C34: A moment is only ever an instant the cluster or a Backup states: the parsed
    targetTime, or the stoppedAt of the Backup that was found.  It comes with
    the kinds that have one and no others. *)
Theorem ResolveRecoveryTarget_moment cluster namespace backups target :
  ResolveRecoveryTarget cluster namespace backups = Ok target →
  match tg_Kind target with
  | TargetNone | TargetUnresolvable => tg_Moment target = None
  | TargetTime => ∃ raw moment,
      stringAt cluster "spec.bootstrap.recovery.recoveryTarget.targetTime" = Some raw
      ∧ ParseTargetTime raw = Ok moment ∧ tg_Moment target = Some moment
  | TargetBackupID => ∃ id lookup backup moment,
      stringAt cluster "spec.bootstrap.recovery.recoveryTarget.backupID" = Some id
      ∧ opaqueTargetIn cluster = "" ∧ backups = Some lookup
      ∧ ByBackupID lookup namespace id = Ok backup
      ∧ bk_StoppedAt backup = Some moment ∧ tg_Moment target = Some moment
  | TargetApproximate => ∃ id lookup backup moment,
      stringAt cluster "spec.bootstrap.recovery.recoveryTarget.backupID" = Some id
      ∧ opaqueTargetIn cluster ≠ "" ∧ backups = Some lookup
      ∧ ByBackupID lookup namespace id = Ok backup
      ∧ bk_StoppedAt backup = Some moment ∧ tg_Moment target = Some moment
  | TargetBackupName => ∃ name lookup backup moment,
      stringAt cluster "spec.bootstrap.recovery.backup.name" = Some name
      ∧ opaqueTargetIn cluster = "" ∧ backups = Some lookup
      ∧ ByName lookup namespace name = Ok backup
      ∧ bk_StoppedAt backup = Some moment ∧ tg_Moment target = Some moment
  end.
Proof.
  assert (∀ kind backup d,
    resolutionFromBackup kind backup d
    = match bk_StoppedAt backup with
      | Some m => {| tg_Kind := kind; tg_Moment := Some m;
                     tg_Detail := tg_Detail (resolutionFromBackup kind backup d) |}
      | None => unresolvable (tg_Detail (resolutionFromBackup kind backup d))
      end) as Hfrom.
  { intros. unfold resolutionFromBackup. by destruct (bk_StoppedAt backup). }
  unfold ResolveRecoveryTarget.
  destruct (Get cluster recovery_path) as [[]|]; try (by intros [= <-]).
  destruct (stringAt cluster "spec.bootstrap.recovery.recoveryTarget.targetTime") as [raw|] eqn:Ht.
  { destruct (ParseTargetTime raw) eqn:Hp; [|done]. simpl. intros [= <-]. simpl. eauto. }
  cbv zeta. destruct (stringAt cluster "spec.bootstrap.recovery.recoveryTarget.backupID") as [id|] eqn:Hid.
  - destruct backups as [lookup|]; [|by intros [= <-]].
    destruct (ByBackupID lookup namespace id) as [backup|] eqn:Hb; [|by intros [= <-]].
    case_decide as Ho; intros Ht'; injection Ht' as Ht'; rewrite Hfrom in Ht';
      destruct (bk_StoppedAt backup) as [z|] eqn:Hs; subst target; simpl; try done;
      exists id, lookup, backup, z; by split_and!.
  - case_decide as Ho; [by intros [= <-]|].
    destruct (stringAt cluster "spec.bootstrap.recovery.backup.name") as [name|] eqn:Hn; [|by intros [= <-]].
    destruct backups as [lookup|]; [|by intros [= <-]].
    destruct (ByName lookup namespace name) as [backup|] eqn:Hb; [|by intros [= <-]].
    intros Ht'; injection Ht' as Ht'; rewrite Hfrom in Ht'.
    destruct (bk_StoppedAt backup) as [z|] eqn:Hs; subst target; simpl; [|done].
    exists name, lookup, backup, z. by split_and!.
Qed.

End precedence.
