(* ===== verification/Select.v ===== *)
(** * internal/restore/select.go: choosing one snapshot of a history *)

From S2P Require Import Prelude GoStrings GoTime GoJson Api Cnpg Snapshot Layout Backend.
From S2P Require Import SnapshotStore Retention RecoveryTarget.

#[local] Open Scope stdpp_scope.

(** ** Operations *)

(** [Selector]: the interface the restore reads a history through. *)
Class Selector (W : Type) := {
  sel_List : prog W (list SnapshotRef);
  sel_Read : string → prog W Snapshot;
  sel_Latest : prog W (Snapshot * string)
}.

(** [*store.SnapshotStore] is one. *)
Definition store_selector {W} `{Backend W} (l : Layout) : Selector W := {|
  sel_List := List l;
  sel_Read := Read l;
  sel_Latest := Latest l
|}.

Record Alignment := {
  al_Cluster : option object;
  al_Namespace : string;
  al_Backups : option BackupLookup
}.

Record Resolution := {
  res_Snapshot : Snapshot;
  res_Key : string;
  res_Target : option TargetResolution
}.

(** The loop of [SelectAtOrBefore]. *)
Fixpoint at_or_before (moment : Z) (chosen : option SnapshotRef) (refs : list SnapshotRef)
    : option SnapshotRef :=
  match refs with
  | [] => chosen
  | ref :: rest =>
      if decide (moment < CapturedAt ref)%Z then chosen else at_or_before moment (Some ref) rest
  end.

(** The loop of [selectByGeneration]. *)
Fixpoint at_generation (generation : Z) (chosen : option SnapshotRef) (refs : list SnapshotRef)
    : option SnapshotRef :=
  match refs with
  | [] => chosen
  | ref :: rest =>
      if decide (SnapshotStore.Generation ref = generation)
      then at_generation generation (Some ref) rest
      else at_generation generation chosen rest
  end.

(** The available generations, for an error message. *)
Definition describeRange (refs : list SnapshotRef) : string :=
  match refs with
  | [] => ""
  | first :: _ =>
      let lowest := foldl (λ lo r, Z.min lo (SnapshotStore.Generation r))
                      (SnapshotStore.Generation first) refs in
      let highest := foldl (λ hi r, Z.max hi (SnapshotStore.Generation r))
                       (SnapshotStore.Generation first) refs in
      ", generations " +:+ FormatInt lowest +:+ " to " +:+ FormatInt highest
  end.

Section select.
Context {W : Type} `{Selector W} `{CnpgLib}.

Definition read_ref (ref : SnapshotRef) (target : option TargetResolution) : prog W Resolution :=
  snap ← sel_Read (Key ref);
  mret {| res_Snapshot := snap; res_Key := Key ref; res_Target := target |}.

Definition latest_resolution (target : option TargetResolution) : prog W Resolution :=
  '(snap, key) ← sel_Latest;
  mret {| res_Snapshot := snap; res_Key := key; res_Target := target |}.

Definition selectByGeneration (generation : Z) : prog W Resolution :=
  refs ← sel_List;
  match at_generation generation None refs with
  | None => throw (Errorf "no snapshot for generation %d (%d snapshots available%s)"
                     [AInt generation; AInt (Z.of_nat (length refs)); AStr (describeRange refs)])
  | Some chosen => read_ref chosen None
  end.

Definition SelectAtOrBefore (moment : Z) : prog W Resolution :=
  refs ← sel_List;
  match refs with
  | [] => throw (Wrapf "%w: the source has no snapshots" [] (Sentinel ErrNotFound))
  | first :: _ =>
      match at_or_before moment None refs with
      | None => throw (Errorf "no snapshot captured at or before %s; the earliest is %s. The source cluster's configuration history does not reach back that far"
                         [AStr (FormatRFC3339 moment); AStr (FormatRFC3339 (CapturedAt first))])
      | Some chosen => read_ref chosen None
      end
  end.

(** [fmt.Errorf] of a text that contains a detail. *)
Definition error_of_detail (before : string) (d : detail) (after : string) : error :=
  match d_error d with
  | None => Errorf (before +:+ d_format d +:+ after) (d_args d)
  | Some e => Showf (before +:+ d_format d +:+ after) (d_args d) e
  end.

Definition with_target (target : TargetResolution) (r : Resolution) : Resolution :=
  {| res_Snapshot := res_Snapshot r; res_Key := res_Key r; res_Target := Some target |}.

Definition selectAligned (policy : option RestorePolicy) (alignment : option Alignment)
    : prog W Resolution :=
  match alignment with
  | Some {| al_Cluster := Some cluster; al_Namespace := namespace; al_Backups := backups |} =>
      target ← lift (ResolveRecoveryTarget cluster namespace backups);
      match tg_Moment target with
      | Some moment =>
          resolution ← wrapM ("aligning with " +:+ d_format (tg_Detail target) +:+ ": %w")
                         (d_args (tg_Detail target)) (SelectAtOrBefore moment);
          mret (with_target target resolution)
      | None =>
          if decide (tg_Kind target = TargetNone) then latest_resolution (Some target)
          else if decide (GetOnUnresolvable policy = UnresolvableUseLatest)
          then latest_resolution (Some target)
          else throw (error_of_detail "cannot align the configuration with this cluster's recovery target: "
                        (tg_Detail target)
                        ". Set select.mode to Timestamp with the instant you are recovering to, or set select.onUnresolvable to UseLatest to accept the most recent configuration")
      end
  | _ => throw (Errorf "select.mode is AlignWithRecoveryTarget, which resolves against the Cluster being created and cannot be evaluated without one" [])
  end.

Definition policy_generation (policy : option RestorePolicy) : option Z :=
  p ← policy; Api.Generation (Select (rp_Spec p)).
Definition policy_timestamp (policy : option RestorePolicy) : option Z :=
  p ← policy; Timestamp (Select (rp_Spec p)).

(** [restore.Select]. *)
Definition Select_ (mode : string) (policy : option RestorePolicy) (alignment : option Alignment)
    : prog W Resolution :=
  if decide (mode = SelectLatest) then latest_resolution None
  else if decide (mode = SelectGeneration) then
    match policy_generation policy with
    | None => throw (Errorf "select.mode is Generation but select.generation is unset" [])
    | Some generation => selectByGeneration generation
    end
  else if decide (mode = SelectTimestamp) then
    match policy_timestamp policy with
    | None => throw (Errorf "select.mode is Timestamp but select.timestamp is unset" [])
    | Some moment => SelectAtOrBefore moment
    end
  else if decide (mode = SelectAlignWithRecoveryTarget) then selectAligned policy alignment
  else throw (Errorf "unknown select mode %q" [AStr mode]).

End select.

(** ** The loops *)

Lemma at_or_before_app moment chosen l1 l2 :
  Forall (λ r, CapturedAt r ≤ moment)%Z l1 →
  at_or_before moment chosen (l1 ++ l2)
  = at_or_before moment (match last l1 with Some r => Some r | None => chosen end) l2.
Proof.
  intros HF. revert chosen. induction HF as [|r l1 Hr HF IH]; intros chosen; [done|].
  simpl. rewrite decide_False by lia. rewrite IH. destruct l1 as [|r' l1]; [done|].
  rewrite last_cons_cons. destruct (last (r' :: l1)) eqn:Hl; [done|].
  by apply last_None in Hl.
Qed.

Lemma at_or_before_none moment chosen l :
  Forall (λ r, moment < CapturedAt r)%Z l → at_or_before moment chosen l = chosen.
Proof. destruct 1; [done|]. simpl. by rewrite decide_True. Qed.

(** Oldest-first refs split at a moment. *)
Lemma split_at_moment moment l :
  StronglySorted ref_le l →
  ∃ l1 l2, l = l1 ++ l2 ∧ Forall (λ r, CapturedAt r ≤ moment)%Z l1
    ∧ Forall (λ r, moment < CapturedAt r)%Z l2.
Proof.
  induction 1 as [|r l Hs (l1 & l2 & -> & H1 & H2) Hr].
  { exists [], []. by split_and!. }
  destruct (decide (CapturedAt r ≤ moment)%Z).
  - exists (r :: l1), l2. split_and!; [done|by constructor|done].
  - exists [], (r :: l1 ++ l2). split_and!; [done|by constructor|].
    constructor; [lia|]. eapply Forall_impl; [exact Hr|]. intros x Hx.
    apply ref_le_spec in Hx. lia.
Qed.

(** The ref chosen for a moment is the greatest, in the order of the list, of
    those captured at or before it; none is chosen when there is none. *)
Lemma at_or_before_spec moment l :
  StronglySorted ref_le l →
  match at_or_before moment None l with
  | Some r => r ∈ l ∧ (CapturedAt r ≤ moment)%Z
      ∧ ∀ r', r' ∈ l → (CapturedAt r' ≤ moment)%Z → ref_le r' r
  | None => ∀ r, r ∈ l → (moment < CapturedAt r)%Z
  end.
Proof.
  intros Hs. destruct (split_at_moment moment l Hs) as (l1 & l2 & -> & H1 & H2).
  rewrite at_or_before_app, at_or_before_none by done.
  rewrite Forall_forall in H1, H2.
  destruct (last l1) as [r|] eqn:Hl.
  - apply last_Some in Hl as [l1' ->]. split_and!.
    + set_solver.
    + apply H1. set_solver.
    + intros r' Hr' Hm. rewrite <-app_assoc in Hs, Hr'.
      apply elem_of_app in Hr' as [Hr'|Hr'].
      * apply StronglySorted_app in Hs as (Hs & _ & _). apply Hs; [done|]. set_solver.
      * apply elem_of_app in Hr' as [->%list_elem_of_singleton|Hr'].
        { destruct (total ref_le r r); done. }
        specialize (H2 _ Hr'). lia.
  - apply last_None in Hl as ->. simpl. done.
Qed.

(** ** Retention keeps every answer *)

(** Keys in bytewise order are in chronological order, as those of one layout
    are (see [SnapshotKey_compare_lex]). *)
Definition chronological (refs : list SnapshotRef) : Prop :=
  ∀ x y, x ∈ refs → y ∈ refs → key_order x y → ref_le x y.

Lemma key_sort_sortRefs refs : chronological refs → merge_sort key_order refs = sortRefs refs.
Proof.
  intros Hc. apply (NoDup_Permutation_sorted_unique ref_le).
  - intros x y _ _. apply ref_le_antisymm.
  - assert (StronglySorted key_order (merge_sort key_order refs)) as Hs.
    { assert (Transitive key_order) by (intros x y z; unfold key_order; apply transitivity).
      assert (Total key_order) by (intros x y; unfold key_order; apply total; apply _).
      by apply StronglySorted_merge_sort. }
    assert (∀ x, x ∈ merge_sort key_order refs → x ∈ refs) as Hin.
    { intros x. by rewrite merge_sort_Permutation. }
    induction Hs as [|x l Hs IH Hx]; [constructor|]. constructor.
    + apply IH. intros y Hy. apply Hin. by right.
    + rewrite Forall_forall in Hx |- *. intros y Hy.
      apply Hc; [apply Hin; left|apply Hin; by right|by apply Hx].
  - apply sortRefs_sorted.
  - by rewrite merge_sort_Permutation, sortRefs_Permutation.
Qed.

Lemma leading_split cutoff l :
  Forall (λ r, CapturedAt r < cutoff)%Z (take (leading cutoff l) l)
  ∧ (leading cutoff l ≤ length l)%nat.
Proof.
  induction l as [|r l [IH IHl]]; simpl; [by split|]. case_decide; simpl; split; auto; lia.
Qed.

(** The refs that survive a plan, in order: the anchor and all after it. *)
Lemma survivors refs cutoff :
  chronological refs → NoDup (Key <$> refs) →
  sortRefs (filter (λ r, Key r ∉ PlanRetention refs cutoff) refs)
  = drop (leading cutoff (sortRefs refs) - 1) (sortRefs refs).
Proof.
  intros Hc Hnd. rewrite PlanRetention_take, key_sort_sortRefs by done.
  set (n := leading cutoff (sortRefs refs) - 1).
  assert (NoDup (Key <$> sortRefs refs)) as Hnd' by (by rewrite sortRefs_Permutation).
  apply (NoDup_Permutation_sorted_unique ref_le).
  - intros x y _ _. apply ref_le_antisymm.
  - apply sortRefs_sorted.
  - pose proof (sortRefs_sorted refs) as Hs. rewrite <-(take_drop n (sortRefs refs)) in Hs.
    by apply StronglySorted_app in Hs as (_ & _ & Hs).
  - rewrite sortRefs_Permutation.
    trans (filter (λ r, Key r ∉ Key <$> take n (sortRefs refs)) (sortRefs refs)).
    + by rewrite sortRefs_Permutation.
    + by rewrite (filter_take_drop Key).
Qed.

(** Every moment at or after the cutoff is answered by the same snapshot
    before and after the planned deletions. *)
Lemma at_or_before_drop cutoff moment l :
  (cutoff ≤ moment)%Z →
  at_or_before moment None (drop (leading cutoff l - 1) l) = at_or_before moment None l.
Proof.
  intros Hm. destruct (leading_split cutoff l) as [HF Hle].
  destruct (leading cutoff l) as [|k] eqn:Hk; [done|].
  replace (S k - 1) with k by lia.
  rewrite <-(take_drop k l) at 2.
  assert (Forall (λ r, CapturedAt r < cutoff)%Z (take (S k) l)) as HF' by done.
  destruct (drop k l) as [|x rest] eqn:Hd.
  { assert (length (drop k l) = 0) as Hl by (by rewrite Hd). rewrite length_drop in Hl. lia. }
  assert (l !! k = Some x) as Hx by (by rewrite <-(Nat.add_0_r k), <-lookup_drop, Hd).
  rewrite (take_S_r _ _ _ Hx) in HF. apply Forall_app in HF as [HF Hx'].
  apply Forall_cons_1 in Hx' as [Hxc _].
  rewrite at_or_before_app.
  2: { eapply Forall_impl; [exact HF|]. simpl. intros. lia. }
  simpl. by rewrite !decide_False by lia.
Qed.

(** A ref as [Write] makes it and [List] reads it back. *)
Definition own_ref (l : Layout) (r : SnapshotRef) : Prop := ∃ t x,
  four_digit_year t ∧ (0 ≤ SnapshotStore.Generation r < 10 ^ 10)%Z
  ∧ Key r = SnapshotKey l t (SnapshotStore.Generation r) (digest x)
  ∧ CapturedAt r = (unix_seconds t * Second)%Z.

Lemma own_refs_chronological l refs : Forall (own_ref l) refs → chronological refs.
Proof.
  rewrite Forall_forall. intros HF x y Hx Hy Hle.
  destruct (HF x Hx) as (tx & cx & Htx & Hgx & Hkx & Hcx), (HF y Hy) as (ty & cy & Hty & Hgy & Hky & Hcy).
  unfold key_order in Hle. pose proof Hle as Hle'. apply str_le_compare in Hle'.
  rewrite Hkx, Hky, SnapshotKey_compare_lex in Hle' by done.
  apply ref_le_spec. rewrite Hcx, Hcy. unfold Second.
  destruct (Z.compare_spec (unix_seconds tx) (unix_seconds ty)) as [He|Hlt|Hgt]; [|left; lia|done].
  rewrite He. right. split; [done|].
  destruct (Z.compare_spec (SnapshotStore.Generation x) (SnapshotStore.Generation y));
    [by right|by left|done].
Qed.

(** C27: Retention never changes an answer: of the snapshots a cluster wrote, every
    moment at or after the cutoff selects the same one after the planned
    deletions as before. *)
Theorem PlanRetention_keeps_answers l refs cutoff moment :
  Forall (own_ref l) refs → NoDup (Key <$> refs) → (cutoff ≤ moment)%Z →
  at_or_before moment None
    (sortRefs (filter (λ r, Key r ∉ PlanRetention refs cutoff) refs))
  = at_or_before moment None (sortRefs refs).
Proof.
  intros Hc%own_refs_chronological Hnd Hm. rewrite survivors by done. by apply at_or_before_drop.
Qed.

(** ** Selecting from a store *)

Section store_select.
Context {W : Type} `{Backend W} (objects : W → gmap string string) `{!BackendSpec W objects} `{CnpgLib}.

(** C26: A restore to a moment reads the newest snapshot of the history captured at
    or before it, and only one that verifies. *)
Theorem SelectAtOrBefore_newest l moment w w' res :
  @SelectAtOrBefore W (store_selector l) moment w = (w', Ok res) →
  ∃ ref raw, res_Key res = Key ref ∧ HasPrefix (Key ref) (SnapshotsPrefix l) = true
    ∧ ParseSnapshotKey (Key ref) = Ok (CapturedAt ref, SnapshotStore.Generation ref)
    ∧ (CapturedAt ref ≤ moment)%Z
    ∧ objects w !! Key ref = Some raw ∧ decode_document raw = Ok (res_Snapshot res)
    ∧ verified (res_Snapshot res)
    ∧ ∀ key t g, is_Some (objects w !! key) → HasPrefix key (SnapshotsPrefix l) = true →
        ParseSnapshotKey key = Ok (t, g) → (t ≤ moment)%Z →
        ref_le {| Key := key; CapturedAt := t; Generation := g |} ref.
Proof.
  unfold SelectAtOrBefore, read_ref, mbind, prog_bind, throw. cbn [sel_List sel_Read store_selector].
  unfold List, mbind, prog_bind.
  destruct (List_ (SnapshotsPrefix l) w) as [w1 [keys|e]] eqn:Hl; apply list_spec in Hl as [Ho Hkeys]; [|done].
  subst keys. simpl. set (refs := sortRefs (refs_of_keys (keys_under (objects w) (SnapshotsPrefix l)))).
  pose proof (at_or_before_spec moment refs (sortRefs_sorted _)) as Hspec.
  assert (∀ ref, ref ∈ refs ↔ is_Some (objects w !! Key ref)
    ∧ HasPrefix (Key ref) (SnapshotsPrefix l) = true
    ∧ ParseSnapshotKey (Key ref) = Ok (CapturedAt ref, SnapshotStore.Generation ref)) as Hrefs.
  { intros ref. unfold refs. rewrite sortRefs_Permutation, elem_of_refs_of_keys, elem_of_keys_under. tauto. }
  clearbody refs. destruct (at_or_before moment None refs) as [ref|]; [|by destruct refs].
  destruct Hspec as (Hin & Hm & Hmax). intros Hs.
  assert ((let (w', r) := Read l (Key ref) w1 in
           match r with
           | Ok snap => (w', Ok {| res_Snapshot := snap; res_Key := Key ref; res_Target := None |})
           | Err e => (w', Err e)
           end) = (w', Ok res)) as Hread by (by destruct refs).
  clear Hs. revert Hread. unfold Read, mbind, prog_bind, lift.
  destruct (Get_ (Key ref) w1) as [w2 [raw|e]] eqn:Hg; apply get_spec in Hg as [_ Hg]; [|done].
  destruct (decodeSnapshot raw (Key ref)) as [snap|] eqn:Hd; [|done]. intros [= _ <-].
  apply decodeSnapshot_Ok in Hd as [Hd Hv]. rewrite Ho in Hg.
  apply Hrefs in Hin as (_ & Hpre & Hparse). exists ref, raw. split_and!; try done.
  intros key t g Hs Hp Hpk Ht. apply Hmax; [|done]. by apply Hrefs.
Qed.

End store_select.
