(* ===== verification/S3.v ===== *)
(** * internal/store/s3.go: the S3 implementation of the backend

    The AWS SDK is a parameter.  An SDK error is kept by what [errors.As] finds
    in its chain. *)

From S2P Require Import Prelude GoStrings Backend.

#[local] Open Scope stdpp_scope.

(** ** What the SDK returns *)

Inductive s3type := NoSuchKey | NotFound | NoSuchBucket | BucketAlreadyOwnedByYou | BucketAlreadyExists.
#[export] Instance s3type_eq_dec : EqDecision s3type.
Proof. solve_decision. Defined.

Record s3error := {
  e_types : list s3type;                  (* the typed errors of the chain *)
  e_api : option (string * string);       (* smithy.APIError: ErrorCode, ErrorMessage *)
  e_status : option Z;                    (* awshttp.ResponseError: HTTPStatusCode *)
  e_text : string                         (* Error() *)
}.

Definition sdk_error (e : s3error) : error := External OtherKind (e_text e).

(** A response body: the bytes it yields, and whether reading them all ends in
    an error. *)
Record body := { body_data : string; body_error : option string }.

Inductive s3result (A : Type) := S3Ok (a : A) | S3Err (e : s3error).
Arguments S3Ok {A} a.
Arguments S3Err {A} e.

Record S3Options := {
  so_Bucket : string;
  so_Region : string;
  so_EndpointURL : string;
  so_AccessKeyID : string;
  so_SecretAccessKey : string;
  so_SessionToken : string;
  so_CABundle : string;
  so_InheritFromIAMRole : bool
}.

(** The client [NewS3Backend] asks the SDK for: the region, the static
    credentials when there are any, the CA bundle, the endpoint with its
    path-style flag. *)
Record S3Config := {
  sc_Bucket : string;
  sc_Region : string;
  sc_Credentials : option (string * string * string);
  sc_CABundle : option string;
  sc_Endpoint : option string;
  sc_UsePathStyle : bool
}.

Class S3Sdk (W : Type) := {
  GetObject : S3Config → string → W → W * s3result body;
  PutObject : S3Config → string → string → W → W * s3result unit;
  CreateBucket : S3Config → W → W * s3result unit;
  DeleteObject : S3Config → string → W → W * s3result unit;
  (** The pages the ListObjectsV2 paginator yields until it has no more. *)
  ListPages : S3Config → string → W → list (s3result (list (option string)));
  (** One ListObjectsV2 request with MaxKeys 1. *)
  ListOne : S3Config → string → W → s3result unit;
  (** [AppendCertsFromPEM] on the bundle. *)
  valid_pem : string → bool;
  (** [awsconfig.LoadDefaultConfig] with the options of the client. *)
  LoadDefaultConfig : S3Config → result unit
}.

(** ** Recognising errors *)

Definition has_type (t : s3type) (e : s3error) : bool := bool_decide (t ∈ e_types e).
Definition has_code (codes : list string) (e : s3error) : bool :=
  match e_api e with Some (code, _) => bool_decide (code ∈ codes) | None => false end.

Definition isNotFound (e : s3error) : bool :=
  has_type NoSuchKey e || has_type NotFound e || has_code ["NoSuchKey"; "NotFound"] e
  || bool_decide (e_status e = Some 404%Z).

Definition isNoSuchBucket (e : s3error) : bool :=
  has_type NoSuchBucket e || has_code ["NoSuchBucket"] e.

Definition describeS3Error (e : s3error) : string :=
  match e_api e with
  | Some (code, message) => code +:+ ": " +:+ message
  | None => e_text e
  end.

(** ** Building a backend *)

Section s3.
Context {W : Type} `{S3Sdk W}.

Definition httpClientWithCA (bundle : string) : result unit :=
  if valid_pem (W := W) bundle then Ok ()
  else Err (Sentinel (ErrText "endpointCA did not contain any valid PEM certificate")).

Definition NewS3Backend (options : S3Options) : result S3Config :=
  if decide (so_Bucket options = "") then Err (Sentinel (ErrText "s3 backend requires a bucket"))
  else
    let region := if decide (so_Region options = "") then "us-east-1" else so_Region options in
    let creds := if negb (so_InheritFromIAMRole options) && bool_decide (so_AccessKeyID options ≠ "")
                 then Some (so_AccessKeyID options, so_SecretAccessKey options, so_SessionToken options)
                 else None in
    ca ← (if decide (0 < String.length (so_CABundle options))
          then (_ ← httpClientWithCA (so_CABundle options); Ok (Some (so_CABundle options)))
          else Ok (None : option string)) : result (option string);
    let endpoint := if decide (so_EndpointURL options ≠ "") then Some (so_EndpointURL options) else None in
    let cfg := {| sc_Bucket := so_Bucket options; sc_Region := region; sc_Credentials := creds;
                  sc_CABundle := ca; sc_Endpoint := endpoint;
                  sc_UsePathStyle := bool_decide (is_Some endpoint) |} in
    _ ← wrap "while building AWS configuration: %w" [] (LoadDefaultConfig (W := W) cfg);
    Ok cfg.

(** ** Operations *)

Definition maxObjectSize : Z := 4194304.

Definition size (data : string) : Z := Z.of_nat (String.length data).

(** [io.ReadAll(io.LimitReader(body, n))]: the error is reached only when the
    limit is not. *)
Definition read_limited (n : Z) (b : body) : result string :=
  if decide (n ≤ size (body_data b))%Z then Ok (String.substring 0 (Z.to_nat n) (body_data b))
  else match body_error b with Some e => Err (External OtherKind e) | None => Ok (body_data b) end.

Definition Get (b : S3Config) (key : string) : prog W string := λ w,
  match GetObject b key w with
  | (w, S3Err err) =>
      (w, if isNotFound err
          then Err (Wrapf "%w: s3://%s/%s" [AStr (sc_Bucket b); AStr key] (Sentinel ErrNotFound))
          else Err (Wrapf "while reading s3://%s/%s: %w" [AStr (sc_Bucket b); AStr key] (sdk_error err)))
  | (w, S3Ok out) =>
      (w, data ← wrap "while reading body of s3://%s/%s: %w" [AStr (sc_Bucket b); AStr key]
                   (read_limited (maxObjectSize + 1) out);
          if decide (maxObjectSize < size data)%Z then
            Err (Errorf "s3://%s/%s is larger than %d bytes, which is not a snapshot this plugin wrote. Check that the destinationPath and prefix do not overlap other data"
                   [AStr (sc_Bucket b); AStr key; AInt maxObjectSize])
          else Ok data)
  end.

Definition putObject (b : S3Config) (key data : string) : W → W * s3result unit := PutObject b key data.

(** A creation that finds the bucket there has succeeded. *)
Definition createBucket (b : S3Config) : W → W * s3result unit := λ w,
  match CreateBucket b w with
  | (w, S3Ok _) => (w, S3Ok ())
  | (w, S3Err err) =>
      if has_type BucketAlreadyOwnedByYou err || has_type BucketAlreadyExists err
         || has_code ["BucketAlreadyOwnedByYou"; "BucketAlreadyExists"] err
      then (w, S3Ok ()) else (w, S3Err err)
  end.

Definition Put (b : S3Config) (key data : string) : prog W unit := λ w,
  match putObject b key data w with
  | (w, S3Ok _) => (w, Ok ())
  | (w, S3Err err) =>
      if negb (isNoSuchBucket err) then
        (w, Err (Wrapf "while writing s3://%s/%s: %w" [AStr (sc_Bucket b); AStr key] (sdk_error err)))
      else match createBucket b w with
      | (w, S3Err createErr) =>
          (w, Err (ShowWrapf "bucket %q does not exist and could not be created (%v). Create it beforehand, or grant s3:CreateBucket, then retry: %w"
                     [AStr (sc_Bucket b)] (sdk_error createErr) (sdk_error err)))
      | (w, S3Ok _) =>
          match putObject b key data w with
          | (w, S3Err err) =>
              (w, Err (Wrapf "while writing s3://%s/%s after creating the bucket: %w"
                         [AStr (sc_Bucket b); AStr key] (sdk_error err)))
          | (w, S3Ok _) => (w, Ok ())
          end
      end
  end.

(** The keys of the pages, up to the first page that fails. *)
Fixpoint read_pages (b : S3Config) (prefix : string) (pages : list (s3result (list (option string))))
    : result (list string) :=
  match pages with
  | [] => Ok []
  | S3Err err :: _ =>
      Err (Wrapf "while listing s3://%s/%s: %w" [AStr (sc_Bucket b); AStr prefix] (sdk_error err))
  | S3Ok contents :: rest => keys ← read_pages b prefix rest; Ok (omap id contents ++ keys)
  end.

Definition List (b : S3Config) (prefix : string) : prog W (list string) := λ w,
  (w, keys ← read_pages b prefix (ListPages b prefix w); Ok (SortStrings keys)).

Definition Check (b : S3Config) (prefix : string) : prog W unit := λ w,
  (w, match ListOne b prefix w with
      | S3Ok _ => Ok ()
      | S3Err err =>
          if isNoSuchBucket err then Err (Wrapf "%w: %s" [AStr (sc_Bucket b)] (Sentinel ErrBucketNotFound))
          else Err (Errorf "cannot list s3://%s/%s: %s"
                      [AStr (sc_Bucket b); AStr prefix; AStr (describeS3Error err)])
      end).

Definition Delete (b : S3Config) (key : string) : prog W unit := λ w,
  match DeleteObject b key w with
  | (w, S3Ok _) => (w, Ok ())
  | (w, S3Err err) =>
      if isNotFound err then (w, Ok ())
      else (w, Err (Wrapf "while deleting s3://%s/%s: %w" [AStr (sc_Bucket b); AStr key] (sdk_error err)))
  end.

Definition s3Backend (b : S3Config) : Backend W := {|
  Check_ := Check b;
  Get_ := Get b;
  Put_ := Put b;
  List_ := List b;
  Delete_ := Delete b
|}.

End s3.

(** ** The S3 service

    What the backend relies on from S3, in the terms of S3's documentation: a
    bucket is a map of objects that may not exist yet, a request that fails may
    have been applied, a listing comes in pages that together hold every key
    under the prefix, and an error response names its cause by an error code, which
    the SDK turns into a typed error, or by the HTTP status alone. *)

(** "The specified key does not exist": NoSuchKey, NotFound of the HEAD requests and
    of other implementations, or a 404 with nothing else. *)
Definition says_absent (e : s3error) : Prop :=
  (∃ t, t ∈ e_types e ∧ (t = NoSuchKey ∨ t = NotFound))
  ∨ (∃ code message, e_api e = Some (code, message) ∧ (code = "NoSuchKey" ∨ code = "NotFound"))
  ∨ e_status e = Some 404%Z.

(** "The specified bucket does not exist". *)
Definition says_no_bucket (e : s3error) : Prop :=
  NoSuchBucket ∈ e_types e ∨ ∃ message, e_api e = Some ("NoSuchBucket", message).

(** "The bucket you tried to create already exists": one's own or another's. *)
Definition says_bucket_exists (e : s3error) : Prop :=
  (∃ t, t ∈ e_types e ∧ (t = BucketAlreadyOwnedByYou ∨ t = BucketAlreadyExists))
  ∨ ∃ code message, e_api e = Some (code, message)
      ∧ (code = "BucketAlreadyOwnedByYou" ∨ code = "BucketAlreadyExists").

Class S3Service (W : Type) `{S3Sdk W} (b : S3Config) (bucket : W → option (gmap string string)) := {
  s3_get w key w' r : GetObject b key w = (w', r) →
    bucket w' = bucket w ∧
    match r with
    | S3Ok out => body_error out = None → default ∅ (bucket w) !! key = Some (body_data out)
    | S3Err e => says_absent e → default ∅ (bucket w) !! key = None
    end;
  s3_put w key data w' r : PutObject b key data w = (w', r) →
    match r with
    | S3Ok _ => bucket w' = Some (<[key := data]> (default ∅ (bucket w)))
    | S3Err e =>
        (bucket w' = bucket w ∨ bucket w' = Some (<[key := data]> (default ∅ (bucket w))))
        ∧ (says_no_bucket e → bucket w = None ∧ bucket w' = None)
    end;
  s3_create w w' r : CreateBucket b w = (w', r) →
    default ∅ (bucket w') = default ∅ (bucket w);
  (** When every page arrives, the pages together name each key once. *)
  s3_list w prefix pages : ListPages b prefix w = S3Ok <$> pages →
    omap id (concat pages) ≡ₚ keys_under (default ∅ (bucket w)) prefix;
  s3_delete w key w' r : DeleteObject b key w = (w', r) →
    match r with
    | S3Ok _ => default ∅ (bucket w') = delete key (default ∅ (bucket w))
    | S3Err e =>
        (default ∅ (bucket w') = default ∅ (bucket w)
         ∨ default ∅ (bucket w') = delete key (default ∅ (bucket w)))
        ∧ (says_absent e → default ∅ (bucket w) !! key = None)
    end
}.

(** The errors are recognised. *)
Lemma has_code_spec codes e :
  has_code codes e = true ↔ ∃ code message, e_api e = Some (code, message) ∧ code ∈ codes.
Proof.
  unfold has_code. destruct (e_api e) as [[code message]|]; [|naive_solver].
  rewrite bool_decide_eq_true. naive_solver.
Qed.

Lemma isNotFound_spec e : isNotFound e = true ↔ says_absent e.
Proof.
  unfold isNotFound, says_absent, has_type. rewrite !orb_true_iff, has_code_spec, !bool_decide_eq_true.
  setoid_rewrite elem_of_cons. setoid_rewrite list_elem_of_singleton. naive_solver.
Qed.

Lemma isNoSuchBucket_spec e : isNoSuchBucket e = true ↔ says_no_bucket e.
Proof.
  unfold isNoSuchBucket, says_no_bucket, has_type. rewrite orb_true_iff, has_code_spec, bool_decide_eq_true.
  setoid_rewrite list_elem_of_singleton. naive_solver.
Qed.

Lemma already_there_spec e :
  has_type BucketAlreadyOwnedByYou e || has_type BucketAlreadyExists e
  || has_code ["BucketAlreadyOwnedByYou"; "BucketAlreadyExists"] e = true ↔ says_bucket_exists e.
Proof.
  unfold says_bucket_exists, has_type. rewrite !orb_true_iff, has_code_spec, !bool_decide_eq_true.
  setoid_rewrite elem_of_cons. setoid_rewrite list_elem_of_singleton. naive_solver.
Qed.

#[export] Instance S3Ok_inj A : Inj (=) (=) (@S3Ok A).
Proof. by intros ?? [= ->]. Qed.

(** A listing is read to its end, or fails. *)
Lemma read_pages_Ok b prefix pages keys :
  read_pages b prefix pages = Ok keys ↔ ∃ contents, pages = S3Ok <$> contents ∧ keys = omap id (concat contents).
Proof.
  revert keys. induction pages as [|[contents|e] pages IH]; intros keys; cbn [read_pages].
  - split; [intros [= <-]; by exists []|]. by intros ([|] & ? & ->).
  - destruct (read_pages b prefix pages) as [keys'|e]; [rewrite ok_bind|].
    + destruct (proj1 (IH keys') eq_refl) as (rest & -> & ->). split.
      * intros [= <-]. exists (contents :: rest). split; [done|]. simpl. by rewrite omap_app.
      * intros ([|c cs] & [= -> Hcs%(inj (fmap S3Ok))] & ->). subst cs. simpl. by rewrite omap_app.
    + split; [done|]. intros ([|c cs] & [= -> ->] & ->).
      discriminate (proj2 (IH (omap id (concat cs))) (ex_intro _ cs (conj eq_refl eq_refl))).
  - split; [done|]. by intros ([|] & ? & _).
Qed.

(** ** The backend keeps the contract *)

Section spec.
Context {W : Type} (b : S3Config) (bucket : W → option (gmap string string)) `{S3Service W b bucket}.

Definition s3_objects (w : W) : gmap string string := default ∅ (bucket w).

Lemma createBucket_objects w w' r : createBucket b w = (w', r) → s3_objects w' = s3_objects w.
Proof.
  unfold createBucket. destruct (CreateBucket b w) as [w1 r1] eqn:Hc.
  apply s3_create in Hc. intros He. unfold s3_objects. rewrite <-Hc. f_equal.
  destruct r1; [|destruct (_ || _)]; by injection He as <- _.
Qed.

Lemma read_pages_spec w prefix w' r :
  List b prefix w = (w', r) →
  w' = w ∧ match r with Ok keys => keys = keys_under (s3_objects w) prefix | Err _ => True end.
Proof.
  unfold List. intros [= <- <-]. split; [done|].
  destruct (read_pages b prefix (ListPages b prefix w)) as [keys|] eqn:Hr; simpl; [|done].
  apply read_pages_Ok in Hr as (contents & Hr%s3_list & ->). unfold SortStrings.
  apply (NoDup_Permutation_sorted_unique String.le).
  - intros x y _ _ Hxy Hyx. by apply (anti_symm String.le).
  - apply StronglySorted_merge_sort; apply _.
  - unfold keys_under, SortStrings. apply StronglySorted_merge_sort; apply _.
  - by rewrite merge_sort_Permutation.
Qed.

Lemma Put_spec key data w w' r :
  Put b key data w = (w', r) →
  match r with
  | Ok _ => s3_objects w' = <[key := data]> (s3_objects w)
  | Err _ => s3_objects w' = s3_objects w ∨ s3_objects w' = <[key := data]> (s3_objects w)
  end.
Proof.
  unfold Put, putObject, s3_objects.
  destruct (PutObject b key data w) as [w1 r1] eqn:Hp1. apply s3_put in Hp1.
  destruct r1 as [u|e1]; [intros [= <- <-]; by rewrite Hp1|].
  destruct Hp1 as [Hor Hno]. destruct (isNoSuchBucket e1) eqn:He1; simpl.
  2: { intros [= <- <-]. destruct Hor as [->| ->]; [by left|by right]. }
  apply isNoSuchBucket_spec, Hno in He1 as [Hw Hw1]. rewrite Hw. simpl. clear Hor Hno.
  destruct (createBucket b w1) as [w2 [u|e2]] eqn:Hc; apply createBucket_objects in Hc;
    unfold s3_objects in Hc; rewrite Hw1 in Hc; simpl in Hc.
  2: { intros [= <- <-]. by left. }
  destruct (PutObject b key data w2) as [w3 r3] eqn:Hp3. apply s3_put in Hp3.
  destruct r3 as [u'|e3]; intros [= <- <-]; [by rewrite Hp3, Hc|].
  destruct Hp3 as [[->| ->] _]; [left; by rewrite Hc|right; by rewrite Hc].
Qed.

Lemma Get_spec key w w' r :
  Get b key w = (w', r) →
  s3_objects w' = s3_objects w ∧
  match r with
  | Ok data => s3_objects w !! key = Some data
  | Err e => errors_is ErrNotFound e = true → s3_objects w !! key = None
  end.
Proof.
  unfold Get, s3_objects. destruct (GetObject b key w) as [w1 r1] eqn:Hg. apply s3_get in Hg as [Hb Hr].
  destruct r1 as [out|e].
  - intros [= <- <-]. rewrite Hb. split; [done|]. unfold read_limited.
    destruct (decide (maxObjectSize + 1 ≤ size (body_data out))%Z) as [Hle|Hle].
    + simpl. rewrite decide_True; [done|].
      unfold size in Hle |- *. rewrite length_prefix by lia. lia.
    + destruct (body_error out); simpl; [done|]. rewrite decide_False by lia. by apply Hr.
  - destruct (isNotFound e) eqn:Hn; intros [= <- <-]; rewrite Hb; split; try done.
    intros _. by apply Hr, isNotFound_spec.
Qed.

Lemma Delete_spec key w w' r :
  Delete b key w = (w', r) →
  match r with
  | Ok _ => s3_objects w' = delete key (s3_objects w)
  | Err _ => s3_objects w' = s3_objects w ∨ s3_objects w' = delete key (s3_objects w)
  end.
Proof.
  unfold Delete, s3_objects. destruct (DeleteObject b key w) as [w1 r1] eqn:Hd. apply s3_delete in Hd.
  destruct r1 as [u|e]; [by intros [= <- <-]|].
  destruct Hd as [Hor Habs]. destruct (isNotFound e) eqn:Hn; intros [= <- <-]; [|done].
  apply isNotFound_spec, Habs in Hn. destruct Hor as [->|Hd]; [by rewrite delete_id|done].
Qed.

#[export] Instance s3Backend_BackendSpec : @BackendSpec W (s3Backend b) s3_objects.
Proof.
  split; simpl; intros w.
  - by intros prefix w' r [= <- _].
  - intros key w' r. apply Get_spec.
  - intros key data w' r. apply Put_spec.
  - intros prefix w' r Hl. by apply read_pages_spec in Hl as [-> Hr].
  - intros key w' r. apply Delete_spec.
Qed.

(** A service that is up: what is there is returned whole, and what is not is said
    not to be; writing into an existing bucket succeeds, writing into a missing one
    says so, the bucket is there once its creation has been asked for, whether or
    not someone else was faster, and an existing bucket can be listed. *)
Record S3Available : Prop := {
  up_get w key :
    match default ∅ (bucket w) !! key with
    | Some data => (GetObject b key w).2 = S3Ok {| body_data := data; body_error := None |}
    | None => ∃ e, (GetObject b key w).2 = S3Err e ∧ says_absent e
    end;
  up_put w key data : is_Some (bucket w) → (PutObject b key data w).2 = S3Ok ();
  up_missing w key data : bucket w = None →
    ∃ e, (PutObject b key data w).2 = S3Err e ∧ says_no_bucket e;
  up_create w : is_Some (bucket (CreateBucket b w).1)
    ∧ match (CreateBucket b w).2 with S3Ok _ => True | S3Err e => says_bucket_exists e end;
  up_list w prefix : is_Some (bucket w) → ∃ pages, ListPages b prefix w = S3Ok <$> pages;
  up_delete w key :
    match (DeleteObject b key w).2 with S3Ok _ => True | S3Err e => says_absent e end
}.

Lemma createBucket_up w w' r : S3Available → createBucket b w = (w', r) → is_Some (bucket w') ∧ r = S3Ok ().
Proof.
  intros Hup. pose proof (up_create Hup w) as [Hb Hr]. unfold createBucket.
  destruct (CreateBucket b w) as [w1 [[]|e]]; simpl in *.
  - by intros [= <- <-].
  - apply already_there_spec in Hr. rewrite Hr. by intros [= <- <-].
Qed.

Lemma Put_up key data w : S3Available → ∃ w', Put b key data w = (w', Ok ()).
Proof.
  intros Hup. unfold Put, putObject. destruct (bucket w) as [objs|] eqn:Hw.
  - pose proof (up_put Hup w key data) as Hp. rewrite Hw in Hp. specialize (Hp ltac:(by eexists)).
    destruct (PutObject b key data w) as [w1 r]. simpl in Hp. subst r. by eexists.
  - destruct (up_missing Hup w key data Hw) as (e & He & Hn%isNoSuchBucket_spec).
    destruct (PutObject b key data w) as [w1 r]. simpl in He. subst r. rewrite Hn. simpl.
    destruct (createBucket b w1) as [w2 r2] eqn:Hc.
    destruct (createBucket_up _ _ _ Hup Hc) as [Hb ->].
    pose proof (up_put Hup w2 key data Hb) as Hp.
    destruct (PutObject b key data w2) as [w3 r3]. simpl in Hp. subst r3. by eexists.
Qed.

Lemma Get_up key w :
  S3Available →
  match s3_objects w !! key with
  | Some data =>
      if decide (size data ≤ 4194304)%Z then (Get b key w).2 = Ok data
      else ∃ e, (Get b key w).2 = Err e ∧ errors_is ErrNotFound e = false
  | None => ∃ e, (Get b key w).2 = Err e ∧ errors_is ErrNotFound e = true
  end.
Proof.
  intros Hup. pose proof (up_get Hup w key) as Hg. unfold Get, s3_objects.
  destruct (GetObject b key w) as [w1 r]. simpl in Hg. destruct (default ∅ (bucket w) !! key) as [data|].
  - subst r. simpl. unfold read_limited. cbn [body_data body_error]. unfold maxObjectSize.
    destruct (decide (size data ≤ 4194304)%Z) as [Hs|Hs].
    + rewrite decide_False by lia. simpl. by rewrite decide_False by lia.
    + rewrite decide_True by lia. simpl. rewrite decide_True; [by eexists|].
      unfold size in Hs |- *. rewrite length_prefix by lia. lia.
  - destruct Hg as (e & -> & Ha%isNotFound_spec). simpl. rewrite Ha. by eexists.
Qed.

Lemma List_up prefix w :
  S3Available → is_Some (bucket w) → List b prefix w = (w, Ok (keys_under (s3_objects w) prefix)).
Proof.
  intros Hup Hb. destruct (up_list Hup w prefix Hb) as [pages Hp].
  destruct (List b prefix w) as [w' r] eqn:Hl. pose proof (read_pages_spec _ _ _ _ Hl) as [-> Hr].
  unfold List in Hl. rewrite Hp in Hl.
  rewrite (proj2 (read_pages_Ok b prefix _ (omap id (concat pages)))) in Hl by (by eexists).
  injection Hl as <-. by rewrite Hr.
Qed.

Lemma Delete_up key w : S3Available → (Delete b key w).2 = Ok ().
Proof.
  intros Hup. pose proof (up_delete Hup w key) as Hd. unfold Delete.
  destruct (DeleteObject b key w) as [w1 [u|e]]; simpl in *; [done|].
  by apply isNotFound_spec in Hd as ->.
Qed.

(** C33: Over a service that answers as S3 is documented to, the S3 backend keeps the
    contract of a backend: a listing that succeeds is complete and sorted, over all
    of its pages and whatever order they come in, and only an object that is not
    there is said not to be found.  While the service is up, every Put succeeds,
    creating the bucket when there is none; a Get returns what is there when it is
    of at most 4 MiB, refuses what is larger, and tells what is not there by
    ErrNotFound; an existing bucket is listed; and every Delete succeeds. *)
Theorem s3_backend_spec :
  @BackendSpec W (s3Backend b) s3_objects
  ∧ (S3Available → ∀ w,
      (∀ key data, ∃ w', Put b key data w = (w', Ok ()) ∧ s3_objects w' = <[key := data]> (s3_objects w))
      ∧ (∀ key, match s3_objects w !! key with
                | Some data =>
                    if decide (size data ≤ 4194304)%Z then (Get b key w).2 = Ok data
                    else ∃ e, (Get b key w).2 = Err e ∧ errors_is ErrNotFound e = false
                | None => ∃ e, (Get b key w).2 = Err e ∧ errors_is ErrNotFound e = true
                end)
      ∧ (∀ prefix, is_Some (bucket w) → List b prefix w = (w, Ok (keys_under (s3_objects w) prefix)))
      ∧ ∀ key, (Delete b key w).2 = Ok () ∧ s3_objects (Delete b key w).1 = delete key (s3_objects w)).
Proof.
  split; [apply _|]. intros Hup w. split_and!.
  - intros key data. destruct (Put_up key data w Hup) as [w' Hp].
    exists w'. split; [done|]. by apply Put_spec in Hp.
  - intros key. by apply Get_up.
  - intros prefix. by apply List_up.
  - intros key. pose proof (Delete_up key w Hup) as Hd. split; [done|].
    destruct (Delete b key w) as [w' r] eqn:Hdel. simpl in Hd. subst r. by apply Delete_spec in Hdel.
Qed.

End spec.
