(* ===== verification/Resolver.v ===== *)
(** * internal/store/barman.go and resolver.go: from a ConfigStore to a backend *)

From S2P Require Import Prelude GoStrings GoTime GoJson GoDecode Api Cnpg Kube.
From S2P Require Import Layout Backend S3.

#[local] Open Scope stdpp_scope.

(** ** barman.go *)

Record DerivedObjectStore := {
  do_Configuration : ObjectStoreConfiguration;
  do_RetentionPolicy : string
}.

Record cacheEntry := { ce_derived : DerivedObjectStore; ce_expiresAt : Z }.

Definition DefaultObjectStoreTTL : Z := 10 * Second.

(** The reader's TTL and its cache; its client and clock are arguments of the
    operations. *)
Record ObjectStoreReader := {
  osr_ttl : Z;
  osr_cache : gmap NamespacedName cacheEntry
}.

Definition NewObjectStoreReader (ttl : Z) : ObjectStoreReader :=
  {| osr_ttl := if decide (ttl ≤ 0)%Z then DefaultObjectStoreTTL else ttl; osr_cache := ∅ |}.

Definition lookup_ (now : Z) (r : ObjectStoreReader) (key : NamespacedName) : option DerivedObjectStore :=
  match osr_cache r !! key with
  | None => None
  | Some entry => if decide (ce_expiresAt entry < now)%Z then None else Some (ce_derived entry)
  end.

Definition store_ (now : Z) (r : ObjectStoreReader) (key : NamespacedName)
    (derived : DerivedObjectStore) : ObjectStoreReader :=
  {| osr_ttl := osr_ttl r;
     osr_cache := <[key := {| ce_derived := derived; ce_expiresAt := now + osr_ttl r |}]> (osr_cache r) |}.

Definition zero_selector : SecretKeySelector := {| sel_Name := ""; sel_Key := "" |}.
Definition decode_selector : decoder SecretKeySelector := decode_struct (λ old l,
  name ← field "name" decode_string (sel_Name old) l;
  key ← field "key" decode_string (sel_Key old) l;
  Ok {| sel_Name := name; sel_Key := key |}).

Definition zero_credentials : S3Credentials :=
  {| AccessKeyID := None; SecretAccessKey := None; Region := None; SessionToken := None;
     InheritFromIAMRole := false |}.
Definition decode_credentials : decoder S3Credentials := decode_struct (λ old l,
  let selector := decode_pointer zero_selector decode_selector in
  accessKeyId ← field "accessKeyId" selector (AccessKeyID old) l;
  secretAccessKey ← field "secretAccessKey" selector (SecretAccessKey old) l;
  region ← field "region" selector (Region old) l;
  sessionToken ← field "sessionToken" selector (SessionToken old) l;
  inherit ← field "inheritFromIAMRole" decode_bool (InheritFromIAMRole old) l;
  Ok {| AccessKeyID := accessKeyId; SecretAccessKey := secretAccessKey; Region := region;
        SessionToken := sessionToken; InheritFromIAMRole := inherit |}).

Definition zero_configuration : ObjectStoreConfiguration :=
  {| DestinationPath := ""; EndpointURL := ""; EndpointCA := None; s3Credentials := None |}.
Definition decode_configuration : decoder ObjectStoreConfiguration := decode_struct (λ old l,
  destinationPath ← field "destinationPath" decode_string (DestinationPath old) l;
  endpointURL ← field "endpointURL" decode_string (EndpointURL old) l;
  endpointCA ← field "endpointCA" (decode_pointer zero_selector decode_selector) (EndpointCA old) l;
  credentials ← field "s3Credentials" (decode_pointer zero_credentials decode_credentials)
                  (s3Credentials old) l;
  Ok {| DestinationPath := destinationPath; EndpointURL := endpointURL; EndpointCA := endpointCA;
        s3Credentials := credentials |}).

(** The loop over the providers that are not supported. *)
Fixpoint unsupported_provider (raw : object) (fields : list (string * string)) : option string :=
  match fields with
  | [] => None
  | (field, provider) :: rest =>
      if decide (is_Some (raw !! field)) then Some provider else unsupported_provider raw rest
  end.

Definition deriveConfiguration (raw : object) (key : NamespacedName) : result ObjectStoreConfiguration :=
  match unsupported_provider raw
          [("azureCredentials", "Azure Blob Storage"); ("googleCredentials", "Google Cloud Storage")] with
  | Some provider =>
      Err (Errorf "ObjectStore %s uses %s, which this plugin does not support yet; only S3-compatible object stores are implemented"
             [AStr (key_string key); AStr provider])
  | None =>
      encoded ← wrap "while re-encoding ObjectStore %s configuration: %w" [AStr (key_string key)]
                  (Marshal (doc_of_object raw));
      configuration ← wrap "while decoding ObjectStore %s configuration: %w" [AStr (key_string key)]
                        (d ← unmarshal_doc encoded; decode_configuration zero_configuration d);
      if decide (DestinationPath configuration = "") then
        Err (Errorf "ObjectStore %s has no destinationPath" [AStr (key_string key)])
      else Ok configuration
  end.

Section reader.
Context {W : Type} `{KubeReader W} `{Unstructured}.

(** The clock is read when the cache is looked up and when it is written. *)
Definition GetConfiguration (w : W) (now now' : Z) (key : NamespacedName)
    : prog ObjectStoreReader DerivedObjectStore := λ r,
  match lookup_ now r key with
  | Some cached => (r, Ok cached)
  | None =>
      match kube_object_store w key with
      | Err err => (r, Err (if is_kube_no_match err then CRDAbsent err else err))
      | Ok obj =>
          match wrap "while reading ObjectStore %s spec.configuration: %w" [AStr (key_string key)]
                  (NestedMap obj ["spec"; "configuration"]) with
          | Err err => (r, Err err)
          | Ok None => (r, Err (Errorf "ObjectStore %s has no spec.configuration" [AStr (key_string key)]))
          | Ok (Some raw) =>
              match deriveConfiguration raw key with
              | Err err => (r, Err err)
              | Ok configuration =>
                  match wrap "while reading ObjectStore %s spec.retentionPolicy: %w" [AStr (key_string key)]
                          (NestedString obj ["spec"; "retentionPolicy"]) with
                  | Err err => (r, Err err)
                  | Ok retention =>
                      let derived := {| do_Configuration := configuration;
                                        do_RetentionPolicy := default "" retention |} in
                      (store_ now' r key derived, Ok derived)
                  end
              end
          end
      end
  end.

(** ** resolver.go *)

Record Resolved := {
  rv_Configuration : ObjectStoreConfiguration;
  rv_Destination : Destination;
  rv_Source : string;
  rv_Provider : string;
  rv_InheritedRetention : string
}.

Definition Resolve (w : W) (now now' : Z) (store : ConfigStore) : prog ObjectStoreReader Resolved :=
  '(configuration, source, inheritedRetention) ←
    match DerivedFrom (cs_Spec store), Configuration (cs_Spec store) with
    | Some name, _ =>
        found ← GetConfiguration w now now' {| nn_Namespace := cs_Namespace store; nn_Name := name |};
        mret (do_Configuration found, "ObjectStore/" +:+ name, do_RetentionPolicy found)
    | None, Some configuration => mret (configuration, "Inline", "")
    | None, None =>
        throw (Errorf "ConfigStore %s/%s sets neither derivedFrom nor configuration"
                 [AStr (cs_Namespace store); AStr (cs_Name store)])
    end;
  destination ← lift (wrap "ConfigStore %s/%s: %w" [AStr (cs_Namespace store); AStr (cs_Name store)]
                        (ParseDestination (DestinationPath configuration)));
  mret {| rv_Configuration := configuration; rv_Destination := destination; rv_Source := source;
          rv_Provider := "s3"; rv_InheritedRetention := inheritedRetention |}.

Definition secretValue (w : W) (namespace : string) (selector : option SecretKeySelector)
    : result string :=
  match selector with
  | None => Ok ""
  | Some selector =>
      if decide (sel_Name selector = "") then Ok ""
      else
        let key := {| nn_Namespace := namespace; nn_Name := sel_Name selector |} in
        data ← wrap "while reading Secret %s: %w" [AStr (key_string key)] (kube_secret w key);
        match data !! sel_Key selector with
        | None => Err (Errorf "secret %s has no key %q" [AStr (key_string key); AStr (sel_Key selector)])
        | Some value => Ok value
        end
  end.

Section sdk.
Context {S : Type} `{S3Sdk S}.

Definition s3Backend_ (w : W) (namespace : string) (resolved : Resolved) : result S3Config :=
  match s3Credentials (rv_Configuration resolved) with
  | None => Err (Errorf "the object store configuration has no s3Credentials; an S3 destination needs them" [])
  | Some credentials =>
      '(accessKeyID, secretAccessKey, sessionToken) ←
        (if InheritFromIAMRole credentials then Ok ("", "", "")
         else
           a ← wrap "while reading s3Credentials.accessKeyId: %w" []
                 (secretValue w namespace (AccessKeyID credentials));
           s ← wrap "while reading s3Credentials.secretAccessKey: %w" []
                 (secretValue w namespace (SecretAccessKey credentials));
           t ← wrap "while reading s3Credentials.sessionToken: %w" []
                 (secretValue w namespace (SessionToken credentials));
           Ok (a, s, t));
      region ← wrap "while reading s3Credentials.region: %w" []
                 (secretValue w namespace (Region credentials));
      bundle ← match EndpointCA (rv_Configuration resolved) with
               | None => Ok ""
               | Some ca => wrap "while reading endpointCA: %w" [] (secretValue w namespace (Some ca))
               end;
      NewS3Backend {| so_Bucket := Bucket (rv_Destination resolved);
                      so_Region := region;
                      so_EndpointURL := EndpointURL (rv_Configuration resolved);
                      so_AccessKeyID := accessKeyID;
                      so_SecretAccessKey := secretAccessKey;
                      so_SessionToken := sessionToken;
                      so_CABundle := bundle;
                      so_InheritFromIAMRole := InheritFromIAMRole credentials |}
  end.

Definition Resolver_Backend (w : W) (namespace : string) (resolved : Resolved) : result S3Config :=
  let scheme := Scheme (rv_Destination resolved) in
  if decide (scheme = "s3") then s3Backend_ w namespace resolved
  else if decide (scheme ∈ ["azure"; "gs"]) then
    Err (Errorf "object store scheme %q is not supported yet; only s3:// is implemented" [AStr scheme])
  else Err (Errorf "unsupported scheme %q" [AStr scheme]).

End sdk.

Definition LayoutFor (store : ConfigStore) (resolved : Resolved) (serverName : string) : Layout :=
  {| BasePath := Path (rv_Destination resolved); ServerName := serverName; ly_Prefix := GetPrefix store |}.

End reader.

(** ** Provider, the interface the hooks and the webhook use

    [P] is what resolving reads and writes (the reader's cache, the clock),
    [B] what a backend is. *)

Class Provider (P B : Type) := {
  pv_Resolve : ConfigStore → prog P Resolved;
  pv_Backend : string → Resolved → P → result B
}.

(** [store.Open]: the backend and the layout of one server's history. *)
Definition Open {P B} `{Provider P B} (configStore : ConfigStore) (serverName : string)
    : prog P (B * Layout) := λ p,
  match pv_Resolve configStore p with
  | (p, Err err) => (p, Err err)
  | (p, Ok resolved) =>
      match pv_Backend (cs_Namespace configStore) resolved p with
      | Err err => (p, Err err)
      | Ok backend => (p, Ok (backend, LayoutFor configStore resolved serverName))
      end
  end.

(** [*Resolver] is the Provider: the API it reads, the clock, and the reader
    with its cache. *)
Record ResolverState (W : Type) := { rx_api : W; rx_clock : Z; rx_reader : ObjectStoreReader }.
Arguments rx_api {W}.
Arguments rx_clock {W}.
Arguments rx_reader {W}.

Definition resolver_provider {W S} `{KubeReader W} `{Unstructured} `{S3Sdk S}
    : Provider (ResolverState W) S3Config := {|
  pv_Resolve := λ store p,
    let '(reader, r) := Resolve (rx_api p) (rx_clock p) (rx_clock p) store (rx_reader p) in
    ({| rx_api := rx_api p; rx_clock := rx_clock p; rx_reader := reader |}, r);
  pv_Backend := λ namespace resolved p, Resolver_Backend (S := S) (rx_api p) namespace resolved
|}.

(** ** The cache *)

Section cache.
Context {W : Type} `{KubeReader W} `{Unstructured}.

(** What [GetConfiguration] reads from the API on a miss. *)
Definition fetch (w : W) (key : NamespacedName) : result DerivedObjectStore :=
  (GetConfiguration w 0 0 key {| osr_ttl := 0; osr_cache := ∅ |}).2.

Lemma GetConfiguration_miss w now now' key r :
  lookup_ now r key = None →
  (GetConfiguration w now now' key r).2 = fetch w key
  ∧ (GetConfiguration w now now' key r).1
    = match fetch w key with Ok derived => store_ now' r key derived | Err _ => r end.
Proof.
  intros Hl. unfold fetch, GetConfiguration. rewrite Hl. unfold lookup_. simpl. rewrite lookup_empty.
  repeat case_match; simplify_eq/=; done.
Qed.

(** One call: the world it saw and what its clock read. *)
Record call := { c_world : W; c_now : Z; c_stored : Z; c_key : NamespacedName }.
Definition after_calls (ttl : Z) (calls : list call) : ObjectStoreReader :=
  foldl (λ r c, (GetConfiguration (c_world c) (c_now c) (c_stored c) (c_key c) r).1)
    (NewObjectStoreReader ttl) calls.

Lemma after_calls_entries ttl calls :
  osr_ttl (after_calls ttl calls) = osr_ttl (NewObjectStoreReader ttl)
  ∧ ∀ key entry, osr_cache (after_calls ttl calls) !! key = Some entry →
      ∃ c, c ∈ calls ∧ c_key c = key ∧ fetch (c_world c) key = Ok (ce_derived entry)
        ∧ ce_expiresAt entry = (c_stored c + osr_ttl (NewObjectStoreReader ttl))%Z.
Proof.
  induction calls as [|c calls [IHt IH]] using rev_ind; [done|].
  unfold after_calls. rewrite foldl_app. simpl. fold (after_calls ttl calls).
  destruct (lookup_ (c_now c) (after_calls ttl calls) (c_key c)) as [d|] eqn:Hl.
  - assert ((GetConfiguration (c_world c) (c_now c) (c_stored c) (c_key c) (after_calls ttl calls)).1
            = after_calls ttl calls) as -> by (unfold GetConfiguration; by rewrite Hl).
    split; [done|]. intros key entry Hk. destruct (IH _ _ Hk) as (c' & Hc' & ?).
    exists c'. split; [|done]. apply elem_of_app. by left.
  - destruct (GetConfiguration_miss (c_world c) _ (c_stored c) _ _ Hl) as [_ ->].
    destruct (fetch (c_world c) (c_key c)) as [d|] eqn:Hf.
    + split; [done|]. simpl. intros key entry. rewrite lookup_insert_Some.
      intros [[<- <-]|[_ Hk]].
      * exists c. simpl. rewrite IHt. split_and!; try done. apply elem_of_app. right. left.
      * destruct (IH _ _ Hk) as (c' & Hc' & ?). exists c'. split; [|done]. apply elem_of_app. by left.
    + split; [done|]. intros key entry Hk. destruct (IH _ _ Hk) as (c' & Hc' & ?).
      exists c'. split; [|done]. apply elem_of_app. by left.
Qed.

(** C38: After any sequence of calls, a configuration is what the API says now, or
    what it said to an earlier call no more than the TTL ago. *)
Theorem GetConfiguration_fresh ttl calls w now now' key derived :
  (GetConfiguration w now now' key (after_calls ttl calls)).2 = Ok derived →
  fetch w key = Ok derived
  ∨ ∃ c, c ∈ calls ∧ c_key c = key ∧ fetch (c_world c) key = Ok derived
      ∧ (now ≤ c_stored c + osr_ttl (NewObjectStoreReader ttl))%Z.
Proof.
  destruct (lookup_ now (after_calls ttl calls) key) as [d|] eqn:Hl.
  - unfold GetConfiguration. rewrite Hl. intros Hd. simpl in Hd. injection Hd as ->. right.
    unfold lookup_ in Hl. destruct (osr_cache _ !! key) as [entry|] eqn:He; [|done].
    case_decide; [done|]. injection Hl as <-.
    destruct (after_calls_entries ttl calls) as [_ Hent].
    destruct (Hent _ _ He) as (c & Hc & Hk & Hf & Hx). exists c. split_and!; try done. lia.
  - destruct (GetConfiguration_miss w _ now' _ _ Hl) as [-> _]. by left.
Qed.

End cache.
