(* ===== verification/Storetest.v ===== *)
(** * internal/store/storetest: the in-memory provider and the seeding of a
    history

    [storetest.Backend] itself is in Backend.v. *)

From S2P Require Import Prelude GoStrings GoTime GoJson Pathutil Api Snapshot Layout Backend JsonText.
From S2P Require Import SnapshotStore History S3 Resolver.

#[local] Open Scope stdpp_scope.

(** ** Provider *)

Record test_provider (B : Type) := {
  tp_Store : B;
  tp_ResolveErr : option error;
  tp_BackendErr : option error
}.
Arguments tp_Store {B}.
Arguments tp_ResolveErr {B}.
Arguments tp_BackendErr {B}.

Definition test_resolved : Resolved := {|
  rv_Configuration := {| DestinationPath := "s3://backups/"; EndpointURL := "http://objectstore:9000";
                         EndpointCA := None; s3Credentials := None |};
  rv_Destination := {| Scheme := "s3"; Bucket := "backups"; Path := "" |};
  rv_Source := "Inline"; rv_Provider := "s3"; rv_InheritedRetention := "" |}.

Definition Provider_Resolve {B} (p : test_provider B) : result Resolved :=
  match tp_ResolveErr p with Some err => Err err | None => Ok test_resolved end.
Definition Provider_Backend {B} (p : test_provider B) : result B :=
  match tp_BackendErr p with Some err => Err err | None => Ok (tp_Store p) end.

(** A store.Provider that answers the same to every ConfigStore. *)
#[export] Instance storetest_provider {B} : Provider (test_provider B) B := {|
  pv_Resolve := λ _ p, (p, Provider_Resolve p);
  pv_Backend := λ _ _ p, Provider_Backend p
|}.

(** ** SeedSnapshot *)

Definition seed_layout (serverName : string) : Layout :=
  {| BasePath := ""; ServerName := serverName; ly_Prefix := DefaultPrefix |}.

Definition seed (serverName : string) (generation at_ : Z) (spec : object) (checksum : string) : Snapshot :=
  {| sn_APIVersion := APIVersion; sn_Kind := Kind; sn_CapturedAt := at_; sn_Generation := generation;
     sn_Cluster := {| cr_Name := serverName; cr_Namespace := "default"; cr_UID := "" |};
     sn_Source := zero_source; sn_Groups := []; sn_CaptureRules := "";
     sn_Content := {| Spec := spec; Labels := ∅; Annotations := ∅ |}; sn_Checksum := checksum |}.

(** [t.Fatal] is an error here. *)
Definition SeedSnapshot {W} `{Backend W} (serverName : string) (generation at_ : Z) (specJSON : string)
    : prog W unit :=
  spec ← lift (FromJSON specJSON);
  checksum ← lift (Checksum {| Spec := spec; Labels := ∅; Annotations := ∅ |});
  _ ← Write (seed_layout serverName) (seed serverName generation at_ spec checksum);
  mret ().

(** ** Seeding works *)

(** The provider opens the store it was given, at the bucket's root. *)
Lemma storetest_Open {B} (store : ConfigStore) server (p : test_provider B) :
  tp_ResolveErr p = None → tp_BackendErr p = None →
  Open store server p = (p, Ok (tp_Store p, {| BasePath := ""; ServerName := server; ly_Prefix := GetPrefix store |})).
Proof. intros Hr Hb. unfold Open. simpl. unfold Provider_Resolve, Provider_Backend. by rewrite Hr; simpl; rewrite Hb. Qed.

(** A seeded snapshot verifies, and is the newest of its history. *)
Lemma SeedSnapshot_newest {W} `{Backend W} (objects : W → gmap string string) `{!BackendSpec W objects}
    server generation at_ specJSON w w' :
  SeedSnapshot server generation at_ specJSON w = (w', Ok ()) →
  ∃ spec sum, FromJSON specJSON = Ok spec
    ∧ let snap := seed server generation at_ spec sum in
      verified snap ∧ (encodable snap → newest (seed_layout server) (objects w') snap (key_of (seed_layout server) snap)).
Proof.
  unfold SeedSnapshot, mbind, prog_bind, lift, mret, prog_ret.
  destruct (FromJSON specJSON) as [spec|] eqn:Hj; [|done].
  destruct (Checksum _) as [sum|] eqn:Hc; [|done].
  destruct (Write _ _ w) as [w1 [key|e]] eqn:Hw; [|done]. intros [= <-].
  exists spec, sum. split; [done|]. cbv zeta.
  assert (verified (seed server generation at_ spec sum)) as Hv.
  { split_and!; [done|done| |done]. simpl. unfold Checksum in Hc. destruct (Canonical _); [|done].
    rewrite ok_bind in Hc. by injection Hc as <-. }
  split; [done|]. intros He. apply (Write_objects objects) in Hw as (-> & Henc & Ho); [|done].
  unfold newest. rewrite Ho, lookup_insert_eq. split; [by apply decodeSnapshot_encoded|done].
Qed.
