(* ===== verification/GoFloat.v ===== *)
(** * float64: conversions, and strconv on decimal text

    A [float64] is the Standard Library's [spec_float] at binary64 precision. *)

From S2P Require Import Prelude GoStrings.
From Stdlib Require Import Floats.SpecFloat.

#[local] Open Scope stdpp_scope.
#[local] Open Scope Z_scope.

Abbreviation float := spec_float.

#[export] Instance float_eq_dec : EqDecision float.
Proof. solve_decision. Defined.

Definition prec : Z := 53.
Definition emax : Z := 1024.

Definition float_of_Z (z : Z) : float := binary_normalize prec emax z 0 false.
Definition fmul (x y : float) : float := SFmul prec emax x y.
Definition fdiv (x y : float) : float := SFdiv prec emax x y.
Definition fadd (x y : float) : float := SFadd prec emax x y.

Definition is_nan (x : float) : bool := match x with S754_nan => true | _ => false end.
Definition is_inf (x : float) : bool := match x with S754_infinity _ => true | _ => false end.
Definition is_zero (x : float) : bool := match x with S754_zero _ => true | _ => false end.

(** The integer part of a finite float. *)
Definition truncate (x : float) : option Z :=
  match x with
  | S754_zero _ => Some 0
  | S754_finite s m e =>
      let z := if decide (0 ≤ e) then Z.pos m * 2 ^ e else Z.pos m / 2 ^ (- e) in
      Some (if s then - z else z)
  | _ => None
  end.

(** [int64(x)]: outside the range of an [int64] the result is the
    implementation's choice. *)
Class GoPlatform := { int64_out_of_range : float → Z }.

Definition float_to_int64 `{GoPlatform} (x : float) : Z :=
  match truncate x with
  | Some z => if decide (in_int64 z) then z else int64_out_of_range x
  | None => int64_out_of_range x
  end.

(** ** strconv.ParseFloat on plain decimal text *)

(** The float nearest to [m * 10^e]. *)
Definition decimal_to_float (s : bool) (m e : Z) : float :=
  if decide (m ≤ 0) then S754_zero s
  else if decide (0 ≤ e) then
    let z := m * 10 ^ e in binary_normalize prec emax (if s then - z else z) 0 s
  else
    let '(q, e', l) := SFdiv_core_binary prec emax m 0 (10 ^ (- e)) 0 in
    binary_round_aux prec emax s q e' l.

(** The digits that start [s], and the rest. *)
Fixpoint take_digits (s : string) : string * string :=
  match s with
  | String a r =>
      match char_digit a with
      | Some _ => let '(ds, rest) := take_digits r in (String a ds, rest)
      | None => ("", s)
      end
  | EmptyString => ("", "")
  end.

Definition take_sign (s : string) : bool * string :=
  match s with
  | String a r => if decide (a = "-"%char) then (true, r)
                  else if decide (a = "+"%char) then (false, r) else (false, s)
  | EmptyString => (false, s)
  end.

(** The value of a digit string, of any length. *)
Definition nat_value (s : string) : Z := default 0 (digits_value 0 s).

(** [^[+-]?(\d+\.\d*|\.\d+|\d+)([eE][+-]?\d+)?$]: sign, the digits before and
    after the point, and the exponent. *)
Definition scan_decimal (s : string) : option (bool * string * string * Z) :=
  let '(sign, s) := take_sign s in
  let '(int, s) := take_digits s in
  let '(frac, s) := match CutPrefix s "." with
                    | Some r => take_digits r
                    | None => ("", s)
                    end in
  if decide (int = "" ∧ frac = "") then None
  else match s with
  | EmptyString => Some (sign, int, frac, 0)
  | String a r =>
      if decide (a = "e"%char ∨ a = "E"%char) then
        let '(esign, r) := take_sign r in
        let '(ds, rest) := take_digits r in
        if decide (ds = "" ∨ rest ≠ "") then None
        else Some (sign, int, frac, if esign then - nat_value ds else nat_value ds)
      else None
  end.

(** [ParseFloat(s, 64)] for text [scan_decimal] accepts; an overflow is an
    error.  Exponents far outside the range are cut off before [10^e] is
    computed. *)
Definition ParseFloat (s : string) : option float :=
  '(sign, int, frac, e) ← scan_decimal s;
  let digits := int +:+ frac in
  let m := nat_value digits in
  let e := e - Z.of_nat (String.length frac) in
  let magnitude := Z.of_nat (String.length digits) + e in
  if decide (m = 0) then Some (S754_zero sign)
  else if decide (magnitude < -330) then Some (S754_zero sign)
  else if decide (311 + Z.of_nat (String.length digits) < magnitude) then None
  else
    let x := decimal_to_float sign m e in
    if is_inf x then None else Some x.

(** ** strconv.FormatFloat(x, 'f', -1, 64) *)

Definition digits_of (z : Z) : string := dig (ndigits 400 z) z.

(** [d * 10^e] in positional notation, without trailing zeros after the
    point. *)
Definition positional (d e : Z) : string :=
  if decide (0 ≤ e) then digits_of (d * 10 ^ e)
  else
    let p := 10 ^ (- e) in
    let frac := TrimRightByte "0" (dig (Z.to_nat (- e)) (d mod p)) in
    digits_of (d / p) +:+ (if decide (frac = "") then "" else "." +:+ frac).

(** The power of ten above [num/den], searched from [k]. *)
Fixpoint power_above (fuel : nat) (num den k : Z) : Z :=
  match fuel with
  | O => k
  | S f =>
      let below := if decide (0 ≤ k) then bool_decide (num < den * 10 ^ k)
                   else bool_decide (num * 10 ^ (- k) < den) in
      if below then k else power_above f num den (k + 1)
  end.

(** The shortest decimal that reads back as [x]: for each number of digits, the
    two neighbours of [num/den] are tried, the nearer one first. *)
Fixpoint shortest (fuel : nat) (n : Z) (num den k : Z) (x : float) : Z * Z :=
  let e := k - n in
  let a := if decide (0 ≤ e) then num else num * 10 ^ (- e) in
  let b := if decide (0 ≤ e) then den * 10 ^ e else den in
  let lo := a / b in
  let r := a mod b in
  let reads d := bool_decide (decimal_to_float false d e = x) in
  match fuel with
  | O => (lo, e)
  | S f =>
      let first := if decide (2 * r < b ∨ (2 * r = b ∧ Z.even lo = true)) then lo else lo + 1 in
      let second := if decide (first = lo) then lo + 1 else lo in
      if decide (r = 0 ∧ reads lo = true) then (lo, e)
      else if reads first then (first, e)
      else if reads second then (second, e)
      else shortest f (n + 1) num den k x
  end.

Definition FormatFloat (x : float) : string :=
  match x with
  | S754_nan => "NaN"
  | S754_infinity s => if s then "-Inf" else "+Inf"
  | S754_zero s => if s then "-0" else "0"
  | S754_finite s m e =>
      let num := if decide (0 ≤ e) then Z.pos m * 2 ^ e else Z.pos m in
      let den := if decide (0 ≤ e) then 1 else 2 ^ (- e) in
      let start := (Z.log2 (Z.pos m) + e) * 3 / 10 - 2 in
      let k := power_above 700 num den start in
      let '(d, e10) := shortest 17 1 num den k (S754_finite false m e) in
      (if s then "-" else "") +:+ positional d e10
  end.

Example FormatFloat_tenth : FormatFloat (decimal_to_float false 11 (-1)) = "1.1".
Proof. vm_compute. reflexivity. Qed.
Example FormatFloat_million : FormatFloat (float_of_Z 1000000) = "1000000".
Proof. vm_compute. reflexivity. Qed.
Example ParseFloat_third : (FormatFloat <$> ParseFloat "-.25e1") = Some "-2.5".
Proof. vm_compute. reflexivity. Qed.
