(* ===== verification/PgMem.v ===== *)
(** * internal/restore/celenv/pgmem.go: PostgreSQL memory settings *)

From S2P Require Import Prelude GoStrings.

#[local] Open Scope stdpp_scope.
#[local] Open Scope Z_scope.

(** ** Operations *)

(** [pgMemoryUnits]. *)
Definition pgMemoryUnits (unit : string) : option Z :=
  if decide (unit = "") then Some 1
  else if decide (unit = "K") then Some (2 ^ 10)
  else if decide (unit = "M") then Some (2 ^ 20)
  else if decide (unit = "G") then Some (2 ^ 30)
  else if decide (unit = "T") then Some (2 ^ 40)
  else None.

(** The normalized unit, and whether it is known. *)
Definition normalizeUnit (unit : string) : string * bool :=
  let normalized := TrimSuffix (ToUpper unit) "B" in
  (normalized, bool_decide (is_Some (pgMemoryUnits normalized))).

Definition canonicalUnit (normalized : string) : string :=
  if decide (normalized = "") then ""
  else if decide (normalized = "K") then "kB"
  else normalized +:+ "B".

(** RE2's [\s]. *)
Definition re_space (a : ascii) : bool :=
  let n := Ascii.nat_of_ascii a in
  bool_decide (n = 9 ∨ n = 10 ∨ n = 12 ∨ n = 13 ∨ n = 32)%nat.
Fixpoint skip_re_space (s : string) : string :=
  match s with String a r => if re_space a then skip_re_space r else s | EmptyString => "" end.

(** The digits that start [s], and the rest. *)
Fixpoint span_digits (s : string) : string * string :=
  match s with
  | String a r =>
      match char_digit a with
      | Some _ => let '(ds, rest) := span_digits r in (String a ds, rest)
      | None => ("", s)
      end
  | EmptyString => ("", "")
  end.

(** [([kKmMgGtT][bB]?|[bB])?]: the longest unit that starts [s]. *)
Definition is_b (a : ascii) : bool := bool_decide (a = "b"%char ∨ a = "B"%char).
Definition is_scale (a : ascii) : bool :=
  bool_decide (a ∈ ["k"; "K"; "m"; "M"; "g"; "G"; "t"; "T"]%char).
Definition span_unit (s : string) : string * string :=
  match s with
  | String a r =>
      if is_scale a then
        match r with
        | String b r' => if is_b b then (String a (String b ""), r') else (String a "", r)
        | EmptyString => (String a "", r)
        end
      else if is_b a then (String a "", r)
      else ("", s)
  | EmptyString => ("", "")
  end.

(** The submatches of
    [^\s*(-?\d+)\s*([kKmMgGtT][bB]?|[bB])?\s*$]. *)
Definition match_pg_memory (value : string) : option (string * string) :=
  let s := skip_re_space value in
  let '(sign, s) := match CutPrefix s "-" with Some r => ("-", r) | None => ("", s) end in
  let '(digits, s) := span_digits s in
  if decide (digits = "") then None
  else
    let '(unit, s) := span_unit (skip_re_space s) in
    if decide (skip_re_space s = "") then Some (sign +:+ digits, unit) else None.

(** The product wraps around: Go does not check it. *)
Definition ParsePgMemory (value : string) : result Z :=
  match match_pg_memory value with
  | None =>
      Err (Errorf "%q is not a PostgreSQL memory setting; expected a number with an optional kB, MB, GB or TB suffix"
             [AStr value])
  | Some (digits, suffix) =>
      match ParseInt digits with
      | None => Err (Wrapf "%q has an out-of-range amount: %w" [AStr value]
                       (External OtherKind "strconv.ParseInt: value out of range"))
      | Some amount =>
          let '(unit, ok) := normalizeUnit suffix in
          if negb ok then Err (Errorf "%q has an unknown unit %q" [AStr value; AStr suffix])
          else Ok (wrap64 (amount * default 0 (pgMemoryUnits unit)))
      end
  end.

Definition FormatPgMemory (bytes : Z) (unit : string) : result string :=
  let '(normalized, ok) := normalizeUnit unit in
  if negb ok then
    Err (Errorf "unknown PostgreSQL memory unit %q; use B, kB, MB, GB or TB" [AStr unit])
  else
    let amount := Z.quot bytes (default 0 (pgMemoryUnits normalized)) in
    if decide (amount = 0 ∧ bytes ≠ 0) then
      Err (Errorf "%d bytes rounds to 0%s; PostgreSQL would read that as disabling the setting, so choose a smaller unit"
             [AInt bytes; AStr unit])
    else Ok (FormatInt amount +:+ canonicalUnit normalized).

Definition UnitOf (value : string) : string :=
  match match_pg_memory value with
  | None => ""
  | Some (_, suffix) => canonicalUnit (normalizeUnit suffix).1
  end.

(** ** Units *)

Definition known_units : list string := [""; "K"; "M"; "G"; "T"].

Lemma pgMemoryUnits_known u m : pgMemoryUnits u = Some m → u ∈ known_units ∧ 1 ≤ m ≤ 2 ^ 40.
Proof. unfold pgMemoryUnits, known_units. repeat case_decide; intros [= <-]; subst; split; set_solver || lia. Qed.

Lemma known_units_spec u :
  u ∈ known_units →
  ∃ m, pgMemoryUnits u = Some m ∧ 1 ≤ m ≤ 2 ^ 40
    ∧ span_unit (canonicalUnit u) = (canonicalUnit u, "")
    ∧ skip_re_space (canonicalUnit u) = canonicalUnit u
    ∧ normalizeUnit (canonicalUnit u) = (u, true)
    ∧ span_digits (canonicalUnit u) = ("", canonicalUnit u).
Proof.
  assert (Forall (λ u, ∃ m, pgMemoryUnits u = Some m ∧ 1 ≤ m ≤ 2 ^ 40
    ∧ span_unit (canonicalUnit u) = (canonicalUnit u, "")
    ∧ skip_re_space (canonicalUnit u) = canonicalUnit u
    ∧ normalizeUnit (canonicalUnit u) = (u, true)
    ∧ span_digits (canonicalUnit u) = ("", canonicalUnit u)) known_units) as HF.
  { unfold known_units. repeat (apply Forall_cons; split); [..|by apply Forall_nil];
      eexists; (split; [reflexivity|]); split_and!; try reflexivity; lia. }
  rewrite Forall_forall in HF. apply HF.
Qed.

(** ** What formatting writes is read back *)

Lemma span_digits_dig w z t : span_digits t = ("", t) → span_digits (dig w z +:+ t) = (dig w z, t).
Proof.
  intros Ht. assert (∀ s, all_digits s = true → span_digits (s +:+ t) = (s, t)) as Hs.
  { intros s. unfold all_digits. generalize 0 as acc.
    induction s as [|a s IH]; intros acc; [done|]. rewrite str_app_cons.
    cbn [digits_value span_digits]. destruct (char_digit a) as [d|]; [|done]. simpl. intros Hd.
    by rewrite (IH _ Hd). }
  apply Hs. unfold all_digits. by rewrite digits_value_dig.
Qed.

Lemma FormatInt_shape z :
  ∃ w y, (0 < w)%nat ∧ FormatInt z = (if decide (z < 0) then "-" else "") +:+ dig w y.
Proof.
  unfold FormatInt. case_decide; eexists _, _; (split; [apply ndigits_pos|done]).
Qed.

Lemma match_formatted z u :
  u ∈ known_units →
  match_pg_memory (FormatInt z +:+ canonicalUnit u) = Some (FormatInt z, canonicalUnit u).
Proof.
  intros (m & _ & _ & Hunit & Hspace & _ & Hdig)%known_units_spec.
  destruct (FormatInt_shape z) as (w & y & Hw & ->).
  destruct (dig w y) as [|a r] eqn:Hd.
  { pose proof (length_dig w y) as Hl. rewrite Hd in Hl. simpl in Hl. lia. }
  assert (re_space a = false ∧ a ≠ "-"%char) as [Hre Hminus].
  { split; [|by eapply dig_head].
    destruct (re_space a) eqn:Hre; [|done]. exfalso.
    unfold re_space in Hre. apply bool_decide_eq_true in Hre.
    eapply dig_head; [exact Hd|..|reflexivity].
    unfold char_digit. rewrite decide_False; [done|]. lia. }
  unfold match_pg_memory.
  assert (∀ t, skip_re_space (String a t) = String a t) as Hskip.
  { intros t. cbn [skip_re_space]. by rewrite Hre. }
  assert (span_digits (String a r +:+ canonicalUnit u) = (String a r, canonicalUnit u)) as Hsd.
  { rewrite <-Hd. by apply span_digits_dig. }
  case_decide.
  - change (("-" +:+ String a r) +:+ canonicalUnit u) with (String "-" (String a r +:+ canonicalUnit u)).
    change (skip_re_space (String "-" (String a r +:+ canonicalUnit u)))
      with ("-" +:+ (String a r +:+ canonicalUnit u)).
    rewrite CutPrefix_app. cbv zeta iota. rewrite Hsd. rewrite decide_False by done.
    rewrite Hspace, Hunit. done.
  - rewrite str_app_nil_l. cbv zeta. rewrite str_app_cons, Hskip, <-str_app_cons.
    assert (CutPrefix (String a r +:+ canonicalUnit u) "-" = None) as ->.
    { apply CutPrefix_None. intros q Hq. rewrite str_app_cons in Hq. injection Hq as Ha _. congruence. }
    rewrite Hsd. rewrite decide_False by done. rewrite Hspace, Hunit. done.
Qed.

(** A setting that formats reads back as the whole units of the amount, in the
    unit that was asked for: nothing overflows on the way. *)
Theorem FormatPgMemory_roundtrip bytes unit s :
  in_int64 bytes → FormatPgMemory bytes unit = Ok s →
  ∃ normalized m, normalizeUnit unit = (normalized, true) ∧ pgMemoryUnits normalized = Some m
    ∧ ParsePgMemory s = Ok (Z.quot bytes m * m)
    ∧ UnitOf s = canonicalUnit normalized
    ∧ Z.abs (bytes - Z.quot bytes m * m) < m
    ∧ (bytes ≠ 0 → Z.quot bytes m ≠ 0).
Proof.
  intros Hb. unfold FormatPgMemory. destruct (normalizeUnit unit) as [n ok] eqn:Hn.
  destruct ok; [|done]. simpl.
  assert (is_Some (pgMemoryUnits n)) as [m Hm].
  { unfold normalizeUnit in Hn. injection Hn as <- Hk. by apply bool_decide_eq_true in Hk. }
  rewrite Hm. simpl. case_decide as Hz; [done|]. intros [= <-].
  destruct (pgMemoryUnits_known n m Hm) as [Hu Hm1].
  pose proof (known_units_spec n Hu) as (m' & Hm' & _ & _ & _ & Hnn & _).
  pose proof (Z.quot_rem bytes m ltac:(lia)) as Hqr.
  pose proof (Z.rem_bound_abs bytes m ltac:(lia)) as Hrem.
  assert (in_int64 (Z.quot bytes m * m) ∧ in_int64 (Z.quot bytes m)) as [Hq1 Hq2].
  { unfold in_int64, min_int64, max_int64 in *.
    destruct (Z.le_gt_cases 0 bytes).
    - pose proof (Z.rem_bound_pos bytes m). pose proof (Z.quot_pos bytes m). nia.
    - pose proof (Z.rem_bound_pos_neg bytes m ltac:(lia) ltac:(lia)).
      pose proof (Z.quot_opp_l bytes m ltac:(lia)). pose proof (Z.quot_pos (- bytes) m ltac:(lia) ltac:(lia)). nia. }
  exists n, m. split_and!; [done|done| | |lia|].
  - unfold ParsePgMemory. rewrite match_formatted by done.
    rewrite ParseInt_FormatInt by done. rewrite Hnn. simpl. rewrite Hm. simpl. by rewrite wrap64_id.
  - unfold UnitOf. rewrite match_formatted by done. by rewrite Hnn.
  - intros Hne Hq. apply Hz. by split.
Qed.

(** Reading a setting multiplies without a check: eight exbibytes are read as a
    negative amount. *)
Theorem ParsePgMemory_overflow : ParsePgMemory "8388608TB" = Ok (- 2 ^ 63).
Proof. vm_compute. reflexivity. Qed.
