(* ===== verification/Celenv.v ===== *)
(** * internal/restore/celenv: the environment transforms run in

    quantity.go, env.go and eval.go.  Kubernetes' [resource.Quantity] and the
    CEL engine are parameters; the functions the environment declares are
    definitions, handed to the engine as its overloads. *)

From S2P Require Import Prelude GoStrings GoJson GoFloat PgMem.
From Stdlib Require Import Floats.SpecFloat.

#[local] Open Scope stdpp_scope.

(** ** resource.Quantity *)

Class QuantityLib := {
  quantity : Type;
  resource_ParseQuantity : string → result quantity;
  q_String : quantity → string;
  q_Value : quantity → Z;
  q_MilliValue : quantity → Z;
  q_AsApproximateFloat64 : quantity → float;
  q_Format : quantity → string;
  NewMilliQuantity : Z → string → quantity;
  q_Add : quantity → quantity → quantity;     (* of a copy *)
  q_Sub : quantity → quantity → quantity;
  q_Cmp : quantity → quantity → comparison
}.

Section celenv.
Context `{QuantityLib} `{GoPlatform}.

(** ** CEL values and types *)

Inductive refval :=
| VQuantity (q : quantity)
| VString (s : string)
| VInt (z : Z)
| VUint (z : Z)
| VDouble (x : float)
| VBool (b : bool)
| VType (name : string)
| VErr (e : error)
| VOther (name : string).

Inductive celtype := CString | CInt | CDouble | CQuantity | CType | CDyn | COther (name : string).
#[export] Instance celtype_eq_dec : EqDecision celtype.
Proof. solve_decision. Defined.

(** [types.MaybeNoSuchOverloadErr]: an error is passed on. *)
Definition no_such_overload (v : refval) : refval :=
  match v with VErr e => VErr e | _ => VErr (External OtherKind "no such overload") end.

Definition type_name (v : refval) : string :=
  match v with
  | VQuantity _ => "kubernetes.Quantity" | VString _ => "string" | VInt _ => "int"
  | VUint _ => "uint" | VDouble _ => "double" | VBool _ => "bool" | VType _ => "type"
  | VErr _ => "error" | VOther name => name
  end.

(** ** quantity.go *)

Inductive native := NString (s : string) | NInt (z : Z) | NFloat (x : float) | NQuantity (q : quantity).
(** The [reflect] kinds [ConvertToNative] tells apart. *)
Inductive kind := KString | KInt64 | KInt | KFloat64 | KQuantityPointer | KOther (name : string).

Definition Quantity_ConvertToNative (q : quantity) (typeDesc : kind) : result native :=
  match typeDesc with
  | KString => Ok (NString (q_String q))
  | KInt64 | KInt => Ok (NInt (q_Value q))
  | KFloat64 => Ok (NFloat (q_AsApproximateFloat64 q))
  | KQuantityPointer => Ok (NQuantity q)
  | KOther name => Err (Errorf "cannot convert a quantity to %v" [AStr name])
  end.

Definition Quantity_ConvertToType (q : quantity) (typeVal : celtype) : refval :=
  match typeVal with
  | CQuantity => VQuantity q
  | CString => VString (q_String q)
  | CInt => VInt (q_Value q)
  | CDouble => VDouble (q_AsApproximateFloat64 q)
  | CType => VType "kubernetes.Quantity"
  | CDyn => VErr (Errorf "cannot convert a quantity to %v" [AStr "dyn"])
  | COther name => VErr (Errorf "cannot convert a quantity to %v" [AStr name])
  end.

Definition Quantity_Equal (q : quantity) (other : refval) : refval :=
  match other with
  | VQuantity q' => VBool (match q_Cmp q q' with Eq => true | _ => false end)
  | _ => no_such_overload other
  end.

Definition float_lt (x y : float) : bool := SFltb x y.

(** [float64(math.MaxInt64)] is 2^63: the comparison lets that value through. *)
Definition scale (q : quantity) (factor : float) : result refval :=
  if is_nan factor || is_inf factor then
    Err (Errorf "cannot scale a quantity by %v" [AStr (FormatFloat factor)])
  else
    let scaled := fmul (float_of_Z (q_MilliValue q)) factor in
    if float_lt (float_of_Z max_int64) scaled || float_lt scaled (float_of_Z min_int64) then
      Err (Errorf "scaling %s by %v overflows" [AStr (q_String q); AStr (FormatFloat factor)])
    else Ok (VQuantity (NewMilliQuantity (float_to_int64 scaled) (q_Format q))).

Definition ParseQuantity (s : string) : result refval :=
  parsed ← wrap "%q is not a Kubernetes quantity: %w" [AStr s] (resource_ParseQuantity s);
  Ok (VQuantity parsed).

(** ** env.go: the functions *)

Definition asFloat (value : refval) : result float :=
  match value with
  | VInt z => Ok (float_of_Z z)
  | VDouble x => Ok x
  | VUint z => Ok (float_of_Z z)
  | _ => Err (Errorf "expected a number, got %v" [AStr (type_name value)])
  end.

(** [types.NewErr("%s", err.Error())]. *)
Definition or_err (r : result refval) : refval := match r with Ok v => v | Err e => VErr e end.

Definition quantity_of (value : refval) : refval :=
  match value with
  | VString text => or_err (ParseQuantity text)
  | _ => no_such_overload value
  end.

Definition quantityScale (divide : bool) (lhs rhs : refval) : refval :=
  match lhs with
  | VQuantity q =>
      or_err (
        factor ← asFloat rhs;
        factor ← (if divide then
                    if is_zero factor then Err (Errorf "cannot divide %s by zero" [AStr (q_String q)])
                    else Ok (fdiv (float_of_Z 1) factor)
                  else Ok factor);
        scale q factor)
  | _ => no_such_overload lhs
  end.

Definition quantityCombine (subtract : bool) (lhs rhs : refval) : refval :=
  match lhs with
  | VQuantity l =>
      match rhs with
      | VQuantity r => VQuantity (if subtract then q_Sub l r else q_Add l r)
      | _ => no_such_overload rhs
      end
  | _ => no_such_overload lhs
  end.

Definition quantity_bytes (value : refval) : refval :=
  match value with VQuantity q => VInt (q_Value q) | _ => no_such_overload value end.

Definition pgMem (value : refval) : refval :=
  match value with
  | VString text => or_err (parsed ← ParsePgMemory text; Ok (VInt parsed))
  | _ => no_such_overload value
  end.

Definition pgMemFormat (amount unit : refval) : refval :=
  match amount with
  | VInt count =>
      match unit with
      | VString suffix => or_err (formatted ← FormatPgMemory count suffix; Ok (VString formatted))
      | _ => no_such_overload unit
      end
  | _ => no_such_overload amount
  end.

(** The product is converted back without a range check. *)
Definition pgScale (value factor : refval) : refval :=
  match value with
  | VString text =>
      or_err (
        multiplier ← asFloat factor;
        parsed ← ParsePgMemory text;
        formatted ← FormatPgMemory (float_to_int64 (fmul (float_of_Z parsed) multiplier)) (UnitOf text);
        Ok (VString formatted))
  | _ => no_such_overload value
  end.

Record overload := {
  ov_function : string;
  ov_id : string;
  ov_member : bool;
  ov_args : list celtype;
  ov_result : celtype;
  ov_binding : list refval → refval
}.

Definition unary (f : refval → refval) : list refval → refval := λ args,
  match args with [x] => f x | _ => VErr (External OtherKind "no such overload") end.
Definition binary (f : refval → refval → refval) : list refval → refval := λ args,
  match args with [x; y] => f x y | _ => VErr (External OtherKind "no such overload") end.

(** [cel.Function(function, cel.Overload(...))]. *)
Definition function (function id : string) (args : list celtype) (res : celtype)
    (binding : list refval → refval) : overload :=
  Build_overload function id false args res binding.
Definition member (function id : string) (args : list celtype) (res : celtype)
    (binding : list refval → refval) : overload :=
  Build_overload function id true args res binding.

(** What [New] declares, besides the variable [old]. *)
Definition environment : list overload := [
  function "quantity" "quantity_string" [CString] CQuantity (unary quantity_of);
  member "multiply" "quantity_multiply_int" [CQuantity; CInt] CQuantity (binary (quantityScale false));
  member "multiply" "quantity_multiply_double" [CQuantity; CDouble] CQuantity (binary (quantityScale false));
  member "divide" "quantity_divide_int" [CQuantity; CInt] CQuantity (binary (quantityScale true));
  member "divide" "quantity_divide_double" [CQuantity; CDouble] CQuantity (binary (quantityScale true));
  member "add" "quantity_add_quantity" [CQuantity; CQuantity] CQuantity (binary (quantityCombine false));
  member "sub" "quantity_sub_quantity" [CQuantity; CQuantity] CQuantity (binary (quantityCombine true));
  member "bytes" "quantity_bytes" [CQuantity] CInt (unary quantity_bytes);
  function "pgMem" "pgmem_string" [CString] CInt (unary pgMem);
  function "pgMemFormat" "pgmemformat_int_string" [CInt; CString] CString (binary pgMemFormat);
  function "pgScale" "pgscale_string_double" [CString; CDouble] CString (binary pgScale);
  function "pgScale" "pgscale_string_int" [CString; CInt] CString (binary pgScale)
].

(** ** env.go: captured values and results *)

(** [^[+-]?\d+$]. *)
Definition plainInteger (s : string) : bool :=
  let '(_, s) := take_sign s in
  let '(ds, rest) := GoFloat.take_digits s in
  bool_decide (ds ≠ "" ∧ rest = "").

(** [plainDecimal]. *)
Definition plainDecimal (s : string) : bool := bool_decide (is_Some (scan_decimal s)).

Definition go_type (value : any) : string :=
  match value with
  | ANil => "<nil>" | ABool _ => "bool" | ANum _ => "json.Number" | AString _ => "string"
  | AList _ => "[]interface {}" | AMap _ => "map[string]interface {}"
  end.

(** The native [int64], [float64], [string] and [bool] are bound as their CEL
    counterparts.  The value an error prints is left out of its arguments. *)
Definition ToCEL (value : any) (quantity : bool) : result refval :=
  match value with
  | ANil => Err (Errorf "the captured value is null" [])
  | _ =>
      if quantity then
        match value with
        | AString text | ANum text => ParseQuantity text
        | _ => Err (Errorf "the captured value %v should be a quantity but is a %T" [AStr (go_type value)])
        end
      else
        match value with
        | ANum literal =>
            match ParseInt literal with
            | Some integer => Ok (VInt integer)
            | None =>
                match ParseFloat literal with
                | Some x => Ok (VDouble x)
                | None => Err (External OtherKind "strconv.ParseFloat: value out of range")
                end
            end
        | AString text =>
            if plainInteger text then
              match ParseInt text with
              | Some integer => Ok (VInt integer)
              | None => Ok (VString text)
              end
            else if plainDecimal text then
              match ParseFloat text with
              | Some decimal => Ok (VDouble decimal)
              | None => Ok (VString text)
              end
            else Ok (VString text)
        | ABool b => Ok (VBool b)
        | _ => Err (Errorf "values of type %T cannot be transformed; transforms apply to scalars, not to lists or objects"
                      [AStr (go_type value)])
        end
  end.

Definition formatDouble (value : float) : string := FormatFloat value.

Definition unsupported {A} (value : refval) : result A :=
  Err (Errorf "a transform produced an unsupported result of type %v" [AStr (type_name value)]).

Definition formatAsString (value : refval) : result string :=
  match value with
  | VQuantity q => Ok (q_String q)
  | VString s => Ok s
  | VInt z => Ok (FormatInt z)
  | VUint z => Ok (FormatInt z)
  | VDouble x => Ok (formatDouble x)
  | VBool b => Ok (if b then "true" else "false")
  | _ => unsupported value
  end.

Definition FromCEL (value : refval) (source : any) : result any :=
  match source with
  | AString _ => s ← formatAsString value; Ok (AString s)
  | _ =>
      match value with
      | VQuantity q => Ok (AString (q_String q))
      | VString s => Ok (AString s)
      | VInt z => Ok (ANum (FormatInt z))
      | VUint z => Ok (ANum (FormatInt z))
      | VDouble x => Ok (ANum (formatDouble x))
      | VBool b => Ok (ABool b)
      | _ => unsupported value
      end
  end.

End celenv.

(** ** The CEL engine *)

Class CelEngine `{QuantityLib} := {
  ast : Type;
  (** [cel.NewEnv] with the declared overloads, [env.Compile] and
      [env.Program] with the cost limit, and [Program.Eval] with [old] bound. *)
  NewEnv : list overload → result unit;
  env_Compile : list overload → string → result ast;
  env_Program : list overload → Z → ast → result unit;
  program_Eval : list overload → Z → ast → refval → result refval
}.

Definition MaxCost : Z := 1000000.

Section eval.
Context `{QuantityLib} `{GoPlatform} `{!CelEngine}.

Definition New : result (list overload) := _ ← NewEnv environment; Ok environment.

(** ** eval.go *)

Record Program := { p_source : string; p_env : list overload; p_ast : ast }.

Definition Compile (env : list overload) (expression : string) : result Program :=
  if decide (expression = "") then Err (Errorf "the expression is empty" [])
  else
    tree ← env_Compile env expression;
    _ ← wrap "while preparing %q: %w" [AStr expression] (env_Program env MaxCost tree);
    Ok {| p_source := expression; p_env := env; p_ast := tree |}.

Definition Evaluate (p : Program) (old : any) (quantity : bool) : result any :=
  bound ← wrap "cannot use the captured value in %q: %w" [AStr (p_source p)] (ToCEL old quantity);
  out ← wrap "evaluating %q: %w" [AStr (p_source p)] (program_Eval (p_env p) MaxCost (p_ast p) bound);
  wrap "%q: %w" [AStr (p_source p)] (FromCEL out old).

End eval.

(** ** Properties *)

Section properties.
Context `{QuantityLib} `{GoPlatform}.

(** A field held as a string stays one, and no result is null, a list or an
    object. *)
Lemma FromCEL_shape v source r :
  FromCEL v source = Ok r →
  (∀ s, source = AString s → ∃ t, r = AString t)
  ∧ r ≠ ANil ∧ (∀ l, r ≠ AList l) ∧ (∀ m, r ≠ AMap m).
Proof.
  unfold FromCEL. intros Hr. destruct source;
    destruct v; simpl in Hr; inversion Hr; subst; split_and!; naive_solver.
Qed.

Lemma take_sign_FormatInt z :
  ∃ w y, (0 < w)%nat ∧ (take_sign (FormatInt z)).2 = dig w y.
Proof.
  destruct (FormatInt_shape z) as (w & y & Hw & ->). exists w, y. split; [done|].
  destruct (dig w y) as [|a r] eqn:Hd.
  { pose proof (length_dig w y) as Hl. rewrite Hd in Hl. simpl in Hl. lia. }
  case_decide; [done|]. rewrite str_app_nil_l. cbn [take_sign].
  rewrite !decide_False by (by eapply dig_head). done.
Qed.

Lemma take_digits_dig w y : GoFloat.take_digits (dig w y) = (dig w y, "").
Proof.
  assert (∀ s, all_digits s = true → GoFloat.take_digits s = (s, "")) as Hs.
  { intros s. unfold all_digits. generalize 0%Z as acc.
    induction s as [|a s IH]; intros acc; [done|]. cbn [digits_value GoFloat.take_digits].
    destruct (char_digit a) as [d|]; [|done]. simpl. intros Hd. by rewrite (IH _ Hd). }
  apply Hs. unfold all_digits. by rewrite digits_value_dig.
Qed.

(** An integer setting carried as text is bound as an integer, and an integer
    result is written back as that text: the identity transform changes
    nothing. *)
Theorem integer_text_roundtrip z :
  in_int64 z →
  ToCEL (AString (FormatInt z)) false = Ok (VInt z)
  ∧ FromCEL (VInt z) (AString (FormatInt z)) = Ok (AString (FormatInt z))
  ∧ ToCEL (ANum (FormatInt z)) false = Ok (VInt z)
  ∧ FromCEL (VInt z) (ANum (FormatInt z)) = Ok (ANum (FormatInt z)).
Proof.
  intros Hz. split_and!; [|done| |done].
  - simpl. unfold plainInteger. destruct (take_sign_FormatInt z) as (w & y & Hw & Hs).
    destruct (take_sign (FormatInt z)) as [sg s]. simpl in Hs. subst s.
    rewrite take_digits_dig. rewrite bool_decide_eq_true_2.
    + by rewrite ParseInt_FormatInt.
    + split; [|done]. intros He. pose proof (length_dig w y) as Hl. rewrite He in Hl. simpl in Hl. lia.
  - simpl. by rewrite ParseInt_FormatInt.
Qed.

(** The overflow check of [scale] compares with 2^63, the nearest float to
    [math.MaxInt64], and lets it through. *)
Theorem scale_boundary q :
  q_MilliValue q = (2 ^ 62)%Z →
  ∃ x, truncate x = Some (2 ^ 63)%Z ∧
  scale q (float_of_Z 2) = Ok (VQuantity (NewMilliQuantity (int64_out_of_range x) (q_Format q))).
Proof.
  intros Hq. exists (fmul (float_of_Z (2 ^ 62)) (float_of_Z 2)). split; [vm_compute; reflexivity|].
  unfold scale. rewrite Hq.
  change (is_nan (float_of_Z 2) || is_inf (float_of_Z 2)) with false. cbv zeta iota.
  assert (float_lt (float_of_Z max_int64) (fmul (float_of_Z (2 ^ 62)) (float_of_Z 2))
          || float_lt (fmul (float_of_Z (2 ^ 62)) (float_of_Z 2)) (float_of_Z min_int64) = false)
    as -> by (vm_compute; reflexivity).
  unfold float_to_int64.
  assert (truncate (fmul (float_of_Z (2 ^ 62)) (float_of_Z 2)) = Some (2 ^ 63)%Z) as ->
    by (vm_compute; reflexivity).
  by rewrite decide_False by (vm_compute; intros [_ []]; reflexivity).
Qed.

End properties.
