(* ===== verification/Skip.v ===== *)
(** * internal/restore/skip.go: which paths a restore leaves alone *)

From S2P Require Import Prelude GoStrings GoJson Pathutil Api Cnpg Groups Denylist Pathcheck.

#[local] Open Scope stdpp_scope.

(** ** Operations *)

Record skipRule := {
  r_path : string;
  r_exact : bool;
  r_keyed : bool;
  r_keyPrefix : string;
  r_except : list string;
  r_reason : string
}.

(** [*SkipSet]: [nil] and a set without rules skip nothing. *)
Definition SkipSet : Type := list skipRule.

Definition group_rule (reason path : string) : skipRule :=
  {| r_path := path; r_exact := false; r_keyed := false; r_keyPrefix := ""; r_except := [];
     r_reason := reason |}.

Definition matches (r : skipRule) (path : string) : bool :=
  if r_keyed r then
    match CutPrefix path (r_path r +:+ ".") with
    | None => false
    | Some key => HasPrefix key (r_keyPrefix r) && bool_decide (key ∉ r_except r)
    end
  else if r_exact r then bool_decide (path = r_path r)
  else bool_decide (path = r_path r) || HasPrefix path (r_path r +:+ ".").

(** The reason of the first rule that matches. *)
Fixpoint Skips (s : SkipSet) (path : string) : option string :=
  match s with
  | [] => None
  | rule :: rest => if matches rule path then Some (r_reason rule) else Skips rest path
  end.

Definition keyed (rule : SkipRule) : bool :=
  bool_decide (sk_KeyPrefix rule ≠ "") || bool_decide (sk_Except rule ≠ []).

Section with_cnpg.
Context `{CnpgLib}.

Definition compilePathRule (rule : SkipRule) : result skipRule :=
  let path := TrimSuffix (sk_Path rule) ".*" in
  let enclosing := EnclosingMap path in
  if keyed rule && negb (NamesMap path) then
    Err (Errorf "skip rule on %q sets keyPrefix or except, which apply only to a path naming a map, such as metadata.labels or spec.postgresql.parameters"
           [AStr path])
  else
    let reason := "path " +:+ path
      +:+ (if bool_decide (sk_KeyPrefix rule ≠ "") then ", keys prefixed " +:+ sk_KeyPrefix rule else "")
      +:+ (if bool_decide (sk_Except rule ≠ []) then ", except " +:+ Join (sk_Except rule) ", " else "") in
    Ok {| r_path := path;
          r_exact := match enclosing with Some e => bool_decide (path ≠ e) | None => false end;
          r_keyed := keyed rule;
          r_keyPrefix := sk_KeyPrefix rule;
          r_except := sk_Except rule;
          r_reason := reason |}.

(** The rules one skip rule compiles to. *)
Definition compile_rule (rule : SkipRule) : result (list skipRule) :=
  if decide (sk_Group rule ≠ "" ∧ sk_Path rule ≠ "") then
    Err (Errorf "skip rule sets both group %q and path %q; use one or the other"
           [AStr (sk_Group rule); AStr (sk_Path rule)])
  else if decide (sk_Group rule ≠ "" ∧ keyed rule = true) then
    Err (Errorf "skip rule for group %q sets keyPrefix or except, which apply only to a path naming a map"
           [AStr (sk_Group rule)])
  else if decide (sk_Group rule ≠ "") then
    match LookupGroup (sk_Group rule) with
    | None => Err (Errorf "unknown skip group %q; known groups are %s"
                     [AStr (sk_Group rule); AStr (Join GroupNames ", ")])
    | Some group =>
        let reason := "group " +:+ Name group in
        Ok ((group_rule reason <$> Paths group)
            ++ if decide (Name group = MetadataGroupName)
               then [group_rule reason "metadata.labels"; group_rule reason "metadata.annotations"]
               else [])
    end
  else if decide (sk_Path rule ≠ "") then
    compiled ← compilePathRule rule; Ok [compiled]
  else Err (Errorf "skip rule sets neither group nor path" []).

Fixpoint NewSkipSet (rules : list SkipRule) : result SkipSet :=
  match rules with
  | [] => Ok []
  | rule :: rest =>
      compiled ← compile_rule rule;
      set ← NewSkipSet rest;
      Ok (compiled ++ set)
  end.

(** ** What a rule says, as its documentation does *)

(** A path is [p] or lies beneath it. *)
Definition at_or_beneath (p path : string) : Prop := path = p ∨ ∃ r, path = p +:+ "." +:+ r.

(** The paths a group stands for: its own, and for Metadata the cluster's
    labels and annotations too. *)
Definition group_scope (group : Group) : list string :=
  Paths group ++ (if decide (Name group = MetadataGroupName)
                  then ["metadata.labels"; "metadata.annotations"] else []).

Definition removes (rule : SkipRule) (path : string) : Prop :=
  if decide (sk_Group rule ≠ "") then
    ∃ group p, LookupGroup (sk_Group rule) = Some group ∧ p ∈ group_scope group ∧ at_or_beneath p path
  else
    let p := TrimSuffix (sk_Path rule) ".*" in
    if keyed rule then
      ∃ key, path = p +:+ "." +:+ key ∧ (∃ r, key = sk_KeyPrefix rule +:+ r) ∧ key ∉ sk_Except rule
    else match EnclosingMap p with
         | Some e => if decide (p ≠ e) then path = p else at_or_beneath p path
         | None => at_or_beneath p path
         end.

(** ** The compiled rules remove what the written ones say *)

Lemma at_or_beneath_test p path :
  bool_decide (path = p) || HasPrefix path (p +:+ ".") = true ↔ at_or_beneath p path.
Proof.
  unfold at_or_beneath. rewrite orb_true_iff, bool_decide_eq_true, HasPrefix_spec.
  by setoid_rewrite str_app_assoc.
Qed.

Lemma Skips_spec (s : SkipSet) path :
  is_Some (Skips s path) ↔ ∃ r, r ∈ s ∧ matches r path = true.
Proof.
  induction s as [|r s IH]; simpl.
  - split; [by intros [? ?]|]. by intros (r & ?%elem_of_nil & _).
  - destruct (matches r path) eqn:Hm.
    + split; [|by eexists]. intros _. exists r. split; [left|done].
    + rewrite IH. setoid_rewrite elem_of_cons. naive_solver congruence.
Qed.

Lemma Skips_app (s1 s2 : SkipSet) path :
  is_Some (Skips (s1 ++ s2) path) ↔ is_Some (Skips s1 path) ∨ is_Some (Skips s2 path).
Proof. rewrite !Skips_spec. set_solver. Qed.

Lemma matches_keyed r path :
  r_keyed r = true →
  matches r path = true ↔
  ∃ key, path = r_path r +:+ "." +:+ key ∧ (∃ t, key = r_keyPrefix r +:+ t) ∧ key ∉ r_except r.
Proof.
  intros Hk. unfold matches. rewrite Hk. destruct (CutPrefix path _) as [key|] eqn:Hc.
  - apply CutPrefix_Some in Hc as ->.
    rewrite andb_true_iff, bool_decide_eq_true, HasPrefix_spec. split.
    + intros [Hp He]. exists key. by rewrite <-str_app_assoc.
    + intros (key' & Hp & Hpre & He). rewrite str_app_assoc in Hp.
      apply str_app_inv_length in Hp as [_ ->]; [|done]. done.
  - split; [done|]. intros (key & Hp & _). rewrite str_app_assoc in Hp.
    exfalso. rewrite CutPrefix_None in Hc. by eapply Hc.
Qed.

Lemma compile_path_spec rule r path :
  sk_Group rule = "" → compilePathRule rule = Ok r →
  matches r path = true ↔ removes rule path.
Proof.
  intros Hg. unfold compilePathRule, removes. rewrite (decide_False (P := sk_Group rule ≠ "")) by tauto.
  cbv zeta. destruct (keyed rule && negb (NamesMap _)); [done|]. intros [= <-].
  destruct (keyed rule) eqn:Hk; [by apply matches_keyed|].
  unfold matches. cbn [r_keyed r_exact r_path].
  destruct (EnclosingMap _) as [e|] eqn:He; [|apply at_or_beneath_test].
  destruct (decide (TrimSuffix (sk_Path rule) ".*" ≠ e)) as [Hne|Hne].
  - rewrite bool_decide_eq_true_2 by done. apply bool_decide_eq_true.
  - rewrite bool_decide_eq_false_2 by done. apply at_or_beneath_test.
Qed.

Lemma compile_rule_spec rule rs path :
  compile_rule rule = Ok rs → is_Some (Skips rs path) ↔ removes rule path.
Proof.
  unfold compile_rule. case_decide as H1; [done|]. case_decide as H2; [done|].
  destruct (decide (sk_Group rule ≠ "")) as [Hg|Hg].
  - destruct (LookupGroup (sk_Group rule)) as [g|] eqn:Hl; [|done]. cbv zeta.
    intros [= <-]. unfold removes. rewrite (decide_True (P := sk_Group rule ≠ "")) by done.
    rewrite Hl. rewrite Skips_spec.
    assert (∀ reason r, r ∈ (group_rule reason <$> Paths g)
             ++ (if decide (Name g = MetadataGroupName)
                 then [group_rule reason "metadata.labels"; group_rule reason "metadata.annotations"]
                 else []) ↔ ∃ p, r = group_rule reason p ∧ p ∈ group_scope g) as Hin.
    { intros reason r. unfold group_scope. rewrite elem_of_app, list_elem_of_fmap.
      setoid_rewrite elem_of_app. case_decide; set_solver. }
    setoid_rewrite Hin. split.
    + intros (r & (p & -> & Hp) & Hm). exists g, p. split_and!; [done|done|].
      by apply at_or_beneath_test.
    + intros (g' & p & [= <-] & Hp & Hb). eexists. split; [exists p; split; [reflexivity|done]|].
      by apply at_or_beneath_test.
  - case_decide; [|done]. destruct (compilePathRule rule) as [r|] eqn:Hc; [|done].
    intros [= <-]. rewrite <-(compile_path_spec rule r path); [|by apply dec_stable|done].
    simpl. destruct (matches r path); split; done || naive_solver.
Qed.

(** C37: A path is skipped exactly when some rule, as it is documented, removes
    it. *)
Theorem NewSkipSet_spec rules set path :
  NewSkipSet rules = Ok set →
  is_Some (Skips set path) ↔ ∃ rule, rule ∈ rules ∧ removes rule path.
Proof.
  revert set. induction rules as [|rule rules IH]; intros set; cbn [NewSkipSet].
  - intros [= <-]. simpl. split; [by intros [? ?]|]. by intros (r & ?%elem_of_nil & _).
  - destruct (compile_rule rule) as [rs|] eqn:Hc; [|done]. rewrite ok_bind.
    destruct (NewSkipSet rules) as [s|]; [|done]. rewrite ok_bind. intros [= <-].
    rewrite Skips_app, (compile_rule_spec rule rs path Hc), (IH s eq_refl).
    setoid_rewrite elem_of_cons. naive_solver.
Qed.

End with_cnpg.
