(* ===== verification/Transform.v ===== *)
(** * internal/restore/transform.go: rewriting captured values *)

From S2P Require Import Prelude GoStrings GoJson GoFloat Pathutil Api Cnpg Groups Denylist Pathcheck.
From S2P Require Import Celenv Skip.

#[local] Open Scope stdpp_scope.

Section transform.
Context `{CnpgLib} `{QuantityLib} `{GoPlatform} `{!CelEngine}.

(** ** Operations *)

Record compiledTransform := { ct_program : Program; ct_onMissing : string }.

(** A nil set and an empty one behave alike. *)
Record TransformSet := { byPath : gmap string compiledTransform; order : list string }.

(** The loop of [NewTransformSet]. *)
Fixpoint compile_transforms (env : list overload) (set : TransformSet) (rules : list TransformRule)
    : result TransformSet :=
  match rules with
  | [] => Ok set
  | rule :: rest =>
      if decide (tr_Path rule = "") then Err (Errorf "a transform rule has no path" [])
      else if decide (is_Some (byPath set !! tr_Path rule)) then
        Err (Errorf "two transform rules target %q" [AStr (tr_Path rule)])
      else
        program ← wrap "transform for %q is not a valid expression: %w" [AStr (tr_Path rule)]
                    (Compile env (tr_Expression rule));
        let onMissing := if decide (tr_OnMissing rule = "") then MissingFail else tr_OnMissing rule in
        compile_transforms env
          {| byPath := <[tr_Path rule := {| ct_program := program; ct_onMissing := onMissing |}]> (byPath set);
             order := order set ++ [tr_Path rule] |} rest
  end.

Definition NewTransformSet (rules : list TransformRule) : result TransformSet :=
  match rules with
  | [] => Ok {| byPath := ∅; order := [] |}
  | _ =>
      env ← wrap "while building the expression environment: %w" [] New;
      set ← compile_transforms env {| byPath := ∅; order := [] |} rules;
      Ok {| byPath := byPath set; order := SortStrings (order set) |}
  end.

Definition Paths_ (t : TransformSet) : list string := order t.

Definition Program_ (t : TransformSet) (path : string) : option Program :=
  ct_program <$> byPath t !! path.

Definition toleratesMissing (t : TransformSet) (path : string) : bool :=
  match byPath t !! path with
  | Some c => bool_decide (ct_onMissing c = MissingIgnore)
  | None => false
  end.

(** The value and whether a transform applied; an error comes with [true]. *)
Definition Apply_ (t : TransformSet) (leaf : Leaf) : result (any * bool) :=
  let path := Leaf_Path leaf in
  match Program_ t path with
  | None => Ok (Value leaf, false)
  | Some program =>
      result ← wrap "transforming %s: %w" [AStr path]
                 (Evaluate program (Value leaf) (IsQuantityPath (Segments leaf)));
      Ok (result, true)
  end.

Definition countBeneath (leaves : list string) (path : string) : Z :=
  Z.of_nat (length (filter (λ leaf, HasPrefix leaf (path +:+ ".") = true) leaves)).

(** One problem: a format with its arguments. *)
Definition problem : Type := string * list earg.

Definition problem_of (t : TransformSet) (fired : gset string) (skipped : gmap string string)
    (leaves : list string) (path : string) : option problem :=
  if decide (path ∈ fired) then None
  else match skipped !! path with
  | Some reason =>
      Some ("%s is both transformed and skipped (%s); a skipped path is never restored, so the transform cannot run",
            [AStr path; AStr reason])
  | None =>
      if decide (0 < countBeneath leaves path)%Z then
        Some ("%s names an object, not a value: the %d value(s) beneath it would be restored untransformed, so transform those paths instead",
              [AStr path; AInt (countBeneath leaves path)])
      else if toleratesMissing t path then None
      else Some ("%s is transformed but the snapshot captured no such value (set onMissing: Ignore if this path is legitimately absent from older snapshots)",
                 [AStr path])
  end.

Definition checkAllFired (t : TransformSet) (fired : gset string) (skipped : gmap string string)
    (leaves : list string) : result unit :=
  match omap (problem_of t fired skipped leaves) (Paths_ t) with
  | [] => Ok ()
  | problems => Err (Errorf (Join (problems.*1) "; ") (concat problems.*2))
  end.

(** ** The compiled set *)

(** The paths of the set are the keys of its programs. *)
Definition transforms_wf (t : TransformSet) : Prop := ∀ path, path ∈ order t ↔ is_Some (byPath t !! path).

Lemma compile_transforms_wf env set rules set' :
  transforms_wf set → compile_transforms env set rules = Ok set' → transforms_wf set'.
Proof.
  revert set. induction rules as [|rule rules IH]; intros set Hwf; cbn [compile_transforms].
  { by intros [= <-]. }
  case_decide; [done|]. case_decide as Hd; [done|].
  destruct (Compile env (tr_Expression rule)) as [program|]; [|done]. simpl. apply IH.
  intros path. simpl. rewrite elem_of_app, list_elem_of_singleton, (Hwf path).
  destruct (decide (path = tr_Path rule)) as [->|Hne].
  - rewrite lookup_insert_eq. naive_solver.
  - rewrite lookup_insert_ne by done. naive_solver.
Qed.

Lemma NewTransformSet_wf rules t : NewTransformSet rules = Ok t → transforms_wf t.
Proof.
  unfold NewTransformSet. destruct rules as [|rule rules].
  { intros [= <-]. intros path. simpl. rewrite lookup_empty. split.
    - by intros ?%elem_of_nil.
    - by intros [? ?]. }
  destruct New as [env|]; [|done]. simpl wrap. rewrite ok_bind.
  destruct (compile_transforms env _ (rule :: rules)) as [set|] eqn:Hc; [|done].
  rewrite ok_bind. intros [= <-]. apply compile_transforms_wf in Hc.
  - intros path. simpl. unfold SortStrings. rewrite merge_sort_Permutation. apply Hc.
  - intros path. simpl. rewrite lookup_empty. split; [by intros ?%elem_of_nil|by intros [? ?]].
Qed.

(** The paths are those of the rules, each once. *)
Lemma compile_transforms_paths env set rules set' :
  compile_transforms env set rules = Ok set' → order set' = order set ++ (tr_Path <$> rules).
Proof.
  revert set. induction rules as [|rule rules IH]; intros set; cbn [compile_transforms].
  { intros [= <-]. by rewrite app_nil_r. }
  case_decide; [done|]. case_decide; [done|].
  destruct (Compile env (tr_Expression rule)) as [program|]; [|done]. simpl.
  intros Hc%IH. rewrite Hc. simpl. by rewrite <-app_assoc.
Qed.

(** A rule's entry is its own, since no two rules have one path. *)
Lemma compile_transforms_keeps env set rules set' path c :
  compile_transforms env set rules = Ok set' → byPath set !! path = Some c → byPath set' !! path = Some c.
Proof.
  revert set. induction rules as [|rule rules IH]; intros set; cbn [compile_transforms]; [by intros [= <-]|].
  case_decide; [done|]. case_decide as Hd; [done|].
  destruct (Compile env (tr_Expression rule)) as [program|]; [|done]. simpl. intros Hc Hp.
  apply (IH _ Hc). simpl. rewrite lookup_insert_ne; [done|]. intros <-. apply Hd. by eexists.
Qed.

Lemma compile_transforms_rule env set rules set' rule :
  compile_transforms env set rules = Ok set' → rule ∈ rules →
  ∃ c, byPath set' !! tr_Path rule = Some c
    ∧ ct_onMissing c = (if decide (tr_OnMissing rule = "") then MissingFail else tr_OnMissing rule).
Proof.
  revert set. induction rules as [|r rules IH]; intros set; cbn [compile_transforms]; [by intros _ ?%elem_of_nil|].
  destruct (decide (tr_Path r = "")); [done|]. destruct (decide (is_Some _)); [done|].
  destruct (Compile env (tr_Expression r)) as [program|]; [|done]. simpl. intros Hc [->|Hin]%elem_of_cons; [|by eapply IH].
  eexists. split; [apply (compile_transforms_keeps _ _ _ _ _ _ Hc), lookup_insert_eq|done].
Qed.

(** A compiled rule tolerates a missing path when it says so. *)
Lemma NewTransformSet_rule rules t rule :
  NewTransformSet rules = Ok t → rule ∈ rules →
  tr_Path rule ∈ Paths_ t ∧ (toleratesMissing t (tr_Path rule) = true → tr_OnMissing rule = MissingIgnore).
Proof.
  intros Ht Hin. pose proof (NewTransformSet_wf _ _ Ht (tr_Path rule)) as Hwf. unfold Paths_. rewrite Hwf. clear Hwf.
  unfold NewTransformSet in Ht.
  destruct rules as [|r rules]; [by apply elem_of_nil in Hin|].
  destruct New as [env|]; [|done]. simpl wrap in Ht. rewrite ok_bind in Ht.
  destruct (compile_transforms env _ (r :: rules)) as [set|] eqn:Hc; [|done].
  rewrite ok_bind in Ht. injection Ht as <-. unfold toleratesMissing. cbn [byPath].
  destruct (compile_transforms_rule _ _ _ _ _ Hc Hin) as (c & -> & Ho). split; [by eexists|].
  intros Hm%bool_decide_eq_true. rewrite Ho in Hm. by case_decide.
Qed.

Lemma checkAllFired_Ok t fired skipped leaves :
  checkAllFired t fired skipped leaves = Ok () ↔
  ∀ path, path ∈ Paths_ t →
    path ∈ fired ∨ (skipped !! path = None ∧ countBeneath leaves path = 0%Z ∧ toleratesMissing t path = true).
Proof.
  unfold checkAllFired.
  assert (∀ path, problem_of t fired skipped leaves path = None ↔
    path ∈ fired ∨ (skipped !! path = None ∧ countBeneath leaves path = 0%Z
                    ∧ toleratesMissing t path = true)) as Hp.
  { intros path. unfold problem_of.
    assert (0 ≤ countBeneath leaves path)%Z by (unfold countBeneath; lia).
    case_decide; [naive_solver|]. destruct (skipped !! path); [naive_solver|].
    case_decide; [naive_solver lia|]. destruct (toleratesMissing t path); [|naive_solver].
    split; [|done]. intros _. right. split_and!; [done|lia|done]. }
  setoid_rewrite <-Hp.
  assert (omap (problem_of t fired skipped leaves) (Paths_ t) = [] ↔
          ∀ path, path ∈ Paths_ t → problem_of t fired skipped leaves path = None) as <-.
  { split.
    - intros He path Hin. destruct (problem_of t fired skipped leaves path) as [pr|] eqn:Hpr; [|done].
      assert (pr ∈ omap (problem_of t fired skipped leaves) (Paths_ t)) as Hx
        by (apply list_elem_of_omap; eauto).
      rewrite He in Hx. by apply elem_of_nil in Hx.
    - intros Hall. apply elem_of_nil_inv. intros x (path & Hin & Hx)%list_elem_of_omap.
      rewrite Hall in Hx by done. done. }
  by destruct (omap _ _).
Qed.

Lemma countBeneath_zero leaves path :
  countBeneath leaves path = 0%Z ↔ ∀ leaf, leaf ∈ leaves → HasPrefix leaf (path +:+ ".") = false.
Proof.
  unfold countBeneath. split.
  - intros Hz leaf Hin. destruct (HasPrefix leaf (path +:+ ".")) eqn:Hp; [|done].
    assert (leaf ∈ filter (λ leaf, HasPrefix leaf (path +:+ ".") = true) leaves) as Hx
      by (by apply list_elem_of_filter).
    destruct (filter _ leaves); [by apply elem_of_nil in Hx|]. simpl in Hz. lia.
  - intros Hall. rewrite filter_none; [done|]. intros x Hx. by rewrite Hall.
Qed.

Lemma countBeneath_perm leaves leaves' path :
  leaves ≡ₚ leaves' → countBeneath leaves path = countBeneath leaves' path.
Proof. intros Hp. unfold countBeneath. by rewrite Hp. Qed.

End transform.
