(* ===== verification/Plan.v ===== *)
(** * internal/restore/plan.go: from a snapshot and rules to edits

    Go iterates over maps in no fixed order: [BuildPlan] is a function of the
    order the leaves came in, and the theorems hold for every order. *)

From S2P Require Import Prelude GoStrings GoJson GoFloat Pathutil Api Cnpg Groups Denylist Pathcheck.
From S2P Require Import Snapshot Celenv Skip Transform.

#[local] Open Scope stdpp_scope.

Section plan.
Context `{CnpgLib} `{QuantityLib} `{GoPlatform} `{!CelEngine}.

(** ** Operations *)

Record Change := {
  ch_Path : string;
  ch_segments : list string;
  ch_value : any;
  ch_transformed : bool
}.

Record Exclusion := { ex_Path : string; ex_Reason : string }.

Record Plan := { Changes : list Change; Exclusions : list Exclusion }.

Definition toAnyMap (m : gmap string string) : object := AString <$> m.

Definition restorableTree (snap : Snapshot) : object :=
  let content := sn_Content snap in
  let restorable : object := ∅ in
  let restorable := if decide (Spec content ≠ ∅) then <["spec" := AMap (Spec content)]> restorable
                    else restorable in
  if decide (Labels content ≠ ∅ ∨ Annotations content ≠ ∅) then
    let metadata : object := ∅ in
    let metadata := if decide (Labels content ≠ ∅)
                    then <["labels" := AMap (toAnyMap (Labels content))]> metadata else metadata in
    let metadata := if decide (Annotations content ≠ ∅)
                    then <["annotations" := AMap (toAnyMap (Annotations content))]> metadata
                    else metadata in
    <["metadata" := AMap metadata]> restorable
  else restorable.

(** The loop of [validateRuleCoherence]. *)
Fixpoint check_coherence (skips : SkipSet) (paths : list string) : result unit :=
  match paths with
  | [] => Ok ()
  | path :: rest =>
      match Skips skips path with
      | Some reason =>
          Err (Errorf "%s is both transformed and skipped (%s); a skipped path is never restored, so the transform cannot run"
                 [AStr path; AStr reason])
      | None => check_coherence skips rest
      end
  end.

Definition validateRuleCoherence (skips : SkipSet) (transforms : TransformSet) : result unit :=
  check_coherence skips (Paths_ transforms).

Fixpoint validate_skip_paths (skips : list SkipRule) : result unit :=
  match skips with
  | [] => Ok ()
  | rule :: rest =>
      if decide (sk_Path rule = "") then validate_skip_paths rest
      else
        _ ← wrap "skip rule names an unusable path: %w" [] (ValidateRulePath (sk_Path rule));
        validate_skip_paths rest
  end.

Fixpoint validate_transform_paths (transforms : list TransformRule) : result unit :=
  match transforms with
  | [] => Ok ()
  | rule :: rest =>
      _ ← wrap "transform rule names an unusable path: %w" [] (ValidateRulePath (tr_Path rule));
      validate_transform_paths rest
  end.

Definition validateRulePaths (skips : list SkipRule) (transforms : list TransformRule) : result unit :=
  _ ← validate_skip_paths skips; validate_transform_paths transforms.

Definition CompileRules (skips : list SkipRule) (transforms : list TransformRule)
    : result (SkipSet * TransformSet) :=
  skipSet ← NewSkipSet skips;
  transformSet ← NewTransformSet transforms;
  _ ← validateRuleCoherence skipSet transformSet;
  _ ← validateRulePaths skips transforms;
  Ok (skipSet, transformSet).

Definition isDeniedMetadataLeaf (segments : list string) : bool :=
  match segments with
  | [s0; s1; s2] =>
      bool_decide (s0 = "metadata") && (bool_decide (s1 = "labels") || bool_decide (s1 = "annotations"))
      && IsDeniedMetadataKey s2
  | _ => false
  end.

(** What the loop of [BuildPlan] accumulates. *)
Record progress := {
  pg_changes : list Change;
  pg_exclusions : list Exclusion;
  pg_fired : gset string;
  pg_skipped : gmap string string;
  pg_leaves : list string
}.

Definition step (skips : SkipSet) (transforms : TransformSet) (st : progress) (leaf : Leaf)
    : result progress :=
  let path := Leaf_Path leaf in
  let leaves := pg_leaves st ++ [path] in
  if IsDeniedPath path || isDeniedMetadataLeaf (Segments leaf) then
    Ok {| pg_changes := pg_changes st;
          pg_exclusions := pg_exclusions st ++ [{| ex_Path := path; ex_Reason := "denied: never restored" |}];
          pg_fired := pg_fired st; pg_skipped := pg_skipped st; pg_leaves := leaves |}
  else match Skips skips path with
  | Some reason =>
      Ok {| pg_changes := pg_changes st;
            pg_exclusions := pg_exclusions st ++ [{| ex_Path := path; ex_Reason := reason |}];
            pg_fired := pg_fired st; pg_skipped := <[path := reason]> (pg_skipped st);
            pg_leaves := leaves |}
  | None =>
      '(value, applied) ← Apply_ transforms leaf;
      let fired := if applied : bool then {[path]} ∪ pg_fired st else pg_fired st in
      Ok {| pg_changes := pg_changes st ++
              [{| ch_Path := path; ch_segments := Segments leaf; ch_value := value;
                  ch_transformed := bool_decide (path ∈ fired) |}];
            pg_exclusions := pg_exclusions st;
            pg_fired := fired; pg_skipped := pg_skipped st; pg_leaves := leaves |}
  end.

Fixpoint build_loop (skips : SkipSet) (transforms : TransformSet) (st : progress) (leaves : list Leaf)
    : result progress :=
  match leaves with
  | [] => Ok st
  | leaf :: rest => st ← step skips transforms st leaf; build_loop skips transforms st rest
  end.

Definition start : progress :=
  {| pg_changes := []; pg_exclusions := []; pg_fired := ∅; pg_skipped := ∅; pg_leaves := [] |}.

Definition change_order (x y : Change) : Prop := String.le (ch_Path x) (ch_Path y).
#[export] Instance change_order_dec : RelDecision change_order.
Proof. intros x y. unfold change_order. apply _. Defined.
Definition exclusion_order (x y : Exclusion) : Prop := String.le (ex_Path x) (ex_Path y).
#[export] Instance exclusion_order_dec : RelDecision exclusion_order.
Proof. intros x y. unfold exclusion_order. apply _. Defined.

(** The body of [BuildPlan], given the leaves of [restorableTree snap] in the order
    the walk visits them. *)
Definition BuildPlan (leaves : list Leaf) (skips : SkipSet) (transforms : TransformSet) : result Plan :=
  st ← build_loop skips transforms start leaves;
  _ ← checkAllFired transforms (pg_fired st) (pg_skipped st) (pg_leaves st);
  Ok {| Changes := merge_sort change_order (pg_changes st);
        Exclusions := merge_sort exclusion_order (pg_exclusions st) |}.

(** [BuildPlan] as it is called; [walk] is [WalkLeaves] in one of its orders. *)
Definition BuildPlan_of (walk : object → list Leaf) (snap : option Snapshot) (skips : SkipSet)
    (transforms : TransformSet) : result Plan :=
  match snap with
  | None => Err (Errorf "cannot build a plan from a nil snapshot" [])
  | Some snap => BuildPlan (walk (restorableTree snap)) skips transforms
  end.

(** The cluster as it is when the loop of [Apply] stops. *)
Fixpoint apply_changes (changes : list Change) : prog object unit := λ cluster,
  match changes with
  | [] => (cluster, Ok ())
  | change :: rest =>
      match SetSegments cluster (ch_segments change) (ch_value change) with
      | None => (cluster, Err (Errorf "cannot restore %s: the target Cluster has a conflicting non-object value on that path"
                                 [AStr (ch_Path change)]))
      | Some cluster' => apply_changes rest cluster'
      end
  end.

Definition Plan_Apply (p : Plan) : prog object unit := apply_changes (Changes p).

Definition TransformedPaths (p : Plan) : list string :=
  ch_Path <$> filter (λ c, ch_transformed c = true) (Changes p).

(** ** What becomes of one leaf *)

Inductive fate :=
| Denied
| Skipped (reason : string)
| Kept (value : any) (applied : bool)
| Failed (e : error).

Definition fate_of (skips : SkipSet) (transforms : TransformSet) (leaf : Leaf) : fate :=
  if IsDeniedPath (Leaf_Path leaf) || isDeniedMetadataLeaf (Segments leaf) then Denied
  else match Skips skips (Leaf_Path leaf) with
  | Some reason => Skipped reason
  | None => match Apply_ transforms leaf with Ok (v, b) => Kept v b | Err e => Failed e end
  end.

Definition change_of (skips : SkipSet) (transforms : TransformSet) (leaf : Leaf) : option Change :=
  match fate_of skips transforms leaf with
  | Kept v b => Some {| ch_Path := Leaf_Path leaf; ch_segments := Segments leaf; ch_value := v;
                        ch_transformed := b |}
  | _ => None
  end.
Definition exclusion_of (skips : SkipSet) (transforms : TransformSet) (leaf : Leaf) : option Exclusion :=
  match fate_of skips transforms leaf with
  | Denied => Some {| ex_Path := Leaf_Path leaf; ex_Reason := "denied: never restored" |}
  | Skipped reason => Some {| ex_Path := Leaf_Path leaf; ex_Reason := reason |}
  | _ => None
  end.

(** Whether a transform applies depends on the path alone. *)
Lemma Apply_applied t leaf v b :
  Apply_ t leaf = Ok (v, b) → b = bool_decide (is_Some (byPath t !! Leaf_Path leaf)).
Proof.
  unfold Apply_, Program_. destruct (byPath t !! Leaf_Path leaf) as [c|]; simpl.
  - destruct (Evaluate _ _ _); simpl; [|done]. by intros [= _ <-].
  - by intros [= _ <-].
Qed.

(** The leaves whose transform applied, and those that were skipped, by
    path. *)
Definition fired_at (skips : SkipSet) (t : TransformSet) (leaves : list Leaf) (path : string) : Prop :=
  ∃ leaf v, leaf ∈ leaves ∧ Leaf_Path leaf = path ∧ fate_of skips t leaf = Kept v true.
Definition skipped_at (skips : SkipSet) (t : TransformSet) (leaves : list Leaf) (path : string) : Prop :=
  ∃ leaf reason, leaf ∈ leaves ∧ Leaf_Path leaf = path ∧ fate_of skips t leaf = Skipped reason.

Definition failed (skips : SkipSet) (t : TransformSet) (leaf : Leaf) : Prop :=
  ∃ e, fate_of skips t leaf = Failed e.

(** The state the loop is in after some leaves. *)
Record after (skips : SkipSet) (t : TransformSet) (leaves : list Leaf) (st : progress) : Prop := {
  after_changes : pg_changes st = omap (change_of skips t) leaves;
  after_exclusions : pg_exclusions st = omap (exclusion_of skips t) leaves;
  after_leaves : pg_leaves st = Leaf_Path <$> leaves;
  after_fired path : path ∈ pg_fired st ↔ fired_at skips t leaves path;
  after_skipped path : is_Some (pg_skipped st !! path) ↔ skipped_at skips t leaves path
}.

Lemma after_start skips t : after skips t [] start.
Proof.
  split; try done.
  - intros path. simpl. split; [set_solver|]. by intros (? & ? & ?%elem_of_nil & _).
  - intros path. simpl. rewrite lookup_empty. split; [by intros [? ?]|].
    by intros (? & ? & ?%elem_of_nil & _).
Qed.

Lemma fired_at_transform skips t leaves path :
  fired_at skips t leaves path → is_Some (byPath t !! path).
Proof.
  intros (leaf & v & _ & <- & Hf). unfold fate_of in Hf.
  destruct (_ || _); [done|]. destruct (Skips _ _); [done|].
  destruct (Apply_ t leaf) as [[v' b]|] eqn:Ha; [|done]. injection Hf as -> ->.
  apply Apply_applied in Ha. symmetry in Ha. by apply bool_decide_eq_true_1 in Ha.
Qed.

Lemma fired_at_snoc skips t leaves leaf path :
  fired_at skips t (leaves ++ [leaf]) path ↔
  fired_at skips t leaves path ∨ (Leaf_Path leaf = path ∧ ∃ v, fate_of skips t leaf = Kept v true).
Proof. unfold fired_at. setoid_rewrite elem_of_app. setoid_rewrite list_elem_of_singleton. naive_solver. Qed.

Lemma skipped_at_snoc skips t leaves leaf path :
  skipped_at skips t (leaves ++ [leaf]) path ↔
  skipped_at skips t leaves path ∨ (Leaf_Path leaf = path ∧ ∃ r, fate_of skips t leaf = Skipped r).
Proof. unfold skipped_at. setoid_rewrite elem_of_app. setoid_rewrite list_elem_of_singleton. naive_solver. Qed.

Lemma omap_snoc {A B} (f : A → option B) l x :
  omap f (l ++ [x]) = omap f l ++ match f x with Some y => [y] | None => [] end.
Proof. rewrite omap_app. simpl. by destruct (f x). Qed.

Definition option_to_list {A} (o : option A) : list A := match o with Some y => [y] | None => [] end.

Lemma after_snoc skips t leaves leaf st st' :
  after skips t leaves st →
  pg_changes st' = pg_changes st ++ option_to_list (change_of skips t leaf) →
  pg_exclusions st' = pg_exclusions st ++ option_to_list (exclusion_of skips t leaf) →
  pg_leaves st' = pg_leaves st ++ [Leaf_Path leaf] →
  (∀ path, path ∈ pg_fired st' ↔
     path ∈ pg_fired st ∨ (Leaf_Path leaf = path ∧ ∃ v, fate_of skips t leaf = Kept v true)) →
  (∀ path, is_Some (pg_skipped st' !! path) ↔
     is_Some (pg_skipped st !! path) ∨ (Leaf_Path leaf = path ∧ ∃ r, fate_of skips t leaf = Skipped r)) →
  after skips t (leaves ++ [leaf]) st'.
Proof.
  intros [Hch Hex Hl Hf Hsk] Hch' Hex' Hl' Hf' Hsk'. split.
  - by rewrite Hch', Hch, omap_snoc.
  - by rewrite Hex', Hex, omap_snoc.
  - by rewrite Hl', Hl, fmap_app.
  - intros path. by rewrite Hf', fired_at_snoc, Hf.
  - intros path. by rewrite Hsk', skipped_at_snoc, Hsk.
Qed.

(** One step carries the invariant to one more leaf, or fails with the leaf's
    transform. *)
Lemma step_spec skips t leaves st leaf :
  after skips t leaves st →
  match step skips t st leaf with
  | Ok st' => ¬ failed skips t leaf ∧ after skips t (leaves ++ [leaf]) st'
  | Err e => fate_of skips t leaf = Failed e
  end.
Proof.
  intros Hst. unfold step.
  pose proof (fired_at_transform skips t leaves) as Hft.
  assert (fate_of skips t leaf = fate_of skips t leaf) as Hfate by done.
  unfold fate_of in Hfate at 1. cbv zeta.
  destruct (IsDeniedPath (Leaf_Path leaf) || isDeniedMetadataLeaf (Segments leaf)).
  { symmetry in Hfate. split; [intros [e He]; congruence|].
    apply (after_snoc _ _ _ _ st); try done; unfold change_of, exclusion_of; rewrite Hfate; simpl;
      [by rewrite app_nil_r|done|naive_solver|naive_solver]. }
  destruct (Skips skips (Leaf_Path leaf)) as [reason|].
  { symmetry in Hfate. split; [intros [e He]; congruence|].
    apply (after_snoc _ _ _ _ st); try done; unfold change_of, exclusion_of; rewrite Hfate; simpl;
      [by rewrite app_nil_r|done|naive_solver|].
    intros path. destruct (decide (Leaf_Path leaf = path)) as [->|Hne].
    - rewrite lookup_insert_eq. naive_solver.
    - rewrite lookup_insert_ne by done. naive_solver. }
  destruct (Apply_ t leaf) as [[v b]|e] eqn:Ha; [|by symmetry in Hfate].
  symmetry in Hfate. rewrite ok_bind. split; [intros [e He]; congruence|].
  apply Apply_applied in Ha.
  assert (bool_decide (Leaf_Path leaf ∈ (if b then {[Leaf_Path leaf]} ∪ pg_fired st else pg_fired st)) = b)
    as Hb.
  { destruct b; [apply bool_decide_eq_true; set_solver|]. apply bool_decide_eq_false.
    rewrite (after_fired _ _ _ _ Hst). intros Hx%Hft. by rewrite bool_decide_eq_true_2 in Ha. }
  cbv zeta. rewrite Hb.
  apply (after_snoc _ _ _ _ st); try done; unfold change_of, exclusion_of; rewrite Hfate; simpl;
    [done|by rewrite app_nil_r| |naive_solver].
  intros path. destruct b; [|naive_solver]. rewrite elem_of_union, elem_of_singleton. naive_solver.
Qed.

Lemma build_loop_spec skips t done_ st leaves :
  after skips t done_ st →
  match build_loop skips t st leaves with
  | Ok st' => Forall (λ l, ¬ failed skips t l) leaves ∧ after skips t (done_ ++ leaves) st'
  | Err e => ∃ leaf, leaf ∈ leaves ∧ fate_of skips t leaf = Failed e
  end.
Proof.
  revert done_ st. induction leaves as [|leaf leaves IH]; intros done_ st Hst; cbn [build_loop].
  { split; [constructor|]. by rewrite app_nil_r. }
  pose proof (step_spec skips t done_ st leaf Hst) as Hs.
  destruct (step skips t st leaf) as [st'|e].
  - destruct Hs as [Hnf Hst']. rewrite ok_bind. specialize (IH _ _ Hst').
    destruct (build_loop skips t st' leaves) as [st''|e].
    + destruct IH as [HF Ha]. split; [by constructor|]. by rewrite <-app_assoc in Ha.
    + destruct IH as (l & Hl & He). exists l. split; [by right|done].
  - exists leaf. split; [left|done].
Qed.

(** ** What a plan is *)

(** A transform either rewrote the value at its path, or nothing lies at or
    beneath its path and it may be missing. *)
Definition accounted (skips : SkipSet) (t : TransformSet) (leaves : list Leaf) (path : string) : Prop :=
  fired_at skips t leaves path
  ∨ (¬ skipped_at skips t leaves path
     ∧ (∀ leaf, leaf ∈ leaves → HasPrefix (Leaf_Path leaf) (path +:+ ".") = false)
     ∧ toleratesMissing t path = true).

Lemma BuildPlan_Ok leaves skips t plan :
  BuildPlan leaves skips t = Ok plan ↔
  Forall (λ l, ¬ failed skips t l) leaves
  ∧ (∀ path, path ∈ Paths_ t → accounted skips t leaves path)
  ∧ plan = {| Changes := merge_sort change_order (omap (change_of skips t) leaves);
              Exclusions := merge_sort exclusion_order (omap (exclusion_of skips t) leaves) |}.
Proof.
  unfold BuildPlan. pose proof (build_loop_spec skips t [] start leaves (after_start skips t)) as Hl.
  destruct (build_loop skips t start leaves) as [st|e].
  - destruct Hl as [HF [Hch Hex Hlv Hf Hsk]]. rewrite ok_bind. simpl in *.
    assert (∀ path, (path ∈ pg_fired st ∨ (pg_skipped st !! path = None
        ∧ countBeneath (pg_leaves st) path = 0%Z ∧ toleratesMissing t path = true))
      ↔ accounted skips t leaves path) as Hacc.
    { intros path. unfold accounted. rewrite Hf, countBeneath_zero, Hlv, (eq_None_not_Some (pg_skipped st !! path)), Hsk.
      setoid_rewrite list_elem_of_fmap. naive_solver. }
    destruct (checkAllFired t (pg_fired st) (pg_skipped st) (pg_leaves st)) as [[]|e] eqn:Hc.
    + rewrite checkAllFired_Ok in Hc. rewrite ok_bind, Hch, Hex. split.
      * intros [= <-]. split_and!; [done| |done]. intros path Hp. apply Hacc. by apply Hc.
      * by intros (_ & _ & ->).
    + split; [done|]. intros (_ & Hp & _). exfalso.
      assert (checkAllFired t (pg_fired st) (pg_skipped st) (pg_leaves st) = Ok ()) as Hok.
      { apply checkAllFired_Ok. intros path Hin. apply Hacc. by apply Hp. }
      congruence.
  - destruct Hl as (leaf & Hin & He). split; [done|]. intros (HF & _).
    rewrite Forall_forall in HF. exfalso. apply (HF leaf Hin). by exists e.
Qed.

Lemma elem_of_changes leaves skips t plan c :
  BuildPlan leaves skips t = Ok plan →
  c ∈ Changes plan ↔ ∃ leaf, leaf ∈ leaves ∧ change_of skips t leaf = Some c.
Proof.
  intros (_ & _ & ->)%BuildPlan_Ok. simpl. rewrite merge_sort_Permutation, list_elem_of_omap. done.
Qed.

Lemma elem_of_exclusions leaves skips t plan e :
  BuildPlan leaves skips t = Ok plan →
  e ∈ Exclusions plan ↔ ∃ leaf, leaf ∈ leaves ∧ exclusion_of skips t leaf = Some e.
Proof.
  intros (_ & _ & ->)%BuildPlan_Ok. simpl. rewrite merge_sort_Permutation, list_elem_of_omap. done.
Qed.

Lemma change_of_Some skips t leaf c :
  change_of skips t leaf = Some c →
  IsDeniedPath (ch_Path c) = false ∧ isDeniedMetadataLeaf (ch_segments c) = false
  ∧ Skips skips (ch_Path c) = None
  ∧ ch_Path c = Leaf_Path leaf ∧ ch_segments c = Segments leaf
  ∧ Apply_ t leaf = Ok (ch_value c, ch_transformed c).
Proof.
  unfold change_of, fate_of. destruct (IsDeniedPath _) eqn:Hd; [done|].
  destruct (isDeniedMetadataLeaf _) eqn:Hm; [done|]. simpl.
  destruct (Skips _ _) eqn:Hs; [done|]. destruct (Apply_ t leaf) as [[v b]|]; [|done].
  by intros [= <-].
Qed.

(** ** Writing a plan *)

Definition writes (changes : list Change) : list (list string * any) :=
  (λ c, (ch_segments c, ch_value c)) <$> changes.

Lemma apply_changes_set_all changes cluster :
  match apply_changes changes cluster with
  | (cluster', Ok _) => set_all cluster (writes changes) = Some cluster'
  | (_, Err _) => set_all cluster (writes changes) = None
  end.
Proof.
  revert cluster. induction changes as [|c changes IH]; intros cluster; [done|].
  cbn [apply_changes writes fmap list_fmap set_all].
  destruct (SetSegments cluster (ch_segments c) (ch_value c)) as [m|]; [|done]. apply IH.
Qed.

Lemma apply_changes_Ok changes cluster cluster' :
  apply_changes changes cluster = (cluster', Ok ()) ↔
  set_all cluster (writes changes) = Some cluster'.
Proof.
  pose proof (apply_changes_set_all changes cluster) as Ha.
  destruct (apply_changes changes cluster) as [m [[]|e]]; split; intros Hx; congruence.
Qed.

Lemma writes_fst changes : (writes changes).*1 = ch_segments <$> changes.
Proof. unfold writes. by rewrite <-list_fmap_compose. Qed.

Lemma change_segments_sublist skips t leaves :
  (ch_segments <$> omap (change_of skips t) leaves) `sublist_of` (Segments <$> leaves).
Proof.
  induction leaves as [|leaf leaves IH]; simpl; [constructor|].
  destruct (change_of skips t leaf) as [c|] eqn:Hc; simpl.
  - apply change_of_Some in Hc as (_ & _ & _ & _ & -> & _). by apply sublist_skip.
  - by apply sublist_cons.
Qed.

(** The writes of a plan never lie on one another. *)
Lemma plan_writes_disjoint tree leaves skips t :
  leaves ≡ₚ WalkLeaves tree → disjoint_paths (writes (omap (change_of skips t) leaves)).
Proof.
  intros Hp. pose proof (leaf_writes_disjoint tree leaves Hp) as [Hnd Hu].
  assert ((leaf_writes leaves).*1 = Segments <$> leaves) as Hl
    by (unfold leaf_writes; by rewrite <-list_fmap_compose).
  rewrite Hl in Hnd, Hu. pose proof (change_segments_sublist skips t leaves) as Hsub.
  unfold disjoint_paths. rewrite writes_fst. split.
  - by eapply sublist_NoDup.
  - intros p q Hpin Hqin. apply Hu; by eapply elem_of_sublist.
Qed.

Lemma sorted_writes_disjoint tree leaves skips t plan :
  leaves ≡ₚ WalkLeaves tree → BuildPlan leaves skips t = Ok plan →
  disjoint_paths (writes (Changes plan)).
Proof.
  intros Hp (_ & _ & ->)%BuildPlan_Ok. simpl.
  eapply disjoint_paths_perm; [|by eapply plan_writes_disjoint].
  unfold writes. by rewrite merge_sort_Permutation.
Qed.

(** ** Theorems *)

(** C18: Whatever the snapshot holds, a plan changes nothing that is denied, no
    denied label or annotation, and nothing a rule skips. *)
Theorem BuildPlan_safe leaves skips t plan c :
  BuildPlan leaves skips t = Ok plan → c ∈ Changes plan →
  IsDeniedPath (ch_Path c) = false ∧ isDeniedMetadataLeaf (ch_segments c) = false
  ∧ Skips skips (ch_Path c) = None ∧ ch_Path c = Join (ch_segments c) ".".
Proof.
  intros Hb Hc. rewrite (elem_of_changes _ _ _ _ _ Hb) in Hc. destruct Hc as (leaf & _ & Hc).
  apply change_of_Some in Hc as (Hd & Hm & Hs & Hp & Hseg & _).
  split_and!; [done..|]. by rewrite Hp, Hseg.
Qed.


(** What a transform that did not rewrite a value found. *)
Lemma transforms_account leaves skips t plan path :
  BuildPlan leaves skips t = Ok plan → path ∈ Paths_ t → transforms_wf t →
  (∃ c, c ∈ Changes plan ∧ ch_Path c = path ∧ ch_transformed c = true)
  ∨ (toleratesMissing t path = true
     ∧ ∀ leaf, leaf ∈ leaves → HasPrefix (Leaf_Path leaf) (path +:+ ".") = false
         ∧ (Leaf_Path leaf = path → IsDeniedPath path || isDeniedMetadataLeaf (Segments leaf) = true)).
Proof.
  intros Hb Hin Hwf. pose proof Hb as Hb'. apply BuildPlan_Ok in Hb' as (HF & Hacc & _).
  destruct (Hacc path Hin) as [(leaf & v & Hl & Hp & Hf)|(Hns & Hbe & Ht)].
  - left. assert (change_of skips t leaf
      = Some {| ch_Path := Leaf_Path leaf; ch_segments := Segments leaf; ch_value := v;
                ch_transformed := true |}) as Hc by (unfold change_of; by rewrite Hf).
    eexists. split; [apply (elem_of_changes _ _ _ _ _ Hb); by exists leaf|done].
  - destruct (decide (Exists (λ leaf, Leaf_Path leaf = path ∧ change_of skips t leaf ≠ None) leaves))
      as [He|He].
    + left. apply Exists_exists in He as (leaf & Hl & Hp & Hc).
      destruct (change_of skips t leaf) as [c|] eqn:Hch; [|done].
      exists c. apply change_of_Some in Hch as Hc'. destruct Hc' as (_ & _ & _ & Hcp & _ & Ha).
      split_and!; [apply (elem_of_changes _ _ _ _ _ Hb); by exists leaf|congruence|].
      apply Apply_applied in Ha. rewrite Ha. apply bool_decide_eq_true. rewrite Hp. by apply Hwf.
    + right. split; [done|]. intros leaf Hl. split; [by apply Hbe|]. intros Hp.
      assert (change_of skips t leaf = None) as Hc.
      { destruct (change_of skips t leaf) eqn:Hc; [|done]. exfalso. apply He, Exists_exists.
        exists leaf. split; [done|]. split; [done|]. by rewrite Hc. }
      unfold change_of in Hc. destruct (fate_of skips t leaf) eqn:Hf; [|..].
      * unfold fate_of in Hf. rewrite Hp in Hf.
        destruct (IsDeniedPath path || isDeniedMetadataLeaf (Segments leaf)); [done|].
        destruct (Skips skips path); [done|]. by destruct (Apply_ t leaf) as [[]|].
      * exfalso. apply Hns. by exists leaf, reason.
      * done.
      * exfalso. rewrite Forall_forall in HF. apply (HF leaf Hl). by eexists.
Qed.


(** Applying a plan sets each change and touches nothing else: every path of
    the cluster that no change lies on, above or beneath reads as before. *)
Theorem Plan_Apply_additive tree leaves skips t plan cluster cluster' :
  leaves ≡ₚ WalkLeaves tree → BuildPlan leaves skips t = Ok plan →
  Plan_Apply plan cluster = (cluster', Ok ()) →
  (∀ c, c ∈ Changes plan → GetSegments cluster' (ch_segments c) = Some (ch_value c))
  ∧ (∀ q, (∀ c, c ∈ Changes plan → unrelated (ch_segments c) q) →
       GetSegments cluster' q = GetSegments cluster q).
Proof.
  intros Hp Hb Ha%apply_changes_Ok. pose proof (sorted_writes_disjoint _ _ _ _ _ Hp Hb) as Hd. split.
  - intros c Hc. eapply set_all_get; [done|done|]. apply list_elem_of_fmap. by exists c.
  - intros q Hq. eapply set_all_frame; [done|]. intros p. rewrite writes_fst.
    intros (c & -> & Hc)%list_elem_of_fmap. by apply Hq.
Qed.

(** C20: The restored cluster does not depend on the order in which Go walked the
    snapshot's maps. *)
Theorem restore_deterministic tree leaves1 leaves2 skips t plan1 cluster :
  leaves1 ≡ₚ WalkLeaves tree → leaves2 ≡ₚ WalkLeaves tree →
  BuildPlan leaves1 skips t = Ok plan1 →
  ∃ plan2, BuildPlan leaves2 skips t = Ok plan2
    ∧ Changes plan1 ≡ₚ Changes plan2 ∧ Exclusions plan1 ≡ₚ Exclusions plan2
    ∧ ∀ cluster', Plan_Apply plan1 cluster = (cluster', Ok ()) ↔ Plan_Apply plan2 cluster = (cluster', Ok ()).
Proof.
  intros Hp1 Hp2 Hb. assert (leaves1 ≡ₚ leaves2) as Hp by (by rewrite Hp1, Hp2).
  pose proof (sorted_writes_disjoint _ _ _ _ _ Hp1 Hb) as Hd.
  apply BuildPlan_Ok in Hb as (HF & Hacc & ->).
  eexists. split.
  { apply BuildPlan_Ok. split_and!; [by rewrite <-Hp| |reflexivity].
    intros path Hin. specialize (Hacc path Hin). unfold accounted, fired_at, skipped_at in *.
    setoid_rewrite <-Hp. done. }
  assert (merge_sort change_order (omap (change_of skips t) leaves1)
          ≡ₚ merge_sort change_order (omap (change_of skips t) leaves2)) as Hc.
  { rewrite !merge_sort_Permutation. by rewrite Hp. }
  simpl. split_and!; [done|rewrite !merge_sort_Permutation; by rewrite Hp|].
  intros cluster'. unfold Plan_Apply. simpl. rewrite !apply_changes_Ok.
  rewrite (set_all_perm cluster _ (writes (merge_sort change_order (omap (change_of skips t) leaves2))));
    [done|unfold writes; by rewrite Hc|done].
Qed.

End plan.
