(* ===== verification/CaptureRestore.v ===== *)
(** * Capture and restore, end to end

    A snapshot taken by [Extract] and restored with no rules comes back whole:
    nothing a capture records is something a restore refuses. *)

From S2P Require Import Prelude GoStrings GoJson GoFloat Pathutil Cnpg Groups Denylist.
From S2P Require Import Snapshot Celenv Skip Transform Plan.

#[local] Open Scope stdpp_scope.

(** ** Paths as texts *)

Lemma Leaf_Path_cons s p v :
  p ≠ [] → Leaf_Path (MkLeaf (s :: p) v) = s +:+ "." +:+ Leaf_Path (MkLeaf p v).
Proof. intros Hp. unfold Leaf_Path. simpl Segments. by rewrite Join_cons. Qed.

Lemma Split_Leaf_Path s p v :
  p ≠ [] → s ≠ "" → no_byte "." s = true →
  Split (Leaf_Path (MkLeaf (s :: p) v)) = s :: SplitByte "." (Leaf_Path (MkLeaf p v)).
Proof.
  intros Hp Hs Hn. rewrite Leaf_Path_cons by done. rewrite Split_nonempty by (by destruct s).
  change (s +:+ "." +:+ Leaf_Path (MkLeaf p v)) with (s +:+ String "." (Leaf_Path (MkLeaf p v))).
  by rewrite SplitByte_app.
Qed.

Lemma Leaf_Path_nonempty s p v : s ≠ "" → Leaf_Path (MkLeaf (s :: p) v) ≠ "".
Proof.
  intros Hs. destruct p as [|t p]; [done|]. rewrite Leaf_Path_cons by done. by destruct s.
Qed.

(** The head of a captured field's path, as segments. *)
Lemma Split_field_path k r v :
  no_byte "." k = true → k ≠ "" → ∃ rest, Split (Leaf_Path (MkLeaf ("spec" :: k :: r) v)) = "spec" :: k :: rest.
Proof.
  intros Hk Hne. rewrite Split_Leaf_Path by done. destruct r as [|t r].
  - exists []. f_equal. by apply SplitByte_no_byte.
  - rewrite Leaf_Path_cons by done.
    change (k +:+ "." +:+ Leaf_Path (MkLeaf (t :: r) v)) with (k +:+ String "." (Leaf_Path (MkLeaf (t :: r) v))).
    rewrite SplitByte_app by done. by eexists.
Qed.

(** A field that is not denied has nothing denied beneath it. *)
Lemma captured_leaf_not_denied k r v :
  no_byte "." k = true → k ≠ "" → IsDeniedPath ("spec." +:+ k) = false →
  IsDeniedPath (Leaf_Path (MkLeaf ("spec" :: k :: r) v)) = false.
Proof.
  intros Hk Hne Hd. apply not_true_iff_false. rewrite IsDeniedPath_segments by (by apply Leaf_Path_nonempty).
  intros (d & Hin & Hpre). destruct (Split_field_path k r v Hk Hne) as [rest Hs]. rewrite Hs in Hpre.
  pose proof denied_shapes as HF. rewrite Forall_forall in HF.
  destruct (HF d Hin) as [(y & Hy & Hdy)|Hh].
  - rewrite Hy in Hpre. apply prefix_cons_inv_2, prefix_cons_inv_1 in Hpre. congruence.
  - destruct (Split d) as [|s p] eqn:Hsd; [|].
    + assert (Forall (λ d, Split d ≠ []) DeniedPaths) as Hall by (repeat constructor; done).
      rewrite Forall_forall in Hall. by apply (Hall d).
    + apply prefix_cons_inv_1 in Hpre. subst s. by apply Hh.
Qed.

(** No denied path reaches into the labels or the annotations. *)
Lemma metadata_leaf_not_denied s key v :
  s = "labels" ∨ s = "annotations" →
  IsDeniedPath (Leaf_Path (MkLeaf ["metadata"; s; key] v)) = false.
Proof.
  intros Hs. apply not_true_iff_false. rewrite IsDeniedPath_segments by (by apply Leaf_Path_nonempty).
  intros (d & Hin & Hpre). rewrite Split_Leaf_Path in Hpre by done.
  assert (SplitByte "." (Leaf_Path (MkLeaf [s; key] v)) = s :: SplitByte "." key) as Hsp.
  { rewrite Leaf_Path_cons by done.
    change (s +:+ "." +:+ Leaf_Path (MkLeaf [key] v)) with (s +:+ String "." key).
    apply SplitByte_app. by destruct Hs as [-> | ->]. }
  rewrite Hsp in Hpre.
  assert (Forall (λ d, match Split d with
                       | "metadata" :: y :: _ => y ≠ "labels" ∧ y ≠ "annotations"
                       | "metadata" :: [] | [] => False
                       | _ => True end) DeniedPaths) as Hall by (repeat constructor; done).
  rewrite Forall_forall in Hall. specialize (Hall d Hin).
  destruct (Split d) as [|x [|y p]]; [done| |].
  - apply prefix_cons_inv_1 in Hpre. by subst.
  - pose proof (prefix_cons_inv_1 _ _ _ _ Hpre) as ->.
    apply prefix_cons_inv_2, prefix_cons_inv_1 in Hpre. subst y. destruct Hall. naive_solver.
Qed.

(** ** What a capture holds is among the selected fields *)

Section captured.
Context `{CnpgLib}.

Lemma sanitize_parameters_keys m k : is_Some (sanitize_parameters m !! k) → is_Some (m !! k).
Proof.
  unfold sanitize_parameters. destruct (GetSegments m parameters_segments) as [x|] eqn:Hp; [|done].
  destruct x as [| | | | |ps]; try done.
  destruct (decide (k = "postgresql")) as [->|Hk].
  - intros _. unfold parameters_segments in Hp. rewrite GetSegments_cons in Hp.
    by destruct (m !! "postgresql").
  - assert (unrelated parameters_segments [k]) as Hu
      by (apply unrelated_cons; left; congruence).
    pose proof (set_or_delete_at_frame m parameters_segments (AMap <$> FilterGUCs ps) [k] Hu) as Hf.
    rewrite !GetSegments_cons in Hf. intros [y Hy]. rewrite Hy in Hf. simpl in Hf.
    destruct (m !! k); [by eexists|done].
Qed.

Lemma sanitize_libraries_keys m k : is_Some (sanitize_libraries m !! k) → is_Some (m !! k).
Proof.
  unfold sanitize_libraries. destruct (GetSegments m libraries_segments) as [x|] eqn:Hp; [|done].
  destruct x as [| | | |l|]; try done.
  destruct (decide (k = "postgresql")) as [->|Hk].
  - intros _. unfold libraries_segments in Hp. rewrite GetSegments_cons in Hp.
    by destruct (m !! "postgresql").
  - assert (unrelated libraries_segments [k]) as Hu
      by (apply unrelated_cons; left; congruence).
    pose proof (set_or_delete_at_frame m libraries_segments (AList <$> FilterSharedPreloadLibraries l)
                  [k] Hu) as Hf.
    rewrite !GetSegments_cons in Hf. intros [y Hy]. rewrite Hy in Hf. simpl in Hf.
    destruct (m !! k); [by eexists|done].
Qed.

Lemma group_field_shapes :
  Forall (λ g, Forall (λ p, match spec_field p with
                            | Some k => no_byte "." k && negb (bool_decide (k = ""))
                            | None => true end = true) (Paths g)) Groups.
Proof. unfold Groups. repeat constructor. Qed.

Lemma selected_field_shape names k :
  k ∈ selected_fields names → no_byte "." k = true ∧ k ≠ "".
Proof.
  unfold selected_fields, group_paths. intros (p & Hp & Hk)%list_elem_of_omap.
  apply list_elem_of_bind in Hp as (name & Hp & _).
  destruct (LookupGroup name) as [g|] eqn:Hg; [|by apply elem_of_nil in Hp].
  apply LookupGroup_Some in Hg as [Hg _]. pose proof group_field_shapes as HF.
  rewrite Forall_forall in HF. specialize (HF _ Hg). rewrite Forall_forall in HF.
  specialize (HF _ Hp). simpl in HF. rewrite Hk in HF.
  apply andb_true_iff in HF as [? Hne]. by apply negb_true_iff, bool_decide_eq_false in Hne.
Qed.

(** Every top-level field of a capture is one that restoring allows. *)
Lemma content_spec_field cluster source names k :
  known_groups names → is_Some (Spec (content_of cluster source names) !! k) →
  no_byte "." k = true ∧ k ≠ "" ∧ IsDeniedPath ("spec." +:+ k) = false.
Proof.
  intros Hg [x Hx]. unfold content_of in Hx. simpl in Hx.
  assert (is_Some (selected_spec source names !! k)) as [y Hy].
  { apply sanitize_parameters_keys, sanitize_libraries_keys. by eexists. }
  unfold selected_spec in Hy. apply map_lookup_filter_Some in Hy as [_ Hk]. simpl in Hk.
  pose proof (selected_field_not_denied names k Hg Hk) as Hd.
  by destruct (selected_field_shape _ _ Hk).
Qed.

End captured.

(** ** The restorable tree *)

Section restore.
Context `{CnpgLib} `{QuantityLib} `{GoPlatform} `{!CelEngine}.

Definition no_transforms : TransformSet := {| byPath := ∅; order := [] |}.

(** No rules compile to no rules. *)
Lemma CompileRules_none : CompileRules [] [] = Ok ([], no_transforms).
Proof. reflexivity. Qed.

(** A leaf beneath a map of strings is one of its entries. *)
Lemma string_map_leaf (m : gmap string string) q v :
  m ≠ ∅ → get_any (AMap (toAnyMap m)) q = Some v → terminal v = true →
  ∃ key x, q = [key] ∧ m !! key = Some x.
Proof.
  intros Hne. destruct q as [|key q]; simpl.
  - intros [= <-] Ht. simpl in Ht. apply bool_decide_eq_true, fmap_empty_inv in Ht. done.
  - unfold toAnyMap. rewrite lookup_fmap. destruct (m !! key) as [x|] eqn:Hx; [|done]. simpl.
    destruct q; [|done]. intros _ _. by exists key, x.
Qed.

Lemma restorableTree_lookup snap s x :
  restorableTree snap !! s = Some x →
  (s = "spec" ∧ x = AMap (Spec (sn_Content snap)) ∧ Spec (sn_Content snap) ≠ ∅)
  ∨ (s = "metadata" ∧ ∃ meta : object, x = AMap meta ∧ meta ≠ ∅ ∧
      ∀ t y, meta !! t = Some y →
        (t = "labels" ∧ y = AMap (toAnyMap (Labels (sn_Content snap))) ∧ Labels (sn_Content snap) ≠ ∅)
        ∨ (t = "annotations" ∧ y = AMap (toAnyMap (Annotations (sn_Content snap)))
           ∧ Annotations (sn_Content snap) ≠ ∅)).
Proof.
  unfold restorableTree. cbv zeta.
  destruct (sn_Content snap) as [spec labels annotations]. cbn [Spec Labels Annotations].
  set (m0 := if decide (spec ≠ ∅) then <["spec" := AMap spec]> ∅ else ∅ : object).
  assert (∀ x, m0 !! s = Some x → s = "spec" ∧ x = AMap spec ∧ spec ≠ ∅) as Hm0.
  { intros y. unfold m0. case_decide; [|done]. rewrite lookup_insert_Some. naive_solver. }
  case_decide as Hla; [|intros Hx; left; by apply Hm0].
  rewrite lookup_insert_Some. intros [[<- <-]|[_ Hx]]; [|left; by apply Hm0].
  right. split; [done|]. eexists. split; [reflexivity|]. split.
  - destruct Hla as [Hl|Ha].
    + rewrite (decide_True _ _ Hl). case_decide; apply insert_non_empty.
    + rewrite (decide_True _ _ Ha). apply insert_non_empty.
  - intros t y. repeat case_decide; rewrite ?lookup_insert_Some; naive_solver.
Qed.

(** The leaves of a snapshot: beneath one field of the spec, or one label or
    annotation. *)
Lemma restorable_leaf snap p v :
  MkLeaf p v ∈ WalkLeaves (restorableTree snap) →
  (∃ k r, p = "spec" :: k :: r ∧ is_Some (Spec (sn_Content snap) !! k))
  ∨ (∃ key x, p = ["metadata"; "labels"; key] ∧ Labels (sn_Content snap) !! key = Some x)
  ∨ (∃ key x, p = ["metadata"; "annotations"; key] ∧ Annotations (sn_Content snap) !! key = Some x).
Proof.
  rewrite elem_of_WalkLeaves. destruct p as [|s p]; [by intros [? _]|]. rewrite GetSegments_cons.
  destruct (restorableTree snap !! s) as [x|] eqn:Hs; [|by intros [? _]]. rewrite some_bind.
  apply restorableTree_lookup in Hs as [(-> & -> & Hne)|(-> & meta & -> & Hne & Hmeta)].
  - intros [Hg Ht]. left. destruct p as [|k r]; simpl in Hg.
    + injection Hg as <-. by apply bool_decide_eq_true in Ht.
    + exists k, r. split; [done|]. by destruct (Spec _ !! k).
  - intros [Hg Ht]. right. destruct p as [|t q]; simpl in Hg.
    { injection Hg as <-. by apply bool_decide_eq_true in Ht. }
    destruct (meta !! t) as [y|] eqn:Hy; [|done]. simpl in Hg.
    apply Hmeta in Hy as [(-> & -> & Hl)|(-> & -> & Hl)];
      destruct (string_map_leaf _ _ _ Hl Hg Ht) as (key & z & -> & Hz); [left|right]; eauto.
Qed.

(** Every leaf of a capture is kept, as it is. *)
Lemma captured_leaf_kept clock cluster o snap leaf :
  Extract clock (Some cluster) o = Ok snap → leaf ∈ WalkLeaves (restorableTree snap) →
  change_of [] no_transforms leaf
  = Some {| ch_Path := Leaf_Path leaf; ch_segments := Segments leaf; ch_value := Value leaf;
            ch_transformed := false |}.
Proof.
  intros (source & _ & Hg & Hc & _)%Extract_Ok Hl. destruct leaf as [p v].
  assert (IsDeniedPath (Leaf_Path (MkLeaf p v)) || isDeniedMetadataLeaf p = false) as Hd.
  2: { unfold change_of, fate_of. cbn [Segments]. by rewrite Hd. }
  apply restorable_leaf in Hl. rewrite Hc in Hl. apply orb_false_iff.
  destruct Hl as [(k & r & -> & Hk)|[(key & x & -> & Hk)|(key & x & -> & Hk)]].
  - destruct (content_spec_field _ _ _ _ Hg Hk) as (Hn & Hne & Hf).
    split; [by apply captured_leaf_not_denied|]. by destruct r as [|? [|]].
  - split; [apply metadata_leaf_not_denied; auto|]. simpl in *.
    destruct (bool_decide _); [|by rewrite lookup_empty in Hk].
    rewrite FilterMetadata_lookup in Hk. by destruct (IsDeniedMetadataKey key).
  - split; [apply metadata_leaf_not_denied; auto|]. simpl in *.
    destruct (bool_decide _); [|by rewrite lookup_empty in Hk].
    rewrite FilterMetadata_lookup in Hk. by destruct (IsDeniedMetadataKey key).
Qed.


End restore.
