(* ===== verification/Config.v ===== *)
(** * internal/cnpgi: the plugin's configuration and identity

    operator/config/config.go, metadata/constants.go and identity/impl.go. *)

From S2P Require Import Prelude GoStrings Cnpg Kube Denylist.

#[local] Open Scope stdpp_scope.

(** ** metadata/constants.go *)

Definition ParameterSaveToStore : string := "saveToStore".
Definition ParameterSaveToServer : string := "saveToServer".
Definition ParameterRestoreFromStore : string := "restoreFromStore".
Definition ParameterRestoreFromServer : string := "restoreFromServer".
Definition ParameterRestorePolicy : string := "restorePolicy".
Definition MutatingWebhookName : string := "chronicle-restore.sharifmshaker.github.io".
Definition AnnotationRestoredFrom : string := "chronicle.sharifmshaker.github.io/restored-from".

Record PluginMetadata := {
  pm_Name : string; pm_Version : string; pm_DisplayName : string; pm_Description : string;
  pm_ProjectUrl : string; pm_RepositoryUrl : string; pm_License : string; pm_LicenseUrl : string;
  pm_Maturity : string
}.

(** [Version] is set at link time. *)
Definition Data (Version : string) : PluginMetadata := {|
  pm_Name := PluginName;
  pm_Version := Version;
  pm_DisplayName := "Chronicle for CloudNativePG";
  pm_Description := "Snapshots CloudNativePG Cluster configuration to an object store and restores it on cluster creation.";
  pm_ProjectUrl := "https://github.com/sharifmshaker/cnpg-i-chronicle";
  pm_RepositoryUrl := "https://github.com/sharifmshaker/cnpg-i-chronicle";
  pm_License := "Apache-2.0";
  pm_LicenseUrl := "https://github.com/sharifmshaker/cnpg-i-chronicle/blob/main/LICENSE";
  pm_Maturity := "alpha"
|}.

(** ** identity/impl.go *)

Inductive ServiceType := TYPE_RECONCILER_HOOKS | TYPE_OPERATOR_SERVICE.
Definition GetPluginMetadata (Version : string) : result PluginMetadata := Ok (Data Version).
Definition GetPluginCapabilities : result (list ServiceType) :=
  Ok [TYPE_RECONCILER_HOOKS; TYPE_OPERATOR_SERVICE].
Definition Probe : result bool := Ok true.

(** ** operator/config/config.go *)

Record PluginConfiguration := {
  pc_Cluster : option Cluster;
  SaveToStore : string;
  SaveToServer : string;
  RestoreFromStore : string;
  RestoreFromServer : string;
  pc_RestorePolicy : string;
  Enabled : bool;
  Present : bool
}.

Definition Validate (c : PluginConfiguration) : result unit :=
  if negb (Present c) || negb (Enabled c) then Ok ()
  else if decide (RestoreFromStore c ≠ "" ∧ RestoreFromServer c = "") then
    Err (Errorf "%s is set to %q but %s is missing: a store says where to look, not what to look for. Set both, or neither"
           [AStr ParameterRestoreFromStore; AStr (RestoreFromStore c); AStr ParameterRestoreFromServer])
  else if decide (RestoreFromServer c ≠ "" ∧ RestoreFromStore c = "") then
    Err (Errorf "%s is set to %q but %s is missing: a server name means nothing without the store holding it. Set both, or neither"
           [AStr ParameterRestoreFromServer; AStr (RestoreFromServer c); AStr ParameterRestoreFromStore])
  else if decide (pc_RestorePolicy c ≠ "" ∧ RestoreFromStore c = "") then
    Err (Errorf "%s is set to %q but there is nothing to restore: a policy describes how to restore, not what. Set %s and %s"
           [AStr ParameterRestorePolicy; AStr (pc_RestorePolicy c);
            AStr ParameterRestoreFromStore; AStr ParameterRestoreFromServer])
  else Ok ().

(** [parameters[key]]: an absent key reads as "". *)
Definition parameter (parameters : gmap string string) (key : string) : string :=
  default "" (parameters !! key).

Definition NewFromParameters (parameters : gmap string string) (clusterName : string)
    : PluginConfiguration :=
  let server := parameter parameters ParameterSaveToServer in
  {| pc_Cluster := None;
     SaveToServer := if decide (server ≠ "") then server else clusterName;
     SaveToStore := parameter parameters ParameterSaveToStore;
     RestoreFromStore := parameter parameters ParameterRestoreFromStore;
     RestoreFromServer := parameter parameters ParameterRestoreFromServer;
     pc_RestorePolicy := parameter parameters ParameterRestorePolicy;
     Enabled := false;
     Present := false |}.

Definition with_presence (c : PluginConfiguration) (cluster : option Cluster) (enabled : bool)
    : PluginConfiguration :=
  {| pc_Cluster := cluster; SaveToStore := SaveToStore c; SaveToServer := SaveToServer c;
     RestoreFromStore := RestoreFromStore c; RestoreFromServer := RestoreFromServer c;
     pc_RestorePolicy := pc_RestorePolicy c; Enabled := enabled; Present := true |}.

(** The first declaration of the plugin. *)
Fixpoint find_declaration (plugins : list PluginDeclaration) : option PluginDeclaration :=
  match plugins with
  | [] => None
  | d :: rest => if decide (pd_Name d ≠ PluginName) then find_declaration rest else Some d
  end.

Definition NewFromCluster (cluster : Cluster) : PluginConfiguration :=
  match find_declaration (cl_Plugins cluster) with
  | Some declaration =>
      with_presence (NewFromParameters (pd_Parameters declaration) (cl_Name cluster)) (Some cluster)
        (match pd_Enabled declaration with None => true | Some b => b end)
  | None =>
      {| pc_Cluster := Some cluster; SaveToStore := ""; SaveToServer := cl_Name cluster;
         RestoreFromStore := ""; RestoreFromServer := ""; pc_RestorePolicy := "";
         Enabled := false; Present := false |}
  end.

Definition IsSaveEnabled (c : PluginConfiguration) : bool :=
  Present c && Enabled c && bool_decide (SaveToStore c ≠ "").
Definition IsRestoreRequested (c : PluginConfiguration) : bool :=
  Present c && Enabled c && bool_decide (RestoreFromStore c ≠ "").

(** The receiver's cluster is set wherever this is called. *)
Definition SaveToKey (c : PluginConfiguration) : NamespacedName :=
  {| nn_Namespace := match pc_Cluster c with Some cl => cl_Namespace cl | None => "" end;
     nn_Name := SaveToStore c |}.

(** ** Properties *)

(** A configuration that validates and asks for a restore names both where and
    what to restore; one that validates and does not carries no stray restore
    parameter. *)
Lemma Validate_Ok c :
  Validate c = Ok () ↔
  (Present c && Enabled c = true →
   (RestoreFromStore c = "" ↔ RestoreFromServer c = "")
   ∧ (pc_RestorePolicy c ≠ "" → RestoreFromStore c ≠ "")).
Proof.
  unfold Validate. destruct (Present c), (Enabled c); simpl.
  2-4: by split.
  destruct (decide (RestoreFromStore c = "")) as [->|], (decide (RestoreFromServer c = "")) as [->|],
    (decide (pc_RestorePolicy c = "")) as [->|]; simplify_eq/=; repeat case_decide; naive_solver.
Qed.

(** The restore that is requested names a server, once validated. *)
Lemma Validate_restore c :
  Validate c = Ok () → IsRestoreRequested c = true → RestoreFromServer c ≠ "".
Proof.
  intros Hv Hr. unfold IsRestoreRequested in Hr. apply andb_true_iff in Hr as [Hp Hs].
  apply bool_decide_eq_true in Hs. apply andb_true_iff in Hp as [Hp He].
  apply Validate_Ok in Hv as [Hv _]; [naive_solver|by rewrite Hp, He].
Qed.
