(* ===== verification/Operator.v ===== *)
(** * internal/cnpgi/operator: the hooks the operator calls

    settled.go, status.go and reconciler.go.  A hook is a program over the
    world it can change: what resolving reads and writes, the object store, and
    the settled cache.  The Kubernetes API is only read. *)

From S2P Require Import Prelude GoStrings GoTime GoJson GoDecode Pathutil Cnpg Groups Snapshot Api Layout.
From S2P Require Import Kube Backend JsonText SnapshotStore History Integrity Resolver Config.

#[local] Open Scope stdpp_scope.

(** ** settled.go *)

Record settledEntry := {
  se_generation : Z;
  se_metadataChecksum : string;
  se_snapshotKey : string
}.

(** The entries by cluster UID.  The mutex makes each operation one step. *)
Record settledCache := { sc_entries : gmap string settledEntry }.

Definition maxSettledEntries : nat := 1024.

Definition newSettledCache : settledCache := {| sc_entries := ∅ |}.

(** A nil cache never hits. *)
Definition settled (c : option settledCache) (cluster : Cluster) (metadataChecksum : string)
    : option string :=
  match c with
  | None => None
  | Some c =>
      match sc_entries c !! cl_UID cluster with
      | None => None
      | Some entry =>
          if decide (se_generation entry ≠ cl_Generation cluster
                     ∨ se_metadataChecksum entry ≠ metadataChecksum) then None
          else Some (se_snapshotKey entry)
      end
  end.

Definition remember (c : option settledCache) (cluster : Cluster) (metadataChecksum snapshotKey : string)
    : option settledCache :=
  match c with
  | None => None
  | Some c =>
      let entries := if decide (maxSettledEntries ≤ size (sc_entries c)) then ∅ else sc_entries c in
      let entry := {| se_generation := cl_Generation cluster; se_metadataChecksum := metadataChecksum;
                      se_snapshotKey := snapshotKey |} in
      Some {| sc_entries := <[cl_UID cluster := entry]> entries |}
  end.

(** ** status.go: the watermark *)

Record ClusterStatus := {
  LastSavedGeneration : Z;
  LastSavedAt : string;
  st_SnapshotKey : string;
  st_Checksum : string;
  MetadataChecksum : string;
  st_Store : string;
  st_ServerName : string
}.

Definition zero_status : ClusterStatus :=
  {| LastSavedGeneration := 0; LastSavedAt := ""; st_SnapshotKey := ""; st_Checksum := "";
     MetadataChecksum := ""; st_Store := ""; st_ServerName := "" |}.

(** The document [json.Marshal] makes of a status. *)
Definition doc_of_status (s : ClusterStatus) : doc :=
  DObj ([("lastSavedGeneration", DNum (FormatInt (LastSavedGeneration s)))]
        ++ opt_string "lastSavedAt" (LastSavedAt s) ++ opt_string "snapshotKey" (st_SnapshotKey s)
        ++ opt_string "checksum" (st_Checksum s) ++ opt_string "metadataChecksum" (MetadataChecksum s)
        ++ opt_string "store" (st_Store s) ++ opt_string "serverName" (st_ServerName s)).

Definition decode_status : decoder ClusterStatus := decode_struct (λ old l,
  generation ← field "lastSavedGeneration" decode_int64 (LastSavedGeneration old) l;
  at_ ← field "lastSavedAt" decode_string (LastSavedAt old) l;
  key ← field "snapshotKey" decode_string (st_SnapshotKey old) l;
  checksum ← field "checksum" decode_string (st_Checksum old) l;
  metadataChecksum ← field "metadataChecksum" decode_string (MetadataChecksum old) l;
  store ← field "store" decode_string (st_Store old) l;
  serverName ← field "serverName" decode_string (st_ServerName old) l;
  Ok {| LastSavedGeneration := generation; LastSavedAt := at_; st_SnapshotKey := key;
        st_Checksum := checksum; MetadataChecksum := metadataChecksum; st_Store := store;
        st_ServerName := serverName |}).

(** The loop over [.status.pluginStatus]. *)
Fixpoint watermark_in (plugins : list PluginStatus) : option ClusterStatus :=
  match plugins with
  | [] => None
  | plugin :: rest =>
      if decide (ps_Name plugin ≠ Denylist.PluginName ∨ ps_Status plugin = "") then watermark_in rest
      else match (d ← unmarshal_doc (ps_Status plugin); decode_status zero_status d) with
           | Err _ => None
           | Ok status => Some status
           end
  end.

Definition WatermarkFromCluster (cluster : Cluster) : option ClusterStatus :=
  watermark_in (cl_PluginStatus cluster).

(** What [SetStatusInCluster] answers: [NoOpResponse], or [JSONStatusResponse]
    with the marshalled status. *)
Inductive SetStatusInClusterResponse := NoOpResponse | JSONStatusResponse (json : string).

(** ** GetCapabilities *)

Inductive HookKind := KIND_CLUSTER.
Inductive RPCType := RPC_TYPE_SET_STATUS_IN_CLUSTER.
Definition Reconciler_GetCapabilities : result (list HookKind) := Ok [KIND_CLUSTER].
Definition Operator_GetCapabilities : result (list RPCType) := Ok [RPC_TYPE_SET_STATUS_IN_CLUSTER].

Inductive ReconcilerHooksResult := resultContinue | resultRequeue.

(** ** The hooks *)

Record OpWorld (P W : Type) := { ow_provider : P; ow_objects : W; ow_settled : option settledCache }.
Arguments ow_provider {P W}.
Arguments ow_objects {P W}.
Arguments ow_settled {P W}.

Section hooks.
Context `{CnpgLib} {K : Type} `{KubeReader K} {P B W : Type} `{Provider P B}.
(** The object store a backend reaches, [object.GetKind] and the version set at
    link time. *)
Context (backend_of : B → Backend W) (GetKind : string → result string) (Version : string).

Abbreviation world := (OpWorld P W).

(** Programs over one part of the world. *)
Definition on_provider {A} (p : prog P A) : prog world A := λ w,
  let '(provider, r) := p (ow_provider w) in
  ({| ow_provider := provider; ow_objects := ow_objects w; ow_settled := ow_settled w |}, r).
Definition on_objects {A} (p : prog W A) : prog world A := λ w,
  let '(objects, r) := p (ow_objects w) in
  ({| ow_provider := ow_provider w; ow_objects := objects; ow_settled := ow_settled w |}, r).
Definition get_settled (cluster : Cluster) (metadataChecksum : string) : prog world (option string) :=
  λ w, (w, Ok (settled (ow_settled w) cluster metadataChecksum)).
Definition do_remember (cluster : Cluster) (metadataChecksum snapshotKey : string) : prog world unit :=
  λ w, ({| ow_provider := ow_provider w; ow_objects := ow_objects w;
           ow_settled := remember (ow_settled w) cluster metadataChecksum snapshotKey |}, Ok ()).

Definition liveFingerprint (cluster : Cluster) (configuredGroups : list string) : result string :=
  let groups := EffectiveGroupNames configuredGroups in
  MetadataFingerprint (cl_Labels cluster) (cl_Annotations cluster) groups (CaptureRulesDigest groups).

Definition Pre (resourceDefinition clusterDefinition : string) : result ReconcilerHooksResult :=
  kind ← GetKind resourceDefinition;
  if decide (kind ≠ "Cluster") then Ok resultContinue
  else
    cluster ← DecodeClusterLenient clusterDefinition;
    let pluginConfiguration := NewFromCluster cluster in
    if negb (IsRestoreRequested pluginConfiguration) then Ok resultContinue
    else if decide (is_Some (cl_Annotations cluster !! AnnotationRestoredFrom)) then Ok resultContinue
    else Err (Errorf "cluster %q sets the %s plugin parameter %q=%q but carries no %s annotation, which means the chronicle mutating webhook did not run for it. The cluster has NOT inherited the configuration it was meant to restore. Verify the MutatingWebhookConfiguration %q exists and the plugin was reachable when the cluster was created, then recreate the cluster"
           [AStr (cl_Name cluster); AStr Denylist.PluginName; AStr ParameterRestoreFromStore;
            AStr (RestoreFromStore pluginConfiguration); AStr AnnotationRestoredFrom;
            AStr MutatingWebhookName]).

(** The watermark already says what this pass would find. *)
Definition watermark_current (cluster : Cluster) (metadataFingerprint : string) : bool :=
  match WatermarkFromCluster cluster with
  | Some watermark =>
      bool_decide (LastSavedGeneration watermark = cl_Generation cluster)
      && bool_decide (MetadataChecksum watermark = metadataFingerprint)
  | None => false
  end.

(** [Post] once neither the watermark nor the cache has answered. *)
Definition capture (clock : Z) (cluster : Cluster) (configStore : ConfigStore) (storeKey : NamespacedName)
    (saveToServer : string) (metadataFingerprint : string) : prog world ReconcilerHooksResult :=
  snap ← lift (wrap "while capturing cluster %q: %w" [AStr (cl_Name cluster)]
                 (Extract clock (Some cluster)
                    {| eo_Groups := GetCaptureGroups configStore; eo_PluginVersion := Version;
                       eo_Now := None |}));
  '(backend, layout) ← wrapM "while reaching ConfigStore %s: %w" [AStr (key_string storeKey)]
                         (on_provider (Open configStore saveToServer));
  latest ← attempt (on_objects (@Latest W (backend_of backend) layout));
  let write :=
    key ← wrapM "while writing snapshot for cluster %q: %w" [AStr (cl_Name cluster)]
            (on_objects (@Write W (backend_of backend) layout snap));
    _ ← do_remember cluster metadataFingerprint key;
    mret resultContinue in
  match latest with
  | Ok (latest, latestKey) =>
      if decide (sn_Checksum latest = sn_Checksum snap ∧ sn_CaptureRules latest = sn_CaptureRules snap)
      then _ ← do_remember cluster metadataFingerprint latestKey; mret resultContinue
      else write
  | Err err =>
      if negb (errors_is ErrNotFound err) then
        throw (Wrapf "while reading the latest snapshot for cluster %q: %w" [AStr (cl_Name cluster)] err)
      else write
  end.

Definition Post (clock : Z) (k : K) (resourceDefinition clusterDefinition : string)
    : prog world ReconcilerHooksResult :=
  kind ← lift (GetKind resourceDefinition);
  if decide (kind ≠ "Cluster") then mret resultContinue
  else
    cluster ← lift (DecodeClusterLenient clusterDefinition);
    let pluginConfiguration := NewFromCluster cluster in
    if negb (IsSaveEnabled pluginConfiguration) then mret resultContinue
    else
      let storeKey := SaveToKey pluginConfiguration in
      match kube_config_store k storeKey with
      | Err err => if is_kube_not_found err then mret resultRequeue else throw err
      | Ok configStore =>
          metadataFingerprint ←
            lift (wrap "while fingerprinting metadata of cluster %q: %w" [AStr (cl_Name cluster)]
                    (liveFingerprint cluster (GetCaptureGroups configStore)));
          if watermark_current cluster metadataFingerprint then mret resultContinue
          else
            hit ← get_settled cluster metadataFingerprint;
            match hit with
            | Some _ => mret resultContinue
            | None => capture clock cluster configStore storeKey (SaveToServer pluginConfiguration)
                        metadataFingerprint
            end
      end.

(** The status of the newest snapshot of a history. *)
Definition status_of (pluginConfiguration : PluginConfiguration) (latest : Snapshot) (key : string)
    : result ClusterStatus :=
  metadataChecksum ← MetadataFingerprint (Labels (sn_Content latest)) (Annotations (sn_Content latest))
                       (sn_Groups latest) (sn_CaptureRules latest);
  Ok {| LastSavedGeneration := sn_Generation latest;
        LastSavedAt := FormatRFC3339 (sn_CapturedAt latest);
        st_SnapshotKey := key;
        st_Checksum := sn_Checksum latest;
        MetadataChecksum := metadataChecksum;
        st_Store := SaveToStore pluginConfiguration;
        st_ServerName := SaveToServer pluginConfiguration |}.

(** Whether what the Cluster already carries still holds. *)
Definition published_holds (w : world) (cluster : Cluster) (pluginConfiguration : PluginConfiguration)
    (fingerprint : string) : bool :=
  match WatermarkFromCluster cluster with
  | Some published =>
      bool_decide (st_Store published = SaveToStore pluginConfiguration
                   ∧ st_ServerName published = SaveToServer pluginConfiguration)
      && (bool_decide (LastSavedGeneration published = cl_Generation cluster
                       ∧ MetadataChecksum published = fingerprint)
          || match settled (ow_settled w) cluster fingerprint with
             | Some key => bool_decide (key = st_SnapshotKey published)
             | None => false
             end)
  | None => false
  end.

Definition SetStatusInCluster (k : K) (clusterDefinition : string)
    : prog world SetStatusInClusterResponse :=
  cluster ← lift (DecodeClusterLenient clusterDefinition);
  let pluginConfiguration := NewFromCluster cluster in
  if negb (IsSaveEnabled pluginConfiguration) then mret NoOpResponse
  else match kube_config_store k (SaveToKey pluginConfiguration) with
  | Err err => if is_kube_not_found err then mret NoOpResponse else throw err
  | Ok configStore =>
      fingerprint ← lift (liveFingerprint cluster (GetCaptureGroups configStore));
      holds ← (λ w, (w, Ok (published_holds w cluster pluginConfiguration fingerprint)));
      if holds : bool then mret NoOpResponse
      else
        opened ← attempt (on_provider (Open configStore (SaveToServer pluginConfiguration)));
        match opened with
        | Err _ => mret NoOpResponse
        | Ok (backend, layout) =>
            found ← attempt (on_objects (@Latest W (backend_of backend) layout));
            match found with
            | Err _ => mret NoOpResponse
            | Ok (latest, key) =>
                status ← lift (status_of pluginConfiguration latest key);
                json ← lift (Marshal (doc_of_status status));
                mret (JSONStatusResponse json)
            end
        end
  end.

End hooks.

(** ** The settled cache *)

Lemma settled_remember c cluster sum key :
  settled (remember (Some c) cluster sum key) cluster sum = Some key.
Proof. unfold settled, remember. cbn. rewrite lookup_insert_eq, decide_False; [done|naive_solver]. Qed.

(** One call of [remember]. *)
Definition remembered : Type := Cluster * string * string.
Definition remember_all (ops : list remembered) : settledCache :=
  foldl (λ c '(cluster, sum, key), default newSettledCache (remember (Some c) cluster sum key)) newSettledCache ops.

Lemma remember_all_snoc ops cluster sum key :
  sc_entries (remember_all (ops ++ [(cluster, sum, key)]))
  = <[cl_UID cluster := {| se_generation := cl_Generation cluster; se_metadataChecksum := sum;
                           se_snapshotKey := key |}]>
      (if decide (maxSettledEntries ≤ size (sc_entries (remember_all ops))) then ∅
       else sc_entries (remember_all ops)).
Proof. unfold remember_all. by rewrite foldl_app. Qed.

(** However long the process lives the cache stays within its bound, and it
    answers for a cluster state only with a key that was remembered for that
    very state. *)
Theorem settled_sound ops :
  (size (sc_entries (remember_all ops)) ≤ maxSettledEntries)%nat
  ∧ ∀ cluster sum key, settled (Some (remember_all ops)) cluster sum = Some key →
      ∃ cluster', (cluster', sum, key) ∈ ops
        ∧ cl_UID cluster' = cl_UID cluster ∧ cl_Generation cluster' = cl_Generation cluster.
Proof.
  assert (1 ≤ maxSettledEntries)%nat as Hmax by (by apply Nat.leb_le).
  induction ops as [|[[cluster0 sum0] key0] ops [IHs IHk]] using rev_ind.
  { unfold remember_all, newSettledCache. cbn [foldl sc_entries]. rewrite map_size_empty. split; [lia|done]. }
  pose proof (remember_all_snoc ops cluster0 sum0 key0) as Hsnoc. revert Hsnoc. unfold remembered.
  generalize (remember_all (ops ++ [(cluster0, sum0, key0)])) as c'. intros c' Hsnoc. generalize dependent (remember_all ops). intros c IHs IHk Hsnoc.
  split.
  - rewrite Hsnoc. case_decide; rewrite map_size_insert; [rewrite lookup_empty, map_size_empty; lia|].
    destruct (_ !! _); unfold id; lia.
  - intros cluster sum key Hs. unfold settled in Hs. rewrite Hsnoc in Hs.
    destruct (decide (cl_UID cluster = cl_UID cluster0)) as [Hu|Hu].
    + rewrite Hu, lookup_insert_eq in Hs. case_decide as Hd; [done|].
      injection Hs as <-. simpl in Hd. exists cluster0. split; [|split; [done|]].
      * apply elem_of_app. right. apply list_elem_of_singleton. f_equal. f_equal.
        destruct (decide (sum0 = sum)); [done|tauto].
      * destruct (decide (cl_Generation cluster0 = cl_Generation cluster)); [done|tauto].
    + rewrite lookup_insert_ne in Hs by done.
      assert (settled (Some c) cluster sum = Some key) as Hs'.
      { destruct (decide (maxSettledEntries ≤ size (sc_entries c))); [by rewrite lookup_empty in Hs|exact Hs]. }
      destruct (IHk _ _ _ Hs') as (cl & Hin & ?). exists cl. split; [|done]. apply elem_of_app. by left.
Qed.

(** ** The hooks *)

Section hook_properties.
Context `{CnpgLib} {K : Type} `{KubeReader K} {P B W : Type} `{Provider P B}.
Context (backend_of : B → Backend W) (GetKind : string → result string) (Version : string).

(** The guard refuses exactly a cluster that asked for a restore and does not
    carry the record of one. *)
Theorem Pre_guard rd cd cluster :
  GetKind rd = Ok "Cluster" → DecodeClusterLenient cd = Ok cluster →
  Pre GetKind rd cd = Ok resultContinue ↔
  ¬ (Present (NewFromCluster cluster) = true ∧ Enabled (NewFromCluster cluster) = true
     ∧ RestoreFromStore (NewFromCluster cluster) ≠ ""
     ∧ cl_Annotations cluster !! AnnotationRestoredFrom = None).
Proof.
  intros Hk Hd. unfold Pre. rewrite Hk, ok_bind, decide_False by (intros Hn; by apply Hn).
  rewrite Hd, ok_bind. cbv zeta. unfold IsRestoreRequested.
  destruct (Present _); [|simpl; naive_solver]. destruct (Enabled _); [|simpl; naive_solver].
  simpl. destruct (decide (RestoreFromStore (NewFromCluster cluster) = "")) as [He|He].
  - rewrite bool_decide_eq_false_2 by naive_solver. simpl. naive_solver.
  - rewrite bool_decide_eq_true_2 by done. simpl.
    destruct (cl_Annotations cluster !! AnnotationRestoredFrom); simpl.
    + naive_solver.
    + split; [done|]. intros Hn. exfalso. by apply Hn.
Qed.

(** What the slow path leaves when it ends well. *)
Lemma capture_continue clock cluster store key server fp w w' c :
  capture backend_of Version clock cluster store key server fp w = (w', Ok resultContinue) →
  ow_settled w = Some c → settled (ow_settled w') cluster fp ≠ None.
Proof.
  unfold capture, mbind, prog_bind, lift, wrapM, attempt, on_provider, on_objects, do_remember, mret, prog_ret.
  intros Hc Hs. destruct (wrap _ _ (Extract _ _ _)) as [snap|e]; [|done].
  destruct (Open store server (ow_provider w)) as [p [[b l]|e]]; [|done]. simpl in Hc.
  destruct (@Latest W (backend_of b) l (ow_objects w)) as [w1 [[latest lk]|e]]; simpl in Hc.
  - case_decide.
    + injection Hc as <-. simpl. rewrite Hs. by rewrite settled_remember.
    + simpl in Hc. destruct (@Write W (backend_of b) l snap w1) as [w2 [k|e]]; simpl in Hc; [|done].
      injection Hc as <-. simpl. rewrite Hs. by rewrite settled_remember.
  - destruct (errors_is ErrNotFound e); simpl in Hc; [|done].
    destruct (@Write W (backend_of b) l snap w1) as [w2 [k|e']]; simpl in Hc; [|done].
    injection Hc as <-. simpl. rewrite Hs. by rewrite settled_remember.
Qed.

(** C6: Once the hook has let a cluster state pass, calling it again for that state
    does nothing at all: no read of the store, no second snapshot, whatever the
    clock says. *)
Theorem Post_settles clock clock' k rd cd w w' c :
  ow_settled w = Some c →
  Post backend_of GetKind Version clock k rd cd w = (w', Ok resultContinue) →
  Post backend_of GetKind Version clock' k rd cd w' = (w', Ok resultContinue).
Proof.
  intros Hs. unfold Post, mbind, prog_bind, lift, throw, mret, prog_ret, get_settled.
  destruct (GetKind rd) as [kind|]; [|done]. case_decide; [by intros [= <-]|].
  destruct (DecodeClusterLenient cd) as [cluster|]; [|done]. cbv zeta.
  destruct (IsSaveEnabled _); simpl; [|by intros [= <-]].
  destruct (kube_config_store k _) as [store|e]; [|by destruct (is_kube_not_found e)].
  destruct (wrap _ _ (liveFingerprint _ _)) as [fp|]; [|done].
  destruct (watermark_current cluster fp); [by intros [= <-]|].
  destruct (settled (ow_settled w) cluster fp) eqn:Hh.
  - intros [= <-]. by rewrite Hh.
  - intros Hc. pose proof (capture_continue _ _ _ _ _ _ _ _ _ Hc Hs) as Hn.
    by destruct (settled (ow_settled w') cluster fp).
Qed.

(** *** What a capture does to the store *)

Context (objects : B → W → gmap string string)
        `{Hspec : !∀ b, @BackendSpec W (backend_of b) (objects b)}.

Definition capture_options (store : ConfigStore) : ExtractOptions :=
  {| eo_Groups := GetCaptureGroups store; eo_PluginVersion := Version; eo_Now := None |}.

(** The test by which the hook takes a stored snapshot for the captured state:
    one checksum and one set of capture rules. *)
Definition confirms (latest snap : Snapshot) : Prop :=
  sn_Checksum latest = sn_Checksum snap ∧ sn_CaptureRules latest = sn_CaptureRules snap.

(** What a caller wants of it: the stored snapshot holds the captured content,
    captured under the same rules -- or the canonical texts of these two contents
    collide. *)
Definition holds_capture (held snap : Snapshot) : Prop :=
  confirms held snap
  ∧ (sn_Content held = sn_Content snap ∨ contents_collide (sn_Content held) (sn_Content snap)).

(** The three ways a capture ends once the store is open. *)
Inductive capture_end (cluster : Cluster) (fp : string) (snap : Snapshot) (b : B) (l : Layout)
    (w w' : OpWorld P W) : result ReconcilerHooksResult → Prop :=
| end_confirmed latest lk :
    @Latest W (backend_of b) l (ow_objects w) = (ow_objects w', Ok (latest, lk)) →
    confirms latest snap → ow_settled w' = remember (ow_settled w) cluster fp lk →
    capture_end cluster fp snap b l w w' (Ok resultContinue)
| end_written w1 key :
    objects b w1 = objects b (ow_objects w) →
    @Write W (backend_of b) l snap w1 = (ow_objects w', Ok key) →
    ow_settled w' = remember (ow_settled w) cluster fp key →
    capture_end cluster fp snap b l w w' (Ok resultContinue)
| end_failed w1 e e' :
    objects b w1 = objects b (ow_objects w) →
    ow_objects w' = w1 ∨ @Write W (backend_of b) l snap w1 = (ow_objects w', Err e) →
    ow_settled w' = ow_settled w →
    capture_end cluster fp snap b l w w' (Err e').

Lemma capture_ends clock cluster store key server fp snap b l p' w w' r :
  Extract clock (Some cluster) (capture_options store) = Ok snap →
  Open store server (ow_provider w) = (p', Ok (b, l)) →
  capture backend_of Version clock cluster store key server fp w = (w', r) →
  capture_end cluster fp snap b l w w' r.
Proof.
  intros He Ho. unfold capture, mbind, prog_bind, lift, throw, wrapM, attempt, on_provider, on_objects,
    do_remember, mret, prog_ret. unfold capture_options in He. rewrite He. simpl. rewrite Ho. simpl.
  destruct (@Latest W (backend_of b) l (ow_objects w)) as [w1 [[latest lk]|e]] eqn:Hl; simpl.
  - pose proof (@Latest_objects W (backend_of b) (objects b) (Hspec b) _ _ _ _ Hl) as Hw1.
    case_decide as Hd.
    + intros [= <- <-]. by eapply end_confirmed.
    + simpl. destruct (@Write W (backend_of b) l snap w1) as [w2 [k|e]] eqn:Hw; simpl; intros [= <- <-].
      * by eapply end_written.
      * eapply end_failed; [exact Hw1|right; exact Hw|done].
  - pose proof (@Latest_objects W (backend_of b) (objects b) (Hspec b) _ _ _ _ Hl) as Hw1.
    destruct (errors_is ErrNotFound e); simpl.
    + destruct (@Write W (backend_of b) l snap w1) as [w2 [k|e']] eqn:Hw; simpl; intros [= <- <-].
      * by eapply end_written.
      * eapply end_failed; [exact Hw1|right; exact Hw|done].
    + intros [= <- <-]. eapply (end_failed _ _ _ _ _ _ _ w1 e); [exact Hw1|by left|done].
Qed.

(** A capture of a cluster is a snapshot that verifies. *)
Lemma Extract_verified clock cluster o snap :
  Extract clock (Some cluster) o = Ok snap → verified snap.
Proof.
  intros (source & _ & _ & _ & Hc & _ & _ & _ & _ & Ha & Hk)%Extract_Ok. split_and!; try done.
  unfold Checksum in Hc. destruct (Canonical _) as [e|]; [|done]. by injection Hc as <-.
Qed.

(** The state in which [Post] goes to the object store. *)
Record goes_to_store (k : K) (rd cd : string) (w : OpWorld P W) (cluster : Cluster) (store : ConfigStore)
    (fp : string) (p' : P) (b : B) (l : Layout) : Prop := {
  gs_kind : GetKind rd = Ok "Cluster";
  gs_cluster : DecodeClusterLenient cd = Ok cluster;
  gs_enabled : IsSaveEnabled (NewFromCluster cluster) = true;
  gs_store : kube_config_store k (SaveToKey (NewFromCluster cluster)) = Ok store;
  gs_fingerprint : liveFingerprint cluster (GetCaptureGroups store) = Ok fp;
  gs_watermark : watermark_current cluster fp = false;
  gs_settled : settled (ow_settled w) cluster fp = None;
  gs_open : Open store (SaveToServer (NewFromCluster cluster)) (ow_provider w) = (p', Ok (b, l))
}.

Lemma Post_slow clock k rd cd w w' r cluster store fp p' b l :
  goes_to_store k rd cd w cluster store fp p' b l →
  Post backend_of GetKind Version clock k rd cd w = (w', r) →
  capture backend_of Version clock cluster store (SaveToKey (NewFromCluster cluster))
    (SaveToServer (NewFromCluster cluster)) fp w = (w', r).
Proof.
  intros [H1' H2' H3' H4' H5' H6' H7' _].
  unfold Post, mbind, prog_bind, lift, throw, mret, prog_ret, get_settled.
  rewrite H1'. rewrite decide_False by (intros Hn; by apply Hn). rewrite H2'. cbv zeta.
  rewrite H3'. simpl. rewrite H4', H5'. simpl. by rewrite H6', H7'.
Qed.

Lemma confirms_holds raw key held snap :
  decodeSnapshot raw key = Ok held → verified snap → encodable snap → confirms held snap →
  holds_capture held snap.
Proof. intros Hd Hv He Hc. split; [done|]. by eapply held_content, Hc. Qed.

(** A capture that ends well leaves the snapshot, or one with its content, held
    and the newest. *)
Lemma capture_held clock cluster store key server fp snap b l p' w w' :
  Extract clock (Some cluster) (capture_options store) = Ok snap → encodable snap →
  Open store server (ow_provider w) = (p', Ok (b, l)) →
  capture backend_of Version clock cluster store key server fp w = (w', Ok resultContinue) →
  (∃ key raw held, objects b (ow_objects w') !! key = Some raw
     ∧ decodeSnapshot raw key = Ok held ∧ holds_capture held snap)
  ∧ ∀ latest key, newest l (objects b (ow_objects w')) latest key → holds_capture latest snap.
Proof.
  intros He Henc Ho Hp. pose proof (Extract_verified _ _ _ _ He) as Hv.
  apply (capture_ends _ _ _ _ _ _ _ _ _ _ _ _ _ He Ho) in Hp.
  inversion Hp as [latest lk Hl Hsame Hset|w1 key' Hw1 Hw Hset|]; subst.
  - pose proof (@Latest_objects W (backend_of b) (objects b) (Hspec b) _ _ _ _ Hl) as Hob.
    apply (@Latest_newest W (backend_of b) (objects b) (Hspec b)) in Hl. rewrite Hob. split.
    + destruct (newest_held _ _ _ _ Hl) as (k' & raw & Hk & Hd). exists k', raw, latest.
      do 2 (split; [done|]). by eapply confirms_holds.
    + intros latest2 k2 Hl2. destruct (newest_functional _ _ _ _ _ _ Hl Hl2) as [<- _].
      destruct (newest_held _ _ _ _ Hl) as (k' & raw & Hk & Hd). by eapply confirms_holds.
  - destruct (@Write_objects W (backend_of b) (objects b) (Hspec b) _ _ _ _ _ Henc Hw)
      as (-> & Hraw & Hob). set (raw := indent_doc 0 (doc_of_snapshot snap)) in *.
    assert (∀ k, decodeSnapshot raw k = Ok snap) as Hdec by (intros; by apply decodeSnapshot_encoded).
    assert (objects b (ow_objects w') !! LatestKey l = Some raw) as Hlk by (by rewrite Hob, lookup_insert_eq).
    assert (holds_capture snap snap) as Hsame by (split; [done|by left]).
    split; [by exists (LatestKey l), raw, snap|].
    intros latest2 k2 Hl2. unfold newest in Hl2. rewrite Hlk, Hdec in Hl2. by destruct Hl2 as [[= <-] _].
Qed.

(** C5: When the hook lets a cluster state pass after looking at the store, the
    store holds a verified snapshot with exactly the captured content, captured
    under the same rules, and such a snapshot is what reading the newest one
    returns -- or the canonical texts of the held and of the captured content are
    different texts with one SHA-256. *)
Theorem Post_captures clock k rd cd w w' cluster store fp p' b l :
  goes_to_store k rd cd w cluster store fp p' b l →
  (∀ snap, Extract clock (Some cluster) (capture_options store) = Ok snap → encodable snap) →
  Post backend_of GetKind Version clock k rd cd w = (w', Ok resultContinue) →
  ∃ snap, Extract clock (Some cluster) (capture_options store) = Ok snap
    ∧ (∃ key raw held, objects b (ow_objects w') !! key = Some raw
         ∧ decodeSnapshot raw key = Ok held ∧ sn_CaptureRules held = sn_CaptureRules snap
         ∧ (sn_Content held = sn_Content snap ∨ contents_collide (sn_Content held) (sn_Content snap)))
    ∧ (∀ w2 latest key, @Latest W (backend_of b) l (ow_objects w') = (w2, Ok (latest, key)) →
         sn_CaptureRules latest = sn_CaptureRules snap
         ∧ (sn_Content latest = sn_Content snap ∨ contents_collide (sn_Content latest) (sn_Content snap))).
Proof.
  intros Hgs Henc Hp. apply (Post_slow _ _ _ _ _ _ _ _ _ _ _ _ _ Hgs) in Hp.
  destruct (Extract clock (Some cluster) (capture_options store)) as [snap|e] eqn:He.
  2: { unfold capture, capture_options, mbind, prog_bind, lift in *. by rewrite He in Hp. }
  exists snap. split; [done|].
  destruct (capture_held _ _ _ _ _ _ _ _ _ _ _ _ He (Henc _ eq_refl) (gs_open _ _ _ _ _ _ _ _ _ _ Hgs) Hp) as [Hh Hn].
  split.
  - destruct Hh as (key & raw & held & Hk & Hd & [_ Hr] & Hc). by exists key, raw, held.
  - intros w2 latest key Hl%(@Latest_newest W (backend_of b) (objects b) (Hspec b)).
    by destruct (Hn _ _ Hl) as [[_ Hr] Hc].
Qed.

(** Whatever the outcome, a call changes no object but this state's own key and
    the latest pointer of this cluster's history. *)
Theorem Post_frame clock k rd cd w w' r cluster store fp p' b l :
  goes_to_store k rd cd w cluster store fp p' b l →
  Post backend_of GetKind Version clock k rd cd w = (w', r) →
  ∀ key, key ≠ LatestKey l →
    (∀ snap, Extract clock (Some cluster) (capture_options store) = Ok snap → key ≠ key_of l snap) →
    objects b (ow_objects w') !! key = objects b (ow_objects w) !! key.
Proof.
  intros Hgs Hp key Hlk Hkey. apply (Post_slow _ _ _ _ _ _ _ _ _ _ _ _ _ Hgs) in Hp.
  destruct (Extract clock (Some cluster) (capture_options store)) as [snap|e] eqn:He.
  2: { unfold capture, capture_options, mbind, prog_bind, lift in *. rewrite He in Hp. simpl in Hp.
       by injection Hp as <- _. }
  specialize (Hkey _ eq_refl).
  assert (∀ w1 w2 rw, @Write W (backend_of b) l snap w1 = (w2, rw) →
    objects b w2 !! key = objects b w1 !! key) as Hwr.
  { intros w1 w2 rw Hw. apply (@Write_outcome W (backend_of b) (objects b) (Hspec b)) in Hw.
    destruct (encode_snapshot snap) as [raw|]; [|by destruct Hw as [-> _]]. cbv zeta in Hw.
    destruct rw as [k'|e]; [destruct Hw as [_ ->]; by rewrite !lookup_insert_ne by done|].
    destruct Hw as [->|[->| ->]]; by rewrite ?lookup_insert_ne by done. }
  apply (capture_ends _ _ _ _ _ _ _ _ _ _ _ _ _ He (gs_open _ _ _ _ _ _ _ _ _ _ Hgs)) in Hp.
  inversion Hp as [latest lk Hl Hsame Hset|w1 k1 Hw1 Hw Hset|w1 e e' Hw1 Hw Hset]; subst.
  - by rewrite (@Latest_objects W (backend_of b) (objects b) (Hspec b) _ _ _ _ Hl).
  - rewrite (Hwr _ _ _ Hw). by rewrite Hw1.
  - destruct Hw as [->|Hw]; [by rewrite Hw1|]. rewrite (Hwr _ _ _ Hw). by rewrite Hw1.
Qed.

(** A remembered state is let through. *)
Lemma Post_quiet clock k rd cd w w' cluster store fp p' b l :
  goes_to_store k rd cd w cluster store fp p' b l →
  settled (ow_settled w') cluster fp ≠ None →
  Post backend_of GetKind Version clock k rd cd w' = (w', Ok resultContinue).
Proof.
  intros [H1' H2' H3' H4' H5' H6' _ _] Hs.
  unfold Post, mbind, prog_bind, lift, throw, mret, prog_ret, get_settled.
  rewrite H1'. rewrite decide_False by (intros Hn; by apply Hn). rewrite H2'. cbv zeta.
  rewrite H3'. simpl. rewrite H4', H5'. simpl. rewrite H6'. by destruct (settled (ow_settled w') cluster fp).
Qed.

(** C7: On a store that can be read and takes writes, one pass of the hook is enough:
    it ends, and every later pass for the same cluster state does nothing. *)
Theorem Post_converges clock k rd cd w c cluster store fp p' b l snap :
  goes_to_store k rd cd w cluster store fp p' b l → ow_settled w = Some c →
  Extract clock (Some cluster) (capture_options store) = Ok snap → encodable snap →
  (∀ w1 e, @Latest W (backend_of b) l (ow_objects w) = (w1, Err e) → errors_is ErrNotFound e = true) →
  (∀ key data w1, (@Put_ W (backend_of b) key data w1).2 = Ok ()) →
  ∃ w', Post backend_of GetKind Version clock k rd cd w = (w', Ok resultContinue)
    ∧ ∀ clock', Post backend_of GetKind Version clock' k rd cd w' = (w', Ok resultContinue).
Proof.
  intros Hgs Hset He Henc Hlat Hput.
  destruct (Post backend_of GetKind Version clock k rd cd w) as [w' r] eqn:Hp.
  pose proof (Post_slow _ _ _ _ _ _ _ _ _ _ _ _ _ Hgs Hp) as Hcap.
  assert (r = Ok resultContinue) as ->.
  { revert Hcap. unfold capture, mbind, prog_bind, lift, throw, wrapM, attempt, on_provider, on_objects,
      do_remember, mret, prog_ret. unfold capture_options in He. rewrite He. simpl.
    rewrite (gs_open _ _ _ _ _ _ _ _ _ _ Hgs). simpl.
    assert (∀ w1, ∃ w2 key, @Write W (backend_of b) l snap w1 = (w2, Ok key)) as Hwrite.
    { intros w1. unfold Write, mbind, prog_bind, lift, wrapM. rewrite (encode_encodable _ Henc). simpl.
      pose proof (Hput (key_of l snap) (indent_doc 0 (doc_of_snapshot snap)) w1) as Hp1.
      destruct (@Put_ W (backend_of b) _ _ w1) as [w2 r2]; simpl in Hp1; subst r2.
      pose proof (Hput (LatestKey l) (indent_doc 0 (doc_of_snapshot snap)) w2) as Hp2.
      destruct (@Put_ W (backend_of b) _ _ w2) as [w3 r3]; simpl in Hp2; subst r3. by eexists _, _. }
    destruct (@Latest W (backend_of b) l (ow_objects w)) as [w1 [[latest lk]|e]]; simpl.
    - case_decide; [by intros [= _ <-]|]. destruct (Hwrite w1) as (w2 & key & Hw).
      simpl. rewrite Hw. simpl. by intros [= _ <-].
    - rewrite (Hlat _ _ eq_refl). destruct (Hwrite w1) as (w2 & key & Hw).
      simpl. rewrite Hw. simpl. by intros [= _ <-]. }
  exists w'. split; [done|]. intros clock'. eapply Post_quiet; [exact Hgs|by eapply capture_continue].
Qed.

End hook_properties.

(** ** The watermark *)

(** The field of one of several optional members. *)
Ltac opt_hit :=
  eapply bind_field;
    [repeat (rewrite field_skip by absent); first [apply field_opt_string; absent
       |rewrite <-(app_nil_r (opt_string _ _)); apply field_opt_string; absent]|cbv beta].

(** A status is read back from the text it is published as. *)
Lemma status_codec s :
  in_int64 (LastSavedGeneration s) → doc_ok (doc_of_status s) = true →
  (d ← unmarshal_doc (encode_doc (doc_of_status s)); decode_status zero_status d) = Ok s.
Proof.
  intros Hg Hd. rewrite (unmarshal_encode _ Hd), ok_bind. unfold doc_of_status, decode_status, decode_struct.
  assert (decode_int64 0%Z (DNum (FormatInt (LastSavedGeneration s))) = Ok (LastSavedGeneration s))
    as Hgen by (unfold decode_int64; by rewrite ParseInt_FormatInt).
  cbn [zero_status LastSavedGeneration LastSavedAt st_SnapshotKey st_Checksum MetadataChecksum st_Store
       st_ServerName].
  eapply bind_field; [apply field_hit; [exact Hgen|absent]|cbv beta].
  do 6 opt_hit. by destruct s.
Qed.

Section status_properties.
Context `{CnpgLib} {K : Type} `{KubeReader K} {P B W : Type} `{Provider P B}.
Context (backend_of : B → Backend W).
Context (objects : B → W → gmap string string)
        `{Hspec : !∀ b, @BackendSpec W (backend_of b) (objects b)}.

(** A status that is published is made of the newest snapshot. *)
Lemma SetStatusInCluster_publishes k cd w w' json :
  SetStatusInCluster backend_of k cd w = (w', Ok (JSONStatusResponse json)) →
  ∃ cluster store p' b l latest key status,
    DecodeClusterLenient cd = Ok cluster
    ∧ kube_config_store k (SaveToKey (NewFromCluster cluster)) = Ok store
    ∧ Open store (SaveToServer (NewFromCluster cluster)) (ow_provider w) = (p', Ok (b, l))
    ∧ @Latest W (backend_of b) l (ow_objects w) = (ow_objects w', Ok (latest, key))
    ∧ status_of (NewFromCluster cluster) latest key = Ok status
    ∧ Marshal (doc_of_status status) = Ok json ∧ ow_settled w' = ow_settled w.
Proof.
  unfold SetStatusInCluster, mbind, prog_bind, lift, throw, attempt, on_provider, on_objects, mret, prog_ret.
  destruct (DecodeClusterLenient cd) as [cluster|] eqn:Hd; [|done]. cbv zeta.
  destruct (IsSaveEnabled _); simpl; [|done].
  destruct (kube_config_store k _) as [store|e] eqn:Hk; [|by destruct (is_kube_not_found e)].
  destruct (liveFingerprint _ _) as [fp|]; [|done].
  destruct (published_holds w cluster _ fp); [done|].
  destruct (Open store _ (ow_provider w)) as [p' [[b l]|e]] eqn:Ho; simpl; [|done].
  destruct (@Latest W (backend_of b) l (ow_objects w)) as [w1 [[latest key]|e]] eqn:Hl; simpl; [|done].
  destruct (status_of _ latest key) as [status|] eqn:Hs; [|done].
  destruct (Marshal (doc_of_status status)) as [json'|] eqn:Hj; [|done]. intros [= <- <-].
  by exists cluster, store, p', b, l, latest, key, status.
Qed.


(** The Cluster with what was published on it. *)
Definition with_status (cluster : Cluster) (json : string) (others : list PluginStatus) : Cluster :=
  {| cl_Name := cl_Name cluster; cl_Namespace := cl_Namespace cluster; cl_UID := cl_UID cluster;
     cl_Generation := cl_Generation cluster; cl_Labels := cl_Labels cluster;
     cl_Annotations := cl_Annotations cluster; cl_Plugins := cl_Plugins cluster;
     cl_Image := cl_Image cluster;
     cl_PluginStatus := {| ps_Name := Denylist.PluginName; ps_Status := json |} :: others |}.

Lemma watermark_published cluster status others :
  in_int64 (LastSavedGeneration status) → doc_ok (doc_of_status status) = true →
  WatermarkFromCluster (with_status cluster (encode_doc (doc_of_status status)) others) = Some status.
Proof.
  intros Hg Hd. unfold WatermarkFromCluster. cbn [cl_PluginStatus with_status watermark_in ps_Name ps_Status].
  rewrite decide_False by (intros [Hn|Hn]; [by apply Hn|discriminate Hn]). by rewrite (status_codec _ Hg Hd).
Qed.

(** C32: The loop closes: once the status of a capture is published, the same cluster
    state takes the fast path, and no further pass reads the store. *)
Theorem published_watermark_is_current clock cluster store version snap key status others :
  Extract clock (Some cluster) {| eo_Groups := GetCaptureGroups store; eo_PluginVersion := version;
                                  eo_Now := None |} = Ok snap →
  status_of (NewFromCluster cluster) snap key = Ok status →
  in_int64 (cl_Generation cluster) → doc_ok (doc_of_status status) = true →
  let cluster' := with_status cluster (encode_doc (doc_of_status status)) others in
  ∃ fp, liveFingerprint cluster' (GetCaptureGroups store) = Ok fp ∧ watermark_current cluster' fp = true.
Proof.
  intros He Hs Hg Hd cluster'. unfold status_of in Hs. pose proof (Extract_Ok _ _ _ _ He) as He'.
  destruct He' as (source & _ & _ & _ & _ & _ & _ & _ & Hgen & _).
  pose proof (fingerprint_of_capture _ _ _ _ He) as Hfp. rewrite Hfp in Hs.
  assert (liveFingerprint cluster' (GetCaptureGroups store)
          = MetadataFingerprint (cl_Labels cluster) (cl_Annotations cluster)
              (eo_groups {| eo_Groups := GetCaptureGroups store; eo_PluginVersion := version; eo_Now := None |})
              (CaptureRulesDigest (eo_groups {| eo_Groups := GetCaptureGroups store;
                 eo_PluginVersion := version; eo_Now := None |}))) as Hlive.
  { unfold liveFingerprint, eo_groups, EffectiveGroupNames. by destruct (GetCaptureGroups store). }
  rewrite Hlive. destruct (MetadataFingerprint _ _ _ _) as [fp|]; [|done].
  rewrite ok_bind in Hs. injection Hs as <-. exists fp. split; [done|].
  unfold watermark_current, cluster'. rewrite watermark_published; [|by rewrite <-Hgen in Hg|done].
  cbn [LastSavedGeneration MetadataChecksum]. rewrite Hgen.
  rewrite !bool_decide_eq_true_2 by done. done.
Qed.

End status_properties.
