(* ===== verification/Webhook.v ===== *)
(** * internal/webhook/cluster_mutate.go: restoring at admission *)

From S2P Require Import Prelude GoStrings GoTime GoJson GoFloat Pathutil Api Cnpg Kube Groups Denylist.
From S2P Require Import Snapshot Layout Backend JsonText SnapshotStore History RecoveryTarget Select Resolver.
From S2P Require Import Celenv Skip Transform Plan CaptureRestore Config.

#[local] Open Scope stdpp_scope.

(** ** Data *)

Record RestoreRecord := {
  rr_Store : string;
  rr_Policy : string;
  rr_ServerName : string;
  rr_SnapshotKey : string;
  rr_Generation : Z;
  rr_CapturedAt : Z;
  rr_RestoredAt : Z;
  rr_Changed : Z;
  rr_Skipped : Z;
  rr_AlignedWith : string;
  rr_Transformed : list string
}.

Definition doc_of_record (r : RestoreRecord) : doc :=
  DObj ([("store", DStr (rr_Store r)); ("policy", DStr (rr_Policy r));
         ("serverName", DStr (rr_ServerName r)); ("snapshotKey", DStr (rr_SnapshotKey r));
         ("generation", DNum (FormatInt (rr_Generation r)));
         ("capturedAt", DStr (FormatRFC3339Nano (rr_CapturedAt r)));
         ("restoredAt", DStr (FormatRFC3339Nano (rr_RestoredAt r)));
         ("changedPaths", DNum (FormatInt (rr_Changed r)));
         ("skippedPaths", DNum (FormatInt (rr_Skipped r)))]
        ++ opt_string "alignedWith" (rr_AlignedWith r)
        ++ match rr_Transformed r with [] => [] | l => [("transformed", string_list l)] end).

(** [json.Marshal] of a record: a [time.Time] refuses years of more than four
    digits. *)
Definition marshal_record (r : RestoreRecord) : result string :=
  if decide (four_digit_year (rr_CapturedAt r) ∧ four_digit_year (rr_RestoredAt r))
  then Marshal (doc_of_record r)
  else Err (External OtherKind "Time.MarshalJSON: year outside of range [0,9999]").

(** The part of an admission request the handler reads. *)
Record Request := { rq_Raw : string; rq_Namespace : string }.

(** [PatchResponseFromRaw raw patched] is the response with the JSON patch from
    one text to the other. *)
Inductive Response :=
| Errored (code : Z) (err : error)
| Allowed (reason : string)
| Denied (reason : error)
| PatchResponseFromRaw (raw patched : string).

Definition StatusBadRequest : Z := 400.

(** ** Operations *)

(** The loop of [pluginParameters] over the declarations. *)
Fixpoint find_parameters (entries : list any) : option (gmap string string) :=
  match entries with
  | [] => None
  | AMap declaration :: rest =>
      if decide (match declaration !! "name" with Some (AString name) => name | _ => "" end ≠ PluginName)
      then find_parameters rest
      else match declaration !! "enabled" with
      | Some (ABool false) => None
      | _ =>
          match declaration !! "parameters" with
          | Some (AMap parameters) =>
              Some (omap (λ value, match value with AString s => Some s | _ => None end) parameters)
          | _ => Some ∅
          end
      end
  | _ :: rest => find_parameters rest
  end.

Definition pluginParameters (cluster : object) : option (gmap string string) :=
  match Get cluster "spec.plugins" with
  | Some (AList entries) => find_parameters entries
  | _ => None
  end.

Definition checkSourceIsNotAlsoDestination (c : PluginConfiguration) : result unit :=
  if decide (SaveToStore c = "" ∨ RestoreFromStore c = "") then Ok ()
  else if decide (SaveToStore c ≠ RestoreFromStore c) then Ok ()
  else if decide (SaveToServer c ≠ RestoreFromServer c) then Ok ()
  else Err (Errorf "this cluster would save snapshots to the same store %q and server name %q it is restoring from, which would interleave its history with the source cluster's. Point %s at a different store, or set %s to a distinct server name"
              [AStr (SaveToStore c); AStr (SaveToServer c); AStr ParameterSaveToStore;
               AStr ParameterSaveToServer]).

Definition annotation_segments : list string := ["metadata"; "annotations"; AnnotationRestoredFrom].

(** The cluster as the annotation leaves it, and its encoding. *)
Definition annotateWithRecord (cluster : object) (record : RestoreRecord) : result (object * string) :=
  encoded ← wrap "while recording the restore: %w" [] (marshal_record record);
  match SetSegments cluster annotation_segments (AString encoded) with
  | None => Err (Errorf "cannot annotate the cluster with the restore record" [])
  | Some cluster =>
      patched ← wrap "while re-encoding the restored cluster: %w" [] (Marshal (doc_of_object cluster));
      Ok (cluster, patched)
  end.

Definition policySkips (policy : option RestorePolicy) : list SkipRule :=
  match policy with None => [] | Some policy => Skip (rp_Spec policy) end.
Definition policyTransforms (policy : option RestorePolicy) : list TransformRule :=
  match policy with None => [] | Some policy => Transform (rp_Spec policy) end.

(** What resolving and reading the store may change. *)
Record RestoreWorld (P W : Type) := { rw_provider : P; rw_objects : W }.
Arguments rw_provider {P W}.
Arguments rw_objects {P W}.

Section webhook.
Context `{CnpgLib} `{QuantityLib} `{GoPlatform} `{!CelEngine} `{Fmt}.
Context {K : Type} `{KubeReader K} {P B W : Type} `{Provider P B}.
(** The object store a backend reaches, and the order in which Go walks the
    leaves of a tree. *)
Context (backend_of : B → Backend W) (walk : object → list Leaf).

Abbreviation world := (RestoreWorld P W).

Definition on_provider {A} (p : prog P A) : prog world A := λ w,
  let '(provider, r) := p (rw_provider w) in
  ({| rw_provider := provider; rw_objects := rw_objects w |}, r).
Definition on_objects {A} (p : prog W A) : prog world A := λ w,
  let '(objects, r) := p (rw_objects w) in
  ({| rw_provider := rw_provider w; rw_objects := objects |}, r).

Definition detail_text (d : detail) : string := Sprintf (d_format d) (d_args d) (d_error d).

Definition load (k : K) (namespace : string) (c : PluginConfiguration)
    : result (ConfigStore * option RestorePolicy) :=
  let storeKey := {| nn_Namespace := namespace; nn_Name := RestoreFromStore c |} in
  match kube_config_store k storeKey with
  | Err err =>
      if is_kube_not_found err then
        Err (Errorf "%s names ConfigStore %q, which does not exist in namespace %q"
               [AStr ParameterRestoreFromStore; AStr (RestoreFromStore c); AStr namespace])
      else Err (Wrapf "while reading ConfigStore %s: %w" [AStr (key_string storeKey)] err)
  | Ok configStore =>
      if decide (pc_RestorePolicy c = "") then Ok (configStore, None)
      else
        let policyKey := {| nn_Namespace := namespace; nn_Name := pc_RestorePolicy c |} in
        match kube_restore_policy k policyKey with
        | Err err =>
            if is_kube_not_found err then
              Err (Errorf "RestorePolicy %q does not exist in namespace %q; create it before creating a cluster that restores with it"
                     [AStr (pc_RestorePolicy c); AStr namespace])
            else Err (Wrapf "while reading RestorePolicy %s: %w" [AStr (key_string policyKey)] err)
        | Ok policy => Ok (configStore, Some policy)
        end
  end.

(** The record of a restore, its clock reading in UTC. *)
Definition record_of (now : Z) (configStore : ConfigStore) (c : PluginConfiguration)
    (resolution : Resolution) (plan : Plan) : RestoreRecord :=
  {| rr_Store := cs_Name configStore;
     rr_Policy := pc_RestorePolicy c;
     rr_ServerName := RestoreFromServer c;
     rr_SnapshotKey := res_Key resolution;
     rr_Generation := sn_Generation (res_Snapshot resolution);
     rr_CapturedAt := sn_CapturedAt (res_Snapshot resolution);
     rr_RestoredAt := now;
     rr_Changed := Z.of_nat (length (Changes plan));
     rr_Skipped := Z.of_nat (length (Exclusions plan));
     rr_AlignedWith := match res_Target resolution with
                       | Some target => detail_text (tg_Detail target)
                       | None => ""
                       end;
     rr_Transformed := TransformedPaths plan |}.

(** What [restore] does to the cluster once a snapshot is selected. *)
Definition apply_snapshot (now : Z) (configStore : ConfigStore) (c : PluginConfiguration)
    (skips : SkipSet) (transforms : TransformSet) (resolution : Resolution) (cluster : object)
    : result (RestoreRecord * object * string) :=
  plan ← BuildPlan_of walk (Some (res_Snapshot resolution)) skips transforms;
  if decide (length (Changes plan) = 0) then
    Err (Errorf "restoring from %s would change nothing: the snapshot has %d paths and all of them are skipped or denied. Check the skip rules on RestorePolicy %q"
           [AStr (res_Key resolution); AInt (Z.of_nat (length (Exclusions plan)));
            AStr (pc_RestorePolicy c)])
  else
    let '(cluster, applied) := Plan_Apply plan cluster in
    _ ← applied;
    let record := record_of now configStore c resolution plan in
    '(cluster, patched) ← annotateWithRecord cluster record;
    Ok (record, cluster, patched).

Definition restore (now : Z) (k : K) (namespace : string) (c : PluginConfiguration) (cluster : object)
    : prog world (RestoreRecord * object * string) :=
  '(configStore, policy) ← lift (load k namespace c);
  '(skips, transforms) ←
    lift (wrap "RestorePolicy %q is not usable: %w" [AStr (pc_RestorePolicy c)]
            (CompileRules (policySkips policy) (policyTransforms policy)));
  '(backend, layout) ← wrapM "while opening ConfigStore %q: %w" [AStr (cs_Name configStore)]
                         (on_provider (Open configStore (RestoreFromServer c)));
  let bootstrapsFromRecovery := bool_decide (is_Some (Get cluster "spec.bootstrap.recovery")) in
  let mode := ResolveMode policy bootstrapsFromRecovery in
  resolution ←
    wrapM "while selecting a snapshot for server %q in ConfigStore %q: %w"
      [AStr (RestoreFromServer c); AStr (cs_Name configStore)]
      (on_objects (@Select_ W (@store_selector W (backend_of backend) layout) _ mode policy
         (Some {| al_Cluster := Some cluster; al_Namespace := namespace;
                  al_Backups := Some (KubeBackupLookup k) |})));
  lift (apply_snapshot now configStore c skips transforms resolution cluster).

Definition request_namespace (request : Request) (cluster : object) : string :=
  if decide (rq_Namespace request = "") then
    match Get cluster "metadata.namespace" with Some (AString value) => value | _ => "" end
  else rq_Namespace request.

Definition Handle (now : Z) (k : K) (request : Request) : world → world * Response := λ w,
  match FromJSON (rq_Raw request) with
  | Err err => (w, Errored StatusBadRequest
                     (Wrapf "cannot decode the Cluster being created: %w" [] err))
  | Ok cluster =>
      let namespace := request_namespace request cluster in
      match pluginParameters cluster with
      | None => (w, Allowed "the chronicle plugin is not configured on this cluster")
      | Some parameters =>
          let clusterName := match Get cluster "metadata.name" with Some (AString s) => s | _ => "" end in
          let configuration := with_presence (NewFromParameters parameters clusterName) None true in
          match Validate configuration with
          | Err err => (w, Denied err)
          | Ok _ =>
              match checkSourceIsNotAlsoDestination configuration with
              | Err err => (w, Denied err)
              | Ok _ =>
                  if negb (IsRestoreRequested configuration)
                  then (w, Allowed "no chronicle restore configured")
                  else if decide (is_Some (GetSegments cluster annotation_segments))
                  then (w, Allowed "already restored")
                  else match restore now k namespace configuration cluster w with
                  | (w, Err err) => (w, Denied err)
                  | (w, Ok (_, _, patched)) => (w, PatchResponseFromRaw (rq_Raw request) patched)
                  end
              end
          end
      end
  end.

End webhook.

(** ** Properties *)

Section properties.
Context `{CnpgLib} `{QuantityLib} `{GoPlatform} `{!CelEngine} `{Fmt}.
Context {K : Type} `{KubeReader K} {P B W : Type} `{Provider P B}.
Context (backend_of : B → Backend W) (walk : object → list Leaf).
Context (Hwalk : ∀ tree, walk tree ≡ₚ WalkLeaves tree).

Lemma denied_segments d :
  d ∈ DeniedPaths →
  (∃ y, Split d = ["spec"; y] ∧ d = "spec." +:+ y)
  ∨ (∃ y, Split d = ["metadata"; y] ∧ y ≠ "labels" ∧ y ≠ "annotations") ∨ Split d = ["status"].
Proof.
  revert d. apply Forall_forall. unfold DeniedPaths.
  repeat (apply Forall_cons; split;
    [first [left; eexists; split; reflexivity
           |right; left; eexists; split_and!; [reflexivity|discriminate|discriminate]
           |right; right; reflexivity]|]).
  by apply Forall_nil.
Qed.

(** A change lies beside every denied path: neither on it, nor above, nor
    beneath. *)
Lemma change_beside_denied snap leaves skips t plan c d :
  leaves ≡ₚ WalkLeaves (restorableTree snap) → BuildPlan leaves skips t = Ok plan →
  c ∈ Changes plan → d ∈ DeniedPaths → unrelated (ch_segments c) (Split d).
Proof.
  intros Hp Hb Hc Hd. apply (elem_of_changes _ _ _ _ _ Hb) in Hc as (leaf & Hl & Hc).
  apply change_of_Some in Hc as (Hnd & _ & _ & Hpath & Hseg & _). rewrite Hseg, Hpath in *. clear Hseg Hpath.
  rewrite Hp in Hl. destruct leaf as [p v]. cbn [Segments].
  apply restorable_leaf in Hl as [(k & r & -> & _)|Hm].
  - destruct (denied_segments d Hd) as [(y & -> & ->)|[(y & -> & _)| ->]];
      apply unrelated_cons; [right|by left|by left].
    apply unrelated_cons. left. intros ->.
    revert Hnd. apply not_false_iff_true, IsDeniedPath_spec. eexists. split; [exact Hd|].
    destruct r as [|t' r]; [by left|]. right. rewrite !Leaf_Path_cons by done.
    exists (Leaf_Path (MkLeaf (t' :: r) v)). done.
  - assert (∃ s q, p = "metadata" :: s :: q ∧ (s = "labels" ∨ s = "annotations")) as (s & q & -> & Hs)
      by (destruct Hm as [(key & x & -> & _)|(key & x & -> & _)]; eauto 6).
    destruct (denied_segments d Hd) as [(y & -> & ->)|[(y & -> & Hy1 & Hy2)| ->]];
      apply unrelated_cons; [by left|right|by left].
    apply unrelated_cons. left. destruct Hs; congruence.
Qed.

(** The annotation is beside every denied path. *)
Lemma annotation_beside_denied d : d ∈ DeniedPaths → unrelated annotation_segments (Split d).
Proof.
  intros Hd. unfold annotation_segments.
  destruct (denied_segments d Hd) as [(y & -> & _)|[(y & -> & _ & Hy)| ->]];
    apply unrelated_cons; [by left|right|by left].
  apply unrelated_cons. left. congruence.
Qed.

(** What admission makes of a cluster it restores. *)
Record restored (now : Z) (store : ConfigStore) (c : PluginConfiguration) (skips : SkipSet)
    (transforms : TransformSet) (resolution : Resolution) (cluster cluster' : object)
    (record : RestoreRecord) (plan : Plan) : Prop := {
  rd_plan : BuildPlan (walk (restorableTree (res_Snapshot resolution))) skips transforms = Ok plan;
  rd_changes : Changes plan ≠ [];
  rd_record : record = record_of now store c resolution plan;
  rd_annotation : ∃ encoded, marshal_record record = Ok encoded
    ∧ GetSegments cluster' annotation_segments = Some (AString encoded);
  rd_set : ∀ ch, ch ∈ Changes plan → unrelated annotation_segments (ch_segments ch) →
    GetSegments cluster' (ch_segments ch) = Some (ch_value ch);
  rd_frame : ∀ q, unrelated annotation_segments q → (∀ ch, ch ∈ Changes plan → unrelated (ch_segments ch) q) →
    GetSegments cluster' q = GetSegments cluster q
}.

Lemma apply_snapshot_Ok now store c skips transforms resolution cluster record cluster' patched :
  apply_snapshot walk now store c skips transforms resolution cluster = Ok (record, cluster', patched) →
  patched = encode_doc (doc_of_object cluster')
  ∧ ∃ plan, restored now store c skips transforms resolution cluster cluster' record plan.
Proof.
  unfold apply_snapshot.
  cbn [BuildPlan_of]. destruct (BuildPlan _ skips transforms) as [plan|] eqn:Hb; [|done]. rewrite ok_bind.
  destruct (decide (length (Changes plan) = 0)) as [|Hne]; [done|].
  destruct (Plan_Apply plan cluster) as [m [[]|e]] eqn:Ha; [|done]. rewrite ok_bind. cbv zeta.
  unfold annotateWithRecord. destruct (marshal_record _) as [encoded|] eqn:Hm; [|done].
  rewrite wrap_ok, ok_bind. destruct (SetSegments m annotation_segments _) as [m'|] eqn:Hs; [|done].
  unfold Marshal. destruct (numbers_valid _); [|done]. rewrite wrap_ok, !ok_bind.
  intros [= <- <- <-]. split; [done|]. exists plan.
  apply apply_changes_Ok in Ha. pose proof (sorted_writes_disjoint _ _ _ _ _ (Hwalk _) Hb) as Hd. split.
  - done.
  - intros He. apply Hne. by rewrite He.
  - done.
  - exists encoded. split; [done|]. by eapply get_set_same.
  - intros ch Hch Hu. rewrite (get_set_frame _ _ _ _ _ Hs Hu).
    eapply set_all_get; [done|done|]. apply list_elem_of_fmap. by exists ch.
  - intros q Hq Hu. rewrite (get_set_frame _ _ _ _ _ Hs Hq).
    eapply set_all_frame; [done|]. intros p. rewrite writes_fst.
    intros (ch & -> & Hch)%list_elem_of_fmap. by apply Hu.
Qed.

(** Identity, topology and the plugin's own declaration are the user's. *)
Lemma restored_denied now store c skips transforms resolution cluster cluster' record plan d :
  restored now store c skips transforms resolution cluster cluster' record plan →
  d ∈ DeniedPaths → Get cluster' d = Get cluster d.
Proof.
  intros Hr Hd. apply (rd_frame _ _ _ _ _ _ _ _ _ _ Hr); [by apply annotation_beside_denied|].
  intros ch Hch. eapply change_beside_denied; [apply Hwalk|apply (rd_plan _ _ _ _ _ _ _ _ _ _ Hr)|done|done].
Qed.

(** The configuration the handler reads off a cluster. *)
Definition configuration_of (cluster : object) : option PluginConfiguration :=
  parameters ← pluginParameters cluster;
  let clusterName := match Get cluster "metadata.name" with Some (AString s) => s | _ => "" end in
  Some (with_presence (NewFromParameters parameters clusterName) None true).

(** A patch is answered only when everything before the restore let it
    through. *)
Lemma Handle_inv now k request w w' raw patched :
  Handle backend_of walk now k request w = (w', PatchResponseFromRaw raw patched) →
  ∃ cluster c record cluster' store skips transforms resolution plan,
    FromJSON (rq_Raw request) = Ok cluster ∧ raw = rq_Raw request
    ∧ configuration_of cluster = Some c ∧ Validate c = Ok ()
    ∧ checkSourceIsNotAlsoDestination c = Ok () ∧ IsRestoreRequested c = true
    ∧ GetSegments cluster annotation_segments = None
    ∧ patched = encode_doc (doc_of_object cluster')
    ∧ restore backend_of walk now k (request_namespace request cluster) c cluster w
      = (w', Ok (record, cluster', patched))
    ∧ restored now store c skips transforms resolution cluster cluster' record plan.
Proof.
  unfold Handle. destruct (FromJSON _) as [cluster|] eqn:Hj; [|done]. cbv zeta.
  destruct (pluginParameters cluster) as [parameters|] eqn:Hp; [|done].
  set (c := with_presence _ None true).
  destruct (Validate c) as [[]|] eqn:Hv; [|done].
  destruct (checkSourceIsNotAlsoDestination c) as [[]|] eqn:Hc; [|done].
  destruct (IsRestoreRequested c) eqn:Hr; simpl; [|done].
  destruct (decide (is_Some _)) as [|Hn]; [done|].
  destruct (restore _ _ _ _ _ _ _ w) as [w1 [[[record cluster'] patched']|e]] eqn:Hs; [|done].
  intros [= -> <- <-].
  assert (∃ store skips transforms resolution,
    apply_snapshot walk now store c skips transforms resolution cluster
    = Ok (record, cluster', patched')) as (store & skips & transforms & resolution & Ha).
  { revert Hs. unfold restore, mbind, prog_bind, lift, wrapM, on_provider, on_objects.
    destruct (load k _ c) as [[store policy]|]; [|done].
    destruct (wrap _ _ (CompileRules _ _)) as [[skips transforms]|]; [|done].
    destruct (Open store _ _) as [p' [[b l]|]]; simpl; [|done].
    destruct (Select_ _ _ _ _) as [w2 [resolution|]]; simpl; [|done].
    intros [= _ Ha]. by eauto. }
  destruct (apply_snapshot_Ok _ _ _ _ _ _ _ _ _ _ Ha) as [-> [plan Hres]].
  exists cluster, c, record, cluster', store, skips, transforms, resolution, plan. split_and!; try done.
  - unfold configuration_of. by rewrite Hp.
  - by apply eq_None_not_Some.
Qed.

(** C12: A restore adds the record, and leaves identity, topology, backups and the
    plugin's own declaration as the user wrote them. *)
Theorem Handle_preserves_identity now k request w w' raw patched :
  Handle backend_of walk now k request w = (w', PatchResponseFromRaw raw patched) →
  ∃ cluster cluster' record,
    FromJSON raw = Ok cluster ∧ patched = encode_doc (doc_of_object cluster')
    ∧ (∀ d, d ∈ DeniedPaths → Get cluster' d = Get cluster d)
    ∧ GetSegments cluster annotation_segments = None
    ∧ ∃ encoded, marshal_record record = Ok encoded
        ∧ GetSegments cluster' annotation_segments = Some (AString encoded).
Proof.
  intros (cluster & c & record & cluster' & store & skips & transforms & resolution & plan & Hj & -> & _
    & _ & _ & _ & Hn & -> & _ & Hres)%Handle_inv.
  exists cluster, cluster', record. split_and!; try done.
  - intros d. by eapply restored_denied.
  - by destruct Hres.
Qed.

(** C11: Admission may run twice.  When JSON can hold what the restore made of the
    cluster, the second run sees the record and lets the cluster pass as it is,
    without reading the store, whatever has been captured in between. *)
Theorem Handle_reinvoked now k request w w' raw patched :
  Handle backend_of walk now k request w = (w', PatchResponseFromRaw raw patched) →
  ∃ cluster c record cluster',
    FromJSON (rq_Raw request) = Ok cluster ∧ configuration_of cluster = Some c
    ∧ restore backend_of walk now k (request_namespace request cluster) c cluster w
      = (w', Ok (record, cluster', patched))
    ∧ (doc_ok (doc_of_object cluster') = true →
       ∀ now2 k2 namespace w2,
         Handle backend_of walk now2 k2 {| rq_Raw := patched; rq_Namespace := namespace |} w2
         = (w2, Allowed "already restored")).
Proof.
  intros (cluster & c & record & cluster' & store & skips & transforms & resolution & plan & Hj & -> & Hc
    & Hv & Hsrc & Hr & _ & Hpatched & Hrestore & Hres)%Handle_inv.
  exists cluster, c, record, cluster'. do 3 (split; [done|]). rewrite Hpatched. intros Hok now2 k2 namespace w2.
  assert (∀ d, d ∈ DeniedPaths → Get cluster' d = Get cluster d) as Hid
    by (intros d; by eapply restored_denied).
  assert (configuration_of cluster' = Some c) as Hc'.
  { rewrite <-Hc. unfold configuration_of, pluginParameters.
    rewrite (Hid "spec.plugins"), (Hid "metadata.name"); [done| |]; unfold DeniedPaths; set_solver. }
  unfold Handle. cbn [rq_Raw]. unfold FromJSON at 1.
  rewrite (decode_encode _ Hok), ok_bind.
  change (any_of_doc (doc_of_object cluster')) with (any_of_doc (doc_of_any (AMap cluster'))).
  rewrite any_of_doc_of_any. cbv zeta. unfold configuration_of in Hc'.
  destruct (pluginParameters cluster') as [parameters|]; [|done]. rewrite some_bind in Hc'.
  injection Hc' as Hc'. rewrite Hc', Hv, Hsrc, Hr. simpl negb. cbv iota.
  destruct (rd_annotation _ _ _ _ _ _ _ _ _ _ Hres) as (encoded & _ & Hann).
  rewrite decide_True; [done|]. rewrite Hann. by eexists.
Qed.

(** A cluster is never restored from the history it writes, nor from a store
    without a server. *)
Theorem Handle_checked now k request w w' raw patched :
  Handle backend_of walk now k request w = (w', PatchResponseFromRaw raw patched) →
  ∃ cluster c, FromJSON (rq_Raw request) = Ok cluster ∧ configuration_of cluster = Some c
    ∧ RestoreFromStore c ≠ "" ∧ RestoreFromServer c ≠ ""
    ∧ (SaveToStore c = RestoreFromStore c → SaveToServer c ≠ RestoreFromServer c).
Proof.
  intros (cluster & c & record & cluster' & store & skips & transforms & resolution & plan & Hj & _ & Hc
    & Hv & Hsrc & Hr & _ & _ & _ & _)%Handle_inv.
  exists cluster, c. split_and!; try done.
  - unfold IsRestoreRequested in Hr. apply andb_true_iff in Hr as [_ Hr]. by apply bool_decide_eq_true in Hr.
  - by apply Validate_restore.
  - unfold checkSourceIsNotAlsoDestination in Hsrc. intros He Hs.
    assert (RestoreFromStore c ≠ "") as Hne.
    { unfold IsRestoreRequested in Hr. apply andb_true_iff in Hr as [_ Hr]. by apply bool_decide_eq_true in Hr. }
    rewrite decide_False in Hsrc by (rewrite He; naive_solver). rewrite !decide_False in Hsrc by tauto. done.
Qed.

End properties.
