(* ===== verification/Recovery.v ===== *)
(** * From a capture to a recovered cluster

    The plugin's purpose, end to end: the capture hook has let a cluster state
    pass; later a Cluster is created that names the same store and server to
    restore from; admission patches it, and the patch holds the configuration
    that was captured. *)

From S2P Require Import Prelude GoStrings GoTime GoJson Pathutil Cnpg Denylist Snapshot Api Layout Kube Backend.
From S2P Require Import JsonText SnapshotStore History Integrity RecoveryTarget Select Resolver GoFloat Celenv Skip.
From S2P Require Import Transform.
From S2P Require Import Plan CaptureRestore Config Operator Webhook.

#[local] Open Scope stdpp_scope.

Section recovery.
Context `{CnpgLib} `{QuantityLib} `{GoPlatform} `{!CelEngine} `{Fmt}.
Context {K : Type} `{KubeReader K} {P B W : Type} `{Provider P B}.
Context (backend_of : B → Backend W) (GetKind : string → result string) (Version : string).
Context (walk : object → list Leaf) (Hwalk : ∀ tree, walk tree ≡ₚ WalkLeaves tree).
Context (objects : B → W → gmap string string)
        `{Hspec : !∀ b, @BackendSpec W (backend_of b) (objects b)}.

(** A Cluster under creation that restores from one history, with no policy and
    no recovery of its own to align with. *)
Record restores_from (k : K) (request : Request) (cluster : object) (c : PluginConfiguration)
    (store : ConfigStore) (w : RestoreWorld P W) (p' : P) (b : B) (l : Layout) : Prop := {
  rf_cluster : FromJSON (rq_Raw request) = Ok cluster;
  rf_configuration : configuration_of cluster = Some c;
  rf_store : load k (request_namespace request cluster) c = Ok (store, None);
  rf_open : Open store (RestoreFromServer c) (rw_provider w) = (p', Ok (b, l));
  rf_bootstrap : Get cluster "spec.bootstrap.recovery" = None
}.

(** What is then restored is the newest snapshot, under no rules. *)
Lemma restore_latest now k request cluster c store w p' b l w' record cluster' patched :
  restores_from k request cluster c store w p' b l →
  restore backend_of walk now k (request_namespace request cluster) c cluster w
  = (w', Ok (record, cluster', patched)) →
  ∃ w1 latest key resolution plan,
    @Latest W (backend_of b) l (rw_objects w) = (w1, Ok (latest, key))
    ∧ res_Snapshot resolution = latest ∧ patched = encode_doc (doc_of_object cluster')
    ∧ restored walk now store c [] no_transforms resolution cluster cluster' record plan.
Proof.
  intros [_ _ Hload Hopen Hboot]. unfold restore, mbind, prog_bind, lift, wrapM, Webhook.on_provider, Webhook.on_objects.
  rewrite Hload. cbn [policySkips policyTransforms]. rewrite CompileRules_none. simpl. rewrite Hopen. simpl.
  rewrite Hboot. rewrite bool_decide_eq_false_2 by (intros [? ?]; done).
  change (ResolveMode None false) with SelectLatest.
  unfold Select_. rewrite decide_True by done. unfold latest_resolution, mbind, prog_bind, sel_Latest, store_selector.
  destruct (@Latest W (backend_of b) l (rw_objects w)) as [w1 [[latest key]|e]] eqn:Hl; simpl; [|done].
  intros [= _ Ha]. destruct (apply_snapshot_Ok walk Hwalk _ _ _ _ _ _ _ _ _ _ Ha) as [-> [plan Hr]].
  exists w1, latest, key. eexists. exists plan.
  split; [done|]. split; [|split; [done|exact Hr]]. done.
Qed.

(** The record's annotation is not one that is captured. *)
Lemma leaf_beside_annotation snap skips t plan leaves ch :
  leaves ≡ₚ WalkLeaves (restorableTree snap) → BuildPlan leaves skips t = Ok plan →
  ch ∈ Changes plan → unrelated annotation_segments (ch_segments ch).
Proof.
  intros Hp Hb Hc. apply (elem_of_changes _ _ _ _ _ Hb) in Hc as (leaf & Hl & Hc).
  apply change_of_Some in Hc as (_ & Hnd & _ & _ & Hseg & _). rewrite Hseg in *. clear Hseg.
  rewrite Hp in Hl. destruct leaf as [p v]. cbn [Segments] in *. unfold annotation_segments.
  apply restorable_leaf in Hl as [(k & r & -> & _)|[(key & x & -> & _)|(key & x & -> & _)]];
    apply unrelated_cons; [by left|right..]; apply unrelated_cons; [by left|right].
  apply unrelated_cons. left. intros <-. revert Hnd. by vm_compute.
Qed.




End recovery.
