(* ===== verification/Controller.v ===== *)
(** * internal/controller: reconciling ConfigStores and RestorePolicies

    configstore_controller.go, restorepolicy_controller.go and
    status_equality.go.  Each reading of the clock is an argument. *)

From S2P Require Import Prelude GoStrings GoTime GoJson GoFloat Api Cnpg Kube Groups Denylist Snapshot Layout.
From S2P Require Import Backend SnapshotStore Retention Resolver Celenv Skip Transform Plan Config.

#[local] Open Scope stdpp_scope.

(** ** status_equality.go *)

Definition without_transition (c : Condition) : Condition :=
  {| cond_Type := cond_Type c; cond_Status := cond_Status c;
     cond_ObservedGeneration := cond_ObservedGeneration c; cond_LastTransitionTime := zero_time;
     cond_Reason := cond_Reason c; cond_Message := cond_Message c |}.

Fixpoint equalConditions (a b : list Condition) : bool :=
  match a, b with
  | [], [] => true
  | x :: a, y :: b =>
      bool_decide (without_transition x = without_transition y) && equalConditions a b
  | _, _ => false
  end.

Definition without_observed (r : ResolvedStore) : ResolvedStore :=
  {| rs_DestinationPath := rs_DestinationPath r; rs_EndpointURL := rs_EndpointURL r;
     rs_Provider := rs_Provider r; rs_Retention := rs_Retention r;
     rs_CaptureGroups := rs_CaptureGroups r; rs_Source := rs_Source r; rs_ObservedAt := None |}.

Definition equalStatus (a b : ConfigStore) : bool :=
  equalConditions (css_Conditions (cs_Status a)) (css_Conditions (cs_Status b))
  && match css_Resolved (cs_Status a), css_Resolved (cs_Status b) with
     | None, None => true
     | Some x, Some y => bool_decide (without_observed x = without_observed y)
     | _, _ => false
     end.

(** ** The API server, as the controllers use it *)

Class KubeController (K : Type) `{KubeReader K} := {
  (** The Clusters of a namespace. *)
  kube_clusters : K → string → result (list Cluster);
  (** [Status().Patch(ctx, updated, client.MergeFrom(original))]. *)
  patch_config_store : ConfigStore → ConfigStore → prog K unit;
  patch_restore_policy : RestorePolicy → RestorePolicy → prog K unit
}.

(** [meta.SetStatusCondition], given the instant it may stamp. *)
Class MetaLib := { SetStatusCondition : Z → list Condition → Condition → list Condition }.

Definition ConditionTrue : string := "True".
Definition ConditionFalse : string := "False".

(** The condition as the controllers pass it: the other fields are zero. *)
Definition condition (type status reason message : string) : Condition :=
  {| cond_Type := type; cond_Status := status; cond_ObservedGeneration := 0;
     cond_LastTransitionTime := zero_time; cond_Reason := reason; cond_Message := message |}.

Record Result := { RequeueAfter : Z }.

Definition resyncInterval : Z := 10 * Minute.
Definition notReadyRetryInterval : Z := Minute.

(** ** Retention *)

Definition effectiveRetention (configStore : ConfigStore) (resolved : Resolved) : result Z :=
  let value := GetRetention configStore in
  if decide (value = RetentionForever) then Ok 0%Z
  else if decide (value = RetentionInherit) then
    if decide (rv_InheritedRetention resolved = "") then
      Err (Errorf "retention is %s, but the object store this derives from sets no retentionPolicy. Set one there, or give this store an explicit retention like 30d"
             [AStr RetentionInherit])
    else wrap "inherited %w" [] (ParseRetentionWindow (rv_InheritedRetention resolved))
  else ParseRetentionWindow value.

(** [time.Duration.Hours]. *)
Definition Hours (d : Z) : float :=
  fadd (float_of_Z (Z.quot d Hour)) (fdiv (float_of_Z (Z.rem d Hour)) (float_of_Z Hour)).

Definition describeRetention `{GoPlatform} (window : Z) : string :=
  if decide (window = 0)%Z then RetentionForever
  else FormatInt (float_to_int64 (fdiv (Hours window) (float_of_Z 24))) +:+ "d".

Definition validateCaptureGroups (configured : list string) : result unit :=
  let unknown := filter (λ name, LookupGroup name = None) configured in
  match unknown with
  | [] => Ok ()
  | _ => Err (Errorf "unknown capture group(s) %s; valid groups are %s"
                [AStr (Join unknown ", "); AStr (Join GroupNames ", ")])
  end.

(** ** ConfigStoreReconciler *)

(** [errors.As(err, &crdAbsent)]. *)
Definition is_crd_absent : error → bool :=
  error_exists (λ x, match x with CRDAbsent _ => true | _ => false end).

Record checkedStore (B : Type) := {
  ck_resolved : Resolved;
  ck_backend : B;
  ck_retention : Z;
  ck_bucketMissing : bool
}.
Arguments ck_resolved {B}.
Arguments ck_backend {B}.
Arguments ck_retention {B}.
Arguments ck_bucketMissing {B}.

(** What [check] returns: a usable store, or a reason with its error. *)
Inductive verdict (B : Type) := Usable (checked : checkedStore B) | Unusable (reason : string) (err : error).
Arguments Usable {B}.
Arguments Unusable {B}.

Record CtrlWorld (K P W : Type) := { cw_kube : K; cw_provider : P; cw_objects : W }.
Arguments cw_kube {K P W}.
Arguments cw_provider {K P W}.
Arguments cw_objects {K P W}.

(** The store with another status. *)
Definition with_store_status (s : ConfigStore) (status : ConfigStoreStatus) : ConfigStore :=
  {| cs_Name := cs_Name s; cs_Namespace := cs_Namespace s; cs_Generation := cs_Generation s;
     cs_Spec := cs_Spec s; cs_Status := status |}.

Section configstore.
Context `{GoPlatform} `{Fmt} `{MetaLib} {K : Type} `{KubeController K} {P B W : Type} `{Provider P B}.
Context (backend_of : B → Backend W).

Abbreviation world := (CtrlWorld K P W).

Definition set_provider (w : world) (p : P) : world :=
  {| cw_kube := cw_kube w; cw_provider := p; cw_objects := cw_objects w |}.
Definition set_objects (w : world) (o : W) : world :=
  {| cw_kube := cw_kube w; cw_provider := cw_provider w; cw_objects := o |}.
Definition set_kube (w : world) (k : K) : world :=
  {| cw_kube := k; cw_provider := cw_provider w; cw_objects := cw_objects w |}.

Definition check (configStore : ConfigStore) (w : world) : world * verdict B :=
  match pv_Resolve configStore (cw_provider w) with
  | (p, Err err) =>
      (set_provider w p,
       Unusable (if is_crd_absent err then ReasonObjectStoreCRDAbsent
                 else if is_kube_not_found err then ReasonObjectStoreMissing
                 else ReasonConfigurationInvalid) err)
  | (p, Ok resolved) =>
      let w := set_provider w p in
      match validateCaptureGroups (GetCaptureGroups configStore) with
      | Err err => (w, Unusable ReasonConfigurationInvalid err)
      | Ok _ =>
          match effectiveRetention configStore resolved with
          | Err err => (w, Unusable ReasonConfigurationInvalid err)
          | Ok retention =>
              match pv_Backend (cs_Namespace configStore) resolved (cw_provider w) with
              | Err err => (w, Unusable ReasonConfigurationInvalid err)
              | Ok backend =>
                  match @Check_ W (backend_of backend) (Path (rv_Destination resolved)) (cw_objects w) with
                  | (o, Err err) =>
                      if negb (errors_is ErrBucketNotFound err)
                      then (set_objects w o, Unusable ReasonObjectStoreUnreachable err)
                      else (set_objects w o,
                            Usable {| ck_resolved := resolved; ck_backend := backend;
                                      ck_retention := retention; ck_bucketMissing := true |})
                  | (o, Ok _) =>
                      (set_objects w o,
                       Usable {| ck_resolved := resolved; ck_backend := backend;
                                 ck_retention := retention; ck_bucketMissing := false |})
                  end
              end
          end
      end
  end.

(** The status that reports a verdict. *)
Definition report (observedAt transitionAt : Z) (configStore : ConfigStore) (v : verdict B) : ConfigStore :=
  match v with
  | Unusable reason err =>
      with_store_status configStore
        {| css_Resolved := None;
           css_Conditions := SetStatusCondition transitionAt (css_Conditions (cs_Status configStore))
             (condition ConditionReady ConditionFalse reason (Error err)) |}
  | Usable checked =>
      let message := "Object store configuration resolved from " +:+ rv_Source (ck_resolved checked) in
      let message :=
        if ck_bucketMissing checked
        then message +:+ Sprintf "; bucket %q does not exist yet and is created on first write"
                           [AStr (Bucket (rv_Destination (ck_resolved checked)))] None
        else message in
      with_store_status configStore
        {| css_Resolved := Some {|
             rs_DestinationPath := DestinationPath (rv_Configuration (ck_resolved checked));
             rs_EndpointURL := EndpointURL (rv_Configuration (ck_resolved checked));
             rs_Provider := rv_Provider (ck_resolved checked);
             rs_Retention := describeRetention (ck_retention checked);
             rs_CaptureGroups := EffectiveGroupNames (GetCaptureGroups configStore);
             rs_Source := rv_Source (ck_resolved checked);
             rs_ObservedAt := Some observedAt |};
           css_Conditions := SetStatusCondition transitionAt (css_Conditions (cs_Status configStore))
             (condition ConditionReady ConditionTrue ReasonResolved message) |}
  end.

(** The loop of [pruneSuperseded]: it stops at the first delete that fails. *)
Fixpoint delete_keys (backend : B) (keys : list string) (o : W) : W :=
  match keys with
  | [] => o
  | key :: rest =>
      match @Delete_ W (backend_of backend) key o with
      | (o, Err _) => o
      | (o, Ok _) => delete_keys backend rest o
      end
  end.

Definition pruneSuperseded (backend : B) (configStore : ConfigStore) (resolved : Resolved)
    (serverName : string) (cutoff : Z) (o : W) : W :=
  match @List W (backend_of backend) (LayoutFor configStore resolved serverName) o with
  | (o, Err _) => o
  | (o, Ok refs) => delete_keys backend (PlanRetention refs cutoff) o
  end.

Definition archives_into (configStore : ConfigStore) (cluster : Cluster) : bool :=
  IsSaveEnabled (NewFromCluster cluster)
  && bool_decide (SaveToStore (NewFromCluster cluster) = cs_Name configStore).

Fixpoint prune_all (configStore : ConfigStore) (checked : checkedStore B) (cutoff : Z)
    (clusters : list Cluster) (o : W) : W :=
  match clusters with
  | [] => o
  | cluster :: rest =>
      prune_all configStore checked cutoff rest
        (if archives_into configStore cluster
         then pruneSuperseded (ck_backend checked) configStore (ck_resolved checked)
                (SaveToServer (NewFromCluster cluster)) cutoff o
         else o)
  end.

Definition enforceRetention (now : Z) (configStore : ConfigStore) (checked : checkedStore B)
    (w : world) : world :=
  if decide (ck_retention checked = 0%Z ∨ ck_bucketMissing checked = true) then w
  else match kube_clusters (cw_kube w) (cs_Namespace configStore) with
  | Err _ => w
  | Ok clusters =>
      let cutoff := (now + wrap64 (- ck_retention checked))%Z in
      set_objects w (prune_all configStore checked cutoff clusters (cw_objects w))
  end.

Definition patchStatus (original updated : ConfigStore) : prog world unit := λ w,
  if equalStatus original updated then (w, Ok ())
  else let '(k, r) := patch_config_store original updated (cw_kube w) in (set_kube w k, r).

(** [observedAt], [transitionAt] and [now] are what the clock reads on the
    way. *)
Definition Reconcile (observedAt transitionAt now : Z) (req : NamespacedName) : prog world Result := λ w,
  match kube_config_store (cw_kube w) req with
  | Err err => (w, if is_kube_not_found err then Ok {| RequeueAfter := 0 |} else Err err)
  | Ok original =>
      let '(w, v) := check original w in
      let updated := report observedAt transitionAt original v in
      match v with
      | Unusable _ _ =>
          (_ ← patchStatus original updated; mret {| RequeueAfter := notReadyRetryInterval |}) w
      | Usable checked =>
          let w := enforceRetention now updated checked w in
          (_ ← patchStatus original updated; mret {| RequeueAfter := resyncInterval |}) w
      end
  end.

End configstore.

(** ** RestorePolicyReconciler *)

Definition with_policy_conditions (p : RestorePolicy) (conditions : list Condition) : RestorePolicy :=
  {| rp_Name := rp_Name p; rp_Namespace := rp_Namespace p; rp_Generation := rp_Generation p;
     rp_Spec := rp_Spec p; rp_Status := {| rps_Conditions := conditions |} |}.

Section restorepolicy.
Context `{CnpgLib} `{QuantityLib} `{GoPlatform} `{!CelEngine} `{Fmt} `{MetaLib}.
Context {K : Type} `{KubeController K}.

(** The verdict on a policy's rules. *)
Definition policy_condition (policy : RestorePolicy) : Condition :=
  match CompileRules (Skip (rp_Spec policy)) (Transform (rp_Spec policy)) with
  | Ok _ => condition ConditionReady ConditionTrue ReasonResolved "Rules are valid"
  | Err err => condition ConditionReady ConditionFalse ReasonConfigurationInvalid (Error err)
  end.

Definition ReconcilePolicy (transitionAt : Z) (req : NamespacedName) : prog K Result := λ k,
  match kube_restore_policy k req with
  | Err err => (k, if is_kube_not_found err then Ok {| RequeueAfter := 0 |} else Err err)
  | Ok original =>
      let policy := with_policy_conditions original
        (SetStatusCondition transitionAt (rps_Conditions (rp_Status original)) (policy_condition original)) in
      if equalConditions (rps_Conditions (rp_Status original)) (rps_Conditions (rp_Status policy))
      then (k, Ok {| RequeueAfter := 0 |})
      else (_ ← patch_restore_policy original policy; mret {| RequeueAfter := 0 |}) k
  end.

End restorepolicy.

(** ** Quiet: a resync that learns nothing writes nothing *)

(** What [meta.SetStatusCondition] documents: the condition of that type is
    replaced in place, or appended when there is none; only the transition
    time may be stamped. *)
Definition stamped (t : Z) (c : Condition) : Condition :=
  {| cond_Type := cond_Type c; cond_Status := cond_Status c;
     cond_ObservedGeneration := cond_ObservedGeneration c; cond_LastTransitionTime := t;
     cond_Reason := cond_Reason c; cond_Message := cond_Message c |}.

Class MetaSpec `{MetaLib} : Prop := {
  set_present now pre old post c :
    Forall (λ x, cond_Type x ≠ cond_Type c) pre → cond_Type old = cond_Type c →
    ∃ t, SetStatusCondition now (pre ++ old :: post) c = pre ++ stamped t c :: post;
  set_absent now conds c :
    Forall (λ x, cond_Type x ≠ cond_Type c) conds →
    ∃ t, SetStatusCondition now conds c = conds ++ [stamped t c]
}.

Lemma equalConditions_refl l : equalConditions l l = true.
Proof. induction l as [|c l IH]; [done|]. simpl. by rewrite bool_decide_eq_true_2. Qed.

Lemma equalConditions_app l1 l2 l3 l4 :
  equalConditions l1 l3 = true → equalConditions l2 l4 = true → equalConditions (l1 ++ l2) (l3 ++ l4) = true.
Proof.
  revert l3. induction l1 as [|c l1 IH]; intros [|d l3]; simpl; try done.
  intros [Hc Hl]%andb_true_iff Hl2. rewrite Hc. by apply IH.
Qed.

Lemma conditions_split (conds : list Condition) type :
  Forall (λ x, cond_Type x ≠ type) conds
  ∨ ∃ pre old post, conds = pre ++ old :: post ∧ Forall (λ x, cond_Type x ≠ type) pre ∧ cond_Type old = type.
Proof.
  induction conds as [|c conds IH]; [by left; constructor|].
  destruct (decide (cond_Type c = type)) as [Hc|Hc].
  - right. exists [], c, conds. by split_and!.
  - destruct IH as [HF|(pre & old & post & -> & HF & Ho)]; [by left; constructor|].
    right. exists (c :: pre), old, post. split_and!; [done|by constructor|done].
Qed.

Section quiet.
Context `{MetaLib} `{!MetaSpec}.

Lemma SetStatusCondition_twice now now' conds c :
  equalConditions (SetStatusCondition now conds c)
    (SetStatusCondition now' (SetStatusCondition now conds c) c) = true.
Proof.
  assert (∃ pre t post, SetStatusCondition now conds c = pre ++ stamped t c :: post
    ∧ Forall (λ x, cond_Type x ≠ cond_Type c) pre) as (pre & t & post & -> & Hpre).
  { destruct (conditions_split conds (cond_Type c)) as [HF|(pre & old & post & -> & HF & Ho)].
    - destruct (set_absent now conds c HF) as [t ->]. by exists conds, t, [].
    - destruct (set_present now pre old post c HF Ho) as [t ->]. by exists pre, t, post. }
  destruct (set_present now' pre (stamped t c) post c Hpre eq_refl) as [t' ->].
  apply equalConditions_app; [apply equalConditions_refl|]. simpl.
  rewrite bool_decide_eq_true_2 by done. apply equalConditions_refl.
Qed.

(** Reporting the same verdict on a store that carries it already is no change:
    the resync every ten minutes patches nothing, however the clock moves. *)
Theorem report_quiet `{GoPlatform} `{Fmt} {B : Type} (v : verdict B) store o t o' t' :
  let reported := report o t store v in
  equalStatus reported (report o' t' reported v) = true.
Proof.
  cbv zeta. unfold equalStatus. apply andb_true_iff. split.
  - destruct v; apply SetStatusCondition_twice.
  - destruct v; simpl; [|done]. by apply bool_decide_eq_true_2.
Qed.

End quiet.

(** ** A usable store *)

Lemma validateCaptureGroups_Ok configured :
  validateCaptureGroups configured = Ok () ↔ known_groups configured.
Proof.
  unfold validateCaptureGroups, known_groups. split.
  - destruct (filter _ configured) eqn:Hf; [|done]. intros _. apply Forall_forall. intros name Hn.
    destruct (LookupGroup name) eqn:Hl; [by eexists|]. exfalso.
    assert (name ∈ filter (λ name, LookupGroup name = None) configured) as Hin
      by (by apply list_elem_of_filter).
    rewrite Hf in Hin. by apply elem_of_nil in Hin.
  - intros HF. rewrite filter_none; [done|]. rewrite Forall_forall in HF. intros name Hn Hl.
    destruct (HF name Hn). congruence.
Qed.

Lemma default_groups_known : known_groups DefaultGroupNames.
Proof.
  unfold known_groups. apply Forall_forall. intros name Hn. unfold DefaultGroupNames, SortStrings in Hn.
  rewrite merge_sort_Permutation in Hn. apply list_elem_of_fmap in Hn as (g & -> & Hg).
  apply list_elem_of_filter in Hg as [_ Hg]. rewrite (LookupGroup_elem g Hg). by eexists.
Qed.

Section usable.
Context `{GoPlatform} `{Fmt} `{MetaLib} {K : Type} `{KubeController K} {P B W : Type} `{Provider P B}.
Context (backend_of : B → Backend W).

(** A list of groups that is accepted holds known groups only, and the default
    groups are known. *)
Lemma validated_groups_known store version :
  validateCaptureGroups (GetCaptureGroups store) = Ok () →
  known_groups (eo_groups {| eo_Groups := GetCaptureGroups store; eo_PluginVersion := version;
                             eo_Now := None |}).
Proof.
  intros Hv%validateCaptureGroups_Ok. unfold eo_groups. simpl.
  destruct (GetCaptureGroups store); [apply default_groups_known|done].
Qed.

(** What Ready means: the configuration resolved, the retention parses, every
    capture group exists, so that a capture into this store never fails for its
    groups, and a backend was built that answered the probe: either it listed
    the destination, or its only complaint is a bucket that is still missing. *)
Theorem check_usable store (w w' : CtrlWorld K P W) checked version :
  check backend_of store w = (w', Usable checked) →
  pv_Resolve store (cw_provider w) = (cw_provider w', Ok (ck_resolved checked))
  ∧ pv_Backend (cs_Namespace store) (ck_resolved checked) (cw_provider w') = Ok (ck_backend checked)
  ∧ effectiveRetention store (ck_resolved checked) = Ok (ck_retention checked)
  ∧ known_groups (eo_groups {| eo_Groups := GetCaptureGroups store; eo_PluginVersion := version;
                               eo_Now := None |})
  ∧ ∃ r, @Check_ W (backend_of (ck_backend checked)) (Path (rv_Destination (ck_resolved checked)))
           (cw_objects w) = (cw_objects w', r)
      ∧ match r with
        | Ok _ => ck_bucketMissing checked = false
        | Err e => ck_bucketMissing checked = true ∧ errors_is ErrBucketNotFound e = true
        end.
Proof.
  unfold check. destruct (pv_Resolve store (cw_provider w)) as [p [resolved|e]] eqn:Hr; [|done].
  destruct (validateCaptureGroups _) as [[]|] eqn:Hv; [|done].
  destruct (effectiveRetention store resolved) as [retention|] eqn:Hret; [|done]. simpl.
  destruct (pv_Backend _ resolved p) as [backend|] eqn:Hb; [|done].
  pose proof (validated_groups_known store version Hv) as Hk.
  destruct (@Check_ W (backend_of backend) _ (cw_objects w)) as [o [[]|e]] eqn:Hc.
  - intros [= <- <-]. simpl. split_and!; try done. by eexists.
  - destruct (errors_is ErrBucketNotFound e) eqn:He; simpl; [|done]. intros [= <- <-]. simpl. split_and!; try done. by eexists.
Qed.

(** ** Pruning *)

Context (objects : B → W → gmap string string)
        `{Hspec : !∀ b, @BackendSpec W (backend_of b) (objects b)}.

Lemma delete_keys_objects b keys o key :
  objects b (delete_keys backend_of b keys o) !! key = objects b o !! key
  ∨ key ∈ keys ∧ objects b (delete_keys backend_of b keys o) !! key = None.
Proof.
  revert o. induction keys as [|k keys IH]; intros o; [by left|]. simpl.
  destruct (@Delete_ W (backend_of b) k o) as [o1 [u|e]] eqn:Hd; apply delete_spec in Hd.
  - destruct (IH o1) as [Heq|[Hin Hn]]; [|right; split; [by right|done]].
    rewrite Heq, Hd. destruct (decide (k = key)) as [->|Hne].
    + right. split; [left|apply lookup_delete_eq].
    + left. by apply lookup_delete_ne.
  - destruct Hd as [-> | ->]; [by left|]. destruct (decide (k = key)) as [->|Hne].
    + right. split; [left|apply lookup_delete_eq].
    + left. by apply lookup_delete_ne.
Qed.

(** Checking a store reads. *)
Lemma check_quiet store (w w' : CtrlWorld K P W) checked :
  check backend_of store w = (w', Usable checked) →
  cw_kube w' = cw_kube w
  ∧ objects (ck_backend checked) (cw_objects w') = objects (ck_backend checked) (cw_objects w).
Proof.
  unfold check. destruct (pv_Resolve store (cw_provider w)) as [p [resolved|e]]; [|done].
  destruct (validateCaptureGroups _); [|done].
  destruct (effectiveRetention store resolved); [|done]. simpl.
  destruct (pv_Backend _ resolved p) as [backend|]; [|done].
  destruct (@Check_ W (backend_of backend) _ (cw_objects w)) as [o [[]|e]] eqn:Hc; apply check_spec in Hc.
  - by intros [= <- <-].
  - by destruct (errors_is ErrBucketNotFound e); [|done]; intros [= <- <-].
Qed.

(** It lists, and deletes what the plan for the listing says. *)
Lemma pruneSuperseded_deletes b store resolved server cutoff o :
  let prefix := SnapshotsPrefix (LayoutFor store resolved server) in
  let refs := sortRefs (refs_of_keys (keys_under (objects b o) prefix)) in
  ∃ o1, objects b o1 = objects b o
    ∧ (pruneSuperseded backend_of b store resolved server cutoff o = o1
       ∨ pruneSuperseded backend_of b store resolved server cutoff o
         = delete_keys backend_of b (PlanRetention refs cutoff) o1).
Proof.
  cbv zeta. unfold pruneSuperseded, List, mbind, prog_bind.
  destruct (@List_ W (backend_of b) _ o) as [o1 [keys|e]] eqn:Hl; apply list_spec in Hl as [Ho Hk];
    exists o1; (split; [done|]); [right; by rewrite Hk|by left].
Qed.

(** It touches nothing outside the history's snapshots. *)
Lemma pruneSuperseded_outside b store resolved server cutoff o key :
  HasPrefix key (SnapshotsPrefix (LayoutFor store resolved server)) = false →
  objects b (pruneSuperseded backend_of b store resolved server cutoff o) !! key = objects b o !! key.
Proof.
  intros Hout.
  destruct (pruneSuperseded_deletes b store resolved server cutoff o) as (o1 & Ho & [-> | ->]); [by rewrite Ho|].
  edestruct delete_keys_objects as [Heq|[Hin _]]; [by rewrite Heq, Ho|]. exfalso.
  apply PlanRetention_superseded in Hin as (ref & anchor & Hr & <- & _).
  2: { rewrite sortRefs_Permutation. apply refs_of_keys_NoDup, NoDup_keys_under. }
  rewrite sortRefs_Permutation, elem_of_refs_of_keys, elem_of_keys_under in Hr.
  destruct Hr as ((_ & Hp) & _). congruence.
Qed.

(** All of the objects that pruning leaves are as they were. *)
Definition only_deletes (objs objs' : gmap string string) : Prop :=
  ∀ key, objs' !! key = objs !! key ∨ objs' !! key = None.

#[export] Instance only_deletes_preorder : PreOrder only_deletes.
Proof.
  split; [by left|]. intros x y z Hxy Hyz key.
  destruct (Hyz key) as [->|]; [apply Hxy|by right].
Qed.

Lemma pruneSuperseded_only_deletes b store resolved server cutoff o :
  only_deletes (objects b o) (objects b (pruneSuperseded backend_of b store resolved server cutoff o)).
Proof.
  intros key.
  destruct (pruneSuperseded_deletes b store resolved server cutoff o) as (o1 & Ho & [-> | ->]);
    [left; by rewrite Ho|]. rewrite <-Ho.
  edestruct delete_keys_objects as [Heq|[_ Hn]]; [left; exact Heq|right; exact Hn].
Qed.

Lemma prune_all_only_deletes store checked cutoff clusters o :
  only_deletes (objects (ck_backend checked) o)
    (objects (ck_backend checked) (prune_all backend_of store checked cutoff clusters o)).
Proof.
  revert o. induction clusters as [|c clusters IH]; intros o; [done|]. simpl.
  etrans; [|apply IH]. by destruct (archives_into store c); [apply pruneSuperseded_only_deletes|].
Qed.

(** What a reconciliation of a usable store does to the objects: it probes, and
    prunes for the Clusters it lists, if it prunes at all. *)
Lemma Reconcile_objects observedAt transitionAt now req store checked (w w1 w' : CtrlWorld K P W) r :
  kube_config_store (cw_kube w) req = Ok store → check backend_of store w = (w1, Usable checked) →
  Reconcile backend_of observedAt transitionAt now req w = (w', r) →
  let updated := report observedAt transitionAt store (Usable checked) in
  cw_objects w' = cw_objects (enforceRetention backend_of now updated checked w1).
Proof.
  intros Hk Hc Hr updated. unfold Reconcile in Hr. rewrite Hk, Hc in Hr. cbv zeta in Hr.
  unfold mbind, prog_bind, patchStatus in Hr. destruct (equalStatus _ _); [by injection Hr as <- _|].
  destruct (patch_config_store _ _ _) as [k1 [u|e]]; by injection Hr as <- _.
Qed.

Lemma Reconcile_only_deletes observedAt transitionAt now req store checked (w w1 w' : CtrlWorld K P W) r :
  kube_config_store (cw_kube w) req = Ok store → check backend_of store w = (w1, Usable checked) →
  Reconcile backend_of observedAt transitionAt now req w = (w', r) →
  only_deletes (objects (ck_backend checked) (cw_objects w)) (objects (ck_backend checked) (cw_objects w')).
Proof.
  intros Hk Hc Hr. rewrite (Reconcile_objects _ _ _ _ _ _ _ _ _ _ Hk Hc Hr).
  destruct (check_quiet _ _ _ _ Hc) as [_ <-]. unfold enforceRetention.
  destruct (decide _); [done|]. destruct (kube_clusters _ _); [apply prune_all_only_deletes|done].
Qed.

(** C28: Retention deletes only snapshots of this history that a newer one
    supersedes — one that is itself older than the cutoff, and that stays — and
    touches nothing else: not the latest pointer, not another history.  A delete
    that fails changes none of this. *)
Theorem pruneSuperseded_safe b store resolved server cutoff o key :
  let l := LayoutFor store resolved server in
  let o' := pruneSuperseded backend_of b store resolved server cutoff o in
  objects b o' !! key = objects b o !! key
  ∨ objects b o' !! key = None ∧ HasPrefix key (SnapshotsPrefix l) = true
    ∧ ∃ t g t' g' anchor, ParseSnapshotKey key = Ok (t, g) ∧ (t < cutoff)%Z
        ∧ ParseSnapshotKey anchor = Ok (t', g') ∧ (t' < cutoff)%Z
        ∧ String.compare key anchor = Lt
        ∧ is_Some (objects b o' !! anchor) ∧ objects b o' !! anchor = objects b o !! anchor.
Proof.
  cbv zeta. set (l := LayoutFor store resolved server).
  destruct (pruneSuperseded_deletes b store resolved server cutoff o) as (o1 & Ho & [-> | ->]);
    fold l; [left; by rewrite Ho|].
  set (keys := keys_under (objects b o) (SnapshotsPrefix l)). set (refs := sortRefs (refs_of_keys keys)).
  assert (NoDup (Key <$> refs)) as Hnd.
  { unfold refs. rewrite sortRefs_Permutation. apply refs_of_keys_NoDup, NoDup_keys_under. }
  assert (∀ ref, ref ∈ refs → is_Some (objects b o !! Key ref)
    ∧ HasPrefix (Key ref) (SnapshotsPrefix l) = true
    ∧ ParseSnapshotKey (Key ref) = Ok (CapturedAt ref, SnapshotStore.Generation ref)) as Hrefs.
  { intros ref. unfold refs. rewrite sortRefs_Permutation, elem_of_refs_of_keys.
    unfold keys. rewrite elem_of_keys_under. tauto. }
  destruct (delete_keys_objects b (PlanRetention refs cutoff) o1 key) as [Heq|[Hin Hn]].
  { left. by rewrite Heq, Ho. }
  right. split; [done|].
  destruct (PlanRetention_superseded _ _ _ Hnd Hin) as (ref & anchor & Hr & <- & Hrt & Ha & Hat & Hc & Hna).
  destruct (Hrefs _ Hr) as (_ & Hpre & Hparse), (Hrefs _ Ha) as (Hsa & _ & Hparse').
  split; [done|]. exists (CapturedAt ref), (SnapshotStore.Generation ref), (CapturedAt anchor),
    (SnapshotStore.Generation anchor), (Key anchor).
  assert (objects b (delete_keys backend_of b (PlanRetention refs cutoff) o1) !! Key anchor
          = objects b o !! Key anchor) as Hkeep.
  { destruct (delete_keys_objects b (PlanRetention refs cutoff) o1 (Key anchor)) as [Heq|[Hin' _]];
      [by rewrite Heq, Ho|done]. }
  split_and!; try done. by rewrite Hkeep.
Qed.

End usable.

(** ** What a window means *)

Section windows.
Context `{GoPlatform}.

(** The conversion of an [int64] that is in range does not depend on the
    platform. *)
Definition describes (n : Z) : bool :=
  match truncate (fdiv (Hours (n * day)) (float_of_Z 24)) with
  | Some z => bool_decide (z = n)
  | None => false
  end.

Lemma describes_all : forallb describes (seqZ 1 3660) = true.
Proof. vm_compute. reflexivity. Qed.

(** A window of whole days is shown in the status as that number of days,
    although it is computed in floating point: for every window up to ten
    years. *)
Theorem describeRetention_days n :
  (1 ≤ n ≤ 3660)%Z → describeRetention (n * day) = FormatInt n +:+ "d".
Proof.
  intros Hn. pose proof describes_all as Hall. rewrite forallb_forall in Hall.
  specialize (Hall n). unfold describes in Hall. unfold describeRetention.
  rewrite decide_False by (unfold day, Hour, Minute, Second; lia).
  unfold float_to_int64. destruct (truncate _) as [z|].
  - assert (bool_decide (z = n) = true) as Hz
      by (apply Hall, list_elem_of_In, elem_of_seqZ; lia).
    apply bool_decide_eq_true in Hz as ->.
    rewrite decide_True; [done|]. unfold in_int64, min_int64, max_int64. lia.
  - assert (false = true) as Hf by (apply Hall, list_elem_of_In, elem_of_seqZ; lia). done.
Qed.

End windows.

(** ** A window too long for an [int64] *)

Lemma leading_all cutoff l : Forall (λ r, CapturedAt r < cutoff)%Z l → leading cutoff l = length l.
Proof. induction 1 as [|r l Hr _ IH]; [done|]. simpl. by rewrite decide_True, IH by done. Qed.

(** C40: 200000 days overflow a [time.Duration]: the window comes out negative, the
    cutoff lies in the future, and a retention meant to keep five centuries
    plans every snapshot but the newest for deletion. *)
Theorem overflowing_window_deletes store resolved :
  Retention (cs_Spec store) = "200000d" →
  ∃ window, effectiveRetention store resolved = Ok window ∧ (window < 0)%Z
    ∧ ∀ now refs, (∀ r, r ∈ refs → CapturedAt r ≤ now)%Z →
        length (PlanRetention refs (now + wrap64 (- window))) = length refs - 1.
Proof.
  intros Hr. unfold effectiveRetention, GetRetention. rewrite Hr.
  exists (-1166744073709551616)%Z. split; [vm_compute; reflexivity|]. split; [done|].
  intros now refs Hrefs. rewrite PlanRetention_take, length_fmap, length_take.
  rewrite leading_all.
  - rewrite (Permutation_length (merge_sort_Permutation key_order refs)). lia.
  - apply Forall_forall. intros r. rewrite merge_sort_Permutation. intros Hin. specialize (Hrefs _ Hin).
    change (wrap64 (- -1166744073709551616)) with 1166744073709551616%Z. lia.
Qed.
