(* ===== verification/StatusMemory.v ===== *)
(** * Statuses in memory: what a reconciliation mutates

    [Controller] takes a store and the store with its new status for two values.
    In the program the second is the first, written to in place, and the first is
    its deep copy; the report shares the spec's list of groups, and
    [equalStatus] copies before it clears a field.  This file has the segment of
    [Reconcile] between reading the object and patching it, over memory, and shows
    that what it hands to the patch is what [Controller] says. *)

From S2P Require Import Prelude GoStrings GoTime GoFloat Api Memory DeepCopy Groups Snapshot Layout Resolver Controller.

#[local] Open Scope stdpp_scope.

(** ** What the structs stand for, as [Api] has it *)

Definition api_credentials (c : g_S3Credentials option) : S3Credentials :=
  {| AccessKeyID := g_AccessKeyID _ c; SecretAccessKey := g_SecretAccessKey _ c; Region := g_Region _ c;
     SessionToken := g_SessionToken _ c; InheritFromIAMRole := g_InheritFromIAMRole _ c |}.
Definition api_configuration (c : g_ObjectStoreConfiguration option) : ObjectStoreConfiguration :=
  {| DestinationPath := g_DestinationPath _ c; EndpointURL := g_EndpointURL _ c;
     EndpointCA := g_EndpointCA _ c; s3Credentials := api_credentials <$> g_S3 _ c |}.
Definition api_spec (s : g_ConfigStoreSpec option Lists) : ConfigStoreSpec :=
  {| DerivedFrom := g_DerivedFrom _ _ s; Configuration := api_configuration <$> g_Configuration _ _ s;
     Retention := g_Retention _ _ s; CaptureGroups := default [] (g_CaptureGroups _ _ s); Prefix := g_Prefix _ _ s |}.
Definition api_resolved (r : g_ResolvedStore option Lists) : ResolvedStore :=
  {| rs_DestinationPath := g_rs_DestinationPath _ _ r; rs_EndpointURL := g_rs_EndpointURL _ _ r;
     rs_Provider := g_rs_Provider _ _ r; rs_Retention := g_rs_Retention _ _ r;
     rs_CaptureGroups := default [] (g_rs_CaptureGroups _ _ r); rs_Source := g_rs_Source _ _ r;
     rs_ObservedAt := g_rs_ObservedAt _ _ r |}.
Definition api_status (s : g_ConfigStoreStatus option Lists) : ConfigStoreStatus :=
  {| css_Resolved := api_resolved <$> g_Resolved _ _ s; css_Conditions := default [] (g_Conditions _ _ s) |}.

#[export] Instance g_ResolvedStore_eq_dec : EqDecision (g_ResolvedStore option Lists).
Proof. solve_decision. Defined.

(** ** What the segment uses of apimachinery *)

(** The accessors of the metadata, and [meta.SetStatusCondition] on a list of
    conditions in memory.  It may write to the array it is given and to new ones,
    and to nothing else. *)
Class MetaMemory `{MetaV1} `{MetaLib} := {
  om_Name : ObjectMeta_tree → string;
  om_Namespace : ObjectMeta_tree → string;
  om_Generation : ObjectMeta_tree → Z;
  SetStatusCondition_in : Z → slice → Condition → go slice;
  SetStatusCondition_in_spec t s c h conditions :
    read_slice TCondition read_flat h s = Some conditions →
    ∃ h' s', SetStatusCondition_in t s c h = Some (h', s')
      ∧ read_slice TCondition read_flat h' s' = Some (Some (SetStatusCondition t (default [] conditions) c))
      ∧ ∀ l v, h !! l = Some v → sl_array s ≠ Some l → h' !! l = Some v
}.

Section status.
Context `{MetaMemory} `{GoPlatform} `{Fmt} {B : Type}.

Definition api_store (s : g_ConfigStore option Lists TypeMeta ObjectMeta_tree) : ConfigStore :=
  {| cs_Name := om_Name (g_cs_ObjectMeta _ _ _ _ s); cs_Namespace := om_Namespace (g_cs_ObjectMeta _ _ _ _ s);
     cs_Generation := om_Generation (g_cs_ObjectMeta _ _ _ _ s); cs_Spec := api_spec (g_cs_Spec _ _ _ _ s);
     cs_Status := api_status (g_cs_Status _ _ _ _ s) |}.

(** ** status_equality.go, over memory *)

(** Dereferencing, and indexing a slice; both panic. *)
Definition deref (t : go_type) (p : ptr) : go (val t) :=
  match p with None => λ _, None | Some l => load t l end.
Definition slice_index (t : go_type) (s : slice) (i : nat) : go (val t) :=
  match sl_array s with
  | None => λ _, None
  | Some l =>
      if decide (i < sl_len s)%nat then vs ← load_array t l; index vs (sl_off s + i) else λ _, None
  end.

(** The loop of [equalConditions], from index [i] on. *)
Fixpoint equal_from (a b : slice) (i n : nat) : go bool :=
  match n with
  | O => mret true
  | S n =>
      left ← slice_index TCondition a i;
      right ← slice_index TCondition b i;
      if decide (without_transition left ≠ without_transition right) then mret false
      else equal_from a b (S i) n
  end.
Definition equalConditions_in (a b : slice) : go bool :=
  if decide (sl_len a ≠ sl_len b) then mret false else equal_from a b 0 (sl_len a).

(** [reflect.DeepEqual] of two pointers to readable structs. *)
Definition DeepEqual_ResolvedStore (left right : ptr) : go bool := λ h,
  match read_pointer TResolvedStore ResolvedStore_read h left,
        read_pointer TResolvedStore ResolvedStore_read h right with
  | Some x, Some y => Some (h, bool_decide (x = y))
  | _, _ => None
  end.

(** [p.ObservedAt = nil] *)
Definition without_observed_at (v : val TResolvedStore) : val TResolvedStore :=
  {| g_rs_DestinationPath := g_rs_DestinationPath _ _ v; g_rs_EndpointURL := g_rs_EndpointURL _ _ v;
     g_rs_Provider := g_rs_Provider _ _ v; g_rs_Retention := g_rs_Retention _ _ v;
     g_rs_CaptureGroups := g_rs_CaptureGroups _ _ v; g_rs_Source := g_rs_Source _ _ v; g_rs_ObservedAt := None |}.
Definition clear_observed_at (p : ptr) : go unit :=
  match p with
  | None => λ _, None
  | Some l => v ← load TResolvedStore l; store TResolvedStore l (without_observed_at v)
  end.

(** The end of [equalStatus]: two resolved stores, but for when they were. *)
Definition equal_resolved (left right : ptr) : go bool :=
  left ← ResolvedStore_DeepCopy left;
  right ← ResolvedStore_DeepCopy right;
  clear_observed_at left;;
  clear_observed_at right;;
  DeepEqual_ResolvedStore left right.

Definition equalStatus_in (a b : ptr) : go bool :=
  a ← deref TConfigStore a;
  b ← deref TConfigStore b;
  same ← equalConditions_in (g_Conditions _ _ (g_cs_Status _ _ _ _ a)) (g_Conditions _ _ (g_cs_Status _ _ _ _ b));
  if negb same then mret false
  else match g_Resolved _ _ (g_cs_Status _ _ _ _ a), g_Resolved _ _ (g_cs_Status _ _ _ _ b) with
       | None, None => mret true
       | Some l, Some r => equal_resolved (Some l) (Some r)
       | _, _ => mret false
       end.

(** ** configstore_controller.go: the report, in place *)

(** [snapshot.EffectiveGroupNames]: the configured list itself, not a copy,
    unless it is empty. *)
Definition EffectiveGroupNames_in (configured : slice) : go slice :=
  if decide (sl_len configured = 0)%nat then
    l ← make TString (length DefaultGroupNames);
    store_array TString l DefaultGroupNames;;
    mret {| sl_array := Some l; sl_off := 0; sl_len := length DefaultGroupNames |}
  else mret configured.

Definition set_status (v : val TConfigStore) (status : val TConfigStoreStatus) : val TConfigStore :=
  {| g_cs_TypeMeta := g_cs_TypeMeta _ _ _ _ v; g_cs_ObjectMeta := g_cs_ObjectMeta _ _ _ _ v;
     g_cs_Spec := g_cs_Spec _ _ _ _ v; g_cs_Status := status |}.

(** [configStore.Status.Resolved = resolved] *)
Definition set_resolved (configStore : positive) (resolved : ptr) : go unit :=
  v ← load TConfigStore configStore;
  store TConfigStore configStore
    (set_status v {| g_Resolved := resolved; g_Conditions := g_Conditions _ _ (g_cs_Status _ _ _ _ v) |}).

(** [meta.SetStatusCondition(&configStore.Status.Conditions, c)] *)
Definition set_ready (transitionAt : Z) (configStore : positive) (c : Condition) : go unit :=
  v ← load TConfigStore configStore;
  conditions ← SetStatusCondition_in transitionAt (g_Conditions _ _ (g_cs_Status _ _ _ _ v)) c;
  v ← load TConfigStore configStore;
  store TConfigStore configStore
    (set_status v {| g_Resolved := g_Resolved _ _ (g_cs_Status _ _ _ _ v); g_Conditions := conditions |}).

Definition report_in (observedAt transitionAt : Z) (configStore : positive) (v : verdict B) : go unit :=
  match v with
  | Unusable reason err =>
      set_resolved configStore None;;
      set_ready transitionAt configStore (condition ConditionReady ConditionFalse reason (Error err))
  | Usable checked =>
      let message := "Object store configuration resolved from " +:+ rv_Source (ck_resolved checked) in
      let message :=
        if ck_bucketMissing checked
        then message +:+ Sprintf "; bucket %q does not exist yet and is created on first write"
                           [AStr (Bucket (rv_Destination (ck_resolved checked)))] None
        else message in
      now ← new TTime;
      store TTime now observedAt;;
      store_ ← load TConfigStore configStore;
      groups ← EffectiveGroupNames_in (g_CaptureGroups _ _ (g_cs_Spec _ _ _ _ store_));
      resolved ← new TResolvedStore;
      store TResolvedStore resolved
        {| g_rs_DestinationPath := DestinationPath (rv_Configuration (ck_resolved checked));
           g_rs_EndpointURL := EndpointURL (rv_Configuration (ck_resolved checked));
           g_rs_Provider := rv_Provider (ck_resolved checked);
           g_rs_Retention := describeRetention (ck_retention checked);
           g_rs_CaptureGroups := groups;
           g_rs_Source := rv_Source (ck_resolved checked);
           g_rs_ObservedAt := Some now |};;
      set_resolved configStore (Some resolved);;
      set_ready transitionAt configStore (condition ConditionReady ConditionTrue ReasonResolved message)
  end.

(** [Reconcile] from the copy to [patchStatus]: what is patched against, and
    whether there is nothing to patch. *)
Definition reconcile_status (observedAt transitionAt : Z) (configStore : positive) (v : verdict B)
    : go (ptr * bool) :=
  original ← ConfigStore_DeepCopy (Some configStore);
  report_in observedAt transitionAt configStore v;;
  same ← equalStatus_in original (Some configStore);
  mret (original, same).

(** ** [equalStatus] *)

Lemma slice_index_spec t s h x i v :
  read_slice t read_flat h s = Some x → default [] x !! i = Some v → slice_index t s i h = Some (h, v).
Proof.
  intros Hr Hi. pose proof (read_slice_length _ _ _ _ _ Hr) as Hlen.
  apply read_slice_Some in Hr as [[-> ->]|(l & vs & ts & Hs & Ha & Hle & Hts & ->)]; [done|]. simpl in *.
  apply read_flat_Forall2 in Hts as ->. pose proof (lookup_lt_Some _ _ _ Hi) as Hlt. rewrite Hlen in Hlt.
  unfold slice_index. rewrite Hs, decide_True by done. unfold mbind, go_bind, load_array. rewrite Ha. simpl.
  rewrite lookup_take_lt, lookup_drop in Hi by done. unfold index. by rewrite Hi.
Qed.

Lemma equalConditions_length a b : equalConditions a b = true → length a = length b.
Proof.
  revert b. induction a as [|x a IH]; intros [|y b]; try done. simpl.
  intros [_ Hab]%andb_true_iff. by rewrite (IH b).
Qed.

Lemma equal_from_spec a b h (xs ys : option (list Condition)) :
  read_slice TCondition read_flat h a = Some xs → read_slice TCondition read_flat h b = Some ys →
  ∀ n i, (i + n)%nat = length (default [] xs) → (i + n)%nat = length (default [] ys) →
  equal_from a b i n h = Some (h, equalConditions (drop i (default [] xs)) (drop i (default [] ys))).
Proof.
  intros Ha Hb n. induction n as [|n IH]; intros i Hx Hy.
  { rewrite !drop_ge by lia. done. }
  destruct (lookup_lt_is_Some_2 (default [] xs) i) as [x Hxi]; [lia|].
  destruct (lookup_lt_is_Some_2 (default [] ys) i) as [y Hyi]; [lia|].
  simpl. unfold mbind, go_bind. rewrite (slice_index_spec _ _ _ _ _ _ Ha Hxi), (slice_index_spec _ _ _ _ _ _ Hb Hyi).
  rewrite (drop_S _ _ _ Hxi), (drop_S _ _ _ Hyi). simpl.
  destruct (decide (without_transition x = without_transition y)) as [He|He].
  - rewrite decide_False by tauto. rewrite bool_decide_true by done. simpl. apply IH; lia.
  - rewrite decide_True by done. by rewrite bool_decide_false.
Qed.

Lemma equalConditions_in_spec a b h (xs ys : option (list Condition)) :
  read_slice TCondition read_flat h a = Some xs → read_slice TCondition read_flat h b = Some ys →
  equalConditions_in a b h = Some (h, equalConditions (default [] xs) (default [] ys)).
Proof.
  intros Ha Hb. pose proof (read_slice_length _ _ _ _ _ Ha : length (default [] xs) = sl_len a) as Hla.
  pose proof (read_slice_length _ _ _ _ _ Hb : length (default [] ys) = sl_len b) as Hlb.
  unfold equalConditions_in. destruct (decide (sl_len a = sl_len b)) as [He|He].
  - rewrite decide_False by tauto. rewrite (equal_from_spec _ _ _ _ _ Ha Hb) by (simpl; congruence). done.
  - rewrite decide_True by done. destruct (equalConditions _ _) eqn:Hc; [|done].
    apply equalConditions_length in Hc. congruence.
Qed.

(** The fields that are compared. *)
Definition compared (r : g_ResolvedStore option Lists) : g_ResolvedStore option Lists :=
  {| g_rs_DestinationPath := g_rs_DestinationPath _ _ r; g_rs_EndpointURL := g_rs_EndpointURL _ _ r;
     g_rs_Provider := g_rs_Provider _ _ r; g_rs_Retention := g_rs_Retention _ _ r;
     g_rs_CaptureGroups := g_rs_CaptureGroups _ _ r; g_rs_Source := g_rs_Source _ _ r; g_rs_ObservedAt := None |}.
Definition same_status (a b : g_ConfigStoreStatus option Lists) : bool :=
  equalConditions (default [] (g_Conditions _ _ a)) (default [] (g_Conditions _ _ b))
  && match g_Resolved _ _ a, g_Resolved _ _ b with
     | None, None => true
     | Some x, Some y => bool_decide (compared x = compared y)
     | _, _ => false
     end.

Lemma ConfigStoreStatus_read_Some h v t :
  ConfigStoreStatus_read h v = Some t →
  read_pointer TResolvedStore ResolvedStore_read h (g_Resolved _ _ v) = Some (g_Resolved _ _ t)
  ∧ read_slice TCondition read_flat h (g_Conditions _ _ v) = Some (g_Conditions _ _ t).
Proof.
  unfold ConfigStoreStatus_read. destruct (read_pointer _ _ _ _) as [r|]; [|done]. simpl.
  destruct (read_slice _ _ _ _) as [c|]; [|done]. by intros [= <-].
Qed.

Lemma ConfigStore_read_Some h v t :
  ConfigStore_read h v = Some t →
  ObjectMeta_read h (g_cs_ObjectMeta _ _ _ _ v) = Some (g_cs_ObjectMeta _ _ _ _ t)
  ∧ ConfigStoreSpec_read h (g_cs_Spec _ _ _ _ v) = Some (g_cs_Spec _ _ _ _ t)
  ∧ ConfigStoreStatus_read h (g_cs_Status _ _ _ _ v) = Some (g_cs_Status _ _ _ _ t)
  ∧ g_cs_TypeMeta _ _ _ _ v = g_cs_TypeMeta _ _ _ _ t.
Proof.
  unfold ConfigStore_read. destruct (ObjectMeta_read _ _) as [m|]; [|done]. simpl.
  destruct (ConfigStoreSpec_read _ _) as [sp|]; [|done]. simpl.
  destruct (ConfigStoreStatus_read _ _) as [st|]; [|done]. by intros [= <-].
Qed.

Lemma read_pointer_Some {T} t (read : reader (val t) T) h p x :
  read_pointer t read h p = Some (Some x) →
  ∃ l v, p = Some l ∧ array_at t h l = Some [v] ∧ read h v = Some x.
Proof.
  unfold read_pointer. destruct p as [l|]; [|done]. destruct (value_at t h l) as [v|] eqn:Hv; [|done]. simpl.
  destruct (read h v) as [y|] eqn:Hy; [|done]. intros [= <-]. exists l, v. by rewrite <-value_at_array.
Qed.

Lemma read_pointer_not_nil {T} t (read : reader (val t) T) h l : read_pointer t read h (Some l) ≠ Some None.
Proof. unfold read_pointer. destruct (value_at t h l) as [v|]; [|done]. simpl. by destruct (read h v). Qed.

(** A resolved store does not see a write to another. *)
Lemma ResolvedStore_read_write h l c (vs : list (val TResolvedStore)) v x :
  array_at TResolvedStore h l = Some vs → ResolvedStore_read h v = Some x →
  ResolvedStore_read (<[l := c]> h) v = Some x.
Proof.
  intros Hl. unfold ResolvedStore_read.
  apply bind_mono; [intros groups Hg; by apply (read_slice_write TString TResolvedStore read_flat h l c _ vs groups)|].
  intros groups. apply bind_mono; [|done]. intros t Ht.
  by apply (read_pointer_write TTime TResolvedStore read_flat h l c _ vs t).
Qed.
Lemma resolved_write h l l' c (vs : list (val TResolvedStore)) x :
  l ≠ l' → array_at TResolvedStore h l' = Some vs →
  read_pointer TResolvedStore ResolvedStore_read h (Some l) = Some (Some x) →
  read_pointer TResolvedStore ResolvedStore_read (<[l' := c]> h) (Some l) = Some (Some x).
Proof.
  intros Hne Hl' (? & v & [= <-] & Hv & Hr)%read_pointer_Some. unfold read_pointer.
  rewrite (proj2 (value_at_array _ (<[l' := c]> h) l v)) by by rewrite array_at_insert_ne.
  simpl. by rewrite (ResolvedStore_read_write _ _ _ _ _ _ Hl' Hr).
Qed.

(** Clearing the field of a variable that holds a readable struct. *)
Lemma clear_observed_at_spec l h x :
  read_pointer TResolvedStore ResolvedStore_read h (Some l) = Some (Some x) →
  ∃ c, clear_observed_at (Some l) h = Some (<[l := c]> h, tt)
    ∧ read_pointer TResolvedStore ResolvedStore_read (<[l := c]> h) (Some l) = Some (Some (compared x)).
Proof.
  unfold read_pointer. destruct (value_at TResolvedStore h l) as [v|] eqn:Hv; [|done]. simpl.
  destruct (ResolvedStore_read h v) as [y|] eqn:Hr; [|done]. intros [= <-].
  unfold clear_observed_at, mbind, go_bind, load, store. rewrite Hv. apply value_at_array in Hv. simpl.
  erewrite store_array_spec by done. eexists. split; [done|].
  unfold value_at. rewrite array_at_insert. unfold ResolvedStore_read in Hr |- *. simpl.
  destruct (read_slice TString read_flat h _) as [groups|] eqn:Hg; [|done]. simpl in Hr.
  rewrite (read_slice_write TString TResolvedStore read_flat h l _ _ [v] groups) by done. simpl. destruct (read_pointer TTime _ _ _) as [t|]; [|done].
  by injection Hr as <-.
Qed.

(** The copies are new, so that clearing them is no matter to anything else. *)
Lemma equal_resolved_spec h l r x y :
  read_pointer TResolvedStore ResolvedStore_read h l = Some (Some x) →
  read_pointer TResolvedStore ResolvedStore_read h r = Some (Some y) →
  ∃ h', equal_resolved l r h = Some (h', bool_decide (compared x = compared y)) ∧ h ⊆ h'.
Proof.
  destruct l as [l|], r as [r|]; try done. intros Hl Hr.
  pose proof (copy_pointer_apart TResolvedStore ResolvedStore_read ResolvedStore_DeepCopyInto _) as Hap.
  destruct (Hap h (Some l) _ Hl) as (h1 & [l1|] & Hc1 & H01 & Hl1 & Hk1 & _); [|done].
  destruct (Hap h1 (Some r) _ (read_mono _ _ _ _ H01 Hr)) as (h2 & [r1|] & Hc2 & H12 & Hr1 & Hk2 & _); [|done].
  pose proof (Hk1 h1 (map_subseteq_difference_l _ _ _ (reflexivity _))) as Hx1.
  pose proof (read_mono _ _ _ _ H12 Hx1) as Hx.
  pose proof (Hk2 h2 (map_subseteq_difference_l _ _ _ (reflexivity _))) as Hy.
  assert (l1 ≠ r1) as Hne.
  { intros ->. apply read_pointer_Some in Hx1 as (? & ? & [= <-] & Hv & _). unfold array_at in Hv. by rewrite Hr1 in Hv. }
  destruct (clear_observed_at_spec _ _ _ Hx) as (c & Hclear1 & Hx3).
  pose proof Hx as (? & v & [= <-] & Hv & _)%read_pointer_Some.
  pose proof (resolved_write _ _ _ c _ _ (not_eq_sym Hne) Hv Hy) as Hy3.
  destruct (clear_observed_at_spec _ _ _ Hy3) as (c' & Hclear2 & Hy4).
  pose proof Hy3 as (? & v' & [= <-] & Hv' & _)%read_pointer_Some.
  pose proof (resolved_write _ _ _ c' _ _ Hne Hv' Hx3) as Hx4.
  exists (<[r1 := c']> (<[l1 := c]> h2)). split.
  - unfold equal_resolved, mbind, go_bind. change ResolvedStore_DeepCopy with
      (copy_pointer TResolvedStore ResolvedStore_DeepCopyInto). rewrite Hc1, Hc2, Hclear1, Hclear2.
    unfold DeepEqual_ResolvedStore. rewrite Hx4, Hy4. do 2 f_equal. apply bool_decide_ext. split; [by intros ?%(inj Some)|congruence].
  - apply insert_subseteq_r; [|apply insert_subseteq_r; [done|by etrans]].
    destruct (h !! r1) eqn:Hh; [|done]. by rewrite (lookup_weaken _ _ _ _ Hh H01) in Hr1.
Qed.

Opaque equal_resolved.
(** It answers, and writes only to its copies. *)
Lemma equalStatus_in_spec h a b ta tb :
  read_pointer TConfigStore ConfigStore_read h a = Some (Some ta) →
  read_pointer TConfigStore ConfigStore_read h b = Some (Some tb) →
  ∃ h', equalStatus_in a b h = Some (h', same_status (g_cs_Status _ _ _ _ ta) (g_cs_Status _ _ _ _ tb)) ∧ h ⊆ h'.
Proof.
  intros (la & va & -> & Hva & Ha)%read_pointer_Some (lb & vb & -> & Hvb & Hb)%read_pointer_Some.
  apply ConfigStore_read_Some in Ha as (_ & _ & [Hra Hca]%ConfigStoreStatus_read_Some & _).
  apply ConfigStore_read_Some in Hb as (_ & _ & [Hrb Hcb]%ConfigStoreStatus_read_Some & _).
  unfold equalStatus_in, same_status, mbind, go_bind, deref, load.
  rewrite (proj2 (value_at_array _ _ _ _) Hva). cbn. rewrite (proj2 (value_at_array _ _ _ _) Hvb). cbn.
  rewrite (equalConditions_in_spec _ _ _ _ _ Hca Hcb).
  destruct (equalConditions _ _); simpl; [|by exists h].
  destruct (g_Resolved _ _ (g_cs_Status _ _ _ _ va)) as [l|], (g_Resolved _ _ (g_cs_Status _ _ _ _ ta)) as [x|],
    (g_Resolved _ _ (g_cs_Status _ _ _ _ vb)) as [r|], (g_Resolved _ _ (g_cs_Status _ _ _ _ tb)) as [y|];
    try done; try (by apply read_pointer_not_nil in Hra); try (by apply read_pointer_not_nil in Hrb);
    try (by exists h). by apply equal_resolved_spec.
Qed.
Transparent equal_resolved.

(** ** The report, in place *)

(** The variables that setting a condition of an object may write to: the
    object's and the array of its conditions. *)
Definition with_array (l : positive) (s : slice) : gset positive :=
  {[l]} ∪ match sl_array s with Some a => {[a]} | None => ∅ end.

(** Setting a condition of an object of any type, given how the type holds its
    list of them. *)
Lemma set_in_place t (upd : val t → slice → val t) transitionAt l c s h v conditions :
  TCondition ≠ t → array_at t h l = Some [v] → read_slice TCondition read_flat h s = Some conditions →
  ∃ h' s', (conditions ← SetStatusCondition_in transitionAt s c;
            v ← load t l;
            store t l (upd v conditions)) h = Some (h', tt)
    ∧ keeps (with_array l s) h h' ∧ array_at t h' l = Some [upd v s']
    ∧ read_slice TCondition read_flat h' s' = Some (Some (SetStatusCondition transitionAt (default [] conditions) c)).
Proof.
  intros Ht Hv Hc.
  destruct (SetStatusCondition_in_spec transitionAt s c h conditions Hc) as (h1 & s' & Hset & Hs' & Hkeep).
  assert (array_at t h1 l = Some [v]) as Hv1.
  { unfold array_at in Hv |- *. destruct (h !! l) as [x|] eqn:Hl; [|done]. rewrite (Hkeep l x Hl); [done|].
    apply read_slice_Some in Hc as [[_ ->]|(a & vs & _ & Hs & Ha & _)]; [done|]. rewrite Hs. intros [= ->].
    eapply (array_at_apart TCondition t h l l); [done|exact Ha| |done].
    unfold array_at. rewrite Hl. exact Hv. }
  eexists _, s'. split; [|split; [|split; [apply array_at_insert|]]].
  - unfold mbind, go_bind, load, store. rewrite Hset. rewrite (proj2 (value_at_array _ _ _ _) Hv1). cbn.
    by erewrite store_array_spec.
  - etrans; [|apply write_keeps; unfold with_array; set_solver]. apply keeps_intro. intros l' x Hx Hl'.
    apply Hkeep; [done|]. intros Ha. apply Hx. unfold with_array. rewrite Ha. set_solver.
  - by eapply (read_slice_write TCondition t).
Qed.

Lemma with_array_in_memory t h l v s conditions :
  array_at t h l = Some [v] → read_slice TCondition read_flat h s = Some conditions →
  ∀ x, x ∈ with_array l s → is_Some (h !! x).
Proof.
  intros Hv Hc x. unfold with_array.
  apply read_slice_Some in Hc as [[_ ->]|(a & vs & _ & -> & Ha & _)]; intros Hx.
  - simpl in Hx. rewrite union_empty_r_L in Hx. apply elem_of_singleton in Hx as ->.
    unfold array_at in Hv. by destruct (h !! l).
  - apply elem_of_union in Hx as [->%elem_of_singleton| ->%elem_of_singleton].
    + unfold array_at in Hv. by destruct (h !! l).
    + unfold array_at in Ha. by destruct (h !! a).
Qed.

Definition own_variables (l : positive) (v : val TConfigStore) : gset positive :=
  with_array l (g_Conditions _ _ (g_cs_Status _ _ _ _ v)).

Lemma set_resolved_spec l p h v :
  array_at TConfigStore h l = Some [v] →
  set_resolved l p h
  = Some (<[l := array TConfigStore [set_status v {| g_Resolved := p;
             g_Conditions := g_Conditions _ _ (g_cs_Status _ _ _ _ v) |}]]> h, tt).
Proof.
  intros Hv. unfold set_resolved, mbind, go_bind, load, store. rewrite (proj2 (value_at_array _ _ _ _) Hv). simpl.
  by erewrite store_array_spec.
Qed.

Lemma set_ready_spec transitionAt l c h v conditions :
  array_at TConfigStore h l = Some [v] →
  read_slice TCondition read_flat h (g_Conditions _ _ (g_cs_Status _ _ _ _ v)) = Some conditions →
  ∃ h' s', set_ready transitionAt l c h = Some (h', tt) ∧ keeps (own_variables l v) h h'
    ∧ array_at TConfigStore h' l
      = Some [set_status v {| g_Resolved := g_Resolved _ _ (g_cs_Status _ _ _ _ v); g_Conditions := s' |}]
    ∧ read_slice TCondition read_flat h' s' = Some (Some (SetStatusCondition transitionAt (default [] conditions) c)).
Proof.
  intros Hv Hc. unfold set_ready, own_variables. unfold mbind at 1, go_bind at 1, load at 1.
  rewrite (proj2 (value_at_array _ _ _ _) Hv).
  by apply (set_in_place TConfigStore (λ v conditions, set_status v
    {| g_Resolved := g_Resolved _ _ (g_cs_Status _ _ _ _ v); g_Conditions := conditions |})).
Qed.

Lemma EffectiveGroupNames_in_spec X s h groups :
  (∀ l, l ∈ X → is_Some (h !! l)) → read_slice TString read_flat (without X h) s = Some groups →
  ∃ h' s', EffectiveGroupNames_in s h = Some (h', s') ∧ h ⊆ h'
    ∧ read_slice TString read_flat (without X h') s' = Some (Some (EffectiveGroupNames (default [] groups))).
Proof.
  intros HX Hr. pose proof (read_slice_length _ _ _ _ _ Hr : length (default [] groups) = sl_len s) as Hlen.
  unfold EffectiveGroupNames_in. destruct (decide (sl_len s = 0%nat)) as [Hz|Hz].
  - destruct (make_fill TString (length DefaultGroupNames) DefaultGroupNames h) as (l & Hl & Hrun).
    rewrite Hrun. eexists _, _. split; [done|]. split; [by apply insert_subseteq|].
    rewrite Hz in Hlen. apply nil_length_inv in Hlen as ->.
    rewrite <-without_new by (intros Hx; apply HX in Hx; rewrite Hl in Hx; by destruct Hx).
    refine (read_whole_slice TString read_flat _ l DefaultGroupNames DefaultGroupNames _ _);
      [apply array_at_insert|]. by apply Forall_Forall2_diag, Forall_true.
  - exists h, s. split; [done|]. split; [done|]. rewrite Hr. destruct groups as [[|g gs]|]; simpl in *; try lia. done.
Qed.

Lemma ConfigStoreStatus_read_intro h p s resolved conditions :
  read_pointer TResolvedStore ResolvedStore_read h p = Some resolved →
  read_slice TCondition read_flat h s = Some conditions →
  ConfigStoreStatus_read h {| g_Resolved := p; g_Conditions := s |}
  = Some ({| g_Resolved := resolved; g_Conditions := conditions |} : g_ConfigStoreStatus option Lists).
Proof.
  intros Hp Hs. unfold ConfigStoreStatus_read. eapply bind_intro; [exact Hp|]. by eapply bind_intro; [exact Hs|].
Qed.

(** The resolved store of a usable store, put into memory with the list of groups
    it shares with the spec. *)
Definition resolved_value (groups : slice) (now : positive) (checked : checkedStore B) : val TResolvedStore :=
  {| g_rs_DestinationPath := DestinationPath (rv_Configuration (ck_resolved checked));
     g_rs_EndpointURL := EndpointURL (rv_Configuration (ck_resolved checked));
     g_rs_Provider := rv_Provider (ck_resolved checked);
     g_rs_Retention := describeRetention (ck_retention checked);
     g_rs_CaptureGroups := groups; g_rs_Source := rv_Source (ck_resolved checked);
     g_rs_ObservedAt := Some now |}.
Definition resolved_tree (groups : list string) (now : Z) (checked : checkedStore B) : g_ResolvedStore option Lists :=
  {| g_rs_DestinationPath := DestinationPath (rv_Configuration (ck_resolved checked));
     g_rs_EndpointURL := EndpointURL (rv_Configuration (ck_resolved checked));
     g_rs_Provider := rv_Provider (ck_resolved checked);
     g_rs_Retention := describeRetention (ck_retention checked);
     g_rs_CaptureGroups := Some groups; g_rs_Source := rv_Source (ck_resolved checked);
     g_rs_ObservedAt := Some now |}.

Lemma ResolvedStore_read_intro h s now checked groups t :
  read_slice TString read_flat h s = Some (Some groups) → read_pointer TTime read_flat h (Some now) = Some (Some t) →
  ResolvedStore_read h (resolved_value s now checked) = Some (resolved_tree groups t checked).
Proof.
  intros Hs Ht. unfold ResolvedStore_read. eapply bind_intro; [exact Hs|]. by eapply bind_intro; [exact Ht|].
Qed.

Lemma fresh_outside (X : gset positive) (h : heap) l : (∀ x, x ∈ X → is_Some (h !! x)) → h !! l = None → l ∉ X.
Proof. intros HX Hl Hx. apply HX in Hx. rewrite Hl in Hx. by destruct Hx. Qed.

(** What has just been allocated outlives a write to older variables. *)
Lemma new_kept X (h h1 h2 : heap) : (∀ x, x ∈ X → is_Some (h !! x)) → keeps X h1 h2 → h1 ∖ h ⊆ h2.
Proof.
  intros HX Hk. etrans; [|apply (without_subseteq X)]. etrans; [|exact Hk].
  apply map_subseteq_spec. intros i c [Hi Hn]%lookup_difference_Some. apply map_lookup_filter_Some. split; [done|].
  intros Hx. by apply (fresh_outside X h i HX Hn).
Qed.

(** The allocations of the report: the clock's reading, the groups, and the
    resolved store. *)
Lemma make_resolved X h l v groups observedAt checked (k : positive → go unit) :
  (∀ x, x ∈ X → is_Some (h !! x)) → array_at TConfigStore h l = Some [v] →
  read_slice TString read_flat (without X h) (g_CaptureGroups _ _ (g_cs_Spec _ _ _ _ v)) = Some groups →
  ∃ h' r,
    (now ← new TTime;
     store TTime now observedAt;;
     store_ ← load TConfigStore l;
     groups ← EffectiveGroupNames_in (g_CaptureGroups _ _ (g_cs_Spec _ _ _ _ store_));
     resolved ← new TResolvedStore;
     store TResolvedStore resolved (resolved_value groups now checked);;
     k resolved) h = k r h'
    ∧ h ⊆ h'
    ∧ read_pointer TResolvedStore ResolvedStore_read (without X h') (Some r)
      = Some (Some (resolved_tree (EffectiveGroupNames (default [] groups)) observedAt checked)).
Proof.
  intros HX Hv Hg. unfold new, store.
  destruct (make_fill TTime 1 [observedAt] h) as (now & Hnow & Hrun). rewrite Hrun. clear Hrun.
  set (h1 := <[now := _]> h). assert (h ⊆ h1) as H01 by by apply insert_subseteq.
  assert (∀ x, x ∈ X → is_Some (h1 !! x)) as HX1 by (intros x Hx; by eapply subseteq_is_Some, HX).
  unfold load at 1, mbind at 1, go_bind at 1.
  rewrite (proj2 (value_at_array _ _ _ _) (array_at_weaken _ _ _ _ _ H01 Hv)). cbn [fmap option_fmap option_map].
  destruct (EffectiveGroupNames_in_spec X _ h1 groups HX1
    (keeps_read _ _ _ _ _ _ (subseteq_keeps X _ _ H01) Hg)) as (h2 & s & Heff & H12 & Hs).
  unfold mbind at 1, go_bind at 1. rewrite Heff.
  destruct (make_fill TResolvedStore 1 [resolved_value s now checked] h2) as (r & Hr & Hrun). rewrite Hrun. clear Hrun.
  assert (∀ x, x ∈ X → is_Some (h2 !! x)) as HX2 by (intros x Hx; by eapply subseteq_is_Some, HX1).
  eexists _, r. split; [done|]. split; [etrans; [exact H01|]; etrans; [exact H12|]; by apply insert_subseteq|].
  rewrite <-without_new by by eapply fresh_outside.
  assert (array_at TTime (without X h2) now = Some [observedAt]) as Hread.
  { eapply array_at_weaken; [by apply subseteq_keeps|]. unfold h1.
    rewrite <-without_new by by eapply (fresh_outside X h). apply array_at_insert. }
  assert (without X h2 !! r = None) as Hr2.
  { apply map_lookup_filter_None. by left. }
  set (h3 := <[r := _]> (without X h2)). assert (without X h2 ⊆ h3) as H23 by by apply insert_subseteq.
  apply (read_pointer_intro _ _ _ _ (resolved_value s now checked)); [apply array_at_insert|].
  apply ResolvedStore_read_intro; [by apply (read_mono _ _ _ _ H23)|].
  apply (read_pointer_intro TTime read_flat _ _ observedAt observedAt); [|done].
  by apply (array_at_weaken _ _ _ _ _ H23).
Qed.

Lemma own_variables_in_memory h l v t :
  array_at TConfigStore h l = Some [v] → ConfigStoreStatus_read h (g_cs_Status _ _ _ _ v) = Some t →
  ∀ x, x ∈ own_variables l v → is_Some (h !! x).
Proof.
  intros Hv [_ Hc]%ConfigStoreStatus_read_Some. by eapply with_array_in_memory.
Qed.

(** Setting the two fields of the status. *)
Lemma set_both_spec X transitionAt l p c h v resolved conditions :
  X = own_variables l v → array_at TConfigStore h l = Some [v] →
  read_slice TCondition read_flat h (g_Conditions _ _ (g_cs_Status _ _ _ _ v)) = Some conditions →
  read_pointer TResolvedStore ResolvedStore_read (without X h) p = Some resolved →
  ∃ h' status, (set_resolved l p;; set_ready transitionAt l c) h = Some (h', tt) ∧ keeps X h h'
    ∧ array_at TConfigStore h' l = Some [set_status v status]
    ∧ ConfigStoreStatus_read h' status
      = Some {| g_Resolved := resolved;
                g_Conditions := Some (SetStatusCondition transitionAt (default [] conditions) c) |}.
Proof.
  intros -> Hv Hc Hp. set (v1 := set_status v {| g_Resolved := p; g_Conditions := g_Conditions _ _ (g_cs_Status _ _ _ _ v) |}).
  set (h1 := <[l := array TConfigStore [v1]]> h).
  assert (keeps (own_variables l v) h h1) as Hk1 by (apply write_keeps; unfold own_variables, with_array; set_solver).
  destruct (set_ready_spec transitionAt l c h1 v1 conditions) as (h2 & s' & Hrun & Hk2 & Hv2 & Hs2).
  - apply array_at_insert.
  - by apply (read_slice_write TCondition TConfigStore read_flat h l _ _ [v]).
  - change (own_variables l v1) with (own_variables l v) in Hk2.
    eexists h2, _. split; [|split; [|split; [exact Hv2|]]].
    + unfold mbind, go_bind. rewrite (set_resolved_spec _ _ _ _ Hv). exact Hrun.
    + by etrans.
    + apply ConfigStoreStatus_read_intro; [|exact Hs2].
      apply (read_without _ (own_variables l v)). by do 2 (eapply keeps_read; [apply _|eassumption|]).
Qed.

Lemma ConfigStoreSpec_read_groups h v t :
  ConfigStoreSpec_read h v = Some t →
  read_slice TString read_flat h (g_CaptureGroups _ _ v) = Some (g_CaptureGroups _ _ t).
Proof.
  unfold ConfigStoreSpec_read.
  by intros (d & _ & (c & _ & (g & Hg & [= <-])%bind_Some)%bind_Some)%bind_Some.
Qed.

(** The object with another status. *)
Lemma reported_read X h h' l v meta spec value status :
  ObjectMeta_read (without X h) (g_cs_ObjectMeta _ _ _ _ v) = Some meta →
  ConfigStoreSpec_read (without X h) (g_cs_Spec _ _ _ _ v) = Some spec →
  keeps X h h' → array_at TConfigStore h' l = Some [set_status v value] →
  ConfigStoreStatus_read h' value = Some status →
  read_pointer TConfigStore ConfigStore_read h' (Some l)
  = Some (Some {| g_cs_TypeMeta := g_cs_TypeMeta _ _ _ _ v; g_cs_ObjectMeta := meta; g_cs_Spec := spec;
                  g_cs_Status := status |}).
Proof.
  intros Hm Hsp Hk Hv Hst. apply (read_pointer_intro _ _ _ _ _ _ Hv). unfold ConfigStore_read.
  eapply bind_intro; [apply (read_without _ X); eapply keeps_read; [apply _|exact Hk|exact Hm]|].
  eapply bind_intro; [apply (read_without _ X); eapply keeps_read; [apply _|exact Hk|exact Hsp]|].
  by eapply bind_intro; [exact Hst|].
Qed.

(** The report does in place what [Controller.report] says. *)
Lemma report_in_spec observedAt transitionAt l verdict_ h v meta spec status store :
  let X := own_variables l v in
  array_at TConfigStore h l = Some [v] →
  ObjectMeta_read (without X h) (g_cs_ObjectMeta _ _ _ _ v) = Some meta →
  ConfigStoreSpec_read (without X h) (g_cs_Spec _ _ _ _ v) = Some spec →
  ConfigStoreStatus_read h (g_cs_Status _ _ _ _ v) = Some status →
  cs_Spec store = api_spec spec → cs_Status store = api_status status →
  ∃ h' status', report_in observedAt transitionAt l verdict_ h = Some (h', tt) ∧ keeps X h h'
    ∧ read_pointer TConfigStore ConfigStore_read h' (Some l)
      = Some (Some {| g_cs_TypeMeta := g_cs_TypeMeta _ _ _ _ v; g_cs_ObjectMeta := meta; g_cs_Spec := spec;
                      g_cs_Status := status' |})
    ∧ api_status status' = cs_Status (report observedAt transitionAt store verdict_)
    ∧ (∀ r, g_Resolved _ _ status' = Some r → ∃ g gs, g_rs_CaptureGroups _ _ r = Some (g :: gs)).
Proof.
  intros X Hv Hm Hsp Hst Hspec Hstatus. pose proof (ConfigStoreStatus_read_Some _ _ _ Hst) as [_ Hc].
  destruct verdict_ as [checked|reason err].
  - set (source := "Object store configuration resolved from " +:+ rv_Source (ck_resolved checked)).
    set (message := if ck_bucketMissing checked
                    then source +:+ Sprintf "; bucket %q does not exist yet and is created on first write"
                                      [AStr (Bucket (rv_Destination (ck_resolved checked)))] None
                    else source).
    set (c := condition ConditionReady ConditionTrue ReasonResolved message).
    destruct (make_resolved X h l v _ observedAt checked
      (λ r, set_resolved l (Some r);; set_ready transitionAt l c)
      (own_variables_in_memory _ _ _ _ Hv Hst) Hv (ConfigStoreSpec_read_groups _ _ _ Hsp)) as (h1 & r & Hrun & H01 & Hr).
    destruct (set_both_spec X transitionAt l (Some r) c h1 v _ _ eq_refl (array_at_weaken _ _ _ _ _ H01 Hv)
      (read_mono _ _ _ _ H01 Hc) Hr) as (h2 & value & Hrun2 & Hk & Hv2 & Hst2).
    pose proof (transitivity (subseteq_keeps X _ _ H01) Hk) as Hk2.
    eexists h2, _. split; [etrans; [exact Hrun|exact Hrun2]|]. split; [done|].
    split; [by eapply reported_read|].
    split; [unfold report, api_status, GetCaptureGroups; simpl; by rewrite Hstatus, Hspec|].
    intros r' [= <-]. cbn [resolved_tree g_rs_CaptureGroups].
    pose proof (EffectiveGroupNames_nonempty (default [] (g_CaptureGroups _ _ spec))) as Hne.
    destruct (EffectiveGroupNames _) as [|g gs]; [done|]. by exists g, gs.
  - set (c := condition ConditionReady ConditionFalse reason (Error err)).
    destruct (set_both_spec X transitionAt l None c h v None _ eq_refl Hv Hc eq_refl) as (h2 & value & Hrun & Hk & Hv2 & Hst2).
    eexists h2, _. split; [exact Hrun|]. split; [done|].
    split; [by eapply reported_read|].
    split; [unfold report, api_status; simpl; by rewrite Hstatus|done].
Qed.

(** A nil list of groups is told from an empty one, but a report has neither. *)
Lemma same_status_equal a b store store' :
  cs_Status store = api_status a → cs_Status store' = api_status b →
  (∀ r, g_Resolved _ _ b = Some r → ∃ g gs, g_rs_CaptureGroups _ _ r = Some (g :: gs)) →
  same_status a b = equalStatus store store'.
Proof.
  intros Ha Hb Hg. unfold same_status, equalStatus. rewrite Ha, Hb. simpl. f_equal.
  destruct (g_Resolved _ _ a) as [x|], (g_Resolved _ _ b) as [y|]; simpl; try done.
  destruct (Hg y eq_refl) as (g & gs & Hy). apply bool_decide_ext.
  unfold compared, without_observed, api_resolved. simpl. rewrite Hy. simpl. split; [by intros [= -> -> -> -> -> ->]|].
  intros [= -> -> -> -> Hgs ->]. by destruct (g_rs_CaptureGroups _ _ x); simpl in Hgs; simplify_eq.
Qed.

(** C22: What a reconciliation hands to the patch is what the value model says.
    Of a store that is not aliased with itself, with any aliases elsewhere: the
    copy still reads as the store was read, the store reads as the report of that
    reading, and [equalStatus] compares the two as values, although all three
    share memory and write to it. *)
Theorem reconcile_status_refines observedAt transitionAt l verdict_ h v meta spec status :
  let X := own_variables l v in
  let store := {| g_cs_TypeMeta := g_cs_TypeMeta _ _ _ _ v; g_cs_ObjectMeta := meta; g_cs_Spec := spec;
                  g_cs_Status := status |} in
  array_at TConfigStore h l = Some [v] →
  ObjectMeta_read (without X h) (g_cs_ObjectMeta _ _ _ _ v) = Some meta →
  ConfigStoreSpec_read (without X h) (g_cs_Spec _ _ _ _ v) = Some spec →
  ConfigStoreStatus_read h (g_cs_Status _ _ _ _ v) = Some status →
  ∃ h' original updated,
    reconcile_status observedAt transitionAt l verdict_ h
    = Some (h', (Some original, equalStatus (api_store store) (api_store updated)))
    ∧ read_pointer TConfigStore ConfigStore_read h' (Some original) = Some (Some store)
    ∧ read_pointer TConfigStore ConfigStore_read h' (Some l) = Some (Some updated)
    ∧ api_store updated = report observedAt transitionAt (api_store store) verdict_.
Proof.
  intros X store Hv Hm Hsp Hst.
  assert (read_pointer TConfigStore ConfigStore_read h (Some l) = Some (Some store)) as Hread.
  { eapply (reported_read X h h l v meta spec (g_cs_Status _ _ _ _ v)); [done..| |done]. rewrite Hv. by destruct v. }
  destruct (copy_pointer_apart TConfigStore ConfigStore_read ConfigStore_DeepCopyInto _ h (Some l) _ Hread)
    as (h1 & [o|] & Hcopy & H01 & Hnew & Hlater & _); [|done].
  destruct (report_in_spec observedAt transitionAt l verdict_ h1 v meta spec status (api_store store))
    as (h2 & status' & Hrep & Hk & Hl2 & Hstatus & Hgroups).
  - by eapply array_at_weaken.
  - by eapply keeps_read; [apply _|apply subseteq_keeps|].
  - by eapply keeps_read; [apply _|apply subseteq_keeps|].
  - by apply (read_mono _ _ _ _ H01).
  - done.
  - done.
  - assert (read_pointer TConfigStore ConfigStore_read h2 (Some o) = Some (Some store)) as Ho2
      by exact (Hlater _ (new_kept X h h1 h2 (own_variables_in_memory _ _ _ _ Hv Hst) Hk)).
    set (updated := {| g_cs_Status := status' |}) in Hl2.
    destruct (equalStatus_in_spec _ _ _ _ _ Ho2 Hl2) as (h3 & Heq & H23).
    rewrite (same_status_equal _ _ (api_store store) (api_store updated)) in Heq by done.
    exists h3, o, updated. split; [|split; [|split]].
    + unfold reconcile_status, mbind, go_bind. change ConfigStore_DeepCopy with
        (copy_pointer TConfigStore ConfigStore_DeepCopyInto). by rewrite Hcopy, Hrep, Heq.
    + by apply (read_mono _ _ _ _ H23).
    + by apply (read_mono _ _ _ _ H23).
    + unfold api_store at 1. simpl. rewrite Hstatus. by destruct verdict_.
Qed.

End status.
