(* ===== verification/PolicyMemory.v ===== *)
(** * A policy's verdict in memory

    What [StatusMemory] is for a ConfigStore, for a RestorePolicy: the segment of
    its [Reconcile] between reading the object and patching it, which compiles
    rules that it reads from the object, sets a condition in the object's own
    list, and compares that with the object's deep copy. *)

From S2P Require Import Prelude GoStrings GoTime GoFloat Api Cnpg Celenv Skip Transform Plan.
From S2P Require Import Memory DeepCopy Controller StatusMemory.

#[local] Open Scope stdpp_scope.

(** ** What the structs stand for, as [Api] has it *)

Definition api_skip (r : g_SkipRule Lists) : SkipRule :=
  {| sk_Group := g_Group _ r; sk_Path := g_Path _ r; sk_KeyPrefix := g_KeyPrefix _ r;
     sk_Except := default [] (g_Except _ r) |}.
Definition api_select (s : g_RestoreSelect option) : RestoreSelect :=
  {| Mode := g_Mode _ s; Generation := g_Generation _ s; Timestamp := g_Timestamp _ s;
     OnUnresolvable := g_OnUnresolvable _ s |}.
Definition api_policy_spec (s : g_RestorePolicySpec option Lists) : RestorePolicySpec :=
  {| Select := api_select (g_Select _ _ s); Skip := api_skip <$> default [] (g_Skip _ _ s);
     Transform := default [] (g_Transform _ _ s) |}.
Definition api_policy_status (s : g_RestorePolicyStatus Lists) : RestorePolicyStatus :=
  {| rps_Conditions := default [] (g_rps_Conditions _ s) |}.

Section policy.
Context `{MetaMemory} `{CnpgLib} `{QuantityLib} `{GoPlatform} `{!CelEngine} `{Fmt}.

Definition api_policy (p : g_RestorePolicy option Lists TypeMeta ObjectMeta_tree) : RestorePolicy :=
  {| rp_Name := om_Name (g_rp_ObjectMeta _ _ _ _ p); rp_Namespace := om_Namespace (g_rp_ObjectMeta _ _ _ _ p);
     rp_Generation := om_Generation (g_rp_ObjectMeta _ _ _ _ p);
     rp_Spec := api_policy_spec (g_rp_Spec _ _ _ _ p); rp_Status := api_policy_status (g_rp_Status _ _ _ _ p) |}.

(** [restore.CompileRules(policy.Spec.Skip, policy.Spec.Transform)]: it reads the
    rules where they are. *)
Definition CompileRules_in (policy : positive) : go (result (SkipSet * TransformSet)) := λ h,
  v ← array_at TRestorePolicy h policy ≫= head;
  spec ← RestorePolicySpec_read h (g_rp_Spec _ _ _ _ v);
  Some (h, CompileRules (Skip (api_policy_spec spec)) (Transform (api_policy_spec spec))).

Definition set_policy_status (v : val TRestorePolicy) (conditions : slice) : val TRestorePolicy :=
  {| g_rp_TypeMeta := g_rp_TypeMeta _ _ _ _ v; g_rp_ObjectMeta := g_rp_ObjectMeta _ _ _ _ v;
     g_rp_Spec := g_rp_Spec _ _ _ _ v; g_rp_Status := {| g_rps_Conditions := conditions |} |}.
Abbreviation conditions_in v := (g_rps_Conditions _ (g_rp_Status _ _ _ _ (v : val TRestorePolicy))).

(** [meta.SetStatusCondition(&policy.Status.Conditions, c)] *)
Definition set_policy_ready (transitionAt : Z) (policy : positive) (c : Condition) : go unit :=
  v ← load TRestorePolicy policy;
  conditions ← SetStatusCondition_in transitionAt (conditions_in v) c;
  v ← load TRestorePolicy policy;
  store TRestorePolicy policy (set_policy_status v conditions).

(** [Reconcile] from the copy to the comparison: what is patched against, and
    whether there is nothing to patch. *)
Definition reconcile_policy (transitionAt : Z) (policy : positive) : go (ptr * bool) :=
  original ← RestorePolicy_DeepCopy (Some policy);
  compiled ← CompileRules_in policy;
  let c := match compiled with
           | Ok _ => condition ConditionReady ConditionTrue ReasonResolved "Rules are valid"
           | Err err => condition ConditionReady ConditionFalse ReasonConfigurationInvalid (Error err)
           end in
  set_policy_ready transitionAt policy c;;
  before ← deref TRestorePolicy original;
  after ← load TRestorePolicy policy;
  same ← equalConditions_in (conditions_in before) (conditions_in after);
  mret (original, same).

(** ** It is what the value model says *)

Lemma RestorePolicy_read_intro h v meta spec status :
  ObjectMeta_read h (g_rp_ObjectMeta _ _ _ _ v) = Some meta →
  RestorePolicySpec_read h (g_rp_Spec _ _ _ _ v) = Some spec →
  RestorePolicyStatus_read h (g_rp_Status _ _ _ _ v) = Some status →
  RestorePolicy_read h v
  = Some {| g_rp_TypeMeta := g_rp_TypeMeta _ _ _ _ v; g_rp_ObjectMeta := meta; g_rp_Spec := spec;
            g_rp_Status := status |}.
Proof.
  intros Hm Hs Ht. unfold RestorePolicy_read. eapply bind_intro; [exact Hm|]. eapply bind_intro; [exact Hs|].
  by eapply bind_intro; [exact Ht|].
Qed.

Lemma RestorePolicy_read_conditions h v t :
  RestorePolicy_read h v = Some t →
  read_slice TCondition read_flat h (conditions_in v) = Some (g_rps_Conditions _ (g_rp_Status _ _ _ _ t)).
Proof.
  intros (m & _ & (s & _ & (st & Hst & [= <-])%bind_Some)%bind_Some)%bind_Some.
  unfold RestorePolicyStatus_read in Hst. by apply bind_Some in Hst as (c & Hc & [= <-]).
Qed.

Lemma RestorePolicyStatus_read_conditions h v t :
  RestorePolicyStatus_read h v = Some t →
  read_slice TCondition read_flat h (g_rps_Conditions _ v) = Some (g_rps_Conditions _ t).
Proof. unfold RestorePolicyStatus_read. by intros (c & Hc & [= <-])%bind_Some. Qed.

(** [reconcile_policy] reads the rules it compiles, and sets their verdict, in the
    policy it is given, and compares that with a copy of what the policy was. *)
Theorem reconcile_policy_refines transitionAt l h v meta spec status :
  let X := with_array l (conditions_in v) in
  let policy := {| g_rp_TypeMeta := g_rp_TypeMeta _ _ _ _ v; g_rp_ObjectMeta := meta; g_rp_Spec := spec;
                   g_rp_Status := status |} in
  array_at TRestorePolicy h l = Some [v] →
  ObjectMeta_read (without X h) (g_rp_ObjectMeta _ _ _ _ v) = Some meta →
  RestorePolicySpec_read (without X h) (g_rp_Spec _ _ _ _ v) = Some spec →
  RestorePolicyStatus_read h (g_rp_Status _ _ _ _ v) = Some status →
  ∃ h' original updated,
    reconcile_policy transitionAt l h
    = Some (h', (Some original, equalConditions (rps_Conditions (rp_Status (api_policy policy)))
                                  (rps_Conditions (rp_Status (api_policy updated)))))
    ∧ read_pointer TRestorePolicy RestorePolicy_read h' (Some original) = Some (Some policy)
    ∧ read_pointer TRestorePolicy RestorePolicy_read h' (Some l) = Some (Some updated)
    ∧ api_policy updated
      = with_policy_conditions (api_policy policy)
          (SetStatusCondition transitionAt (rps_Conditions (rp_Status (api_policy policy)))
             (policy_condition (api_policy policy))).
Proof.
  intros X policy Hv Hm Hsp Hst. pose proof (RestorePolicyStatus_read_conditions _ _ _ Hst) as Hc.
  assert (RestorePolicy_read h v = Some policy) as Hpol
    by (apply RestorePolicy_read_intro; [by apply (read_without _ X)..|done]).
  destruct (copy_pointer_apart TRestorePolicy RestorePolicy_read RestorePolicy_DeepCopyInto _ h (Some l) _
    (read_pointer_intro _ _ _ _ _ _ Hv Hpol)) as (h1 & [o|] & Hcopy & H01 & Hnew & Hlater & _); [|done].
  pose proof (array_at_weaken _ _ _ _ _ H01 Hv) as Hv1.
  set (c := policy_condition (api_policy policy)).
  destruct (set_in_place TRestorePolicy set_policy_status transitionAt l c (conditions_in v) h1 v _ (ltac:(done)) Hv1
    (read_mono _ _ _ _ H01 Hc)) as (h2 & s' & Hset & Hk & Hv2 & Hs').
  set (updated := {| g_rp_TypeMeta := g_rp_TypeMeta _ _ _ _ v; g_rp_ObjectMeta := meta; g_rp_Spec := spec;
    g_rp_Status := {| g_rps_Conditions := Some (SetStatusCondition transitionAt (default [] (g_rps_Conditions _ status)) c) |} |}).
  pose proof (transitivity (subseteq_keeps X _ _ H01) Hk) as Hk2.
  assert (RestorePolicy_read h2 (set_policy_status v s') = Some updated) as Hup.
  { refine (RestorePolicy_read_intro h2 (set_policy_status v s') meta spec _ _ _ _).
    - apply (read_without _ X). by eapply keeps_read; [apply _|exact Hk2|].
    - apply (read_without _ X). by eapply keeps_read; [apply _|exact Hk2|].
    - unfold RestorePolicyStatus_read. by eapply bind_intro; [exact Hs'|]. }
  pose proof (Hlater _ (new_kept X h h1 h2 (with_array_in_memory _ _ _ _ _ _ Hv Hc) Hk)) as Ho2.
  pose proof Ho2 as (? & vo & [= <-] & Hvo & Hro)%read_pointer_Some.
  exists h2, o, updated. split; [|split; [done|split; [by eapply read_pointer_intro|done]]].
  assert (set_policy_ready transitionAt l c h1 = Some (h2, tt)) as Hrun.
  { unfold set_policy_ready. unfold mbind at 1, go_bind at 1, load at 1.
    by rewrite (proj2 (value_at_array _ _ _ _) Hv1). }
  assert (CompileRules_in l h1 = Some (h1, CompileRules (Skip (api_policy_spec spec)) (Transform (api_policy_spec spec))))
    as Hcompile.
  { unfold CompileRules_in. rewrite Hv1. cbn [mbind option_bind head].
    by rewrite (read_mono _ _ _ _ H01 (read_without _ X _ _ _ Hsp)). }
  unfold reconcile_policy, mbind, go_bind, deref, load. change RestorePolicy_DeepCopy with
    (copy_pointer TRestorePolicy RestorePolicy_DeepCopyInto). rewrite Hcopy, Hcompile.
  change (match CompileRules _ _ with Ok _ => _ | Err _ => _ end) with c. rewrite Hrun.
  rewrite (proj2 (value_at_array _ _ _ _) Hvo). cbn [fmap option_fmap option_map].
  rewrite (proj2 (value_at_array _ _ _ _) Hv2). cbn [fmap option_fmap option_map].
  by rewrite (equalConditions_in_spec _ _ _ _ _ (RestorePolicy_read_conditions _ _ _ Hro) (RestorePolicy_read_conditions _ _ _ Hup)).
Qed.

End policy.
