(* ===== verification/Wiring.v ===== *)
(** * Start-up: cmd/manager, internal/cmd/operator, internal/cnpgi/operator/start.go

    What the process asks of controller-runtime, cobra and gRPC when it starts,
    in the order it asks it, with what is shared between the parts it starts.
    The libraries are parameters: a call is answered with success or an error,
    and the process records what it has called. *)

From S2P Require Import Prelude GoStrings GoTime GoJson Cnpg Groups Denylist Snapshot Api Layout Kube Backend.
From S2P Require Import JsonText SnapshotStore History Resolver Config Operator.

#[local] Open Scope stdpp_scope.

(** ** api/v1/groupversion_info.go and the scheme *)

Record GroupVersion := { gv_Group : string; gv_Version : string }.
Definition chronicle_v1 : GroupVersion := {| gv_Group := "chronicle.sharifmshaker.github.io"; gv_Version := "v1" |}.

(** [runtime.Scheme] and what registers with it. *)
Class SchemeLib (S : Type) := {
  NewScheme : S;
  AddKnownTypes : GroupVersion → list string → S → S;
  AddToGroupVersion : GroupVersion → S → S;
  clientgoscheme_AddToScheme : S → result S;
  cnpg_AddToScheme : S → result S
}.

Section scheme.
Context {S : Type} `{SchemeLib S}.

Definition addKnownTypes (scheme : S) : result S :=
  Ok (AddToGroupVersion chronicle_v1
        (AddKnownTypes chronicle_v1 ["ConfigStore"; "ConfigStoreList"; "RestorePolicy"; "RestorePolicyList"] scheme)).

(** [init]: [utilruntime.Must] panics, which is [None]. *)
Definition must (r : result S) : option S := match r with Ok s => Some s | Err _ => None end.
Definition init : option S :=
  s ← must (clientgoscheme_AddToScheme NewScheme);
  s ← must (addKnownTypes s);
  must (cnpg_AddToScheme s).
End scheme.

(** ** cmd.go: the command line *)

Inductive flag_value := FString (default : string) | FInt (default : Z) | FBool (default : bool).
Record Flag := { fl_Name : string; fl_Default : flag_value; fl_Usage : string }.
Record Command := {
  Use : string;
  Short : string;
  cmd_Flags : list Flag;
  RequiredTogether : list (list string);
  MutuallyExclusive : list (list string);
  Subcommands : list string
}.

Definition NewCmd : Command := {|
  Use := "operator";
  Short := "Run the plugin's operator-side services";
  cmd_Flags := [
    {| fl_Name := "server-cert"; fl_Default := FString "";
       fl_Usage := "TLS certificate presented to the CloudNativePG operator" |};
    {| fl_Name := "server-key"; fl_Default := FString "";
       fl_Usage := "Key for the server certificate" |};
    {| fl_Name := "client-cert"; fl_Default := FString "";
       fl_Usage := "CA used to verify the operator's client certificate" |};
    {| fl_Name := "server-address"; fl_Default := FString "";
       fl_Usage := "Address for the gRPC listener, e.g. :9090" |};
    {| fl_Name := "plugin-path"; fl_Default := FString "";
       fl_Usage := "Directory for a unix socket, when running as an operator sidecar" |};
    {| fl_Name := "webhook-port"; fl_Default := FInt 9443;
       fl_Usage := "Port for the restore admission webhook" |};
    {| fl_Name := "webhook-cert-dir"; fl_Default := FString "/server";
       fl_Usage := "Directory holding the webhook's tls.crt and tls.key" |};
    {| fl_Name := "metrics-bind-address"; fl_Default := FString "0";
       fl_Usage := "Address for the metrics endpoint, 0 to disable" |};
    {| fl_Name := "health-probe-bind-address"; fl_Default := FString ":8081";
       fl_Usage := "Address for the health probe endpoint" |};
    {| fl_Name := "leader-elect"; fl_Default := FBool false;
       fl_Usage := "Enable leader election" |}];
  RequiredTogether := [["server-cert"; "server-key"; "client-cert"; "server-address"]];
  MutuallyExclusive := [["server-cert"; "plugin-path"]];
  Subcommands := []
|}.

(** ** The objects the process builds *)

(** [manager.GetClient()], which caches but for [DisableFor], and
    [manager.GetAPIReader()], which never does. *)
Inductive ClientKind := GetClient | GetAPIReader.

(** [store.Resolver] with its [ObjectStoreReader]; pointers to these, and to
    settled caches, are positions in the process's lists of them. *)
Record ResolverFields := { rf_Client : ClientKind; rf_reader : ClientKind; rf_ObjectStores : ObjectStoreReader }.

Inductive EventFilter := GenerationChanged.
Record Controller := {
  ctl_For : string;
  ctl_Predicates : list EventFilter;
  ctl_Named : string;
  ctl_Client : ClientKind;
  ctl_Resolver : option nat
}.

Record CNPGI := {
  np_Client : ClientKind;
  np_Resolver : nat;
  np_PluginPath : string;
  np_ServerCertPath : string;
  np_ServerKeyPath : string;
  np_ClientCertPath : string;
  np_ServerAddress : string
}.

Record ClusterRestorer := { cr_Client : ClientKind; cr_Resolver : nat }.

(** [ctrl.Options], but for its scheme, which is the one [init] fills. *)
Record Options := {
  MetricsBindAddress : string;
  HealthProbeBindAddress : string;
  LeaderElection : bool;
  LeaderElectionID : string;
  LeaderElectionReleaseOnCancel : bool;
  WebhookPort : Z;
  WebhookCertDir : string;
  DisableFor : list string
}.

Inductive Checker := Ping | StartedChecker.

Inductive ManagerCall :=
| NewManager (options : Options)
| Complete (controller : Controller)
| Add (runnable : CNPGI)
| Register (path : string) (handler : ClusterRestorer)
| AddHealthzCheck (name : string) (check : Checker)
| AddReadyzCheck (name : string) (check : Checker)
| Start.

Record process := {
  calls : list ManagerCall;
  resolvers : list ResolverFields;
  caches : list settledCache
}.

(** What the command line and the environment give, as viper reads it. *)
Record Viper := { GetString : string → string; GetInt : string → Z; GetBool : string → bool }.

Section run.
(** What controller-runtime answers to a call, given those before it. *)
Context (answer : list ManagerCall → ManagerCall → result unit).

Definition issue (c : ManagerCall) : prog process unit := λ w,
  ({| calls := calls w ++ [c]; resolvers := resolvers w; caches := caches w |}, answer (calls w) c).
(** A call that returns nothing. *)
Definition issue_ (c : ManagerCall) : prog process unit := λ w,
  ({| calls := calls w ++ [c]; resolvers := resolvers w; caches := caches w |}, Ok ()).

Definition new_resolver (fields : ResolverFields) : prog process nat := λ w,
  ({| calls := calls w; resolvers := resolvers w ++ [fields]; caches := caches w |}, Ok (length (resolvers w))).

(** *** SetupWithManager *)

Definition ConfigStore_SetupWithManager (client : ClientKind) (resolver : nat) : prog process unit :=
  issue (Complete {| ctl_For := "ConfigStore"; ctl_Predicates := [GenerationChanged];
                     ctl_Named := "configstore"; ctl_Client := client; ctl_Resolver := Some resolver |}).
Definition RestorePolicy_SetupWithManager (client : ClientKind) : prog process unit :=
  issue (Complete {| ctl_For := "RestorePolicy"; ctl_Predicates := [GenerationChanged];
                     ctl_Named := "restorepolicy"; ctl_Client := client; ctl_Resolver := None |}).

(** *** run *)

Definition options_of (viper : Viper) : Options := {|
  MetricsBindAddress := GetString viper "metrics-bind-address";
  HealthProbeBindAddress := GetString viper "health-probe-bind-address";
  LeaderElection := GetBool viper "leader-elect";
  LeaderElectionID := "chronicle.sharifmshaker.github.io";
  LeaderElectionReleaseOnCancel := true;
  WebhookPort := GetInt viper "webhook-port";
  WebhookCertDir := GetString viper "webhook-cert-dir";
  DisableFor := ["Secret"; "Cluster"]
|}.

Definition plugin_server (viper : Viper) (resolver : nat) : CNPGI := {|
  np_Client := GetClient;
  np_Resolver := resolver;
  np_PluginPath := GetString viper "plugin-path";
  np_ServerCertPath := GetString viper "server-cert";
  np_ServerKeyPath := GetString viper "server-key";
  np_ClientCertPath := GetString viper "client-cert";
  np_ServerAddress := GetString viper "server-address"
|}.

Definition webhook_path : string := "/mutate-postgresql-cnpg-io-v1-cluster".

Definition run (viper : Viper) : prog process unit :=
  _ ← wrapM "while creating the manager: %w" [] (issue (NewManager (options_of viper)));
  resolver ← new_resolver {| rf_Client := GetClient; rf_reader := GetAPIReader;
                             rf_ObjectStores := NewObjectStoreReader DefaultObjectStoreTTL |};
  _ ← wrapM "while setting up the ConfigStore controller: %w" [] (ConfigStore_SetupWithManager GetClient resolver);
  _ ← wrapM "while setting up the RestorePolicy controller: %w" [] (RestorePolicy_SetupWithManager GetClient);
  _ ← wrapM "while registering the plugin server: %w" [] (issue (Add (plugin_server viper resolver)));
  _ ← issue_ (Register webhook_path {| cr_Client := GetAPIReader; cr_Resolver := resolver |});
  _ ← wrapM "while adding the health check: %w" [] (issue (AddHealthzCheck "healthz" Ping));
  _ ← wrapM "while adding the webhook readiness check: %w" [] (issue (AddReadyzCheck "webhook" StartedChecker));
  wrapM "while running the manager: %w" [] (issue Start).

End run.

(** ** cmd/manager/main.go *)

Definition rootCmd : Command := {|
  Use := "manager";
  Short := "Chronicle: a configuration snapshot and restore plugin for CloudNativePG";
  cmd_Flags := []; RequiredTogether := []; MutuallyExclusive := [];
  Subcommands := [Use NewCmd]
|}.

(** The exit status; [Execute] is cobra's. *)
Definition main (Execute : Command → result unit) : Z :=
  match Execute rootCmd with Err _ => 1 | Ok _ => 0 end.

(** ** start.go: the plugin's gRPC server *)

Definition NeedLeaderElection (c : CNPGI) : bool := false.

(** [ReconcilerImplementation] and [OperatorImplementation]. *)
Record Implementation := { im_Client : ClientKind; im_Resolver : nat; im_Settled : nat }.

(** [grpc.Server], by the services registered with it. *)
Record grpcServer := { reconcilerHooks : option Implementation; operatorServer : option Implementation }.
Definition RegisterReconcilerHooksServer (i : Implementation) (s : grpcServer) : grpcServer :=
  {| reconcilerHooks := Some i; operatorServer := operatorServer s |}.
Definition RegisterOperatorServer (i : Implementation) (s : grpcServer) : grpcServer :=
  {| reconcilerHooks := reconcilerHooks s; operatorServer := Some i |}.

(** [http.Server] of pluginhelper; its [IdentityImpl], which is in [Config], has no
    state. *)
Record httpServer := {
  hs_Enrichers : list (grpcServer → result grpcServer);
  hs_PluginPath : string;
  hs_ServerCertPath : string;
  hs_ServerKeyPath : string;
  hs_ClientCertPath : string;
  hs_ServerAddress : string
}.

Definition enrich (c : CNPGI) (settled : nat) (server : grpcServer) : result grpcServer :=
  let implementation := {| im_Client := np_Client c; im_Resolver := np_Resolver c; im_Settled := settled |} in
  Ok (RegisterOperatorServer implementation (RegisterReconcilerHooksServer implementation server)).

Definition new_cache : prog process nat := λ w,
  ({| calls := calls w; resolvers := resolvers w; caches := caches w ++ [newSettledCache] |}, Ok (length (caches w))).

(** [http.Server.Start] is pluginhelper's. *)
Definition CNPGI_Start (serve : httpServer → prog process unit) (c : CNPGI) : prog process unit :=
  settled ← new_cache;
  serve {| hs_Enrichers := [enrich c settled];
           hs_PluginPath := np_PluginPath c;
           hs_ServerCertPath := np_ServerCertPath c;
           hs_ServerKeyPath := np_ServerKeyPath c;
           hs_ClientCertPath := np_ClientCertPath c;
           hs_ServerAddress := np_ServerAddress c |}.

(** The enrichers, applied in turn to a server. *)
Definition enriched (h : httpServer) (server : grpcServer) : result grpcServer :=
  foldl (λ r f, r ≫= f) (Ok server) (hs_Enrichers h).

(** ** The hooks of a running server *)

(** What the hooks of one process work on: the caches are those of the
    process. *)
Record Serving (P W : Type) := { sv_provider : P; sv_objects : W; sv_caches : list settledCache }.
Arguments sv_provider {P W}.
Arguments sv_objects {P W}.
Arguments sv_caches {P W}.

Section serving.
Context `{CnpgLib} {K : Type} `{KubeReader K} {P B W : Type} `{Provider P B}.
Context (backend_of : B → Backend W) (GetKind : string → result string) (Version : string).

(** The world of the hooks that hold the cache at [settled]. *)
Definition seen_by (settled : nat) (w : Serving P W) : OpWorld P W :=
  {| ow_provider := sv_provider w; ow_objects := sv_objects w; ow_settled := sv_caches w !! settled |}.

(** Run a hook through its pointer. *)
Definition through {A} (settled : nat) (p : prog (OpWorld P W) A) : prog (Serving P W) A := λ w,
  let '(w', r) := p (seen_by settled w) in
  ({| sv_provider := ow_provider w'; sv_objects := ow_objects w';
      sv_caches := match ow_settled w' with
                   | Some c => <[settled := c]> (sv_caches w)
                   | None => sv_caches w
                   end |}, r).

Definition serve_Post (s : grpcServer) (clock : Z) (k : K) (rd cd : string) : prog (Serving P W) ReconcilerHooksResult :=
  match reconcilerHooks s with
  | Some i => through (im_Settled i) (Post backend_of GetKind Version clock k rd cd)
  | None => throw (External OtherKind "Unimplemented")
  end.
Definition serve_SetStatusInCluster (s : grpcServer) (k : K) (cd : string) : prog (Serving P W) SetStatusInClusterResponse :=
  match operatorServer s with
  | Some i => through (im_Settled i) (SetStatusInCluster backend_of k cd)
  | None => throw (External OtherKind "Unimplemented")
  end.

End serving.

(** ** What start-up guarantees *)

(** The resolver a registered component works with. *)
Definition resolver_of (c : ManagerCall) : option nat :=
  match c with
  | Complete controller => ctl_Resolver controller
  | Add server => Some (np_Resolver server)
  | Register _ handler => Some (cr_Resolver handler)
  | _ => None
  end.

(** What the operator is told when a call fails: what start-up was doing. *)
Definition message_of (c : ManagerCall) : string :=
  match c with
  | NewManager _ => "while creating the manager: %w"
  | Complete controller => "while setting up the " +:+ ctl_For controller +:+ " controller: %w"
  | Add _ => "while registering the plugin server: %w"
  | Register _ _ => ""
  | AddHealthzCheck _ _ => "while adding the health check: %w"
  | AddReadyzCheck name _ => "while adding the " +:+ name +:+ " readiness check: %w"
  | Start => "while running the manager: %w"
  end.

(** [Register] returns nothing; every other call can fail. *)
Definition can_fail (c : ManagerCall) : bool := match c with Register _ _ => false | _ => true end.

(** The manager runs with what the flags say, gives up its lease, and reads Secrets
    and Clusters past its cache. *)
Record configured (viper : Viper) (options : Options) : Prop := {
  cf_metrics : MetricsBindAddress options = GetString viper "metrics-bind-address";
  cf_probes : HealthProbeBindAddress options = GetString viper "health-probe-bind-address";
  cf_election : LeaderElection options = GetBool viper "leader-elect";
  cf_release : LeaderElectionReleaseOnCancel options = true;
  cf_port : WebhookPort options = GetInt viper "webhook-port";
  cf_certificate : WebhookCertDir options = GetString viper "webhook-cert-dir";
  cf_uncached : ∀ kind, kind ∈ DisableFor options ↔ kind = "Secret" ∨ kind = "Cluster"
}.

(** What has to be registered with a manager that runs, and with which resolver. *)
Record wired (viper : Viper) (resolver : nat) (cs : list ManagerCall) : Prop := {
  wd_last : last cs = Some Start;
  wd_config_stores : ∃ c, Complete c ∈ cs ∧ ctl_For c = "ConfigStore" ∧ GenerationChanged ∈ ctl_Predicates c
    ∧ ctl_Client c = GetClient ∧ ctl_Resolver c = Some resolver;
  wd_policies : ∃ c, Complete c ∈ cs ∧ ctl_For c = "RestorePolicy" ∧ GenerationChanged ∈ ctl_Predicates c
    ∧ ctl_Client c = GetClient;
  wd_server : ∃ server, Add server ∈ cs ∧ np_Client server = GetClient ∧ np_Resolver server = resolver
    ∧ np_PluginPath server = GetString viper "plugin-path"
    ∧ np_ServerAddress server = GetString viper "server-address"
    ∧ np_ServerCertPath server = GetString viper "server-cert"
    ∧ np_ServerKeyPath server = GetString viper "server-key"
    ∧ np_ClientCertPath server = GetString viper "client-cert";
  wd_webhook : ∃ handler, Register "/mutate-postgresql-cnpg-io-v1-cluster" handler ∈ cs
    ∧ cr_Client handler = GetAPIReader ∧ cr_Resolver handler = resolver;
  wd_health : AddHealthzCheck "healthz" Ping ∈ cs;
  wd_ready : AddReadyzCheck "webhook" StartedChecker ∈ cs
}.

(** The [i]th call is answered: on a failure start-up is over. *)
Ltac step_answer :=
  match goal with f : list ManagerCall → ManagerCall → result unit |- _ =>
    match goal with |- context [f ?cs ?c] => destruct (f cs c) as [[]|] eqn:? end
  end;
  cbn [wrap calls resolvers caches app].

(** Facts of a list of calls that has been written out. *)
Ltac among_calls := rewrite ?elem_of_cons, ?elem_of_nil; naive_solver.
Ltac all_but_last :=
  match goal with |- ∃ before c cause, ?cs = before ++ [c] ∧ _ =>
    let before := eval cbv [removelast] in (removelast cs) in exists before end.

Lemma all_wired viper resolver named named' :
  wired viper resolver [
    NewManager (options_of viper);
    Complete {| ctl_For := "ConfigStore"; ctl_Predicates := [GenerationChanged];
                ctl_Named := named; ctl_Client := GetClient; ctl_Resolver := Some resolver |};
    Complete {| ctl_For := "RestorePolicy"; ctl_Predicates := [GenerationChanged];
                ctl_Named := named'; ctl_Client := GetClient; ctl_Resolver := None |};
    Add (plugin_server viper resolver);
    Register webhook_path {| cr_Client := GetAPIReader; cr_Resolver := resolver |};
    AddHealthzCheck "healthz" Ping; AddReadyzCheck "webhook" StartedChecker; Start].
Proof.
  split; [done|set (i := 1%nat)|set (i := 2%nat)|set (i := 3%nat)|set (i := 4%nat)|..].
  5-6: rewrite !elem_of_cons; tauto.
  all: eexists; split_and!; [by apply (list_elem_of_lookup_2 _ i)|..]; try done; by left.
Qed.

(** However start-up ends, the calls it made. *)
Ltac start_up_ends :=
  intros [= <- <-]; cbn [calls resolvers caches app]; split_and!;
  [ eexists; split; [done|]; split; try done; intros kind; cbn [DisableFor options_of]; among_calls
  | intros c m; among_calls
  | first [by left|right; eexists; by split_and!]
  | first [by among_calls|intros _; split; [apply all_wired|rewrite length_app; cbn [length]; lia]]
  | intros i c Hi Hf Hlast; destruct i as [|[|[|[|[|[|[|[|i]]]]]]]]; simplify_eq/=;
      first [done|by destruct Hlast; [lia|]]
  | first [by among_calls|all_but_last; by do 2 eexists] ].

(** C36: However start-up goes, there is at most one resolver, freshly made, that
    reads ObjectStores past the client's cache, and every component that is
    registered with a resolver is registered with that one.  The manager is
    started last and only with everything in place: both controllers, which sleep
    through mere status updates, the plugin server with the flags' addresses and
    certificates, the webhook at its path, which reads past the cache, and both
    probes.  Every call was granted before the next was made; the first that is
    not ends start-up, and its error is returned under a message that says what
    start-up was doing. *)
Theorem run_wires answer viper w w' r :
  calls w = [] → run answer viper w = (w', r) →
  let n := length (resolvers w) in
  (∃ options, head (calls w') = Some (NewManager options) ∧ configured viper options)
  ∧ (∀ c m, c ∈ calls w' → resolver_of c = Some m → m = n)
  ∧ (resolvers w' = resolvers w
     ∨ ∃ x, resolvers w' = resolvers w ++ [x] ∧ rf_Client x = GetClient ∧ rf_reader x = GetAPIReader
         ∧ osr_ttl (rf_ObjectStores x) = (10 * Second)%Z ∧ osr_cache (rf_ObjectStores x) = ∅)
  ∧ (Start ∈ calls w' → wired viper n (calls w') ∧ (n < length (resolvers w'))%nat)
  ∧ (∀ i c, calls w' !! i = Some c → can_fail c = true → (S i < length (calls w'))%nat ∨ r = Ok () →
       answer (take i (calls w')) c = Ok ())
  ∧ match r with
    | Ok _ => Start ∈ calls w'
    | Err e => ∃ before c cause, calls w' = before ++ [c] ∧ answer before c = Err cause
        ∧ e = Wrapf (message_of c) [] cause
    end.
Proof.
  destruct w as [cs rs ca]. cbn [calls resolvers]. intros ->. cbv zeta.
  unfold run, ConfigStore_SetupWithManager, RestorePolicy_SetupWithManager, issue, issue_, new_resolver, wrapM,
    mbind, prog_bind.
  cbn [calls resolvers caches app].
  do 7 (step_answer; [|by start_up_ends]). by start_up_ends.
Qed.

(** The command line is all that start-up depends on, and every flag it reads is
    declared: two readings that agree on the declared flags, each at the type it
    is declared with, start the same process. *)
Definition agree (v v' : Viper) (f : Flag) : Prop :=
  match fl_Default f with
  | FString _ => GetString v (fl_Name f) = GetString v' (fl_Name f)
  | FInt _ => GetInt v (fl_Name f) = GetInt v' (fl_Name f)
  | FBool _ => GetBool v (fl_Name f) = GetBool v' (fl_Name f)
  end.

Theorem run_flags answer v v' w :
  Forall (agree v v') (cmd_Flags NewCmd) → run answer v w = run answer v' w.
Proof.
  intros HF. unfold NewCmd, cmd_Flags in HF. repeat (apply Forall_cons in HF as [? HF]). unfold agree in *. simpl in *.
  assert (options_of v = options_of v') as Ho by (unfold options_of; congruence).
  assert (∀ r, plugin_server v r = plugin_server v' r) as Hp by (intros r; unfold plugin_server; congruence).
  unfold run. rewrite Ho. unfold mbind, prog_bind. destruct (wrapM _ _ _ w) as [w1 [u|e]]; [|done]. simpl.
  by rewrite Hp.
Qed.

(** The server that is handed to pluginhelper has both hooks around one cache,
    which is new. *)
Lemma Start_server c w :
  ∃ h, (∀ serve, CNPGI_Start serve c w
                 = serve h {| calls := calls w; resolvers := resolvers w; caches := caches w ++ [newSettledCache] |})
    ∧ ∀ server, ∃ i, enriched h server = Ok {| reconcilerHooks := Some i; operatorServer := Some i |}
        ∧ im_Settled i = length (caches w) ∧ im_Client i = np_Client c ∧ im_Resolver i = np_Resolver c.
Proof. eexists. split; [done|]. intros server. eexists. by split_and!. Qed.

Section quiet.
Context `{CnpgLib} {K : Type} `{KubeReader K} {P B W : Type} `{Provider P B}.
Context (backend_of : B → Backend W) (GetKind : string → result string) (Version : string).

(** A capture that finds its content in the store already. *)
Lemma capture_confirms clock cluster store key server fp snap b l p' o' (w : OpWorld P W) latest lk :
  Extract clock (Some cluster) (capture_options Version store) = Ok snap →
  Open store server (ow_provider w) = (p', Ok (b, l)) →
  @Latest W (backend_of b) l (ow_objects w) = (o', Ok (latest, lk)) → confirms latest snap →
  capture backend_of Version clock cluster store key server fp w
  = ({| ow_provider := p'; ow_objects := o'; ow_settled := remember (ow_settled w) cluster fp lk |},
     Ok resultContinue).
Proof.
  intros He Ho Hl Hs. unfold capture, mbind, prog_bind, lift, wrapM, attempt, on_provider, on_objects, do_remember.
  unfold capture_options in He. rewrite He. simpl. rewrite Ho. simpl. rewrite Hl. simpl.
  by rewrite decide_True by exact Hs.
Qed.

(** What the cache confirms, the status hook does not look up again. *)
Lemma SetStatus_settled k cd cluster store fp published (w : OpWorld P W) :
  DecodeClusterLenient cd = Ok cluster → IsSaveEnabled (NewFromCluster cluster) = true →
  kube_config_store k (SaveToKey (NewFromCluster cluster)) = Ok store →
  liveFingerprint cluster (GetCaptureGroups store) = Ok fp →
  WatermarkFromCluster cluster = Some published →
  st_Store published = SaveToStore (NewFromCluster cluster) →
  st_ServerName published = SaveToServer (NewFromCluster cluster) →
  settled (ow_settled w) cluster fp = Some (st_SnapshotKey published) →
  SetStatusInCluster backend_of k cd w = (w, Ok NoOpResponse).
Proof.
  intros Hd Hen Hk Hfp Hw Hst Hsv Hs. unfold SetStatusInCluster, mbind, prog_bind, lift, mret, prog_ret.
  rewrite Hd. cbv zeta. rewrite Hen. simpl. rewrite Hk, Hfp. unfold published_holds. rewrite Hw, Hs.
  rewrite (bool_decide_eq_true_2 (_ ∧ _)) by done. rewrite (bool_decide_eq_true_2 (_ = _)) by done.
  by rewrite orb_true_r.
Qed.

(** C35: One cache for both hooks.  Take a Cluster that carries a published status
    for this store and server, whatever generation it was published for, and a
    store whose newest snapshot is the very one that status names, with the
    Cluster's present content.  Of the server a process starts: once its capture
    hook has been called for that Cluster, which goes to the store and confirms the
    snapshot, its status hook answers for it without going to the store.  A Cluster
    with no published status, or one that names another snapshot, is not spared
    the look-up. *)
Theorem confirmed_state_is_quiet c pr :
  ∃ h server pr', (∀ serve, CNPGI_Start serve c pr = serve h pr')
    ∧ enriched h {| reconcilerHooks := None; operatorServer := None |} = Ok server
    ∧ ∀ k clock rd cd (sv : Serving P W) cluster store fp p' b l snap o' latest published,
        (length (caches pr) < length (sv_caches sv))%nat →
        goes_to_store GetKind k rd cd (seen_by (length (caches pr)) sv) cluster store fp p' b l →
        Extract clock (Some cluster) (capture_options Version store) = Ok snap →
        WatermarkFromCluster cluster = Some published →
        st_Store published = SaveToStore (NewFromCluster cluster) →
        st_ServerName published = SaveToServer (NewFromCluster cluster) →
        @Latest W (backend_of b) l (sv_objects sv) = (o', Ok (latest, st_SnapshotKey published)) →
        confirms latest snap →
        ∃ sv', serve_Post backend_of GetKind Version server clock k rd cd sv = (sv', Ok resultContinue)
          ∧ serve_SetStatusInCluster backend_of server k cd sv' = (sv', Ok NoOpResponse).
Proof.
  destruct (Start_server c pr) as (h & Hserve & Henrich).
  destruct (Henrich {| reconcilerHooks := None; operatorServer := None |}) as (i & Hi & Hset & _).
  eexists h, _, _. split; [exact Hserve|]. split; [exact Hi|]. cbn [caches].
  intros k clock rd cd sv cluster store fp p' b l snap o' latest published Hlen Hgs He Hw Hst Hsv Hl Hs.
  set (n := length (caches pr)) in *.
  destruct (lookup_lt_is_Some_2 (sv_caches sv) n) as [cache Hc]; [lia|].
  unfold serve_Post, serve_SetStatusInCluster. cbn [reconcilerHooks operatorServer]. rewrite Hset. unfold through.
  destruct (Post backend_of GetKind Version clock k rd cd (seen_by n sv)) as [w1 r] eqn:Hp.
  apply (Post_slow _ _ _ _ _ _ _ _ _ _ _ _ _ _ _ _ Hgs) in Hp.
  rewrite (capture_confirms _ _ _ _ _ _ _ _ _ _ _ _ _ _ He (gs_open _ _ _ _ _ _ _ _ _ _ _ Hgs) Hl Hs) in Hp.
  injection Hp as <- <-. cbn [ow_provider ow_objects ow_settled seen_by]. rewrite Hc.
  eexists. split; [done|].
  assert (∀ x, <[n:=x]> (sv_caches sv) !! n = Some x) as Hn by (intros x; apply list_lookup_insert_eq; lia).
  rewrite (SetStatus_settled k cd cluster store fp published); [|apply Hgs..|done|done|done|].
  - unfold seen_by. cbn [sv_caches sv_provider sv_objects ow_provider ow_objects ow_settled remember].
    by rewrite Hn, list_insert_insert_eq.
  - unfold seen_by. cbn [sv_caches ow_settled remember]. rewrite Hn. apply settled_remember.
Qed.

End quiet.

(** ** The manifests the process is deployed with *)

(** *** kubernetes/webhook.yaml

    The API server sends a Cluster to the webhook when this holds of it. *)
Definition restore_parameters : list string :=
  [ParameterRestoreFromStore; ParameterRestoreFromServer; ParameterRestorePolicy].
Definition uses_chronicle_restore (cluster : Cluster) : bool :=
  existsb (λ p,
    bool_decide (pd_Name p = PluginName)
    && match pd_Enabled p with None => true | Some b => b end
    && existsb (λ key, bool_decide (is_Some (pd_Parameters p !! key))) restore_parameters)
    (cl_Plugins cluster).

Lemma find_declaration_elem plugins d :
  find_declaration plugins = Some d → d ∈ plugins ∧ pd_Name d = PluginName.
Proof.
  induction plugins as [|x plugins IH]; simpl; [done|]. case_decide as Hx.
  - intros [? ?]%IH. split; [by right|done].
  - intros [= ->]. split; [left|]. by destruct (decide (pd_Name d = PluginName)).
Qed.

(** No Cluster is stuck between the two: one that the capture hook's guard refuses
    for having been created without its restore is one that the API server was to
    send to the webhook. *)
Theorem refused_was_for_admission `{CnpgLib} GetKind rd cd cluster e :
  GetKind rd = Ok "Cluster" → DecodeClusterLenient cd = Ok cluster →
  Pre GetKind rd cd = Err e → uses_chronicle_restore cluster = true.
Proof.
  intros Hk Hd. unfold Pre. rewrite Hk, ok_bind, decide_False by (intros Hn; by apply Hn).
  rewrite Hd, ok_bind. cbv zeta.
  destruct (IsRestoreRequested (NewFromCluster cluster)) eqn:Hr; [|done]. intros _.
  unfold IsRestoreRequested, NewFromCluster in Hr.
  destruct (find_declaration (cl_Plugins cluster)) as [d|] eqn:Hf; [|done].
  apply find_declaration_elem in Hf as [Hin Hname]. simpl in Hr.
  apply andb_true_iff in Hr as [He Hs%bool_decide_eq_true].
  unfold uses_chronicle_restore. apply existsb_exists. exists d. split; [by apply list_elem_of_In|].
  rewrite bool_decide_eq_true_2, He by done. simpl. apply orb_true_iff. left.
  apply bool_decide_eq_true_2. unfold parameter in Hs. by destruct (pd_Parameters d !! _).
Qed.

(** *** config/rbac/role.yaml *)

Record PolicyRule := { apiGroups : list string; resources_ : list string; verbs : list string }.
Definition role : list PolicyRule := [
  {| apiGroups := [""]; resources_ := ["secrets"]; verbs := ["get"] |};
  {| apiGroups := ["barmancloud.cnpg.io"]; resources_ := ["objectstores"]; verbs := ["get"] |};
  {| apiGroups := ["chronicle.sharifmshaker.github.io"]; resources_ := ["configstores"; "restorepolicies"];
     verbs := ["get"; "list"; "watch"] |};
  {| apiGroups := ["chronicle.sharifmshaker.github.io"];
     resources_ := ["configstores/status"; "restorepolicies/status"]; verbs := ["get"; "patch"; "update"] |};
  {| apiGroups := ["postgresql.cnpg.io"]; resources_ := ["backups"; "clusters"]; verbs := ["get"; "list"] |}].

Definition permits (rule : PolicyRule) (group resource verb : string) : bool :=
  bool_decide (group ∈ apiGroups rule) && bool_decide (resource ∈ resources_ rule)
  && bool_decide (verb ∈ verbs rule).
Definition allowed (group resource verb : string) : bool := existsb (λ r, permits r group resource verb) role.

(** The reads of each part, by kind, resource and verb. *)
Definition api_read : Type := string * string * string * string.
Definition chronicle_group : string := "chronicle.sharifmshaker.github.io".
Definition ConfigStoreReconciler_reads : list api_read := [
  ("ConfigStore", chronicle_group, "configstores", "get")].
Definition enforceRetention_reads : list api_read := [
  ("Cluster", "postgresql.cnpg.io", "clusters", "list")].
Definition RestorePolicyReconciler_reads : list api_read := [
  ("RestorePolicy", chronicle_group, "restorepolicies", "get")].
Definition hook_reads : list api_read := [
  ("ConfigStore", chronicle_group, "configstores", "get")].
Definition Resolver_reads : list api_read := [("Secret", "", "secrets", "get")].
Definition ObjectStoreReader_reads : list api_read := [
  ("ObjectStore", "barmancloud.cnpg.io", "objectstores", "get")].
Definition ClusterRestorer_reads : list api_read := [
  ("ConfigStore", chronicle_group, "configstores", "get");
  ("RestorePolicy", chronicle_group, "restorepolicies", "get")].
Definition ByName_reads : list api_read := [("Backup", "postgresql.cnpg.io", "backups", "get")].
Definition ByBackupID_reads : list api_read := [("Backup", "postgresql.cnpg.io", "backups", "list")].

(** Which client of [run] each part reads through. *)
Definition api_reads (c : ClientKind) : list api_read :=
  match c with
  | GetClient => ConfigStoreReconciler_reads ++ enforceRetention_reads ++ RestorePolicyReconciler_reads
                 ++ hook_reads ++ Resolver_reads
  | GetAPIReader => ObjectStoreReader_reads ++ ClusterRestorer_reads ++ ByName_reads ++ ByBackupID_reads
  end.

(** What a read asks of the API server: a cached kind is listed and watched. *)
Definition verbs_of (options : Options) (c : ClientKind) (kind verb : string) : list string :=
  match c with
  | GetClient => if decide (kind ∈ DisableFor options) then [verb] else ["list"; "watch"]
  | GetAPIReader => [verb]
  end.

(** The role grants what the clients of [run] ask for, and the status patches. *)
Theorem role_is_enough viper :
  (∀ c kind group resource verb verb', (kind, group, resource, verb) ∈ api_reads c →
     verb' ∈ verbs_of (options_of viper) c kind verb → allowed group resource verb' = true)
  ∧ allowed chronicle_group "configstores/status" "patch" = true
  ∧ allowed chronicle_group "restorepolicies/status" "patch" = true.
Proof.
  split; [|by split; vm_compute]. intros c kind group resource verb verb' Hr.
  assert (∀ k, decide (k ∈ DisableFor (options_of viper)) = decide (k ∈ ["Secret"; "Cluster"])) as Hdis by done.
  unfold verbs_of. rewrite Hdis. clear Hdis.
  destruct c; cbn in Hr; repeat (apply elem_of_cons in Hr as [[= -> -> -> ->]|Hr]);
    try (by apply elem_of_nil in Hr); cbn -[allowed]; intros Hv;
    repeat (apply elem_of_cons in Hv as [->|Hv]; [by vm_compute|]); by apply elem_of_nil in Hv.
Qed.

(** *** The scheme *)

(** What registering documents: types stay registered, and client-go and
    CloudNativePG register their own. *)
Class SchemeSpec (S : Type) `{SchemeLib S} := {
  knows : S → string → string → Prop;
  added_knows gv kinds s kind : kind ∈ kinds → knows (AddKnownTypes gv kinds s) (gv_Group gv) kind;
  added_keeps gv kinds s group kind : knows s group kind → knows (AddKnownTypes gv kinds s) group kind;
  version_keeps gv s group kind : knows s group kind → knows (AddToGroupVersion gv s) group kind;
  clientgo_knows s s' : clientgoscheme_AddToScheme s = Ok s' → knows s' "" "Secret";
  cnpg_knows s s' kind :
    cnpg_AddToScheme s = Ok s' → kind ∈ ["Cluster"; "Backup"] → knows s' "postgresql.cnpg.io" kind;
  cnpg_keeps s s' group kind : cnpg_AddToScheme s = Ok s' → knows s group kind → knows s' group kind
}.

(** Every kind that is read is one the client can decode, but for ObjectStores,
    which are read without a type. *)
Theorem init_knows_reads {S : Type} `{SchemeSpec S} (s : S) c kind group resource verb :
  init = Some s → (kind, group, resource, verb) ∈ api_reads c → kind ≠ "ObjectStore" → knows s group kind.
Proof.
  unfold init. intros (s1 & H1 & (s2 & H2 & H3)%bind_Some)%bind_Some.
  assert (clientgoscheme_AddToScheme NewScheme = Ok s1) as Hs1
    by (revert H1; unfold must; destruct (clientgoscheme_AddToScheme _); congruence).
  assert (cnpg_AddToScheme s2 = Ok s) as Hs3
    by (revert H3; unfold must; destruct (cnpg_AddToScheme _); congruence).
  injection H2 as <-. apply clientgo_knows in Hs1.
  intros Hr Hne. destruct c; cbn in Hr; repeat (apply elem_of_cons in Hr as [[= -> -> -> ->]|Hr]);
    try (by apply elem_of_nil in Hr); try done;
    first [eapply cnpg_knows; [exact Hs3|set_solver]
          |eapply cnpg_keeps; [exact Hs3|]; apply version_keeps;
           first [apply (added_knows chronicle_v1); set_solver|by apply added_keeps]].
Qed.
