(* ===== verification/Watch.v ===== *)
(** * The RestorePolicy controller against a live API server

    [Controller.ReconcilePolicy] is one reconciliation.  Here it runs as
    restorepolicy_controller.go has it run: it is woken by the changes of the
    policy that pass the predicate of [SetupWithManager], it reads the policy
    from a cache that follows the API server, and between its read and its patch
    the policy may change.  Whether the verdict on the policy ends up being the
    verdict on its rules is then a question about the whole system. *)

From S2P Require Import Prelude GoStrings GoTime GoFloat Api Cnpg Kube Resolver Backend Celenv Skip Transform Plan Controller.

#[local] Open Scope stdpp_scope.

Definition policy_key (p : RestorePolicy) : NamespacedName :=
  {| nn_Namespace := rp_Namespace p; nn_Name := rp_Name p |}.
Abbreviation conditions_of p := (rps_Conditions (rp_Status p)).

(** ** What kubectl shows *)

(** The condition of type Ready. *)
Definition ready (conditions : list Condition) : option Condition :=
  head (filter (λ c, cond_Type c = ConditionReady) conditions).

Lemma equalConditions_ready a b :
  equalConditions a b = true → without_transition <$> ready a = without_transition <$> ready b.
Proof.
  revert b. induction a as [|x a IH]; intros [|y b]; simpl; try done.
  intros [Hxy%bool_decide_eq_true Hab]%andb_true_iff. unfold ready in *.
  assert (cond_Type x = cond_Type y) as Ht by (by injection Hxy).
  rewrite !filter_cons, <-Ht. case_decide; [|by apply IH]. simpl. by rewrite Hxy.
Qed.

Lemma equalConditions_without a b :
  equalConditions a b = true ↔ without_transition <$> a = without_transition <$> b.
Proof.
  revert b. induction a as [|x a IH]; intros [|y b]; csimpl; try done.
  rewrite andb_true_iff, bool_decide_eq_true, IH. split; [by intros [-> ->]|].
  generalize (without_transition x), (without_transition y). by intros ?? [= -> ->].
Qed.

Section set.
Context `{MetaLib} `{!MetaSpec}.

(** [SetStatusCondition] sets the condition that is shown. *)
Lemma ready_set t conditions c :
  cond_Type c = ConditionReady →
  without_transition <$> ready (SetStatusCondition t conditions c) = Some (without_transition c).
Proof.
  intros Hc. unfold ready. rewrite <-Hc.
  assert (∀ pre post t', Forall (λ x, cond_Type x ≠ cond_Type c) pre →
    without_transition <$> head (filter (λ x, cond_Type x = cond_Type c) (pre ++ stamped t' c :: post))
    = Some (without_transition c)) as Hhead.
  { intros pre post t' Hpre. rewrite filter_app, filter_none.
    - rewrite filter_cons, decide_True by done. done.
    - rewrite Forall_forall in Hpre. exact Hpre. }
  destruct (conditions_split conditions (cond_Type c)) as [HF|(pre & old & post & -> & HF & Ho)].
  - destruct (set_absent t conditions c HF) as [t' ->]. by apply Hhead.
  - destruct (set_present t pre old post c HF Ho) as [t' ->]. by apply Hhead.
Qed.

(** Setting what is shown already is no change. *)
Lemma set_shown t conditions c :
  cond_Type c = ConditionReady →
  without_transition <$> ready conditions = Some (without_transition c) →
  equalConditions conditions (SetStatusCondition t conditions c) = true.
Proof.
  intros Hc. unfold ready. rewrite <-Hc. intros Hr.
  destruct (conditions_split conditions (cond_Type c)) as [HF|(pre & old & post & -> & HF & Ho)].
  - rewrite filter_none in Hr by (by rewrite Forall_forall in HF). done.
  - destruct (set_present t pre old post c HF Ho) as [t' ->].
    rewrite filter_app, filter_none, filter_cons, decide_True in Hr by (done || by rewrite Forall_forall in HF).
    apply equalConditions_app; [apply equalConditions_refl|].
    apply equalConditions_without. csimpl. apply (inj Some) in Hr.
    f_equal. exact Hr.
Qed.

End set.

(** ** A reconciliation, broken up at its patch *)

Section policy.
Context `{CnpgLib} `{QuantityLib} `{GoPlatform} `{!CelEngine} `{Fmt} `{MetaLib}.

(** The policy with its new status, if there is one to patch. *)
Definition policy_update (transitionAt : Z) (original : RestorePolicy) : option RestorePolicy :=
  let policy := with_policy_conditions original
    (SetStatusCondition transitionAt (conditions_of original) (policy_condition original)) in
  if equalConditions (conditions_of original) (conditions_of policy) then None else Some policy.

(** The policy shows the verdict on its own rules. *)
Definition reports (p : RestorePolicy) : Prop :=
  without_transition <$> ready (conditions_of p) = Some (policy_condition p).

Lemma ReconcilePolicy_patches {K} `{KubeController K} t req (k : K) :
  ReconcilePolicy t req k
  = match kube_restore_policy k req with
    | Err err => (k, if is_kube_not_found err then Ok {| RequeueAfter := 0 |} else Err err)
    | Ok original =>
        match policy_update t original with
        | None => (k, Ok {| RequeueAfter := 0 |})
        | Some policy => (_ ← patch_restore_policy original policy; mret {| RequeueAfter := 0 |}) k
        end
    end.
Proof.
  unfold ReconcilePolicy, policy_update. destruct (kube_restore_policy k req) as [p|]; [|done].
  by destruct (equalConditions _ _).
Qed.

(** The verdict depends on the spec alone. *)
Lemma policy_condition_spec p q : rp_Spec p = rp_Spec q → policy_condition p = policy_condition q.
Proof. unfold policy_condition. by intros ->. Qed.

Lemma policy_condition_type p : cond_Type (policy_condition p) = ConditionReady.
Proof. unfold policy_condition. by destruct (CompileRules _ _). Qed.

Lemma policy_condition_bare p : without_transition (policy_condition p) = policy_condition p.
Proof. unfold policy_condition. by destruct (CompileRules _ _). Qed.

Lemma reports_ext p q :
  rp_Spec p = rp_Spec q → conditions_of p = conditions_of q → reports p ↔ reports q.
Proof. intros Hs Hc. unfold reports. by rewrite (policy_condition_spec _ _ Hs), Hc. Qed.

Context `{!MetaSpec}.

Lemma policy_update_None t p : policy_update t p = None ↔ reports p.
Proof.
  unfold policy_update, reports. cbn [with_policy_conditions rp_Status rps_Conditions]. split.
  - destruct (equalConditions _ _) eqn:He; [|done]. intros _.
    rewrite (equalConditions_ready _ _ He), ready_set by apply policy_condition_type.
    by rewrite policy_condition_bare.
  - intros Hr. rewrite set_shown; [done|apply policy_condition_type|by rewrite policy_condition_bare].
Qed.

Lemma policy_update_Some t p u :
  policy_update t p = Some u →
  u = with_policy_conditions p (conditions_of u) ∧ reports u ∧ conditions_of p ≠ conditions_of u.
Proof.
  unfold policy_update. cbn [with_policy_conditions rp_Status rps_Conditions].
  destruct (equalConditions _ _) eqn:He; [done|]. intros [= <-]. split; [done|]. split.
  - unfold reports. cbn [with_policy_conditions rp_Status rps_Conditions].
    rewrite ready_set by apply policy_condition_type.
    by rewrite policy_condition_bare.
  - cbn [with_policy_conditions rp_Status rps_Conditions]. intros Heq.
    by rewrite <-Heq, equalConditions_refl in He.
Qed.

End policy.

(** ** What the controller's runtime promises *)

(** An API server with one controller's view of the policy [req]: the cached
    copy, and the versions the watch has still to deliver, oldest first.  Reads
    are served from the cache.  A patch made with [client.MergeFrom] replaces the
    list of conditions whole and carries nothing else; one that changes nothing
    makes no new version, and one that fails may have been applied. *)
Class PolicyWatch (K : Type) `{KubeController K} (req : NamespacedName) := {
  cached : K → option RestorePolicy;
  undelivered : K → list (option RestorePolicy);
  GenerationChangedPredicate : option RestorePolicy → option RestorePolicy → bool;
  filter_create p : GenerationChangedPredicate None (Some p) = true;
  filter_delete p : GenerationChangedPredicate (Some p) None = true;
  filter_update p q :
    GenerationChangedPredicate (Some p) (Some q) = bool_decide (rp_Generation p ≠ rp_Generation q);
  read_cached k :
    match cached k with
    | Some p => kube_restore_policy k req = Ok p
    | None => ∃ e, kube_restore_policy k req = Err e ∧ is_kube_not_found e = true
    end;
  patch_merges original updated k k' r :
    policy_key updated = req → conditions_of original ≠ conditions_of updated →
    patch_restore_policy original updated k = (k', r) →
    let server := default (cached k) (last (undelivered k)) in
    cached k' = cached k
    ∧ ((∃ e, r = Err e) ∧ undelivered k' = undelivered k
       ∨ ∃ p, server = Some p
           ∧ (undelivered k' = undelivered k ++ [Some (with_policy_conditions p (conditions_of updated))]
              ∨ conditions_of p = conditions_of updated ∧ undelivered k' = undelivered k))
}.

(** What anyone else does to a policy: its status is written by this controller
    alone, and an edit of its spec bumps its generation. *)
Inductive changes (req : NamespacedName) : option RestorePolicy → option RestorePolicy → Prop :=
| changes_create p : policy_key p = req → changes req None (Some p)
| changes_edit p q :
    policy_key q = policy_key p → rp_Status q = rp_Status p →
    (rp_Generation p = rp_Generation q → rp_Spec p = rp_Spec q) → changes req (Some p) (Some q)
| changes_delete p : changes req (Some p) None.

(** ** The system *)

(** The world, whether the policy is in the work queue, and the patch of the
    reconciliation at work. *)
Record control (K : Type) := {
  ct_kube : K;
  ct_queued : bool;
  ct_patching : option (RestorePolicy * RestorePolicy)
}.
Arguments ct_kube {K}.
Arguments ct_queued {K}.
Arguments ct_patching {K}.

Section system.
Context `{CnpgLib} `{QuantityLib} `{GoPlatform} `{!CelEngine} `{Fmt} `{MetaLib} `{!MetaSpec}.
Context {K : Type} `{KubeController K} (req : NamespacedName) `{!PolicyWatch K req}.

(** The policy as the API server has it. *)
Definition server (k : K) : option RestorePolicy := default (cached k) (last (undelivered k)).

Definition with_kube (k : K) (s : control K) : control K :=
  {| ct_kube := k; ct_queued := ct_queued s; ct_patching := ct_patching s |}.

(** [Reconcile] up to its patch. *)
Definition begin (transitionAt : Z) (s : control K) : control K :=
  match kube_restore_policy (ct_kube s) req with
  | Err err =>
      {| ct_kube := ct_kube s; ct_queued := negb (is_kube_not_found err); ct_patching := None |}
  | Ok original =>
      {| ct_kube := ct_kube s; ct_queued := false;
         ct_patching := (λ policy, (original, policy)) <$> policy_update transitionAt original |}
  end.

(** A reconciliation starts only where [may_read] holds of the world.  One that
    fails is queued again, and one policy is never reconciled twice at a time. *)
Inductive step (may_read : K → Prop) (s : control K) : control K → Prop :=
| step_change k' v :
    changes req (server (ct_kube s)) v → cached k' = cached (ct_kube s) →
    undelivered k' = undelivered (ct_kube s) ++ [v] → step may_read s (with_kube k' s)
| step_deliver k' v rest :
    undelivered (ct_kube s) = v :: rest → cached k' = v → undelivered k' = rest →
    step may_read s {| ct_kube := k';
                       ct_queued := ct_queued s || GenerationChangedPredicate (cached (ct_kube s)) v;
                       ct_patching := ct_patching s |}
| step_begin transitionAt :
    ct_queued s = true → ct_patching s = None → may_read (ct_kube s) →
    step may_read s (begin transitionAt s)
| step_patch original policy k' r :
    ct_patching s = Some (original, policy) →
    patch_restore_policy original policy (ct_kube s) = (k', r) →
    step may_read s {| ct_kube := k'; ct_queued := ct_queued s || negb (is_ok r); ct_patching := None |}
| step_elsewhere k' :
    cached k' = cached (ct_kube s) → undelivered k' = undelivered (ct_kube s) →
    step may_read s (with_kube k' s)
| step_restart k' :
    cached k' = server (ct_kube s) → undelivered k' = [] →
    step may_read s {| ct_kube := k'; ct_queued := true; ct_patching := None |}.

(** The controller has just started: everything it lists is queued. *)
Definition initial (s : control K) : Prop :=
  (∀ p, cached (ct_kube s) = Some p → policy_key p = req)
  ∧ undelivered (ct_kube s) = [] ∧ ct_queued s = true ∧ ct_patching s = None.

Definition reachable (may_read : K → Prop) (s : control K) : Prop :=
  ∃ s0, initial s0 ∧ rtc (step may_read) s0 s.

(** Nothing is left to deliver, to reconcile or to patch. *)
Definition at_rest (s : control K) : Prop :=
  undelivered (ct_kube s) = [] ∧ ct_queued s = false ∧ ct_patching s = None.

(** The cache is not behind on what the controller itself has written. *)
Definition reads_own_writes (k : K) : Prop :=
  ∀ p q, cached k = Some p → server k = Some q → conditions_of p = conditions_of q.

(** ** The invariant *)

Abbreviation passes := GenerationChangedPredicate.

(** Some version still to be delivered will wake the controller. *)
Fixpoint wakes (v : option RestorePolicy) (vs : list (option RestorePolicy)) : bool :=
  match vs with [] => false | w :: vs => passes v w || wakes w vs end.

Definition same_rules (v w : option RestorePolicy) : Prop :=
  ∃ p q, v = Some p ∧ w = Some q ∧ rp_Spec p = rp_Spec q.

(** No change of the rules slips by the predicate. *)
Fixpoint chained (v : option RestorePolicy) (vs : list (option RestorePolicy)) : Prop :=
  match vs with [] => True | w :: vs => (passes v w = true ∨ same_rules v w) ∧ chained w vs end.

Definition newest_version (v : option RestorePolicy) (vs : list (option RestorePolicy)) : option RestorePolicy :=
  default v (last vs).

Definition named (v : option RestorePolicy) : Prop := ∀ p, v = Some p → policy_key p = req.

Lemma newest_version_cons v w vs : newest_version v (w :: vs) = newest_version w vs.
Proof. unfold newest_version. rewrite last_cons. by destruct (last vs). Qed.
Lemma newest_version_snoc v vs w : newest_version v (vs ++ [w]) = w.
Proof. unfold newest_version. by rewrite last_snoc. Qed.

Lemma newest_version_Forall (P : option RestorePolicy → Prop) v vs : Forall P (v :: vs) → P (newest_version v vs).
Proof.
  revert v. induction vs as [|w vs IH]; intros v Hv; [by apply Forall_cons in Hv as [? _]|].
  rewrite newest_version_cons. apply IH. by apply Forall_cons in Hv as [_ ?].
Qed.

Lemma wakes_snoc v vs w : wakes v (vs ++ [w]) = wakes v vs || passes (newest_version v vs) w.
Proof.
  revert v. induction vs as [|x vs IH]; intros v; simpl; [by rewrite orb_false_r|].
  by rewrite IH, newest_version_cons, orb_assoc.
Qed.

Lemma chained_snoc v vs w :
  chained v vs → passes (newest_version v vs) w = true ∨ same_rules (newest_version v vs) w →
  chained v (vs ++ [w]).
Proof.
  revert v. induction vs as [|x vs IH]; intros v; simpl; [done|].
  rewrite newest_version_cons. intros [? ?] ?. split; [done|by apply IH].
Qed.

Lemma same_rules_trans u v w : same_rules u v → same_rules v w → same_rules u w.
Proof. intros (p & q & -> & -> & ?) (q' & r & [= <-] & -> & ?). exists p, r. split_and!; [done|done|congruence]. Qed.

Lemma chained_asleep v vs :
  chained v vs → wakes v vs = false → newest_version v vs = v ∨ same_rules v (newest_version v vs).
Proof.
  revert v. induction vs as [|x vs IH]; intros v; simpl; [by left|].
  rewrite newest_version_cons. intros [Hx Hc] [Hp Hw]%orb_false_iff.
  destruct Hx as [Hx|Hx]; [congruence|]. right.
  destruct (IH x Hc Hw) as [->|?]; [done|by eapply same_rules_trans].
Qed.

(** While nothing is about to wake the controller, what it last did, or is about
    to do, settles the policy. *)
Definition accounted (s : control K) : Prop :=
  match ct_patching s with
  | None => ∀ p, server (ct_kube s) = Some p → reports p
  | Some (original, _) => ∀ p, cached (ct_kube s) = Some p → rp_Spec p = rp_Spec original
  end.

Record invariant (s : control K) : Prop := {
  inv_named : Forall named (cached (ct_kube s) :: undelivered (ct_kube s));
  inv_chained : chained (cached (ct_kube s)) (undelivered (ct_kube s));
  inv_patching original policy :
    ct_patching s = Some (original, policy) →
    policy = with_policy_conditions original (conditions_of policy) ∧ reports policy
    ∧ conditions_of original ≠ conditions_of policy ∧ policy_key policy = req;
  inv_accounted :
    ct_queued s = true ∨ wakes (cached (ct_kube s)) (undelivered (ct_kube s)) = true ∨ accounted s
}.

Lemma changes_passes v w :
  changes req v w →
  passes v w = true
  ∨ ∃ p q, v = Some p ∧ w = Some q ∧ rp_Spec p = rp_Spec q ∧ rp_Status q = rp_Status p.
Proof.
  destruct 1 as [p _|p q _ Hst Hg|p]; [left; apply filter_create| |left; apply filter_delete].
  rewrite filter_update. destruct (decide (rp_Generation p = rp_Generation q)) as [He|He].
  - right. exists p, q. auto.
  - left. by apply bool_decide_eq_true.
Qed.

(** A new version on the server. *)
Lemma inv_version s k' v :
  invariant s → cached k' = cached (ct_kube s) → undelivered k' = undelivered (ct_kube s) ++ [v] →
  passes (server (ct_kube s)) v = true ∨ same_rules (server (ct_kube s)) v → named v →
  Forall named (cached k' :: undelivered k') ∧ chained (cached k') (undelivered k')
  ∧ (wakes (cached (ct_kube s)) (undelivered (ct_kube s)) = true → wakes (cached k') (undelivered k') = true)
  ∧ server k' = v.
Proof.
  intros [Hnm Hc _ _] Hca Hun Hv Hnv. unfold server. rewrite Hca, Hun, last_snoc. split_and!; [| |..|done].
  - rewrite app_comm_cons. apply Forall_app. by split; [|constructor].
  - by apply chained_snoc.
  - intros Hw. by rewrite wakes_snoc, Hw.
Qed.

Lemma step_change_inv s k' v :
  invariant s → changes req (server (ct_kube s)) v → cached k' = cached (ct_kube s) →
  undelivered k' = undelivered (ct_kube s) ++ [v] → invariant (with_kube k' s).
Proof.
  intros Hi Hv Hca Hun. pose proof (changes_passes _ _ Hv) as Hp.
  destruct (inv_version s k' v Hi Hca Hun) as (Hnm & Hc & Hw & Hs).
  { destruct Hp as [?|(p & q & ? & ? & ? & _)]; [by left|right; by exists p, q]. }
  { pose proof (newest_version_Forall _ _ _ (inv_named _ Hi)) as Hn. intros q ->. inversion Hv as [| p ? Hk |]; subst; [done|].
    rewrite Hk. by apply Hn. }
  split; [done|done|exact (inv_patching _ Hi)|]. cbn [with_kube ct_kube ct_queued ct_patching].
  destruct (inv_accounted _ Hi) as [?|[?|Ha]]; [by left|right; left; by apply Hw|].
  destruct Hp as [Hp|(p & q & Hps & -> & Hpq & Hst)].
  - right. left. rewrite Hca, Hun, wakes_snoc. unfold server in Hp. unfold newest_version. rewrite Hp.
    apply orb_true_r.
  - right. right. unfold accounted in *. cbn [with_kube ct_kube ct_patching].
    destruct (ct_patching s) as [[o u]|]; [by rewrite Hca|].
    rewrite Hs. intros ? [= <-]. apply (reports_ext p q); [done|by rewrite Hst|by apply Ha].
Qed.

Lemma step_deliver_inv s k' v rest :
  invariant s → undelivered (ct_kube s) = v :: rest → cached k' = v → undelivered k' = rest →
  invariant {| ct_kube := k'; ct_queued := ct_queued s || passes (cached (ct_kube s)) v;
               ct_patching := ct_patching s |}.
Proof.
  intros [Hnm Hc Hp Ha] Hun Hca Hre. rewrite Hun in Hnm, Hc, Ha. simpl in Hc, Ha. destruct Hc as [Hv Hc].
  split; cbn [ct_kube ct_queued ct_patching]; [rewrite Hca, Hre; by inversion Hnm|by rewrite Hca, Hre|exact Hp|].
  destruct (passes (cached (ct_kube s)) v) eqn:Hpv; [left; apply orb_true_r|]. simpl in Ha. rewrite orb_false_r.
  destruct Ha as [?|[?|Ha]]; [by left|right; left; by rewrite Hca, Hre|]. right. right.
  destruct Hv as [?|(p & q & Hcp & -> & Hpq)]; [done|].
  unfold accounted, server in *. cbn [ct_kube ct_patching].
  destruct (ct_patching s) as [[o u]|].
  - rewrite Hca. intros ? [= <-]. rewrite <-Hpq. by apply Ha.
  - rewrite Hca, Hre. intros x Hx. apply Ha. rewrite Hun. rewrite <-Hx. apply newest_version_cons.
Qed.

Lemma step_begin_inv s t :
  invariant s → ct_patching s = None → reads_own_writes (ct_kube s) → invariant (begin t s).
Proof.
  intros [Hnm Hc _ _] Hn Hr. unfold begin. pose proof (read_cached (ct_kube s)) as Hread.
  destruct (cached (ct_kube s)) as [p|] eqn:Hp.
  - rewrite Hread. split; cbn [ct_kube ct_queued ct_patching]; [by rewrite Hp|by rewrite Hp| |].
    + intros o u Hu. destruct (policy_update t p) as [u'|] eqn:Hup; [|done]. injection Hu as <- <-.
      destruct (policy_update_Some _ _ _ Hup) as (Heq & ? & ?). split_and!; try done. rewrite Heq.
      apply Forall_cons in Hnm as [Hnp _]. exact (Hnp p eq_refl).
    + rewrite Hp. destruct (wakes (Some p) _) eqn:Hw; [by right; left|]. right. right. unfold accounted.
      cbn [ct_kube ct_patching]. destruct (policy_update t p) as [u|] eqn:Hup; cbn [fmap option_fmap option_map].
      * rewrite Hp. by intros ? [= <-].
      * apply policy_update_None in Hup. intros q Hq. pose proof (Hr p q Hp Hq) as Hcond.
        unfold server in Hq. rewrite Hp in Hq.
        destruct (chained_asleep _ _ Hc Hw) as [He|(p' & q' & [= <-] & He & Hs)];
          unfold newest_version in He; rewrite Hq in He; injection He as ->; [done|].
        by apply (reports_ext p q').
  - destruct Hread as (e & -> & He). rewrite He. split; cbn [ct_kube ct_queued ct_patching]; [by rewrite Hp|by rewrite Hp|done|].
    rewrite Hp. destruct (wakes None _) eqn:Hw; [by right; left|]. right. right. unfold accounted, server.
    cbn [ct_kube ct_patching]. rewrite Hp. intros q Hq.
    destruct (chained_asleep _ _ Hc Hw) as [Hx|(p' & q' & [=] & _)]. unfold newest_version in Hx. congruence.
Qed.

Lemma step_patch_inv s original policy k' r :
  invariant s → ct_patching s = Some (original, policy) →
  patch_restore_policy original policy (ct_kube s) = (k', r) →
  invariant {| ct_kube := k'; ct_queued := ct_queued s || negb (is_ok r); ct_patching := None |}.
Proof.
  intros Hi Hp Hpatch. destruct (inv_patching _ Hi _ _ Hp) as (Hu & Hrep & Hne & Hkey).
  destruct (patch_merges _ _ _ _ _ Hkey Hne Hpatch) as [Hca Hend]. cbv zeta in Hend.
  fold (server (ct_kube s)) in Hend.
  assert (∀ p, server (ct_kube s) = Some p → ct_queued s = true
          ∨ wakes (cached (ct_kube s)) (undelivered (ct_kube s)) = true ∨ rp_Spec p = rp_Spec policy) as Hspec.
  { intros p Hs. destruct (inv_accounted _ Hi) as [?|[?|Ha]]; [by left|by right; left|].
    destruct (wakes _ _) eqn:Hw; [by right; left|]. right. right. unfold accounted in Ha. rewrite Hp in Ha.
    assert (rp_Spec policy = rp_Spec original) as -> by by rewrite Hu.
    unfold server in Hs.
    destruct (chained_asleep _ _ (inv_chained _ Hi) Hw) as [He|(p' & q & Hc & He & Hpq)];
      unfold newest_version in He; rewrite Hs in He.
    - by apply Ha.
    - injection He as <-. rewrite <-Hpq. by apply Ha. }
  destruct Hend as [[[e ->] Hun]|(p & Hs & [Hun|[Hcond Hun]])].
  - split; cbn [ct_kube ct_queued ct_patching]; rewrite ?Hca, ?Hun; [exact (inv_named _ Hi)|exact (inv_chained _ Hi)|done|].
    left. apply orb_true_r.
  - destruct (inv_version s k' (Some (with_policy_conditions p (conditions_of policy))) Hi Hca Hun) as (Hnm & Hc & Hw & Hs').
    { right. rewrite Hs. eexists _, _. by split_and!. }
    { intros ? [= <-]. exact (newest_version_Forall named _ _ (inv_named _ Hi) p Hs). }
    split; cbn [ct_kube ct_queued ct_patching]; [done|done|done|].
    destruct (Hspec p Hs) as [->|[?|Heq]]; [by left|right; left; by apply Hw|]. right. right.
    unfold accounted. cbn [ct_kube ct_patching]. rewrite Hs'. intros ? [= <-].
    by apply (reports_ext policy).
  - split; cbn [ct_kube ct_queued ct_patching]; rewrite ?Hca, ?Hun; [exact (inv_named _ Hi)|exact (inv_chained _ Hi)|done|].
    destruct (Hspec p Hs) as [->|[?|Heq]]; [by left|by right; left|]. right. right.
    unfold accounted. cbn [ct_kube ct_patching]. unfold server in *. rewrite Hca, Hun, Hs. intros ? [= <-].
    by apply (reports_ext policy).
Qed.

Lemma policy_invariant s : reachable reads_own_writes s → invariant s.
Proof.
  intros (s0 & (Hk & Hun & Hq & Hn) & Hs). assert (invariant s0) as Hi.
  { split; [rewrite Hun; by repeat constructor|by rewrite Hun|by rewrite Hn|by left]. }
  clear Hk Hun Hq Hn. induction Hs as [s|s s1 s2 Hstep _ IH]; [done|]. apply IH. clear IH.
  destruct Hstep as [k' v Hv Hca Hun|k' v rest Hun Hca Hre|t _ Hn Hr|o u k' r Hp Hr|k' Hca Hun|k' Hca Hun].
  - by eapply step_change_inv.
  - by eapply step_deliver_inv.
  - by apply step_begin_inv.
  - by eapply step_patch_inv.
  - destruct Hi as [Hnm Hc Hp Ha]. unfold accounted, server in *.
    split; cbn [with_kube ct_kube ct_queued ct_patching]; rewrite ?Hca, ?Hun; try done.
    unfold accounted, server. cbn [with_kube ct_kube ct_patching]. by rewrite Hca, Hun.
  - pose proof (newest_version_Forall _ _ _ (inv_named _ Hi)) as Hnm.
    split; cbn [ct_kube ct_queued ct_patching]; rewrite ?Hca, ?Hun; [by repeat constructor|done|done|by left].
Qed.

(** A reconciliation nothing comes between is two steps of the system. *)
Lemma ReconcilePolicy_steps may_read t s k' r :
  ct_queued s = true → ct_patching s = None → may_read (ct_kube s) →
  ReconcilePolicy t req (ct_kube s) = (k', r) →
  rtc (step may_read) s {| ct_kube := k'; ct_queued := negb (is_ok r); ct_patching := None |}.
Proof.
  intros Hq Hn Hm. rewrite ReconcilePolicy_patches. intros Hr.
  eapply rtc_l; [by apply (step_begin _ _ t)|]. unfold begin.
  destruct (kube_restore_policy (ct_kube s) req) as [p|e].
  - destruct (policy_update t p) as [u|]; cbn [fmap option_fmap option_map].
    + unfold mbind, prog_bind in Hr. destruct (patch_restore_policy p u (ct_kube s)) as [k1 [[]|e]] eqn:Hp;
        injection Hr as <- <-; apply rtc_once;
        exact (step_patch may_read {| ct_kube := ct_kube s; ct_queued := false; ct_patching := Some (p, u) |}
                 p u _ _ eq_refl Hp).
    + by injection Hr as <- <-.
  - injection Hr as <- <-. by destruct (is_kube_not_found e).
Qed.

(** C9: The controller's promise, under one proviso: so long as no reconciliation
    reads a policy without the status the controller last gave it, whenever
    everything has come to rest the policy shows the verdict on its own rules,
    however edits, deletes, failed patches and restarts fell. *)
Theorem policy_verdict_settles s p :
  reachable reads_own_writes s → at_rest s → server (ct_kube s) = Some p → reports p.
Proof.
  intros Hr (Hun & Hq & Hn) Hs. destruct (policy_invariant _ Hr) as [_ _ _ [Ha|[Ha|Ha]]].
  - congruence.
  - by rewrite Hun in Ha.
  - unfold accounted in Ha. rewrite Hn in Ha. by apply Ha.
Qed.

End system.

(** ** A verdict that stays wrong

    Without that proviso the promise fails.  The predicate drops the update the
    controller's own patch causes, "which has nothing to tell it": but a
    reconciliation that reads the policy as it was before that patch finds the
    old status already right, patches nothing, and nothing wakes the controller
    again. *)

(** An API server that keeps the policy [req], over one that keeps the rest. *)
Record watched (K : Type) := {
  wt_rest : K;
  wt_cached : option RestorePolicy;
  wt_undelivered : list (option RestorePolicy)
}.
Arguments wt_rest {K}.
Arguments wt_cached {K}.
Arguments wt_undelivered {K}.

Section watched.
Context {K : Type} `{KubeController K} (req : NamespacedName).

#[export] Instance watched_reader : KubeReader (watched K) := {|
  kube_secret := λ k, kube_secret (wt_rest k);
  kube_object_store := λ k, kube_object_store (wt_rest k);
  kube_config_store := λ k, kube_config_store (wt_rest k);
  kube_restore_policy := λ k key,
    if decide (key = req) then
      match wt_cached k with
      | Some p => Ok p
      | None => Err (External KubeNotFound "restorepolicy")
      end
    else kube_restore_policy (wt_rest k) key;
  kube_backup := λ k, kube_backup (wt_rest k);
  kube_backups := λ k, kube_backups (wt_rest k)
|}.

Definition wt_server (k : watched K) : option RestorePolicy := default (wt_cached k) (last (wt_undelivered k)).
Definition append_version (k : watched K) (v : option RestorePolicy) : watched K :=
  {| wt_rest := wt_rest k; wt_cached := wt_cached k; wt_undelivered := wt_undelivered k ++ [v] |}.

#[export] Instance watched_controller : KubeController (watched K) := {|
  kube_clusters := λ k, kube_clusters (wt_rest k);
  patch_config_store := λ original updated k,
    let '(rest, r) := patch_config_store original updated (wt_rest k) in
    ({| wt_rest := rest; wt_cached := wt_cached k; wt_undelivered := wt_undelivered k |}, r);
  patch_restore_policy := λ original updated k,
    if decide (policy_key updated = req) then
      match wt_server k with
      | Some p => (append_version k (Some (with_policy_conditions p (conditions_of updated))), Ok ())
      | None => (k, Err (External KubeNotFound "restorepolicy"))
      end
    else let '(rest, r) := patch_restore_policy original updated (wt_rest k) in
         ({| wt_rest := rest; wt_cached := wt_cached k; wt_undelivered := wt_undelivered k |}, r)
|}.

#[export, refine] Instance watched_policy : PolicyWatch (watched K) req := {|
  cached := wt_cached;
  undelivered := wt_undelivered;
  GenerationChangedPredicate := λ v w,
    match v, w with
    | Some p, Some q => bool_decide (rp_Generation p ≠ rp_Generation q)
    | None, None => false
    | _, _ => true
    end
|}.
Proof.
  - done.
  - done.
  - done.
  - intros k. simpl. rewrite decide_True by done. destruct (wt_cached k); [done|]. by eexists.
  - intros original updated k k' r Hk _ Hp. simpl in Hp. rewrite decide_True in Hp by done.
    fold (wt_server k). destruct (wt_server k) as [p|]; injection Hp as <- <-.
    + split; [done|]. right. exists p. split; [done|by left].
    + split; [done|]. left. split; [by eexists|done].
Defined.

Context `{CnpgLib} `{QuantityLib} `{GoPlatform} `{!CelEngine} `{Fmt} `{MetaLib} `{!MetaSpec}.

Definition with_rules (generation : Z) (spec : RestorePolicySpec) (p : RestorePolicy) : RestorePolicy :=
  {| rp_Name := rp_Name p; rp_Namespace := rp_Namespace p; rp_Generation := generation;
     rp_Spec := spec; rp_Status := rp_Status p |}.

Definition at_version (k : watched K) (queued : bool) (v : RestorePolicy)
    (patching : option (RestorePolicy * RestorePolicy)) : control (watched K) :=
  {| ct_kube := {| wt_rest := wt_rest k; wt_cached := Some v; wt_undelivered := [] |};
     ct_queued := queued; ct_patching := patching |}.

Abbreviation any_read := (λ _ : watched K, True).

(** An edit of the spec, delivered at once. *)
Lemma edit_steps k queued p spec patching :
  policy_key p = req →
  let q := with_rules (rp_Generation p + 1) spec p in
  rtc (step req any_read) (at_version k queued p patching) (at_version k true q patching).
Proof.
  intros Hp q. eapply rtc_l.
  - apply (step_change _ _ _ (append_version (ct_kube (at_version k queued p patching)) (Some q)) (Some q)); [|done..].
    apply (changes_edit req p q); [done..|]. simpl. lia.
  - eapply rtc_l; [by apply (step_deliver _ _ _ (ct_kube (at_version k true q patching)) (Some q) [])|].
    simpl. rewrite bool_decide_eq_true_2 by lia. by rewrite orb_true_r.
Qed.

(** The controller reads the policy it has cached. *)
Lemma begin_steps t k p :
  policy_key p = req →
  rtc (step req any_read) (at_version k true p None)
    (at_version k false p ((λ u, (p, u)) <$> policy_update t p)).
Proof.
  intros Hp. apply rtc_once. pose proof (step_begin req any_read (at_version k true p None) t eq_refl eq_refl I) as Hs.
  unfold begin in Hs. simpl in Hs. by rewrite decide_True in Hs.
Qed.

(** Its patch lands on whatever the policy is by then. *)
Definition behind (k : watched K) (queued : bool) (p q : RestorePolicy) : control (watched K) :=
  {| ct_kube := append_version (ct_kube (at_version k queued p None)) (Some q); ct_queued := queued; ct_patching := None |}.

Lemma patch_lands k queued p original u :
  policy_key u = req →
  rtc (step req any_read) (at_version k queued p (Some (original, u)))
    (behind k queued p (with_policy_conditions p (conditions_of u))).
Proof.
  intros Hu. set (q := with_policy_conditions p (conditions_of u)). apply rtc_once.
  assert (patch_restore_policy original u (ct_kube (at_version k queued p (Some (original, u))))
          = (ct_kube (behind k queued p q), Ok ())) as Hpatch.
  { simpl. by rewrite decide_True. }
  pose proof (step_patch req any_read (at_version k queued p (Some (original, u))) original u _ _ eq_refl Hpatch) as Hs.
  simpl in Hs. by rewrite orb_false_r in Hs.
Qed.

(** Delivered, the new version wakes no one. *)
Lemma deliver_quietly k queued p q :
  rp_Generation p = rp_Generation q → rtc (step req any_read) (behind k queued p q) (at_version k queued q None).
Proof.
  intros Hg. apply rtc_once.
  pose proof (step_deliver req any_read (behind k queued p q)
    (ct_kube (at_version k queued q None)) (Some q) [] eq_refl eq_refl eq_refl) as Hs.
  simpl in Hs. rewrite bool_decide_eq_false_2 in Hs by (intros Hne; by apply Hne).
  by rewrite orb_false_r in Hs.
Qed.

(** A reconciliation of a policy whose status is right already. *)
Lemma begin_idle k p q :
  policy_key p = req → reports p → rtc (step req any_read) (behind k true p q) (behind k false p q).
Proof.
  intros Hp Hr. apply rtc_once. pose proof (step_begin req any_read (behind k true p q) 0 eq_refl eq_refl I) as Hs.
  unfold begin in Hs. simpl in Hs. by rewrite decide_True, (proj2 (policy_update_None 0 p) Hr) in Hs.
Qed.

(** C10: A policy whose rules are broken and mended again while a reconciliation is at
    work can come to rest with the verdict on the broken rules, although its own
    are fine: nothing is queued, delivered or patched any more, and the next
    reconciliation waits for the next edit of the spec. *)
Theorem policy_verdict_stale (k : watched K) p bad :
  policy_key p = req → policy_condition p ≠ policy_condition (with_rules 0 bad p) →
  ∃ s q, reachable req any_read s ∧ at_rest req s ∧ server req (ct_kube s) = Some q
    ∧ rp_Spec q = rp_Spec p ∧ ¬ reports q
    ∧ without_transition <$> ready (conditions_of q) = Some (policy_condition (with_rules 0 bad p)).
Proof.
  intros Hp Hne.
  (* The verdict on the rules as they are first. *)
  assert (∃ p1, policy_key p1 = req ∧ rp_Spec p1 = rp_Spec p ∧ reports p1
    ∧ rtc (step req any_read) (at_version k true p None) (at_version k false p1 None)) as (p1 & Hk1 & Hs1 & Hr1 & Hrun1).
  { pose proof (begin_steps 0 k p Hp) as Hb. destruct (policy_update 0 p) as [u|] eqn:Hu.
    - destruct (policy_update_Some _ _ _ Hu) as (Heq & Hr & _).
      exists (with_policy_conditions p (conditions_of u)). split_and!; [done|done|by rewrite <-Heq|].
      etrans; [exact Hb|]. etrans; [apply patch_lands; by rewrite Heq|by apply deliver_quietly].
    - exists p. split_and!; [done|done|by eapply policy_update_None|done]. }
  (* They break, and a reconciliation reads them. *)
  set (p2 := with_rules (rp_Generation p1 + 1) bad p1).
  assert (policy_condition p2 = policy_condition (with_rules 0 bad p)) as Hc2 by by apply policy_condition_spec.
  assert (policy_condition p1 = policy_condition p) as Hc1 by by apply policy_condition_spec.
  destruct (policy_update 0 p2) as [u|] eqn:Hu.
  2: { apply policy_update_None in Hu. unfold reports in *. exfalso. apply Hne.
       rewrite <-Hc1, <-Hc2. apply (inj Some). by rewrite <-Hr1, <-Hu. }
  destruct (policy_update_Some _ _ _ Hu) as (Hequ & Hru & _).
  assert (policy_condition u = policy_condition p2) as Hcu by (apply policy_condition_spec; by rewrite Hequ).
  (* They are mended, and only then is the verdict on the broken ones patched. *)
  set (p3 := with_rules (rp_Generation p2 + 1) (rp_Spec p) p2).
  set (p4 := with_policy_conditions p3 (conditions_of u)).
  assert (reports p3) as Hr3 by by apply (reports_ext p1).
  exists (at_version k false p4 None), p4. split_and!; [|done..| |].
  - exists (at_version k true p None). split; [split_and!; [|done..]; by intros ? [= <-]|].
    etrans; [exact Hrun1|]. etrans; [by apply (edit_steps k _ p1 bad)|].
    etrans; [by apply (begin_steps 0 k p2)|]. rewrite Hu. cbn [fmap option_fmap option_map].
    etrans; [by apply (edit_steps k _ p2 (rp_Spec p))|].
    etrans; [apply patch_lands; by rewrite Hequ|]. fold p3 p4.
    etrans; [by apply begin_idle|by apply deliver_quietly].
  - intros Hr4. apply Hne. rewrite <-Hc2, <-Hcu. apply (inj Some).
    rewrite <-(policy_condition_spec p4 p) by done. etrans; [symmetry; exact Hr4|exact Hru].
  - rewrite <-Hc2, <-Hcu. exact Hru.
Qed.

End watched.

(** ** The ConfigStore controller cannot be caught out for long

    It reads and patches in the same way, but a store that exists is always
    reconciled again: after a failure, or in ten minutes, or in one. *)

Section resync.
Context `{GoPlatform} `{Fmt} `{MetaLib} {K : Type} `{KubeController K} {P B W : Type} `{Provider P B}.
Context (backend_of : B → Backend W).

Theorem Reconcile_resyncs observedAt transitionAt now req store (w w' : CtrlWorld K P W) result :
  kube_config_store (cw_kube w) req = Ok store →
  Reconcile backend_of observedAt transitionAt now req w = (w', Ok result) →
  (Minute ≤ RequeueAfter result ≤ 10 * Minute)%Z.
Proof.
  intros Hk. unfold Reconcile. rewrite Hk. destruct (check backend_of store w) as [w1 [checked|reason err]];
    cbv zeta; unfold mbind, prog_bind; destruct (patchStatus _ _ _) as [w2 [u|e]]; intros [= _ <-];
    by vm_compute.
Qed.

End resync.
