(* ===== verification/System.v ===== *)
(** * One history under concurrent writers and retention

    The operator writes to a history while the controller prunes it, from several
    processes and with no lock between them.  A call to [Write] or
    [pruneSuperseded] is broken up at its requests to the backend: an agent is
    what is left of such a call, and the system runs any agent's next request at
    any time, lets agents start and crash, and lets everyone else change what
    lies outside the history. *)

From S2P Require Import Prelude GoStrings GoTime GoJson GoFloat Cnpg Snapshot Api Layout Kube Backend JsonText.
From S2P Require Import SnapshotStore History Retention Select Resolver Config Operator Controller.

#[local] Open Scope stdpp_scope.

(** ** Agents *)

(** What is left of a call: of [Write], the object's request and then the
    pointer's; of [pruneSuperseded], the listing and then the deletes. *)
Inductive agent :=
| Writing (snap : Snapshot)
| Pointing (encoded : string)
| Pruning (cutoff : Z)
| Deleting (keys : list string).

Section agents.
Context {W : Type} `{Backend W} (l : Layout).

(** The first request of [Write], and its second. *)
Definition write_object (snap : Snapshot) (w : W) : W * option agent :=
  match encode_snapshot snap with
  | Err _ => (w, None)
  | Ok encoded =>
      match Put_ (key_of l snap) encoded w with
      | (w, Ok _) => (w, Some (Pointing encoded))
      | (w, Err _) => (w, None)
      end
  end.
Definition write_pointer (encoded : string) (w : W) : W * option agent :=
  ((Put_ (LatestKey l) encoded w).1, None).

(** The listing of [pruneSuperseded], and one turn of its loop. *)
Definition list_superseded (cutoff : Z) (w : W) : W * option agent :=
  match List l w with
  | (w, Ok refs) => (w, Some (Deleting (PlanRetention refs cutoff)))
  | (w, Err _) => (w, None)
  end.
Definition delete_next (keys : list string) (w : W) : W * option agent :=
  match keys with
  | [] => (w, None)
  | key :: keys =>
      match Delete_ key w with
      | (w, Ok _) => (w, Some (Deleting keys))
      | (w, Err _) => (w, None)
      end
  end.

(** The agent's next request, and what is then left of it. *)
Definition run (a : agent) : W → W * option agent :=
  match a with
  | Writing snap => write_object snap
  | Pointing encoded => write_pointer encoded
  | Pruning cutoff => list_superseded cutoff
  | Deleting keys => delete_next keys
  end.

(** An agent that is left alone. *)
Inductive runs : agent → W → W → Prop :=
| runs_done a w w' : run a w = (w', None) → runs a w w'
| runs_more a a' w w1 w' : run a w = (w1, Some a') → runs a' w1 w' → runs a w w'.

End agents.

(** ** The system *)

(** The store, the agents at work, every ref the store has ever listed, and
    every cutoff retention has been run with. *)
Record system (W : Type) := {
  sys_store : W;
  sys_agents : list agent;
  sys_history : list SnapshotRef;
  sys_cutoffs : list Z
}.
Arguments sys_store {W}.
Arguments sys_agents {W}.
Arguments sys_history {W}.
Arguments sys_cutoffs {W}.

(** A snapshot of this history, as capture makes it. *)
Record own_snapshot (snap : Snapshot) : Prop := {
  own_encodable : encodable snap;
  own_verified : verified snap;
  own_generation : (0 ≤ sn_Generation snap < 10 ^ 10)%Z
}.

Section system.
Context {W : Type} `{Backend W} (objects : W → gmap string string) `{!BackendSpec W objects}.
Context (l : Layout).

(** The refs the store lists. *)
Definition listed (w : W) : list SnapshotRef := refs_of_keys (keys_under (objects w) (SnapshotsPrefix l)).

(** The store after a request, with what it lists recorded. *)
Definition observe (w : W) (agents : list agent) (s : system W) : system W :=
  {| sys_store := w; sys_agents := agents; sys_history := listed w ++ sys_history s;
     sys_cutoffs := sys_cutoffs s |}.

Definition with_agents (agents : list agent) (cutoffs : list Z) (s : system W) : system W :=
  {| sys_store := sys_store s; sys_agents := agents; sys_history := sys_history s;
     sys_cutoffs := cutoffs |}.

(** A change outside the history. *)
Definition same_history (w w' : W) : Prop :=
  ∀ key, HasPrefix key (SnapshotsPrefix l) = true → objects w' !! key = objects w !! key.
Definition same_pointer (w w' : W) : Prop := objects w' !! LatestKey l = objects w !! LatestKey l.

Inductive step (s : system W) : system W → Prop :=
| step_write snap :
    own_snapshot snap → step s (with_agents (Writing snap :: sys_agents s) (sys_cutoffs s) s)
| step_prune cutoff :
    step s (with_agents (Pruning cutoff :: sys_agents s) (cutoff :: sys_cutoffs s) s)
| step_run before a after w' a' :
    sys_agents s = before ++ a :: after → run l a (sys_store s) = (w', a') →
    step s (observe w' (before ++ option_list a' ++ after) s)
| step_crash before a after :
    sys_agents s = before ++ a :: after → step s (with_agents (before ++ after) (sys_cutoffs s) s)
| step_elsewhere w' :
    same_history (sys_store s) w' → same_pointer (sys_store s) w' →
    step s (observe w' (sys_agents s) s).

(** A new history: nothing is stored under its prefix, and no pointer. *)
Definition initial (s : system W) : Prop :=
  (∀ key, HasPrefix key (SnapshotsPrefix l) = true → objects (sys_store s) !! key = None)
  ∧ objects (sys_store s) !! LatestKey l = None ∧ sys_agents s = [] ∧ sys_history s = [] ∧ sys_cutoffs s = [].

Definition reachable (s : system W) : Prop := ∃ s0, initial s0 ∧ rtc step s0 s.

(** ** The invariant *)

(** A newer ref, captured before some cutoff, stands in for this one. *)
Definition superseded (history : list SnapshotRef) (cutoffs : list Z) (ref : SnapshotRef) : Prop :=
  ∃ anchor cutoff, anchor ∈ history ∧ cutoff ∈ cutoffs ∧ ref_le ref anchor ∧ ref ≠ anchor
    ∧ (CapturedAt anchor < cutoff)%Z.

(** The text of a snapshot the store has listed. *)
Definition pointed (history : list SnapshotRef) (encoded : string) : Prop :=
  ∃ snap ref, own_snapshot snap ∧ encode_snapshot snap = Ok encoded
    ∧ ref ∈ history ∧ Key ref = key_of l snap.

(** An agent has only good work left. *)
Definition agent_ok (s : system W) (a : agent) : Prop :=
  match a with
  | Writing snap => own_snapshot snap
  | Pointing encoded => pointed (sys_history s) encoded
  | Pruning cutoff => cutoff ∈ sys_cutoffs s
  | Deleting keys => ∀ key, key ∈ keys →
      ∃ ref, ref ∈ sys_history s ∧ Key ref = key ∧ superseded (sys_history s) (sys_cutoffs s) ref
  end.

(** A ref under its own key, which parses to it. *)
Definition parsed_ref (ref : SnapshotRef) : Prop :=
  own_ref l ref ∧ ParseSnapshotKey (Key ref) = Ok (CapturedAt ref, SnapshotStore.Generation ref).

(** Its object is a snapshot that verifies and that this key belongs to. *)
Definition snapshot_object (objs : gmap string string) (key : string) : Prop :=
  ∃ raw snap, objs !! key = Some raw ∧ decodeSnapshot raw key = Ok snap ∧ own_snapshot snap
    ∧ key_of l snap = key.

Record invariant (s : system W) : Prop := {
  inv_objects ref : ref ∈ listed (sys_store s) → snapshot_object (objects (sys_store s)) (Key ref);
  inv_pointer encoded :
    objects (sys_store s) !! LatestKey l = Some encoded → pointed (sys_history s) encoded;
  inv_listed ref : ref ∈ listed (sys_store s) → ref ∈ sys_history s;
  inv_parsed ref : ref ∈ sys_history s → parsed_ref ref;
  inv_agents a : a ∈ sys_agents s → agent_ok s a;
  inv_gone ref : ref ∈ sys_history s → ref ∉ listed (sys_store s) →
    superseded (sys_history s) (sys_cutoffs s) ref
}.

Lemma elem_of_listed w ref :
  ref ∈ listed w ↔ is_Some (objects w !! Key ref) ∧ HasPrefix (Key ref) (SnapshotsPrefix l) = true
    ∧ ParseSnapshotKey (Key ref) = Ok (CapturedAt ref, SnapshotStore.Generation ref).
Proof. unfold listed. rewrite elem_of_refs_of_keys, elem_of_keys_under. tauto. Qed.

(** Refs are told apart by their keys. *)
Lemma parsed_ref_eq x y : parsed_ref x → parsed_ref y → Key x = Key y → x = y.
Proof. intros [_ Hx] [_ Hy] Hk. rewrite Hk, Hy in Hx. destruct x, y; simpl in *; congruence. Qed.

Lemma superseded_mono h h' c c' ref :
  (∀ r, r ∈ h → r ∈ h') → (∀ x, x ∈ c → x ∈ c') → superseded h c ref → superseded h' c' ref.
Proof. intros Hh Hc (anchor & cutoff & ? & ? & ?). exists anchor, cutoff. auto. Qed.

Lemma pointed_mono h h' encoded : (∀ r, r ∈ h → r ∈ h') → pointed h encoded → pointed h' encoded.
Proof. intros Hh (snap & ref & ? & ? & ? & ?). exists snap, ref. auto. Qed.

(** What an agent may do stays good as the history grows. *)
Lemma agent_ok_mono s s' a :
  (∀ r, r ∈ sys_history s → r ∈ sys_history s') → (∀ x, x ∈ sys_cutoffs s → x ∈ sys_cutoffs s') →
  agent_ok s a → agent_ok s' a.
Proof.
  intros Hh Hc. destruct a as [snap|raw|cutoff|keys]; simpl; [done|by apply pointed_mono|auto|].
  intros Ha key Hk. destruct (Ha key Hk) as (ref & Hr & Hkey & Hs).
  exists ref. split_and!; [auto|done|]. by eapply superseded_mono.
Qed.

(** The ref a snapshot is listed as. *)
Lemma own_snapshot_key snap ref :
  own_snapshot snap → Key ref = key_of l snap →
  ParseSnapshotKey (Key ref) = Ok (CapturedAt ref, SnapshotStore.Generation ref) → parsed_ref ref.
Proof.
  intros [He (_ & _ & _ & Hc) Hg] Hk Hp. split; [|done].
  unfold Checksum in Hc. destruct (Canonical _) as [x|]; [|done]. rewrite ok_bind in Hc. injection Hc as Hc.
  pose proof (enc_time _ He) as Ht. unfold key_of in Hk. rewrite <-Hc in Hk.
  rewrite Hk, parse_snapshot_key in Hp by done. injection Hp as Hca Hge.
  exists (sn_CapturedAt snap), x. by rewrite <-Hge.
Qed.

(** ** Every step keeps it *)

Lemma listed_same w w' ref : same_history w w' → ref ∈ listed w' ↔ ref ∈ listed w.
Proof.
  intros Hs. rewrite !elem_of_listed. split; intros (? & Hp & ?); [rewrite <-Hs by done|rewrite Hs by done]; auto.
Qed.

(** A request that leaves good objects, and removes only superseded ones. *)
Lemma observe_invariant s w' agents :
  invariant s →
  (∀ ref, ref ∈ listed w' → snapshot_object (objects w') (Key ref) ∧ (ref ∈ listed (sys_store s) ∨ parsed_ref ref)) →
  (∀ ref, ref ∈ listed (sys_store s) → ref ∉ listed w' → superseded (sys_history s) (sys_cutoffs s) ref) →
  same_pointer (sys_store s) w' ∨ (∃ encoded, objects w' !! LatestKey l = Some encoded ∧ pointed (sys_history s) encoded) →
  (∀ a, a ∈ agents → agent_ok (observe w' agents s) a) →
  invariant (observe w' agents s).
Proof.
  intros [Ho Hpt Hl Hp _ Hg] Hnew Hgone Hptr Ha.
  assert (∀ ref, ref ∈ sys_history s → ref ∈ sys_history (observe w' agents s)) as Hsub
    by (intros ref ?; simpl; apply elem_of_app; by right).
  split; simpl.
  - intros ref Hr. by apply Hnew.
  - intros encoded He. eapply pointed_mono; [exact Hsub|].
    destruct Hptr as [Hs|(x & Hx & ?)]; [apply Hpt; by rewrite <-Hs|by simplify_eq].
  - intros ref Hr. apply elem_of_app. by left.
  - intros ref [Hr|Hr]%elem_of_app; [|by apply Hp]. destruct (Hnew _ Hr) as [_ [?|?]]; auto.
  - done.
  - intros ref Hr Hn. apply elem_of_app in Hr as [Hr|Hr]; [done|].
    eapply superseded_mono; [exact Hsub|done|].
    destruct (decide (ref ∈ listed (sys_store s))); [by apply Hgone|by apply Hg].
Qed.

Lemma observe_same s w' agents :
  invariant s → same_history (sys_store s) w' →
  same_pointer (sys_store s) w' ∨ (∃ encoded, objects w' !! LatestKey l = Some encoded ∧ pointed (sys_history s) encoded) →
  (∀ a, a ∈ agents → agent_ok s a) →
  invariant (observe w' agents s).
Proof.
  intros Hi Hs Hptr Ha. apply observe_invariant; [done|..|done|].
  - intros ref Hr. apply (listed_same _ _ _ Hs) in Hr. split; [|by left].
    destruct (inv_objects _ Hi _ Hr) as (raw & snap & Hk & ?). exists raw, snap.
    rewrite Hs; [done|]. by apply elem_of_listed in Hr as (_ & ? & _).
  - intros ref Hr Hn. by rewrite (listed_same _ _ _ Hs) in Hn.
  - intros a Hin. eapply agent_ok_mono; [| |by apply Ha]; [|done]. intros r ?. simpl. apply elem_of_app. by right.
Qed.

(** The pointer is no snapshot. *)
Lemma same_history_pointer w w' encoded :
  objects w' = <[LatestKey l := encoded]> (objects w) → same_history w w'.
Proof.
  intros Hw key Hp. rewrite Hw, lookup_insert_ne; [done|]. intros <-. by rewrite LatestKey_not_listed in Hp.
Qed.
Lemma same_history_eq w w' : objects w' = objects w → same_history w w'.
Proof. by intros Hw key _; rewrite Hw. Qed.

Lemma observe_eq s w' agents :
  invariant s → objects w' = objects (sys_store s) → (∀ a, a ∈ agents → agent_ok s a) →
  invariant (observe w' agents s).
Proof.
  intros Hi Hw. apply observe_same; [done|by apply same_history_eq|left]. unfold same_pointer. by rewrite Hw.
Qed.

(** The object of a snapshot of this history. *)
Lemma observe_put s w' snap encoded agents :
  invariant s → own_snapshot snap → encode_snapshot snap = Ok encoded →
  objects w' = <[key_of l snap := encoded]> (objects (sys_store s)) →
  (∀ a, a ∈ agents → agent_ok s a) → invariant (observe w' agents s).
Proof.
  intros Hi Hsnap He Hw Ha. apply observe_invariant; [done|..].
  - intros ref Hr. apply elem_of_listed in Hr as (Hr & Hpre & Hparse). unfold snapshot_object. rewrite Hw in Hr |- *.
    destruct (decide (Key ref = key_of l snap)) as [Hk|Hk].
    + split; [|right; by eapply own_snapshot_key].
      exists encoded, snap. rewrite Hk, lookup_insert_eq. split_and!; [done| |done..].
      apply decodeSnapshot_encoded; [by destruct Hsnap..|done].
    + rewrite lookup_insert_ne in Hr |- * by done.
      assert (ref ∈ listed (sys_store s)) as Hin by (by apply elem_of_listed).
      split; [by apply (inv_objects _ Hi)|by left].
  - intros ref Hr Hn. exfalso. apply Hn. rewrite elem_of_listed in Hr |- *. destruct Hr as (Hr & ?).
    split; [|done]. rewrite Hw. by apply lookup_insert_is_Some'; right.
  - left. unfold same_pointer. by rewrite Hw, lookup_insert_ne by apply key_of_ne_latest.
  - intros a Hin. eapply agent_ok_mono; [| |by apply Ha]; [|done]. intros r ?. simpl. apply elem_of_app. by right.
Qed.

(** It is then listed. *)
Lemma put_listed w w' snap encoded h :
  own_snapshot snap → encode_snapshot snap = Ok encoded →
  objects w' = <[key_of l snap := encoded]> (objects w) → pointed (listed w' ++ h) encoded.
Proof.
  intros Hsnap He Hw. pose proof Hsnap as [Henc (_ & _ & _ & Hc) Hg].
  unfold Checksum in Hc. destruct (Canonical _) as [x|]; [|done]. rewrite ok_bind in Hc. injection Hc as Hc.
  pose proof (parse_snapshot_key l _ _ x (enc_time _ Henc) Hg) as Hp. rewrite Hc in Hp.
  exists snap, {| Key := key_of l snap; CapturedAt := unix_seconds (sn_CapturedAt snap) * Second;
                  Generation := sn_Generation snap |}.
  split_and!; [done|done| |done]. apply elem_of_app. left. apply elem_of_listed. simpl.
  split_and!; [rewrite Hw, lookup_insert_eq; by eexists|apply HasPrefix_app|exact Hp].
Qed.

(** A delete that an agent has left. *)
Lemma observe_delete s w' key agents :
  invariant s → objects w' = delete key (objects (sys_store s)) →
  (∃ ref, ref ∈ sys_history s ∧ Key ref = key ∧ superseded (sys_history s) (sys_cutoffs s) ref) →
  (∀ a, a ∈ agents → agent_ok s a) → invariant (observe w' agents s).
Proof.
  intros Hi Hw (ref0 & Hin0 & Hk0 & Hs0) Ha. apply observe_invariant; [done|..].
  - intros ref Hr. apply elem_of_listed in Hr as (Hr & Hpre & Hparse). unfold snapshot_object. rewrite Hw in Hr |- *.
    destruct (decide (Key ref = key)) as [Hk|Hk]; [rewrite Hk, lookup_delete_eq in Hr; by destruct Hr|].
    rewrite lookup_delete_ne in Hr |- * by done.
    assert (ref ∈ listed (sys_store s)) as Hin by (by apply elem_of_listed).
    split; [by apply (inv_objects _ Hi)|by left].
  - intros ref Hr Hn. assert (Key ref = key) as Hk.
    { destruct (decide (Key ref = key)) as [|Hne]; [done|]. exfalso. apply Hn.
      rewrite elem_of_listed in Hr |- *. by rewrite Hw, lookup_delete_ne. }
    rewrite (parsed_ref_eq ref ref0); [done|..|congruence]; apply (inv_parsed _ Hi); [|done].
    by apply (inv_listed _ Hi).
  - left. unfold same_pointer. rewrite Hw, lookup_delete_ne; [done|]. subst key. intros Hk.
    destruct (inv_parsed _ Hi _ Hin0) as [(t & x & _ & _ & Hkey & _) _].
    pose proof (LatestKey_not_listed l) as Hn. rewrite <-Hk, Hkey in Hn. unfold SnapshotKey in Hn.
    by rewrite HasPrefix_app in Hn.
  - intros a Hin. eapply agent_ok_mono; [| |by apply Ha]; [|done]. intros r ?. simpl. apply elem_of_app. by right.
Qed.

(** Everything a plan deletes is superseded. *)
Lemma planned_superseded s cutoff key :
  invariant s → cutoff ∈ sys_cutoffs s → key ∈ PlanRetention (sortRefs (listed (sys_store s))) cutoff →
  ∃ ref, ref ∈ sys_history s ∧ Key ref = key ∧ superseded (sys_history s) (sys_cutoffs s) ref.
Proof.
  intros Hi Hc Hk.
  assert (∀ r, r ∈ sortRefs (listed (sys_store s)) → r ∈ sys_history s) as Hin
    by (intros r; rewrite sortRefs_Permutation; apply (inv_listed _ Hi)).
  apply PlanRetention_superseded in Hk as (ref & anchor & Hr & <- & _ & Ha & Hat & Hcmp & _).
  2: { rewrite sortRefs_Permutation. apply refs_of_keys_NoDup, NoDup_keys_under. }
  exists ref. split_and!; [auto|done|]. exists anchor, cutoff. split_and!; auto.
  - assert (chronological [ref; anchor]) as Hch.
    { apply (own_refs_chronological l). repeat constructor; apply (inv_parsed _ Hi); auto. }
    apply Hch; [set_solver..|]. unfold key_order. apply str_le_compare. by rewrite Hcmp.
  - intros ->. by rewrite str_compare_refl in Hcmp.
Qed.

Lemma agent_ok_observe s w' agents a : agent_ok s a → agent_ok (observe w' agents s) a.
Proof. apply agent_ok_mono; [|done]. intros r ?. simpl. apply elem_of_app. by right. Qed.

(** A request keeps the invariant, and leaves an agent with good work. *)
Definition keeps (s : system W) (agents : list agent) (r : W * option agent) : Prop :=
  invariant (observe r.1 agents s) ∧ ∀ a, r.2 = Some a → agent_ok (observe r.1 agents s) a.

Section requests.
Context (s : system W) (agents : list agent).
Context (Hi : invariant s) (Hag : ∀ a, a ∈ agents → agent_ok s a).

Lemma write_object_keeps snap : own_snapshot snap → keeps s agents (write_object l snap (sys_store s)).
Proof.
  intros Hsnap. unfold write_object.
  destruct (encode_snapshot snap) as [encoded|e] eqn:He; [|by split; [apply observe_eq|]].
  destruct (Put_ _ encoded _) as [w1 [u|e]] eqn:Hp; apply put_spec in Hp; split; simpl; try done.
  - by eapply observe_put.
  - intros a [= <-]. by eapply put_listed.
  - destruct Hp as [Hp|Hp]; [by apply observe_eq|by eapply observe_put].
Qed.

Lemma write_pointer_keeps encoded :
  pointed (sys_history s) encoded → keeps s agents (write_pointer l encoded (sys_store s)).
Proof.
  intros Hpt. unfold write_pointer. split; [|done]. simpl.
  destruct (Put_ _ encoded _) as [w1 r] eqn:Hp; apply put_spec in Hp. simpl.
  assert (objects w1 = <[LatestKey l := encoded]> (objects (sys_store s)) → invariant (observe w1 agents s)) as Hput.
  { intros Hw. apply observe_same; [done|by eapply same_history_pointer| |done].
    right. exists encoded. by rewrite Hw, lookup_insert_eq. }
  destruct r; [by apply Hput|]. destruct Hp as [Hp|Hp]; [by apply observe_eq|by apply Hput].
Qed.

Lemma list_superseded_keeps cutoff :
  cutoff ∈ sys_cutoffs s → keeps s agents (list_superseded l cutoff (sys_store s)).
Proof.
  intros Hc. unfold list_superseded, List, mbind, prog_bind.
  destruct (List_ _ _) as [w1 [ks|e]] eqn:Hl; apply list_spec in Hl as [Hw Hk]; (split; [by apply observe_eq|]); [|done].
  subst ks. intros a [= <-]. apply agent_ok_observe. intros key Hkey. by eapply planned_superseded.
Qed.

Lemma delete_next_keeps keys : agent_ok s (Deleting keys) → keeps s agents (delete_next keys (sys_store s)).
Proof.
  intros Hks. destruct keys as [|key keys]; [by split; [apply observe_eq|]|]. simpl.
  pose proof (Hks key ltac:(by left)) as Hkey.
  destruct (Delete_ key _) as [w1 [u|e]] eqn:Hd; apply delete_spec in Hd; split; simpl; try done.
  - by eapply observe_delete.
  - intros a [= <-]. apply (agent_ok_observe s). intros k Hk. apply Hks. by right.
  - destruct Hd as [Hd|Hd]; [by apply observe_eq|by eapply observe_delete].
Qed.

Lemma run_keeps a : agent_ok s a → keeps s agents (run l a (sys_store s)).
Proof.
  destruct a; simpl;
    [apply write_object_keeps|apply write_pointer_keeps|apply list_superseded_keeps|apply delete_next_keeps].
Qed.

End requests.

(** Starting and stopping agents is no matter to the store. *)
Lemma with_agents_invariant s agents cutoffs :
  invariant s → (∀ c, c ∈ sys_cutoffs s → c ∈ cutoffs) →
  (∀ a, a ∈ agents → agent_ok (with_agents agents cutoffs s) a) →
  invariant (with_agents agents cutoffs s).
Proof.
  intros [Ho Hpt Hl Hp _ Hg] Hc Ha. split; simpl; auto.
  intros ref Hr Hn. by eapply superseded_mono; [| |apply Hg].
Qed.

Lemma step_invariant s s' : invariant s → step s s' → invariant s'.
Proof.
  intros Hi Hs. pose proof (inv_agents _ Hi) as Ha. destruct Hs as [snap Hsnap|cutoff|before a after w' a' Hag Hrun|before a after Hag|w' Hw Hptr].
  - apply with_agents_invariant; [done..|]. intros a [->|Hin]%elem_of_cons; [done|].
    by apply (agent_ok_mono s), Ha.
  - apply with_agents_invariant; [done|intros c ?; by right|].
    intros a [->|Hin]%elem_of_cons; [by left|]. apply (agent_ok_mono s); [done| |by apply Ha].
    intros c ?. by right.
  - rewrite Hag in Ha.
    assert (∀ x, x ∈ before ++ after → agent_ok s x) as Hrest by (intros x ?; apply Ha; set_solver).
    destruct (run_keeps s (before ++ after) Hi Hrest a) as [Hobs Hleft]; [apply Ha; set_solver|].
    rewrite Hrun in Hobs, Hleft. simpl in Hobs, Hleft.
    change (invariant (with_agents (before ++ option_list a' ++ after) (sys_cutoffs s) (observe w' (before ++ after) s))).
    apply with_agents_invariant; [done..|]. intros x Hx.
    rewrite !elem_of_app in Hx. destruct Hx as [Hx|[Hx|Hx]].
    + apply (agent_ok_observe s), Hrest. set_solver.
    + apply Hleft. destruct a'; [|by apply elem_of_nil in Hx]. by apply list_elem_of_singleton in Hx as ->.
    + apply (agent_ok_observe s), Hrest. set_solver.
  - rewrite Hag in Ha. apply with_agents_invariant; [done..|]. intros x Hx.
    apply (agent_ok_mono s); [done..|]. apply Ha. set_solver.
  - apply observe_same; [done|done|by left|done].
Qed.

Lemma initial_invariant s : initial s → invariant s.
Proof.
  intros (Hnone & Hptr & Ha & Hh & Hc).
  assert (∀ ref, ref ∉ listed (sys_store s)) as Hl.
  { intros ref (Hr & Hp & _)%elem_of_listed. rewrite Hnone in Hr by done. by destruct Hr. }
  split; rewrite ?Ha, ?Hh, ?Hc.
  - by intros ref ?%Hl.
  - intros encoded He. by rewrite Hptr in He.
  - by intros ref ?%Hl.
  - by intros ref ?%elem_of_nil.
  - by intros a ?%elem_of_nil.
  - by intros ref ?%elem_of_nil.
Qed.

Lemma reachable_invariant s : reachable s → invariant s.
Proof.
  intros (s0 & H0%initial_invariant & Hs). induction Hs as [s|s s1 s2 Hst _ IH]; [done|].
  by eapply IH, step_invariant.
Qed.

(** ** What the invariant is for *)

(** A sorted list answers with its greatest ref at or before a moment. *)
Lemma at_or_before_greatest moment refs ref :
  ref ∈ refs → (CapturedAt ref ≤ moment)%Z →
  (∀ r, r ∈ refs → (CapturedAt r ≤ moment)%Z → ref_le r ref) →
  at_or_before moment None (sortRefs refs) = Some ref.
Proof.
  intros Hin Hm Hmax. pose proof (at_or_before_spec moment _ (sortRefs_sorted refs)) as Hs.
  destruct (at_or_before moment None (sortRefs refs)) as [r|].
  - destruct Hs as (Hr & Hrm & Hg). rewrite sortRefs_Permutation in Hr. f_equal.
    apply ref_le_antisymm; [by apply Hmax|apply Hg; [by rewrite sortRefs_Permutation|done]].
  - specialize (Hs ref). rewrite sortRefs_Permutation in Hs. specialize (Hs Hin). lia.
Qed.

(** For a moment no cutoff has passed, the store answers as the whole of the
    history would. *)
Lemma invariant_answers s moment :
  invariant s → Forall (λ cutoff, cutoff ≤ moment)%Z (sys_cutoffs s) →
  at_or_before moment None (sortRefs (listed (sys_store s)))
  = at_or_before moment None (sortRefs (sys_history s)).
Proof.
  intros Hi Hc. pose proof (at_or_before_spec moment _ (sortRefs_sorted (sys_history s))) as Hs.
  destruct (at_or_before moment None (sortRefs (sys_history s))) as [ref|].
  - destruct Hs as (Hr & Hm & Hmax). rewrite sortRefs_Permutation in Hr.
    assert (∀ r, r ∈ sys_history s → (CapturedAt r ≤ moment)%Z → ref_le r ref) as Hmax'
      by (intros r ?; apply Hmax; by rewrite sortRefs_Permutation).
    apply at_or_before_greatest; [|done|].
    + destruct (decide (ref ∈ listed (sys_store s))) as [|Hn]; [done|]. exfalso.
      destruct (inv_gone _ Hi _ Hr Hn) as (anchor & cutoff & Ha & Hcut & Hle & Hne & Hlt).
      rewrite Forall_forall in Hc. specialize (Hc _ Hcut).
      apply Hne, ref_le_antisymm; [done|]. apply Hmax'; [done|lia].
    + intros r Hin. apply Hmax'. by apply (inv_listed _ Hi).
  - pose proof (at_or_before_spec moment _ (sortRefs_sorted (listed (sys_store s)))) as Hl.
    destruct (at_or_before moment None (sortRefs (listed (sys_store s)))) as [r|]; [|done].
    destruct Hl as (Hr & Hm & _). rewrite sortRefs_Permutation in Hr.
    specialize (Hs r). rewrite sortRefs_Permutation in Hs. specialize (Hs (inv_listed _ Hi _ Hr)). lia.
Qed.

(** Nothing leaves the record. *)
Lemma steps_history s s' ref : rtc step s s' → ref ∈ sys_history s → ref ∈ sys_history s'.
Proof.
  intros Hs Hin. induction Hs as [|s s1 s2 Hst _ IH]; [done|]. apply IH.
  destruct Hst; simpl; try done; apply elem_of_app; by right.
Qed.

(** A run that lists nothing new, and whose cutoffs a moment is not before, does
    not change the answer for that moment. *)
Lemma run_keeps_answer s s' moment :
  reachable s → rtc step s s' → Forall (λ cutoff, cutoff ≤ moment)%Z (sys_cutoffs s') →
  (∀ ref, ref ∈ listed (sys_store s') → ref ∈ listed (sys_store s)) →
  at_or_before moment None (sortRefs (listed (sys_store s')))
  = at_or_before moment None (sortRefs (listed (sys_store s))).
Proof.
  intros Hr Hs Hc Hsub. pose proof (reachable_invariant _ Hr) as Hi.
  assert (invariant s') as Hi'.
  { apply reachable_invariant. destruct Hr as (s0 & ? & ?). exists s0. split; [done|by etrans]. }
  pose proof (invariant_answers _ _ Hi' Hc) as Ha.
  pose proof (at_or_before_spec moment _ (sortRefs_sorted (listed (sys_store s')))) as H1.
  pose proof (at_or_before_spec moment _ (sortRefs_sorted (listed (sys_store s)))) as H2.
  pose proof (at_or_before_spec moment _ (sortRefs_sorted (sys_history s'))) as H3. rewrite <-Ha in H3.
  destruct (at_or_before moment None (sortRefs (listed (sys_store s)))) as [ref|].
  - destruct H2 as (Hin & Hm & Hmax). rewrite sortRefs_Permutation in Hin.
    assert (ref ∈ sortRefs (sys_history s')) as Hh.
    { rewrite sortRefs_Permutation. by eapply steps_history, inv_listed. }
    destruct (at_or_before moment None (sortRefs (listed (sys_store s')))) as [ref'|].
    + destruct H1 as (Hin' & Hm' & _), H3 as (_ & _ & Hmax'). f_equal. apply ref_le_antisymm; [|by apply Hmax'].
      apply Hmax; [|done]. rewrite sortRefs_Permutation in Hin' |- *. by apply Hsub.
    + specialize (H3 _ Hh). lia.
  - destruct (at_or_before moment None (sortRefs (listed (sys_store s')))) as [ref'|]; [|done].
    destruct H1 as (Hin' & Hm' & _). rewrite sortRefs_Permutation in Hin'.
    specialize (H2 ref'). rewrite sortRefs_Permutation in H2. specialize (H2 (Hsub _ Hin')). lia.
Qed.

(** Deleting lists nothing new, and what is left is what it was. *)
Lemma only_deletes_listed w w' ref :
  only_deletes (objects w) (objects w') → ref ∈ listed w' →
  ref ∈ listed w ∧ objects w' !! Key ref = objects w !! Key ref.
Proof.
  intros Hd Hr. pose proof Hr as ((x & Hx) & Hp & Hparse)%elem_of_listed.
  destruct (Hd (Key ref)) as [He|He]; [|congruence]. split; [|done].
  apply elem_of_listed. split_and!; [rewrite <-He; by eexists|done..].
Qed.

(** The selection by a moment reads the ref the listing answers with. *)
Lemma SelectAtOrBefore_reads moment w w' res :
  @SelectAtOrBefore W (store_selector l) moment w = (w', Ok res) →
  ∃ ref raw, at_or_before moment None (sortRefs (listed w)) = Some ref ∧ ref ∈ listed w
    ∧ objects w !! Key ref = Some raw ∧ decodeSnapshot raw (Key ref) = Ok (res_Snapshot res)
    ∧ res_Key res = Key ref.
Proof.
  unfold SelectAtOrBefore, read_ref, mbind, prog_bind, throw. cbn [sel_List sel_Read store_selector].
  unfold List, mbind, prog_bind.
  destruct (List_ (SnapshotsPrefix l) w) as [w1 [keys|e]] eqn:Hl; apply list_spec in Hl as [Ho Hkeys]; [|done].
  subst keys. simpl. change (refs_of_keys (keys_under _ _)) with (listed w).
  pose proof (at_or_before_spec moment _ (sortRefs_sorted (listed w))) as Hspec.
  destruct (at_or_before moment None (sortRefs (listed w))) as [ref|]; [|by destruct (sortRefs (listed w))].
  destruct Hspec as (Hin & _). rewrite sortRefs_Permutation in Hin.
  intros Hs. exists ref. revert Hs. destruct (sortRefs (listed w)); [done|]. unfold Read, mbind, prog_bind, lift.
  destruct (Get_ (Key ref) w1) as [w2 [raw|e]] eqn:Hg; apply get_spec in Hg as [_ Hg]; [|done].
  destruct (decodeSnapshot raw (Key ref)) as [snap|] eqn:Hd; [|done]. intros [= _ <-].
  exists raw. rewrite Ho in Hg. done.
Qed.

(** C3: However writers and retention interleave, crash and fail, a restore to a
    moment that no cutoff has passed reads the newest snapshot this history ever
    listed at or before it, and that snapshot is there, verifies and is the one
    its key names. *)
Theorem concurrent_answers s moment :
  reachable s → Forall (λ cutoff, cutoff ≤ moment)%Z (sys_cutoffs s) →
  at_or_before moment None (sortRefs (listed (sys_store s)))
  = at_or_before moment None (sortRefs (sys_history s))
  ∧ ∀ w' res, @SelectAtOrBefore W (store_selector l) moment (sys_store s) = (w', Ok res) →
      ∃ ref, at_or_before moment None (sortRefs (sys_history s)) = Some ref
        ∧ res_Key res = Key ref ∧ key_of l (res_Snapshot res) = Key ref ∧ verified (res_Snapshot res).
Proof.
  intros Hi%reachable_invariant Hc. split; [by apply invariant_answers|]. rewrite <-(invariant_answers s) by done.
  intros w' res (ref & raw & Hat & Hin & Hraw & Hd & Hkey)%SelectAtOrBefore_reads.
  destruct (inv_objects _ Hi _ Hin) as (raw' & snap & Hk & Hd' & [_ Hv _] & Hkey').
  exists ref. assert (raw' = raw) as -> by congruence. rewrite Hd in Hd'. injection Hd' as <-. done.
Qed.

(** The newest snapshot is this history's, and was listed. *)
Lemma newest_listed s snap key :
  invariant s → newest l (objects (sys_store s)) snap key →
  own_snapshot snap ∧ key = key_of l snap ∧ ∃ ref, ref ∈ sys_history s ∧ Key ref = key.
Proof.
  intros Hi Hl. unfold newest in Hl.
  destruct (objects (sys_store s) !! LatestKey l) as [raw|] eqn:Hp.
  - destruct Hl as [Hd ->]. destruct (inv_pointer _ Hi _ Hp) as (snap' & ref & Hown & He & Hin & Hk).
    rewrite (decodeSnapshot_encoded snap') in Hd by (by destruct Hown). injection Hd as <-. eauto.
  - destruct Hl as (ref & raw & Hlast & -> & Hraw & Hd).
    assert (ref ∈ listed (sys_store s)) as Hin.
    { unfold listed. rewrite <-sortRefs_Permutation. apply last_Some in Hlast as [rest ->]. set_solver. }
    destruct (inv_objects _ Hi _ Hin) as (raw' & snap' & Hk & Hd' & Hown & Hkey).
    assert (raw' = raw) as -> by congruence. rewrite Hd in Hd'. injection Hd' as <-.
    split; [done|]. split; [done|]. exists ref. split; [by apply (inv_listed _ Hi)|done].
Qed.

(** C13: And the newest snapshot is never one the store did not list: the pointer,
    moved after the object is put, names a snapshot of this history that the
    store listed, and so does the listing it falls back to. *)
Theorem concurrent_latest s w' snap key :
  reachable s → Latest l (sys_store s) = (w', Ok (snap, key)) →
  own_snapshot snap ∧ key = key_of l snap ∧ ∃ ref, ref ∈ sys_history s ∧ Key ref = key.
Proof. intros Hi%reachable_invariant Hl%(Latest_newest objects). by apply newest_listed. Qed.

(** ** The calls are runs of the system *)

(** The system with one agent's requests done. *)
Lemma runs_steps a w w' s before after :
  runs l a w w' → sys_store s = w → sys_agents s = before ++ a :: after →
  ∃ s', rtc step s s' ∧ sys_store s' = w' ∧ sys_agents s' = before ++ after
    ∧ sys_cutoffs s' = sys_cutoffs s.
Proof.
  intros Hr. revert s. induction Hr as [a w w' Hr|a a' w w1 w' Hr _ IH]; intros s <- Ha.
  - eexists. split; [apply rtc_once; by eapply step_run|done].
  - destruct (IH (observe w1 (before ++ option_list (Some a') ++ after) s)) as (s' & Hs & ? & ? & ?); [done..|].
    exists s'. split; [|done]. eapply rtc_l; [by eapply step_run|done].
Qed.

Lemma Write_runs snap w w' r : Write l snap w = (w', r) → runs l (Writing snap) w w'.
Proof.
  unfold Write, mbind, prog_bind, lift, wrapM, mret, prog_ret.
  destruct (encode_snapshot snap) as [encoded|e] eqn:He; simpl.
  2: { intros [= <- _]. apply runs_done. simpl. unfold write_object. by rewrite He. }
  destruct (Put_ (key_of l snap) encoded w) as [w1 [u|e]] eqn:Hp.
  2: { intros [= <- _]. apply runs_done. simpl. unfold write_object. by rewrite He, Hp. }
  destruct (Put_ (LatestKey l) encoded w1) as [w2 r2] eqn:Hp2. intros Hr.
  apply (runs_more l _ (Pointing encoded) _ w1); [simpl; unfold write_object; by rewrite He, Hp|].
  apply runs_done. simpl. unfold write_pointer. rewrite Hp2. destruct r2; by injection Hr as <- _.
Qed.

(** A request that only reads. *)
Lemma step_reads s w1 : objects w1 = objects (sys_store s) → step s (observe w1 (sys_agents s) s).
Proof. intros Hw. apply step_elsewhere; [by apply same_history_eq|]. unfold same_pointer. by rewrite Hw. Qed.

(** Reads, and then a write. *)
Lemma runs_after_reads s w1 w' snap :
  own_snapshot snap → objects w1 = objects (sys_store s) → runs l (Writing snap) w1 w' →
  ∃ s', rtc step s s' ∧ sys_store s' = w' ∧ sys_agents s' = sys_agents s ∧ sys_cutoffs s' = sys_cutoffs s.
Proof.
  intros Hsnap Hw1 Hw. set (s1 := observe w1 (sys_agents s) s).
  destruct (runs_steps _ _ _ (with_agents (Writing snap :: sys_agents s1) (sys_cutoffs s1) s1) [] (sys_agents s) Hw)
    as (s' & Hs & ? & ? & ?); [done..|].
  exists s'. split_and!; try done.
  eapply rtc_l; [by apply (step_reads s w1)|]. eapply rtc_l; [by apply step_write|done].
Qed.

Lemma Write_steps s w1 w' snap r :
  own_snapshot snap → objects w1 = objects (sys_store s) → Write l snap w1 = (w', r) →
  ∃ s', rtc step s s' ∧ sys_store s' = w' ∧ sys_agents s' = sys_agents s ∧ sys_cutoffs s' = sys_cutoffs s.
Proof. intros Hsnap Hw1 Hw%Write_runs. by eapply runs_after_reads. Qed.

End system.

Section calls.
Context {B W : Type} (backend_of : B → Backend W) (objects : B → W → gmap string string)
        `{Hspec : !∀ b, @BackendSpec W (backend_of b) (objects b)}.

Lemma delete_keys_runs b l keys w :
  @runs W (backend_of b) l (Deleting keys) w (delete_keys backend_of b keys w).
Proof.
  revert w. induction keys as [|key keys IH]; intros w; [by apply runs_done|]. simpl.
  destruct (@Delete_ W (backend_of b) key w) as [w1 [u|e]] eqn:Hd.
  - eapply runs_more; [simpl; by rewrite Hd|]. apply IH.
  - apply runs_done. simpl. by rewrite Hd.
Qed.

(** A call of [pruneSuperseded] is a run of one pruning agent. *)
Lemma pruneSuperseded_steps b store resolved server cutoff (s : system W) :
  ∃ s', rtc (@step W (backend_of b) (objects b) (LayoutFor store resolved server)) s s'
    ∧ sys_store s' = pruneSuperseded backend_of b store resolved server cutoff (sys_store s)
    ∧ sys_agents s' = sys_agents s ∧ sys_cutoffs s' = cutoff :: sys_cutoffs s.
Proof.
  set (l := LayoutFor store resolved server).
  assert (@runs W (backend_of b) l (Pruning cutoff) (sys_store s)
            (pruneSuperseded backend_of b store resolved server cutoff (sys_store s))) as Hr.
  { unfold pruneSuperseded. fold l. destruct (@List W (backend_of b) l (sys_store s)) as [w1 [refs|e]] eqn:Hl.
    - eapply runs_more; [simpl; unfold list_superseded; by rewrite Hl|]. apply delete_keys_runs.
    - apply runs_done. simpl. unfold list_superseded. by rewrite Hl. }
  destruct (runs_steps (objects b) l _ _ _
    (with_agents (Pruning cutoff :: sys_agents s) (cutoff :: sys_cutoffs s) s) [] (sys_agents s) Hr)
    as (s' & Hs & ? & ? & ?); [done..|].
  exists s'. split_and!; try done. eapply rtc_l; [by apply step_prune|done].
Qed.

(** Of another server's history, it is a change elsewhere. *)
Lemma pruneSuperseded_elsewhere b store resolved server other cutoff (s : system W) :
  one_element server → one_element other → other ≠ server →
  let o := pruneSuperseded backend_of b store resolved other cutoff (sys_store s) in
  let l := LayoutFor store resolved server in
  @step W (backend_of b) (objects b) l s (observe (objects b) l o (sys_agents s) s).
Proof.
  intros Hs Ho Hne o l.
  assert (∀ key, HasPrefix key (Root l +:+ "/") = true → objects b o !! key = objects b (sys_store s) !! key) as Hsame.
  { intros key Hk. apply pruneSuperseded_outside; [done|]. apply not_true_iff_false. intros Hp.
    set (l' := LayoutFor store resolved other) in *.
    pose proof (beneath_apart l' l key (conj eq_refl eq_refl) Ho Hs Hne) as Hap.
    rewrite Hk in Hap. by discriminate Hap; eapply HasPrefix_trans, SnapshotsPrefix_beneath. }
  apply step_elsewhere.
  - intros key Hk. apply Hsame. by eapply HasPrefix_trans, SnapshotsPrefix_beneath.
  - apply Hsame. by apply LatestKey_beneath.
Qed.

(** The Clusters whose history in this store is this server's. *)
Definition served (store : ConfigStore) (server : string) (clusters : list Cluster) : list Cluster :=
  filter (λ c, archives_into store c = true ∧ SaveToServer (NewFromCluster c) = server) clusters.

(** One pass of the retention loop over the Clusters. *)
Lemma prune_all_steps store checked cutoff server clusters (s : system W) :
  one_element server →
  Forall (λ c, archives_into store c = true → one_element (SaveToServer (NewFromCluster c))) clusters →
  ∃ s', rtc (@step W (backend_of (ck_backend checked)) (objects (ck_backend checked))
               (LayoutFor store (ck_resolved checked) server)) s s'
    ∧ sys_store s' = prune_all backend_of store checked cutoff clusters (sys_store s)
    ∧ sys_agents s' = sys_agents s
    ∧ sys_cutoffs s' = replicate (length (served store server clusters)) cutoff ++ sys_cutoffs s.
Proof.
  intros Hserver Hcl. revert s. induction Hcl as [|c clusters Hc _ IH]; intros s; [by exists s|].
  unfold served. rewrite filter_cons. fold (served store server clusters). simpl.
  destruct (archives_into store c); [|rewrite decide_False by (by intros [? _]); apply IH].
  specialize (Hc eq_refl).
  destruct (decide (SaveToServer (NewFromCluster c) = server)) as [->|Hne].
  - destruct (pruneSuperseded_steps (ck_backend checked) store (ck_resolved checked) server cutoff s)
      as (s1 & Hs1 & <- & Ha1 & Hc1).
    destruct (IH s1) as (s2 & Hs2 & ? & Ha2 & Hc2). exists s2. rewrite decide_True by done.
    split_and!; [by etrans|done|congruence|].
    rewrite Hc2, Hc1. simpl length. by rewrite replicate_S_end, <-app_assoc.
  - pose proof (pruneSuperseded_elsewhere (ck_backend checked) store (ck_resolved checked) server _ cutoff s
      Hserver Hc Hne) as Hs1. cbv zeta in Hs1.
    edestruct IH as (s2 & Hs2 & ? & ? & ?). exists s2. rewrite decide_False by (by intros [_ ?]).
    split; [by eapply rtc_l|done].
Qed.

Section reconcile.
Context `{GoPlatform} `{Fmt} `{MetaLib} {K : Type} `{KubeController K} {P : Type} `{Provider P B}.

(** The Clusters that retention visits for this server. *)
Definition visited (w : CtrlWorld K P W) (store : ConfigStore) (checked : checkedStore B) (server : string)
    : list Cluster :=
  if decide (ck_retention checked = 0%Z ∨ ck_bucketMissing checked = true) then []
  else match kube_clusters (cw_kube w) (cs_Namespace store) with
       | Err _ => []
       | Ok clusters => served store server clusters
       end.

(** A reconciliation is a run of one server's history. *)
Lemma Reconcile_steps observedAt transitionAt now req store checked (w w1 w' : CtrlWorld K P W) r server
    (s : system W) :
  kube_config_store (cw_kube w) req = Ok store → check backend_of store w = (w1, Usable checked) →
  Reconcile backend_of observedAt transitionAt now req w = (w', r) →
  one_element server →
  (∀ clusters, kube_clusters (cw_kube w) (cs_Namespace store) = Ok clusters →
     Forall (λ c, archives_into store c = true → one_element (SaveToServer (NewFromCluster c))) clusters) →
  sys_store s = cw_objects w →
  ∃ s', rtc (@step W (backend_of (ck_backend checked)) (objects (ck_backend checked))
               (LayoutFor store (ck_resolved checked) server)) s s'
    ∧ sys_store s' = cw_objects w' ∧ sys_agents s' = sys_agents s
    ∧ sys_cutoffs s' = replicate (length (visited w store checked server))
                         (now + wrap64 (- ck_retention checked))%Z ++ sys_cutoffs s.
Proof.
  intros Hk Hc Hr Hserver Hcl Hst. destruct (check_quiet backend_of objects _ _ _ _ Hc) as [Hkube Hobj].
  rewrite (Reconcile_objects backend_of _ _ _ _ _ _ _ _ _ _ Hk Hc Hr). set (updated := report _ _ _ _).
  set (l := LayoutFor store (ck_resolved checked) server). rewrite <-Hst in Hobj.
  pose proof (@step_reads W (backend_of (ck_backend checked)) (objects (ck_backend checked)) l s (cw_objects w1) Hobj)
    as Hs1. set (s1 := observe _ _ _ _ _) in Hs1.
  unfold enforceRetention, visited. destruct (decide _) as [_|_]; [exists s1; split; [by apply rtc_once|done]|].
  rewrite Hkube. change (cs_Namespace updated) with (cs_Namespace store).
  destruct (kube_clusters (cw_kube w) (cs_Namespace store)) as [clusters|e];
    [|exists s1; split; [by apply rtc_once|done]].
  destruct (prune_all_steps updated checked (now + wrap64 (- ck_retention checked))%Z server clusters s1)
    as (s2 & Hs2 & ? & ? & ?); [done|by apply Hcl|].
  exists s2. split; [by eapply rtc_l|done].
Qed.

(** C4: The guarantee of a retention window.  Whatever happened to the history
    before, so long as no earlier cutoff is past this window's start,
    reconciling the store does not change what a restore to a moment in the
    window reads: the listing answers with the same snapshot, and that snapshot
    is read as before. *)
Theorem Reconcile_keeps_window observedAt transitionAt now req store checked (w w1 w' : CtrlWorld K P W) r server
    (s : system W) moment :
  let l := LayoutFor store (ck_resolved checked) server in
  let backend := backend_of (ck_backend checked) in
  let objects := objects (ck_backend checked) in
  kube_config_store (cw_kube w) req = Ok store → check backend_of store w = (w1, Usable checked) →
  Reconcile backend_of observedAt transitionAt now req w = (w', r) →
  one_element server →
  (∀ clusters, kube_clusters (cw_kube w) (cs_Namespace store) = Ok clusters →
     Forall (λ c, archives_into store c = true → one_element (SaveToServer (NewFromCluster c))) clusters) →
  @reachable W backend objects l s → sys_store s = cw_objects w →
  (0 ≤ ck_retention checked < 2 ^ 63)%Z → (now - ck_retention checked ≤ moment)%Z →
  Forall (λ cutoff, cutoff ≤ now - ck_retention checked)%Z (sys_cutoffs s) →
  at_or_before moment None (sortRefs (listed objects l (cw_objects w')))
  = at_or_before moment None (sortRefs (listed objects l (cw_objects w)))
  ∧ ∀ wa before wb after,
      @SelectAtOrBefore W (@store_selector W backend l) moment (cw_objects w) = (wa, Ok before) →
      @SelectAtOrBefore W (@store_selector W backend l) moment (cw_objects w') = (wb, Ok after) →
      res_Key after = res_Key before ∧ res_Snapshot after = res_Snapshot before.
Proof.
  cbv zeta. intros Hk Hc Hr Hserver Hcl Hreach Hst Hret Hm Hcut.
  destruct (Reconcile_steps _ _ _ _ _ _ _ _ _ _ _ _ Hk Hc Hr Hserver Hcl Hst) as (s' & Hs & Hst' & _ & Hcuts).
  pose proof (Reconcile_only_deletes backend_of objects _ _ _ _ _ _ _ _ _ _ Hk Hc Hr) as Hdel.
  pose proof (λ ref, only_deletes_listed (objects (ck_backend checked))
    (LayoutFor store (ck_resolved checked) server) _ _ ref Hdel) as Hsub.
  rewrite <-Hst, <-Hst' in *.
  assert (at_or_before moment None (sortRefs (listed (objects (ck_backend checked))
            (LayoutFor store (ck_resolved checked) server) (sys_store s')))
          = at_or_before moment None (sortRefs (listed (objects (ck_backend checked))
            (LayoutFor store (ck_resolved checked) server) (sys_store s)))) as Hans.
  { refine (run_keeps_answer _ _ s s' moment Hreach Hs _ (λ ref Hin, proj1 (Hsub ref Hin))).
    rewrite Hcuts, wrap64_id by (unfold in_int64, min_int64, max_int64; lia).
    apply Forall_app. split; [apply Forall_replicate; lia|]. eapply Forall_impl; [done|]. simpl. intros. lia. }
  split; [done|]. intros wa before wb after Ha Hb.
  apply (SelectAtOrBefore_reads (objects (ck_backend checked))) in Ha as (ref & raw & Hat & _ & Hraw & Hd & Hkey).
  apply (SelectAtOrBefore_reads (objects (ck_backend checked))) in Hb as (ref' & raw' & Hat' & Hin' & Hraw' & Hd' & Hkey').
  assert (ref' = ref) as -> by congruence. destruct (Hsub _ Hin') as [_ He].
  assert (raw' = raw) as -> by congruence. split; congruence.
Qed.

End reconcile.

Context `{CnpgLib} {K : Type} `{KubeReader K} {P : Type} `{Provider P B}.
Context (GetKind : string → result string) (Version : string).

(** What a capture does to the store [w0], having read it into [w1]: it writes
    nothing, since the newest snapshot confirms the captured one or something failed
    before the write; or it is the requests of one writing agent, left alone. *)
Inductive capture_effect (l : Layout) (b : B) (captured : result Snapshot) (w0 w1 w' : W)
    (r : result ReconcilerHooksResult) : Prop :=
| effect_confirmed snap latest key :
    captured = Ok snap → @Latest W (backend_of b) l w0 = (w1, Ok (latest, key)) → confirms latest snap →
    w' = w1 → r = Ok resultContinue → capture_effect l b captured w0 w1 w' r
| effect_failed e :
    (∃ e', captured = Err e')
    ∨ (∃ e', @Latest W (backend_of b) l w0 = (w1, Err e') ∧ errors_is ErrNotFound e' = false) →
    w' = w1 → r = Err e → capture_effect l b captured w0 w1 w' r
| effect_written snap :
    captured = Ok snap → @runs W (backend_of b) l (Writing snap) w1 w' →
    (∀ o latest key, @Latest W (backend_of b) l w0 = (o, Ok (latest, key)) → ¬ confirms latest snap) →
    (r = Ok resultContinue → ∃ encoded, encode_snapshot snap = Ok encoded
       ∧ objects b w' = <[LatestKey l := encoded]> (<[key_of l snap := encoded]> (objects b w0))) →
    capture_effect l b captured w0 w1 w' r.

Lemma Write_effect l b snap w0 w1 w' (rw : result string) (r : result ReconcilerHooksResult) :
  encodable snap → objects b w1 = objects b w0 → @Write W (backend_of b) l snap w1 = (w', rw) →
  (r = Ok resultContinue → ∃ key, rw = Ok key) →
  (∀ o latest key, @Latest W (backend_of b) l w0 = (o, Ok (latest, key)) → ¬ confirms latest snap) →
  capture_effect l b (Ok snap) w0 w1 w' r.
Proof.
  intros He Hw1 Hw Hr Hl. eapply effect_written; [done|by eapply Write_runs|done|].
  intros [key ->]%Hr. destruct (@Write_objects W (backend_of b) (objects b) (Hspec b) _ _ _ _ _ He Hw) as (_ & Hraw & Hob).
  rewrite Hw1 in Hob. by eexists.
Qed.

Lemma capture_effects clock cluster store key server fp w w' r p' b l :
  Open store server (ow_provider w) = (p', Ok (b, l)) →
  (∀ snap, Extract clock (Some cluster) (capture_options Version store) = Ok snap → encodable snap) →
  capture backend_of Version clock cluster store key server fp w = (w', r) →
  ∃ w1, objects b w1 = objects b (ow_objects w)
    ∧ capture_effect l b (Extract clock (Some cluster) (capture_options Version store)) (ow_objects w) w1 (ow_objects w') r.
Proof.
  intros Ho Henc. unfold capture, mbind, prog_bind, lift, throw, wrapM, attempt, on_provider, on_objects,
    do_remember, mret, prog_ret. fold (capture_options Version store).
  destruct (Extract clock (Some cluster) (capture_options Version store)) as [snap|e]; simpl.
  2: { intros [= <- <-]. exists (ow_objects w). split; [done|]. eapply effect_failed; [left; by eexists|done..]. }
  specialize (Henc _ eq_refl). rewrite Ho. simpl.
  destruct (@Latest W (backend_of b) l (ow_objects w)) as [w1 [[latest lk]|e]] eqn:Hl; simpl;
    pose proof (@Latest_objects W (backend_of b) (objects b) (Hspec b) _ _ _ _ Hl) as Hw1; intros Hc; exists w1;
    (split; [done|]).
  - case_decide as Hd; simpl in Hc; [injection Hc as <- <-; by eapply effect_confirmed|].
    destruct (@Write W (backend_of b) l snap w1) as [w2 [k|e]] eqn:Hw; simpl in Hc; injection Hc as <- <-;
      (eapply Write_effect; [done|done|exact Hw|by eauto|]); intros o latest' key'; rewrite Hl; by intros [= <- <- <-].
  - destruct (errors_is ErrNotFound e) eqn:He; simpl in Hc.
    + destruct (@Write W (backend_of b) l snap w1) as [w2 [k|e']] eqn:Hw; simpl in Hc; injection Hc as <- <-;
        (eapply Write_effect; [done|done|exact Hw|by eauto|]); intros o latest' key'; by rewrite Hl.
    + injection Hc as <- <-. eapply effect_failed; [right; by eexists|done..].
Qed.

(** Each effect is a run of the interleaved system. *)
Lemma effect_steps l b captured w1 w' r (s : system W) :
  (∀ snap, captured = Ok snap → own_snapshot snap) →
  objects b w1 = objects b (sys_store s) → capture_effect l b captured (sys_store s) w1 w' r →
  ∃ s', rtc (@step W (backend_of b) (objects b) l) s s' ∧ sys_store s' = w'
    ∧ sys_agents s' = sys_agents s ∧ sys_cutoffs s' = sys_cutoffs s.
Proof.
  intros Hown Hw1 He.
  assert (w' = w1 → ∃ s', rtc (@step W (backend_of b) (objects b) l) s s' ∧ sys_store s' = w'
    ∧ sys_agents s' = sys_agents s ∧ sys_cutoffs s' = sys_cutoffs s) as Hquiet.
  { intros ->. exists (observe (objects b) l w1 (sys_agents s) s). split; [by apply rtc_once, step_reads|done]. }
  destruct He as [| |snap Hs Hruns _ _]; [by apply Hquiet..|].
  eapply runs_after_reads; [by apply Hown|done|done].
Qed.

Lemma captured_own clock cluster o snap :
  (0 ≤ cl_Generation cluster < 10 ^ 10)%Z → Extract clock (Some cluster) o = Ok snap → encodable snap → own_snapshot snap.
Proof.
  intros Hgen He Henc. split; [done|by eapply Extract_verified|].
  apply Extract_Ok in He as (source & _ & _ & _ & _ & _ & _ & _ & Hg & _). by rewrite Hg.
Qed.

Lemma Post_steps clock k rd cd w w' r cluster store fp p' b l (s : system W) :
  goes_to_store GetKind k rd cd w cluster store fp p' b l →
  (∀ snap, Extract clock (Some cluster) (capture_options Version store) = Ok snap → encodable snap) →
  (0 ≤ cl_Generation cluster < 10 ^ 10)%Z →
  Post backend_of GetKind Version clock k rd cd w = (w', r) → sys_store s = ow_objects w →
  ∃ s', rtc (@step W (backend_of b) (objects b) l) s s' ∧ sys_store s' = ow_objects w'
    ∧ sys_agents s' = sys_agents s ∧ sys_cutoffs s' = sys_cutoffs s.
Proof.
  intros Hgs Henc Hgen Hp Hs. apply (Post_slow _ _ _ _ _ _ _ _ _ _ _ _ _ _ _ _ Hgs) in Hp.
  destruct (capture_effects _ _ _ _ _ _ _ _ _ _ _ _ (gs_open _ _ _ _ _ _ _ _ _ _ _ Hgs) Henc Hp) as (w1 & Hw1 & He).
  rewrite <-Hs in Hw1, He. eapply effect_steps; [|done|done].
  intros snap Hsnap. eapply captured_own; [done|done|by apply Henc].
Qed.

(** C29: A call of the hook that goes to the store is a run of the system above with
    at most one writing agent, so that what holds of every run holds of it.  It
    first reads; then it either writes nothing -- the newest snapshot has the
    captured checksum and rules, or something failed before the write -- or makes
    the requests of one agent that writes the captured snapshot, in their order and
    as far as the first that fails, and this only when the newest snapshot is not
    that state already; when the call succeeds, the two objects of that one snapshot
    are all that has changed.  The captured snapshot is one that can be encoded, and
    the Cluster's generation has at most ten digits, as keys are sorted by it. *)
Theorem Post_is_run clock k rd cd w w' r cluster store fp p' b l (s : system W) :
  goes_to_store GetKind k rd cd w cluster store fp p' b l →
  (∀ snap, Extract clock (Some cluster) (capture_options Version store) = Ok snap → encodable snap) →
  (0 ≤ cl_Generation cluster < 10 ^ 10)%Z →
  Post backend_of GetKind Version clock k rd cd w = (w', r) → sys_store s = ow_objects w →
  (∃ w1, objects b w1 = objects b (ow_objects w)
     ∧ capture_effect l b (Extract clock (Some cluster) (capture_options Version store))
         (ow_objects w) w1 (ow_objects w') r)
  ∧ ∃ s', rtc (@step W (backend_of b) (objects b) l) s s' ∧ sys_store s' = ow_objects w'
      ∧ sys_agents s' = sys_agents s ∧ sys_cutoffs s' = sys_cutoffs s.
Proof.
  intros Hgs Henc Hgen Hp Hs. split; [|by eapply Post_steps].
  apply (Post_slow _ _ _ _ _ _ _ _ _ _ _ _ _ _ _ _ Hgs) in Hp.
  exact (capture_effects _ _ _ _ _ _ _ _ _ _ _ _ (gs_open _ _ _ _ _ _ _ _ _ _ _ Hgs) Henc Hp).
Qed.

(** Publishing interleaves with all of this too.  Whatever writers, prunes and
    crashes did to the history, a status that is published describes a snapshot of
    it that the store has listed, under its own key; and the call is a step of the
    system. *)
Theorem published_status_listed k cd w w' json :
  SetStatusInCluster backend_of k cd w = (w', Ok (JSONStatusResponse json)) →
  ∃ cluster store p' b l latest key status,
    DecodeClusterLenient cd = Ok cluster
    ∧ Open store (SaveToServer (NewFromCluster cluster)) (ow_provider w) = (p', Ok (b, l))
    ∧ status_of (NewFromCluster cluster) latest key = Ok status ∧ Marshal (doc_of_status status) = Ok json
    ∧ ∀ s, @reachable W (backend_of b) (objects b) l s → sys_store s = ow_objects w →
        own_snapshot latest ∧ key = key_of l latest
        ∧ (∃ ref, ref ∈ sys_history s ∧ Key ref = key)
        ∧ ∃ s', @step W (backend_of b) (objects b) l s s' ∧ sys_store s' = ow_objects w'
            ∧ sys_agents s' = sys_agents s ∧ sys_cutoffs s' = sys_cutoffs s.
Proof.
  intros (cluster & store & p' & b & l & latest & key & status & Hd & Hk & Ho & Hl & Hst & Hj & _)%SetStatusInCluster_publishes.
  exists cluster, store, p', b, l, latest, key, status. split_and!; try done. intros s Hr Hs.
  pose proof (@Latest_objects W (backend_of b) (objects b) (Hspec b) _ _ _ _ Hl) as Hob.
  apply (@Latest_newest W (backend_of b) (objects b) (Hspec b)) in Hl. rewrite <-Hs in Hl, Hob.
  apply (@reachable_invariant W (backend_of b) (objects b) (Hspec b) l) in Hr.
  edestruct (newest_listed (H := backend_of b) (objects b) l s latest key Hr Hl) as (? & ? & ?).
  split_and!; try done. exists (observe (objects b) l (ow_objects w') (sys_agents s) s).
  by split; [apply step_reads|].
Qed.

End calls.
