(* ===== verification/Production.v ===== *)
(** * The hooks over S3

    What the capture hook does on the backend the plugin is deployed with, when
    the bucket is not there yet. *)

From S2P Require Import Prelude GoStrings GoTime GoJson Cnpg Snapshot Api Layout Kube Backend JsonText.
From S2P Require Import SnapshotStore History S3 Resolver Config Operator.

#[local] Open Scope stdpp_scope.

Section missing_bucket.
Context `{CnpgLib} {K : Type} `{KubeReader K} {P : Type} {W : Type} `{S3Sdk W} `{Provider P S3Config}.
Context (GetKind : string → result string) (Version : string).
Context (bucket : W → option (gmap string string)) `{Hs3 : !∀ b, S3Service W b bucket}.

(** Listing a bucket that is not there is an error. *)
Definition missing_lists_fail (b : S3Config) : Prop :=
  ∀ w prefix, bucket w = None → ∃ e rest, ListPages b prefix w = S3Err e :: rest.

(** A read in a missing bucket fails and leaves it missing. *)
Lemma Get_missing b key w :
  bucket w = None → ∃ w' e, S3.Get b key w = (w', Err e) ∧ bucket w' = None.
Proof.
  intros Hw. unfold S3.Get. destruct (GetObject b key w) as [w1 r] eqn:Hg.
  pose proof (s3_get w key w1 r Hg) as [Hb Hr]. rewrite Hw in *.
  destruct r as [out|e]; [|destruct (isNotFound e); by eexists _, _].
  unfold read_limited. destruct (decide _) as [Hle|Hle].
  - simpl. rewrite decide_True; [by eexists _, _|].
    unfold size in Hle |- *. rewrite length_prefix by lia. lia.
  - destruct (body_error out); simpl; [by eexists _, _|].
    specialize (Hr eq_refl). simpl in Hr. by rewrite lookup_empty in Hr.
Qed.

(** Nor does the listing [Latest] falls back to answer "not found". *)
Lemma Latest_missing b l w :
  missing_lists_fail b → bucket w = None →
  ∃ w' e, @Latest W (s3Backend b) l w = (w', Err e) ∧ errors_is ErrNotFound e = false ∧ bucket w' = None.
Proof.
  intros Hl Hw. unfold Latest, attempt, mbind, prog_bind.
  destruct (Get_missing b (LatestKey l) w Hw) as (w1 & e & Hg & Hw1). simpl. rewrite Hg.
  destruct (errors_is ErrNotFound e) eqn:He; simpl; [|by eexists _, _].
  unfold SnapshotStore.List, mbind, prog_bind. simpl. unfold S3.List.
  destruct (Hl w1 (SnapshotsPrefix l) Hw1) as (e' & rest & ->). simpl. by eexists _, _.
Qed.

(** C8: Capture never creates a missing bucket.  The reconciler reports such a store
    as ready, its bucket to be created on first write; but the hook looks for the
    newest snapshot before it writes, and that listing fails. *)
Theorem Post_missing_bucket clock k rd cd w cluster store fp p' b l :
  goes_to_store GetKind k rd cd w cluster store fp p' b l →
  missing_lists_fail b → bucket (ow_objects w) = None →
  ∃ w' e, Post s3Backend GetKind Version clock k rd cd w = (w', Err e) ∧ bucket (ow_objects w') = None.
Proof.
  intros Hgs Hl Hw.
  destruct (Post s3Backend GetKind Version clock k rd cd w) as [w' r] eqn:Hp. 
  apply (Post_slow _ _ _ _ _ _ _ _ _ _ _ _ _ _ _ _ Hgs) in Hp.
  unfold capture, mbind, prog_bind, lift, wrapM, attempt, on_provider, on_objects in Hp.
  destruct (wrap _ _ (Extract _ _ _)) as [snap|e]; [|injection Hp as <- <-; by eexists _, _].
  rewrite (gs_open _ _ _ _ _ _ _ _ _ _ _ Hgs) in Hp. simpl in Hp.
  destruct (Latest_missing b l (ow_objects w) Hl Hw) as (w1 & e & Hlat & He & Hw1).
  rewrite Hlat, He in Hp. simpl in Hp. injection Hp as <- <-. by eexists _, _.
Qed.

End missing_bucket.
