(* ===== verification/Deployment.v ===== *)
(** * A concrete deployment

    Every parameter of the development as a concrete function, small enough to
    run: the theorems' witnesses are stated over it. *)

From S2P Require Import Prelude GoStrings GoTime GoJson GoFloat GoDecode Sha256 Pathutil Cnpg Groups Denylist.
From S2P Require Import Pathcheck Snapshot Api Layout Kube Backend JsonText SnapshotStore History Retention.
From S2P Require Import RecoveryTarget Select S3 Resolver PgMem Celenv Skip Transform Plan CaptureRestore.
From S2P Require Import Memory DeepCopy Config Operator Webhook Controller StatusMemory Wiring Watch.

#[local] Open Scope stdpp_scope.

(** ** CloudNativePG *)

Definition sample_cluster : Cluster := {|
  cl_Name := "prod"; cl_Namespace := "db"; cl_UID := "u-1"; cl_Generation := 3;
  cl_Labels := {["team" := "core"]}; cl_Annotations := ∅;
  cl_Plugins := [{| pd_Name := PluginName; pd_Enabled := None;
                    pd_Parameters := {[ParameterSaveToStore := "backups"]} |}];
  cl_Image := "postgres:17"; cl_PluginStatus := [] |}.

(** A cluster that asked for a restore and was never given one. *)
Definition unrestored_cluster : Cluster := {|
  cl_Name := "copy"; cl_Namespace := "db"; cl_UID := "u-2"; cl_Generation := 1;
  cl_Labels := ∅; cl_Annotations := ∅;
  cl_Plugins := [{| pd_Name := PluginName; pd_Enabled := None;
                    pd_Parameters := {[ParameterRestoreFromStore := "backups";
                                       ParameterRestoreFromServer := "prod"]} |}];
  cl_Image := ""; cl_PluginStatus := [] |}.

(** The sample cluster as it is after an edit that captures nothing new: the status
    on it is of an earlier generation, but names the newest snapshot. *)
Definition sample_status : ClusterStatus := {|
  LastSavedGeneration := 2; LastSavedAt := "2026-01-01T00:00:00Z";
  st_SnapshotKey := "base/prod/chronicle/snapshots/20260101T000000Z-g0000000003-487bc65f.json";
  st_Checksum := "487bc65f"; MetadataChecksum := ""; st_Store := "backups"; st_ServerName := "prod" |}.
Definition published_cluster : Cluster :=
  with_status sample_cluster (encode_doc (doc_of_status sample_status)) [].

Definition sample_spec_doc : doc :=
  DObj [("spec", DObj [("instances", DNum "3");
                       ("postgresql", DObj [("parameters", DObj [("archive_mode", DStr "on");
                                                                 ("work_mem", DStr "64MB")]);
                                              ("shared_preload_libraries",
                                               DArr [DStr "pgaudit"; DStr "timescaledb"])])])].

#[export] Instance sample_cnpg : CnpgLib := {|
  FixedConfigurationParameters := {["archive_mode"]};
  ManagedExtensions := [["pgaudit"]];
  clusterSpecType :=
    TStruct "apiv1.ClusterSpec"
      [("instances", false, TOther);
       ("postgresql", false, TStruct "apiv1.PostgresConfiguration" [("parameters", false, TMap TOther);
                                                                ("shared_preload_libraries", false, TOther)])];
  MarshalCluster := λ _, Marshal sample_spec_doc;
  DecodeClusterLenient := λ s,
    if decide (s = "copy") then Ok unrestored_cluster
    else if decide (s = "published") then Ok published_cluster else Ok sample_cluster;
  ParseTargetTime := λ s,
    match ParseRFC3339 s with Some t => Ok t | None => Err (External OtherKind "parsing time") end
|}.

(** ** Quantities and CEL: quantities are whole numbers, an expression is the
    identity *)

#[export] Instance sample_platform : GoPlatform := {| int64_out_of_range := λ _, min_int64 |}.

#[export] Instance sample_quantity : QuantityLib := {|
  quantity := Z;
  resource_ParseQuantity := λ s,
    match ParseInt s with Some z => Ok z | None => Err (External OtherKind "quantity") end;
  q_String := FormatInt;
  q_Value := id;
  q_MilliValue := λ z, (z * 1000)%Z;
  q_AsApproximateFloat64 := float_of_Z;
  q_Format := λ _, "DecimalSI";
  NewMilliQuantity := λ z _, (z / 1000)%Z;
  q_Add := Z.add;
  q_Sub := Z.sub;
  q_Cmp := Z.compare
|}.

#[export] Instance sample_cel : CelEngine := {|
  ast := unit;
  NewEnv := λ _, Ok ();
  env_Compile := λ _ _, Ok ();
  env_Program := λ _ _ _, Ok ();
  program_Eval := λ _ _ _ old, Ok old
|}.

#[export] Instance sample_fmt : Fmt := {|
  Error := λ _, "error";
  Sprintf := λ format _ _, format
|}.

(** ** Kubernetes *)

Definition sample_credentials : S3Credentials :=
  {| AccessKeyID := None; SecretAccessKey := None; Region := None; SessionToken := None;
     InheritFromIAMRole := true |}.
Definition sample_store : ConfigStore := {|
  cs_Name := "backups"; cs_Namespace := "db"; cs_Generation := 1;
  cs_Spec := {| DerivedFrom := None;
                Configuration := Some {| DestinationPath := "s3://bucket/base"; EndpointURL := "";
                                         EndpointCA := None; s3Credentials := Some sample_credentials |};
                Retention := "30d"; CaptureGroups := []; Prefix := "" |};
  cs_Status := {| css_Resolved := None; css_Conditions := [] |} |}.

Definition sample_backup : Backup :=
  {| bk_BackupID := "20260101T000000"; bk_BackupName := "nightly";
     bk_StoppedAt := Some 1767225600000000000%Z |}.

(** The API server holds one ConfigStore, one Backup and the Clusters. *)
#[export] Instance sample_kube : KubeReader unit := {|
  kube_secret := λ _ _, Err (External KubeNotFound "secret");
  kube_object_store := λ _ _, Err (External KubeNoMatch "objectstore");
  kube_config_store := λ _ key,
    if decide (nn_Name key = "backups") then Ok sample_store
    else Err (External KubeNotFound "configstore");
  kube_restore_policy := λ _ _, Err (External KubeNotFound "restorepolicy");
  kube_backup := λ _ _, Ok sample_backup;
  kube_backups := λ _ _, Ok [sample_backup]
|}.

#[export] Instance sample_controller : KubeController unit := {|
  kube_clusters := λ _ _, Ok [sample_cluster];
  patch_config_store := λ _ _ k, (k, Ok ());
  patch_restore_policy := λ _ _ k, (k, Ok ())
|}.

#[export] Instance sample_unstructured : Unstructured := {|
  NestedMap := λ obj path,
    match GetSegments obj path with
    | None => Ok None
    | Some (AMap m) => Ok (Some m)
    | Some _ => Err (External OtherKind "not a map")
    end;
  NestedString := λ obj path,
    match GetSegments obj path with
    | None => Ok None
    | Some (AString s) => Ok (Some s)
    | Some _ => Err (External OtherKind "not a string")
    end
|}.

(** [meta.SetStatusCondition]. *)
Fixpoint set_condition (now : Z) (conds : list Condition) (c : Condition) : list Condition :=
  match conds with
  | [] => [stamped now c]
  | old :: rest =>
      if decide (cond_Type old = cond_Type c)
      then stamped (if decide (cond_Status old = cond_Status c) then cond_LastTransitionTime old else now) c :: rest
      else old :: set_condition now rest c
  end.

#[export] Instance sample_meta : MetaLib := {| SetStatusCondition := set_condition |}.
#[export] Instance sample_meta_spec : MetaSpec.
Proof.
  split.
  - intros now pre old post c Hpre Ho. induction Hpre as [|x pre Hx _ [t IH]]; simpl.
    + rewrite decide_True by done. by eexists.
    + rewrite decide_False by done. exists t. simpl in IH. by rewrite IH.
  - intros now conds c HF. exists now. simpl. induction HF as [|x conds Hx _ IH]; simpl; [done|].
    by rewrite decide_False, IH.
Qed.

(** ** An S3 service: one bucket in memory, created on demand *)

Definition no_such_bucket : s3error :=
  {| e_types := [NoSuchBucket]; e_api := Some ("NoSuchBucket", "The specified bucket does not exist");
     e_status := Some 404%Z; e_text := "NoSuchBucket" |}.
Definition no_such_key : s3error :=
  {| e_types := [NoSuchKey]; e_api := Some ("NoSuchKey", "The specified key does not exist.");
     e_status := Some 404%Z; e_text := "NoSuchKey" |}.

Definition bucket_state : Type := option (gmap string string).

(** Two pages: the keys in an order that is not lexical. *)
Definition memory_pages (objs : gmap string string) (prefix : string)
    : list (s3result (list (option string))) :=
  match reverse (keys_under objs prefix) with
  | [] => [S3Ok []]
  | key :: rest => [S3Ok [Some key; None]; S3Ok (Some <$> rest)]
  end.

#[export] Instance memory_s3 : S3Sdk bucket_state := {|
  GetObject := λ _ key w,
    (w, match w with
        | None => S3Err no_such_bucket
        | Some objs =>
            match objs !! key with
            | Some data => S3Ok {| body_data := data; body_error := None |}
            | None => S3Err no_such_key
            end
        end);
  PutObject := λ _ key data w,
    match w with
    | None => (w, S3Err no_such_bucket)
    | Some objs => (Some (<[key := data]> objs), S3Ok ())
    end;
  CreateBucket := λ _ w, (Some (default ∅ w), S3Ok ());
  DeleteObject := λ _ key w, (delete key <$> w, S3Ok ());
  ListPages := λ _ prefix w,
    match w with None => [S3Err no_such_bucket] | Some objs => memory_pages objs prefix end;
  ListOne := λ _ _ w, match w with None => S3Err no_such_bucket | Some _ => S3Ok () end;
  valid_pem := λ _, true;
  LoadDefaultConfig := λ _, Ok ()
|}.

Lemma memory_pages_hold objs prefix :
  ∃ pages, memory_pages objs prefix = S3Ok <$> pages ∧ omap id (concat pages) ≡ₚ keys_under objs prefix.
Proof.
  unfold memory_pages. pose proof (reverse_Permutation (keys_under objs prefix)) as Hr.
  destruct (reverse (keys_under objs prefix)) as [|key rest].
  - exists [[]]. by split.
  - exists [[Some key; None]; Some <$> rest]. split; [done|]. csimpl. rewrite app_nil_r.
    assert (omap id (Some <$> rest) = rest) as -> by (clear; induction rest; csimpl; congruence).
    exact Hr.
Qed.

#[export] Instance memory_s3_service (b : S3Config) : S3Service bucket_state b id.
Proof.
  split; unfold id; simpl.
  - intros w key w' r [= <- <-]. split; [done|].
    destruct w as [objs|]; simpl; [by destruct (objs !! key)|by rewrite lookup_empty].
  - intros w key data w' r. destruct w; intros [= <- <-]; [done|]. split; [by left|done].
  - by intros w w' r [= <- <-].
  - intros w prefix pages. destruct w as [objs|]; [|by destruct pages].
    destruct (memory_pages_hold objs prefix) as (pages' & -> & Hp). by intros ->%(inj (fmap S3Ok)).
  - intros w key w' r [= <- <-]. destruct w; simpl; [done|]. by rewrite delete_empty.
Qed.

Lemma memory_s3_available (b : S3Config) : S3Available b id.
Proof.
  split; unfold id; simpl.
  - intros [objs|] key; simpl.
    + destruct (objs !! key); [done|]. exists no_such_key. split; [done|]. by right; right.
    + rewrite lookup_empty. exists no_such_bucket. split; [done|]. by right; right.
  - intros w key data [objs ->]. done.
  - intros w key data ->. exists no_such_bucket. split; [done|]. left. by left.
  - intros w. split; [by eexists|done].
  - intros w prefix [objs ->]. destruct (memory_pages_hold objs prefix) as (pages & -> & _). by exists pages.
  - done.
Qed.

(** ** The plugin as it is deployed: the resolver over that service *)

Definition sample_s3 : S3Config :=
  {| sc_Bucket := "bucket"; sc_Region := "us-east-1"; sc_Credentials := None; sc_CABundle := None;
     sc_Endpoint := None; sc_UsePathStyle := false |}.
Definition sample_resolver : ResolverState unit :=
  {| rx_api := (); rx_clock := 0; rx_reader := NewObjectStoreReader 0 |}.
#[export] Instance sample_provider : Provider (ResolverState unit) S3Config :=
  resolver_provider (S := bucket_state).

Abbreviation sample_backend := (s3Backend (W := bucket_state)).
Abbreviation sample_objects := (λ _ : S3Config, s3_objects (W := bucket_state) id).

Definition sample_resolved : Resolved :=
  {| rv_Configuration := {| DestinationPath := "s3://bucket/base"; EndpointURL := ""; EndpointCA := None;
                            s3Credentials := Some sample_credentials |};
     rv_Destination := {| Scheme := "s3"; Bucket := "bucket"; Path := "base" |};
     rv_Source := "Inline"; rv_Provider := "s3"; rv_InheritedRetention := "" |}.

Definition sample_layout : Layout := {| BasePath := "base"; ServerName := "prod"; ly_Prefix := "chronicle" |}.

Definition sample_clock : Z := 1767225600500000000.
Definition sample_version : string := "1.0.0".
Abbreviation sample_options :=
  {| eo_Groups := GetCaptureGroups sample_store; eo_PluginVersion := sample_version; eo_Now := None |}.
Abbreviation sample_capture := (Extract sample_clock (Some sample_cluster) sample_options).

(** ** Outcomes, as booleans to evaluate *)

Definition is_ok {A} (r : result A) : bool := match r with Ok _ => true | Err _ => false end.
Definition is_encodable (r : result Snapshot) : bool :=
  match r with
  | Ok snap => bool_decide (four_digit_year (sn_CapturedAt snap))
               && bool_decide (in_int64 (sn_Generation snap)) && doc_ok (doc_of_snapshot snap)
  | Err _ => false
  end.

Definition is_continue (r : result ReconcilerHooksResult) : bool :=
  match r with Ok resultContinue => true | _ => false end.

Definition patch_of (r : Response) : option (string * string) :=
  match r with PatchResponseFromRaw raw patched => Some (raw, patched) | _ => None end.
Definition has_patch (r : Response) : bool := bool_decide (is_Some (patch_of r)).

Definition absent_or_ok {A} (r : result A) : bool :=
  match r with Ok _ => true | Err e => errors_is ErrNotFound e end.

(** A program succeeds, and succeeds again where it left off. *)
Definition twice_ok {W A} (p : prog W A) (w : W) : bool :=
  let '(w, first) := p w in is_ok first && is_ok (p w).2.

Definition publishes (r : result SetStatusInClusterResponse) : bool :=
  match r with Ok (JSONStatusResponse _) => true | _ => false end.
Definition publishable (r : result Snapshot) : bool :=
  match r with
  | Ok snap =>
      match status_of (NewFromCluster sample_cluster) snap "key" with
      | Ok status => doc_ok (doc_of_status status)
      | Err _ => false
      end
  | Err _ => false
  end.

(** ** Worlds of the hooks and of admission *)

Definition sample_kind : string → result string := λ _, Ok "Cluster".
Definition sample_world : OpWorld (ResolverState unit) bucket_state :=
  {| ow_provider := sample_resolver; ow_objects := Some ∅; ow_settled := Some newSettledCache |}.

(** A pass of the reconciler over the sample cluster, and what it leaves. *)
Abbreviation sample_post := (Post sample_backend sample_kind sample_version sample_clock () "" "").
Abbreviation sample_written := (sample_post sample_world).1.

(** A Cluster that asks for the configuration of the sample cluster. *)
Definition sample_request_doc : doc :=
  DObj [("metadata", DObj [("name", DStr "copy"); ("namespace", DStr "db")]);
        ("spec", DObj [("instances", DNum "1");
                       ("plugins", DArr [DObj [("name", DStr PluginName);
                          ("parameters", DObj [(ParameterRestoreFromServer, DStr "prod");
                                               (ParameterRestoreFromStore, DStr "backups")])]])])].
Definition sample_request : Request :=
  {| rq_Raw := encode_doc sample_request_doc; rq_Namespace := "" |}.
Abbreviation sample_restore_world :=
  {| rw_provider := sample_resolver; rw_objects := ow_objects sample_written |}.
Abbreviation sample_handle := (Handle sample_backend WalkLeaves sample_clock ()).

(** What the handler decodes that Cluster and its parameters to. *)
Definition sample_restoring : object :=
  match any_of_doc sample_request_doc with AMap m => m | _ => ∅ end.
Definition sample_configuration : PluginConfiguration :=
  default (NewFromParameters ∅ "") (configuration_of sample_restoring).

(** The deployment before its bucket exists. *)
Definition bucketless_world : OpWorld (ResolverState unit) bucket_state :=
  {| ow_provider := sample_resolver; ow_objects := None; ow_settled := Some newSettledCache |}.

(** JSON can hold what the restore of a request makes of the cluster. *)
Definition restored_ok (request : Request) (w : RestoreWorld (ResolverState unit) bucket_state) : bool :=
  match FromJSON (rq_Raw request) with
  | Ok cluster =>
      match configuration_of cluster with
      | Some c =>
          match (restore sample_backend WalkLeaves sample_clock () (request_namespace request cluster)
                   c cluster w).2 with
          | Ok (_, cluster', _) => doc_ok (doc_of_object cluster')
          | Err _ => false
          end
      | None => false
      end
  | Err _ => false
  end.

(** ** A plan: one path skipped, one rewritten, one denied *)

Definition sample_tree : object :=
  {["spec" := AMap {[
      "instances" := ANum "3";
      "bootstrap" := AMap {["initdb" := AMap {["database" := AString "app"]}]};
      "postgresql" := AMap {["parameters" := AMap {["max_connections" := AString "100";
                                                    "work_mem" := AString "64MB"]}]}]}]}.
Definition sample_skip_rules : list SkipRule :=
  [{| sk_Group := ""; sk_Path := "spec.instances"; sk_KeyPrefix := ""; sk_Except := [] |}].
Definition sample_transform_rules : list TransformRule :=
  [{| tr_Path := "spec.postgresql.parameters.work_mem"; tr_OnMissing := ""; tr_Expression := "value" |}].
Definition sample_plan : result (SkipSet * TransformSet * Plan) :=
  skips ← NewSkipSet sample_skip_rules;
  transforms ← NewTransformSet sample_transform_rules;
  plan ← BuildPlan (WalkLeaves sample_tree) skips transforms;
  Ok (skips, transforms, plan).

Definition plan_changes (r : result (SkipSet * TransformSet * Plan)) : nat :=
  match r with Ok (_, _, plan) => length (Changes plan) | Err _ => 0 end.
Definition names_path (r : result TransformSet) (path : string) : bool :=
  match r with Ok transforms => bool_decide (path ∈ Paths_ transforms) | Err _ => false end.

(** The cluster the plan is applied to. *)
Definition sample_target : object :=
  {["spec" := AMap {["storage" := AMap {["size" := AString "1Gi"]}]}]}.
Definition applies (r : result (SkipSet * TransformSet * Plan)) (cluster : object) : bool :=
  match r with Ok (_, _, plan) => is_ok (Plan_Apply plan cluster).2 | Err _ => false end.

(** ** A history of three captures, a day apart *)

Definition sample_ref (days generation : Z) (content : string) : SnapshotRef :=
  let t := (sample_clock + days * day)%Z in
  {| Key := SnapshotKey sample_layout t generation (digest content);
     CapturedAt := (unix_seconds t * Second)%Z; SnapshotStore.Generation := generation |}.
Definition sample_refs : list SnapshotRef :=
  [sample_ref 1 2 "second"; sample_ref 0 1 "first"; sample_ref 2 3 "third"].
Definition sample_history : bucket_state :=
  Some (<["base/prod/chronicle/latest.json" := "pointer"]>
          (list_to_map ((λ r, (Key r, "snapshot")) <$> sample_refs))).

Definition with_retention (window : string) : ConfigStore :=
  {| cs_Name := cs_Name sample_store; cs_Namespace := cs_Namespace sample_store;
     cs_Generation := cs_Generation sample_store;
     cs_Spec := {| DerivedFrom := DerivedFrom (cs_Spec sample_store);
                   Configuration := Configuration (cs_Spec sample_store);
                   Retention := window; CaptureGroups := []; Prefix := "" |};
     cs_Status := cs_Status sample_store |}.

(** ** A recovery to an instant *)

Definition recovering_cluster : object :=
  {["spec" := AMap {["bootstrap" := AMap {["recovery" := AMap {["recoveryTarget" := AMap
      {["targetTime" := AString "2026-01-01T00:00:00Z"]}]}]}]}]}.
Definition targets_time (r : result TargetResolution) : bool :=
  match r with Ok target => bool_decide (tg_Kind target = TargetTime) | Err _ => false end.

Definition sample_ctrl_world : CtrlWorld unit (ResolverState unit) bucket_state :=
  {| cw_kube := (); cw_provider := sample_resolver; cw_objects := None |}.
Definition is_usable {B} (v : verdict B) : bool := match v with Usable _ => true | Unusable _ _ => false end.

(** ** An ObjectStore that was deleted: the API server is up or gone *)

Definition sample_object_store : object :=
  {["spec" := AMap {["configuration" := AMap {["destinationPath" := AString "s3://bucket/base"]};
                     "retentionPolicy" := AString "30d"]}]}.
#[export] Instance store_reader : KubeReader bool := {|
  kube_secret := λ _ _, Err (External KubeNotFound "secret");
  kube_object_store := λ (present : bool) _,
    if (present : bool) then Ok sample_object_store else Err (External KubeNotFound "objectstore");
  kube_config_store := λ _ _, Ok sample_store;
  kube_restore_policy := λ _ _, Err (External KubeNotFound "restorepolicy");
  kube_backup := λ _ _, Ok sample_backup;
  kube_backups := λ _ _, Ok [sample_backup]
|}.
Definition store_name : NamespacedName := {| nn_Namespace := "db"; nn_Name := "archive" |}.
Definition store_call : @call bool :=
  {| c_world := true; c_now := 0; c_stored := 0; c_key := store_name |}.

(** ** An apimachinery in memory: metadata with one map, conditions in place *)

Record sample_ObjectMeta (Ptr : Type → Type) := {
  so_Name : string;
  so_Namespace : string;
  so_Generation : Z;
  so_Labels : Ptr (gmap string string)
}.

#[export] Instance sample_types : MetaTypes := {|
  TypeMeta := string;
  ObjectMeta := sample_ObjectMeta Pointers;
  ListMeta := string;
  foreign := unit;
  foreign_val := λ _, gmap string string;
  zero_TypeMeta := "";
  zero_ObjectMeta := {| so_Name := ""; so_Namespace := ""; so_Generation := 0; so_Labels := None |};
  zero_ListMeta := "";
  zero_foreign := λ _, ∅
|}.

Definition sample_ObjectMeta_read : reader ObjectMeta (sample_ObjectMeta option) := λ h v,
  labels ← read_pointer (TForeign ()) read_flat h (so_Labels _ v);
  Some {| so_Name := so_Name _ v; so_Namespace := so_Namespace _ v; so_Generation := so_Generation _ v;
          so_Labels := labels |}.
Definition sample_ObjectMeta_DeepCopyInto (in_ : ObjectMeta) : go ObjectMeta :=
  labels ← copy_pointer (TForeign ()) mret (so_Labels _ in_);
  mret {| so_Name := so_Name _ in_; so_Namespace := so_Namespace _ in_; so_Generation := so_Generation _ in_;
          so_Labels := labels |}.
#[export] Instance sample_ObjectMeta_copies : Copies sample_ObjectMeta_read sample_ObjectMeta_DeepCopyInto.
Proof. deep_copy sample_ObjectMeta_read sample_ObjectMeta_DeepCopyInto. Qed.

#[export] Instance sample_machinery : MetaV1 := {|
  ObjectMeta_tree := sample_ObjectMeta option;
  ListMeta_tree := string;
  ObjectMeta_read := sample_ObjectMeta_read;
  ListMeta_read := read_flat;
  ObjectMeta_DeepCopyInto := sample_ObjectMeta_DeepCopyInto;
  ListMeta_DeepCopyInto := mret;
  Condition_DeepCopyInto := mret;
  Time_DeepCopy := copy_pointer TTime mret
|}.

(** [meta.SetStatusCondition]: in place when the type is there, and else the list
    moves to a new array. *)
Definition sample_set_condition_in (now : Z) (s : slice) (c : Condition) : go slice :=
  match sl_array s with
  | None =>
      l ← make TCondition 1;
      store_array TCondition l (set_condition now [] c);;
      mret {| sl_array := Some l; sl_off := 0; sl_len := 1 |}
  | Some a =>
      vs ← load_array TCondition a;
      let conditions := set_condition now (take (sl_len s) (drop (sl_off s) vs)) c in
      if decide (length conditions = sl_len s) then
        store_array TCondition a (take (sl_off s) vs ++ conditions ++ drop (sl_off s + sl_len s) vs);;
        mret s
      else
        l ← make TCondition (length conditions);
        store_array TCondition l conditions;;
        mret {| sl_array := Some l; sl_off := 0; sl_len := length conditions |}
  end.

Lemma read_flat_slice (t : ty) h l (vs : list (val t)) :
  array_at t h l = Some vs →
  read_slice t read_flat h {| sl_array := Some l; sl_off := 0; sl_len := length vs |} = Some (Some vs).
Proof. intros Hv. apply read_whole_slice; [done|]. by apply Forall_Forall2_diag, Forall_true. Qed.

Lemma sample_set_condition_in_spec t s c h conditions :
  read_slice TCondition read_flat h s = Some conditions →
  ∃ h' s', sample_set_condition_in t s c h = Some (h', s')
    ∧ read_slice TCondition read_flat h' s' = Some (Some (set_condition t (default [] conditions) c))
    ∧ ∀ l v, h !! l = Some v → sl_array s ≠ Some l → h' !! l = Some v.
Proof.
  intros [[-> ->]|(a & vs & ts & Hs & Ha & Hle & Hts & ->)]%read_slice_Some; unfold sample_set_condition_in.
  - destruct (make_fill TCondition 1 (set_condition t [] c) h) as (l & Hl & Hrun). cbn [sl_array nil_slice].
    rewrite Hrun. eexists _, _. split; [done|]. split; [exact (read_flat_slice TCondition _ l [stamped t c] (array_at_insert TCondition h l _))|].
    intros l' v Hv _. rewrite lookup_insert_ne; [done|congruence].
  - apply read_flat_Forall2 in Hts as ->. rewrite Hs. simpl default.
    unfold mbind at 1, go_bind at 1, load_array. rewrite Ha. cbn [fmap option_fmap option_map]. cbv zeta.
    set (xs := take _ _). set (ys := set_condition t xs c).
    destruct (decide (length ys = sl_len s)) as [Hlen|Hlen].
    + change (sl_off s + sl_len s ≤ @length Condition vs)%nat in Hle.
      unfold mbind, go_bind. erewrite store_array_spec by done. eexists _, _. split; [done|]. split.
      * unfold read_slice. rewrite Hs. rewrite array_at_insert. simpl.
        rewrite decide_True by (rewrite !length_app, length_take, length_drop; lia).
        rewrite drop_app_length' by (rewrite length_take; lia). rewrite take_app_length' by exact (eq_sym Hlen).
        erewrite (proj2 (mapM_Some _ _ _)); [done|]. by apply Forall_Forall2_diag, Forall_true.
      * intros l' v Hv Hne. rewrite lookup_insert_ne; [done|]. congruence.
    + destruct (make_fill TCondition (length ys) ys h) as (l & Hl & Hrun). rewrite Hrun.
      eexists _, _. split; [done|]. split; [exact (read_flat_slice TCondition _ l ys (array_at_insert TCondition h l _))|].
      intros l' v Hv _. rewrite lookup_insert_ne; [done|congruence].
Qed.

#[export] Instance sample_memory : MetaMemory := {|
  om_Name := so_Name option;
  om_Namespace := so_Namespace option;
  om_Generation := so_Generation option;
  SetStatusCondition_in := sample_set_condition_in;
  SetStatusCondition_in_spec := sample_set_condition_in_spec
|}.

(** A store in memory whose report still shares the spec's list of groups. *)
Definition sample_groups : slice := {| sl_array := Some 2%positive; sl_off := 0; sl_len := 1 |}.
Definition sample_store_value : val TConfigStore := {|
  g_cs_TypeMeta := ("ConfigStore" : TypeMeta);
  g_cs_ObjectMeta := ({| so_Name := "backups"; so_Namespace := "db"; so_Generation := 1;
                         so_Labels := Some 5%positive |} : ObjectMeta);
  g_cs_Spec := {| g_DerivedFrom := Some 6%positive; g_Configuration := None; g_Retention := "30d";
                  g_CaptureGroups := sample_groups; g_Prefix := "" |};
  g_cs_Status := {| g_Resolved := Some 4%positive;
                    g_Conditions := {| sl_array := Some 3%positive; sl_off := 0; sl_len := 1 |} |} |}.
Definition sample_condition : Condition := condition ConditionReady ConditionTrue ReasonResolved "resolved".
Definition sample_heap : heap := list_to_map [
  (1%positive, array TConfigStore [sample_store_value]);
  (2%positive, array TString ["Parameters"]);
  (3%positive, array TCondition [sample_condition]);
  (4%positive, array TResolvedStore [{| g_rs_DestinationPath := "s3://bucket/base"; g_rs_EndpointURL := "";
     g_rs_Provider := "s3"; g_rs_Retention := "30d"; g_rs_CaptureGroups := sample_groups;
     g_rs_Source := "ObjectStore/archive"; g_rs_ObservedAt := Some 7%positive |}]);
  (5%positive, array (TForeign ()) [{["team" := "core"]}]);
  (6%positive, array TBarmanObjectStoreRef ["archive"]);
  (7%positive, array TTime [0%Z])].
Definition sample_store_tree : g_ConfigStore option Lists TypeMeta ObjectMeta_tree := {|
  g_cs_TypeMeta := ("ConfigStore" : TypeMeta);
  g_cs_ObjectMeta := ({| so_Name := "backups"; so_Namespace := "db"; so_Generation := 1;
                         so_Labels := Some {["team" := "core"]} |} : ObjectMeta_tree);
  g_cs_Spec := {| g_DerivedFrom := Some "archive"; g_Configuration := None; g_Retention := "30d";
                  g_CaptureGroups := Some ["Parameters"]; g_Prefix := "" |};
  g_cs_Status := {| g_Resolved := Some {| g_rs_DestinationPath := "s3://bucket/base"; g_rs_EndpointURL := "";
                      g_rs_Provider := "s3"; g_rs_Retention := "30d"; g_rs_CaptureGroups := Some ["Parameters"];
                      g_rs_Source := "ObjectStore/archive"; g_rs_ObservedAt := Some 0%Z |};
                    g_Conditions := Some [sample_condition] |} |}.

Example sample_reconcile_status :
  (snd <$> reconcile_status 10 20 1%positive
             (Unusable (B := unit) ReasonConfigurationInvalid (Sentinel ErrNotFound)) sample_heap)
  = Some (Some 8%positive, false).
Proof. by vm_compute. Qed.

(** ** A process that starts, and the servers it starts *)

Definition sample_viper : Viper := {|
  GetString := λ name, if decide (name = "server-address") then ":9090" else "";
  GetInt := λ _, 9443%Z;
  GetBool := λ _, false
|}.
Definition new_process : process := {| calls := []; resolvers := []; caches := [] |}.
(** Every call succeeds, or the readiness check is refused. *)
Definition all_granted : list ManagerCall → ManagerCall → result unit := λ _ _, Ok ().
Definition no_readiness : list ManagerCall → ManagerCall → result unit := λ _ c,
  match c with AddReadyzCheck _ _ => Err (External OtherKind "closed") | _ => Ok () end.

(** A pod of the plugin that has just started over a store that is not new. *)
Definition sample_serving : Serving (ResolverState unit) bucket_state :=
  {| sv_provider := sample_resolver; sv_objects := ow_objects sample_written; sv_caches := [newSettledCache] |}.

(** The sample cluster's newest snapshot is the one on its status, and holds what a
    new capture would. *)
Definition same_again (captured : result Snapshot) (latest : bucket_state * result (Snapshot * string)) : bool :=
  match captured, latest with
  | Ok snap, (_, Ok (held, key)) =>
      bool_decide (key = st_SnapshotKey sample_status) && bool_decide (sn_Checksum held = sn_Checksum snap)
      && bool_decide (sn_CaptureRules held = sn_CaptureRules snap)
  | _, _ => false
  end.

(** ** A policy under the eyes of its controller *)

Definition policy_name : NamespacedName := {| nn_Namespace := "db"; nn_Name := "copy" |}.
Definition no_rules : RestorePolicySpec :=
  {| Select := {| Mode := ""; Api.Generation := None; Timestamp := None; OnUnresolvable := "" |};
     Skip := []; Transform := [] |}.
(** A rule on a path that a Cluster does not have. *)
Definition broken_rules : RestorePolicySpec :=
  {| Select := Select no_rules;
     Skip := [{| sk_Group := ""; sk_Path := "spec.nowhere"; sk_KeyPrefix := ""; sk_Except := [] |}];
     Transform := [] |}.
Definition sample_policy : RestorePolicy :=
  {| rp_Name := "copy"; rp_Namespace := "db"; rp_Generation := 1; rp_Spec := no_rules;
     rp_Status := {| rps_Conditions := [] |} |}.
Definition watched_sample : watched unit :=
  {| wt_rest := (); wt_cached := Some sample_policy; wt_undelivered := [] |}.
#[export] Instance sample_watched_reader : KubeReader (watched unit) := watched_reader policy_name.
#[export] Instance sample_watched_controller : KubeController (watched unit) := watched_controller policy_name.
#[export] Instance sample_watch : PolicyWatch (watched unit) policy_name := watched_policy policy_name.

(** The policy once its verdict is on it. *)
Definition sample_condition_set : list Condition := set_condition 5 [] (policy_condition sample_policy).
Definition reported_policy : RestorePolicy := with_policy_conditions sample_policy sample_condition_set.
