(* ===== verification/Witnesses.v ===== *)
(** * The theorems at work on the sample deployment

    One closed instance per theorem: each applies the theorem to concrete data
    on which its hypotheses hold, checked by evaluation. *)

From S2P Require Import Prelude GoStrings GoTime GoJson GoFloat GoDecode Sha256 Pathutil Cnpg Groups Denylist.
From S2P Require Import Pathcheck Snapshot Api Layout Kube Backend JsonText SnapshotStore History Retention.
From S2P Require Import RecoveryTarget Select S3 Resolver PgMem Celenv Skip Transform Plan CaptureRestore.
From S2P Require Import Memory DeepCopy StatusMemory.
From S2P Require Import Config Operator Webhook Recovery Controller Integrity Wiring Watch System Production Deployment.

#[local] Open Scope stdpp_scope.

(** ** The outcomes of the sample runs *)

Lemma is_ok_spec {A} (r : result A) : is_ok r = true → ∃ a, r = Ok a.
Proof. destruct r as [a|]; [by exists a|done]. Qed.

Lemma captured_encodable clock options :
  is_encodable (Extract clock (Some sample_cluster) options) = true →
  ∃ snap, Extract clock (Some sample_cluster) options = Ok snap ∧ encodable snap ∧ verified snap.
Proof.
  destruct (Extract clock (Some sample_cluster) options) as [snap|] eqn:Hs; [|done].
  intros [[H1 H2]%andb_true_iff H3]%andb_true_iff. apply bool_decide_eq_true in H1, H2.
  exists snap. split; [done|]. split; [by split|by eapply Extract_verified].
Qed.

Lemma sample_captured : ∃ snap, sample_capture = Ok snap ∧ encodable snap ∧ verified snap.
Proof. apply captured_encodable. by vm_compute. Qed.

(** The first pass of the reconciler writes the snapshot. *)
Lemma sample_post_ok : ∃ w, sample_post sample_world = (w, Ok resultContinue) ∧ w = sample_written.
Proof.
  assert (is_continue (sample_post sample_world).2 = true) as Hc by by vm_compute.
  destruct (sample_post sample_world) as [w r]. exists w. split; [|done].
  by destruct r as [[]|].
Qed.

Lemma sample_goes_to_store : ∃ fp,
  goes_to_store sample_kind () "" "" sample_world sample_cluster sample_store fp sample_resolver sample_s3
    sample_layout.
Proof.
  destruct (is_ok_spec (liveFingerprint sample_cluster (GetCaptureGroups sample_store))) as [fp Hfp];
    [by vm_compute|].
  exists fp. split; first [exact Hfp|vm_compute; reflexivity].
Qed.

(** ** Capture and restore *)


Lemma sample_extract_encodable snap : sample_capture = Ok snap → encodable snap.
Proof.
  intros Hs. destruct sample_captured as (snap' & Hs' & He & _).
  assert (Ok snap = Ok snap') as [= ->] by exact (eq_trans (eq_sym Hs) Hs'). exact He.
Qed.

Lemma Post_captures_witness : ∃ w key raw held snap,
  sample_post sample_world = (w, Ok resultContinue)
  ∧ s3_objects id (ow_objects w) !! key = Some raw ∧ decodeSnapshot raw key = Ok held
  ∧ sample_capture = Ok snap ∧ sn_CaptureRules held = sn_CaptureRules snap
  ∧ (sn_Content held = sn_Content snap ∨ contents_collide (sn_Content held) (sn_Content snap)).
Proof.
  destruct sample_post_ok as (w & Hw & _), sample_goes_to_store as [fp Hgs].
  destruct (Post_captures sample_backend sample_kind sample_version sample_objects sample_clock
              () "" "" sample_world w sample_cluster sample_store fp sample_resolver
    sample_s3 sample_layout Hgs sample_extract_encodable Hw)
    as (snap & Hs & (key & raw & held & Hk & Hd & Hr & Hc) & _).
  exists w, key, raw, held, snap. exact (conj Hw (conj Hk (conj Hd (conj Hs (conj Hr Hc))))).
Defined.

Lemma Post_settles_witness : ∃ w,
  sample_post sample_world = (w, Ok resultContinue)
  ∧ Post sample_backend sample_kind sample_version (sample_clock + 1) () "" "" w = (w, Ok resultContinue).
Proof.
  destruct sample_post_ok as (w & Hw & _). exists w. split; [exact Hw|].
  exact (Post_settles sample_backend sample_kind sample_version sample_clock _ () "" "" sample_world w
    newSettledCache eq_refl Hw).
Defined.

(** ** Admission *)

Lemma sample_handled : ∃ w raw patched,
  sample_handle sample_request sample_restore_world = (w, PatchResponseFromRaw raw patched).
Proof.
  assert (has_patch (sample_handle sample_request sample_restore_world).2 = true) as Hp by by vm_compute.
  destruct (sample_handle sample_request sample_restore_world) as [w r]. unfold has_patch in Hp.
  apply bool_decide_eq_true in Hp as [p Hp].
  destruct r as [| | |raw patched]; try discriminate Hp. exists w, raw, patched. reflexivity.
Qed.

Lemma Handle_preserves_identity_witness : ∃ w raw patched cluster cluster',
  sample_handle sample_request sample_restore_world = (w, PatchResponseFromRaw raw patched)
  ∧ FromJSON raw = Ok cluster ∧ patched = encode_doc (doc_of_object cluster')
  ∧ Pathutil.Get cluster' "metadata.name" = Pathutil.Get cluster "metadata.name"
  ∧ is_Some (GetSegments cluster' annotation_segments).
Proof.
  destruct sample_handled as (w & raw & patched & Hh).
  destruct (Handle_preserves_identity sample_backend WalkLeaves (λ tree, Permutation_refl _) _ _ _ _ _ _ _ Hh)
    as (cluster & cluster' & record & Hj & Hp & Hd & _ & encoded & _ & Ha).
  exists w, raw, patched, cluster, cluster'.
  refine (conj Hh (conj Hj (conj Hp (conj (Hd _ _) _)))); [by apply (bool_decide_unpack _)|].
  exists (AString encoded). exact Ha.
Defined.

Lemma Handle_reinvoked_witness : ∃ w raw patched,
  sample_handle sample_request sample_restore_world = (w, PatchResponseFromRaw raw patched)
  ∧ sample_handle {| rq_Raw := patched; rq_Namespace := "db" |} sample_restore_world
    = (sample_restore_world, Allowed "already restored").
Proof.
  destruct sample_handled as (w & raw & patched & Hh). exists w, raw, patched. refine (conj Hh _).
  destruct (Handle_reinvoked sample_backend WalkLeaves (λ tree, Permutation_refl _) _ _ _ _ _ _ _ Hh)
    as (cluster & c & record & cluster' & Hj & Hc & Hr & Hagain). apply Hagain.
  assert (restored_ok sample_request sample_restore_world = true) as Hok by by vm_compute.
  unfold restored_ok in Hok. rewrite Hj, Hc, Hr in Hok. exact Hok.
Defined.

Lemma Handle_checked_witness : ∃ w raw patched cluster c,
  sample_handle sample_request sample_restore_world = (w, PatchResponseFromRaw raw patched)
  ∧ FromJSON (rq_Raw sample_request) = Ok cluster ∧ configuration_of cluster = Some c
  ∧ RestoreFromServer c ≠ "".
Proof.
  destruct sample_handled as (w & raw & patched & Hh).
  destruct (Handle_checked sample_backend WalkLeaves (λ tree, Permutation_refl _) _ _ _ _ _ _ _ Hh)
    as (cluster & c & Hj & Hc & _ & Hs & _).
  exists w, raw, patched, cluster, c. exact (conj Hh (conj Hj (conj Hc Hs))).
Defined.

(** ** The history *)

(** The in-memory backend fails a read only for a missing object. *)
Lemma storetest_get key w w' e : storetest.Get key w = (w', Err e) → errors_is ErrNotFound e = true.
Proof. unfold storetest.Get. cbn. by destruct (_ !! key); intros [= _ <-]. Qed.

Lemma snapshot_roundtrip_witness : ∃ snap raw,
  sample_capture = Ok snap ∧ encode_snapshot snap = Ok raw ∧ decodeSnapshot raw "any key" = Ok snap.
Proof.
  destruct sample_captured as (snap & Hs & He & Hv).
  destruct (snapshot_roundtrip snap "any key" He Hv) as (raw & Hr & Hd).
  exists snap, raw. exact (conj Hs (conj Hr Hd)).
Defined.

Lemma sample_write_ok : ∃ snap w key,
  sample_capture = Ok snap ∧ encodable snap ∧ verified snap
  ∧ Write sample_layout snap storetest.NewBackend = (w, Ok key).
Proof.
  destruct sample_captured as (snap & Hs & He & Hv).
  eexists snap, _, _. do 3 (split; [first [exact Hs|exact He|exact Hv]|]).
  unfold Write, mbind, prog_bind, lift. rewrite (encode_encodable _ He). reflexivity.
Qed.

Lemma Write_then_read_witness : ∃ snap w key,
  Write sample_layout snap storetest.NewBackend = (w, Ok key) ∧ key = key_of sample_layout snap
  ∧ (Latest sample_layout w).2 = Ok (snap, key) ∧ (Read sample_layout key w).2 = Ok snap.
Proof.
  destruct sample_write_ok as (snap & w & key & _ & He & Hv & Hw).
  destruct (Write_then_read storetest.Objects sample_layout snap storetest.NewBackend w key He Hv Hw)
    as (Hk & Hl & Hr & _).
  exists snap, w, key. refine (conj Hw (conj Hk (conj _ _))).
  - destruct (Latest sample_layout w) as [w2 r]. destruct (Hl w2 r eq_refl) as [->|(e & Hg & Hn & _)]; [done|].
    exfalso. apply storetest_get in Hg. by rewrite Hg in Hn.
  - destruct (Read sample_layout key w) as [w2 r]. destruct (Hr w2 r eq_refl) as [->|(e & Hg & Hn & _)]; [done|].
    exfalso. apply storetest_get in Hg. by rewrite Hg in Hn.
Defined.

Lemma Write_pointer_backed_witness : ∃ snap w key,
  Write sample_layout snap storetest.NewBackend = (w, Ok key)
  ∧ pointer_backed sample_layout (storetest.Objects w).
Proof.
  destruct sample_write_ok as (snap & w & key & _ & He & Hv & Hw).
  exists snap, w, key. refine (conj Hw (Write_pointer_backed storetest.Objects _ _ _ _ _ He Hv Hw _)).
  intros raw s Hl. cbn in Hl. by rewrite lookup_empty in Hl.
Defined.

Lemma Latest_stable_witness : ∃ w1 w2 snap key,
  @Latest _ (sample_backend sample_s3) sample_layout (ow_objects sample_written) = (w1, Ok (snap, key))
  ∧ @Latest _ (sample_backend sample_s3) sample_layout w1 = (w2, Ok (snap, key)) ∧ verified snap.
Proof.
  assert (twice_ok (@Latest _ (sample_backend sample_s3) sample_layout) (ow_objects sample_written) = true) as Ht by by vm_compute.
  unfold twice_ok in Ht.
  destruct (@Latest _ (sample_backend sample_s3) sample_layout (ow_objects sample_written)) as [w1 [[snap key]|]] eqn:H1; [|discriminate Ht].
  destruct (@Latest _ (sample_backend sample_s3) sample_layout w1) as [w2 [[snap2 key2]|]] eqn:H2; [|discriminate Ht].
  destruct (Latest_stable (s3_objects id) _ _ _ _ _ _ _ _ H1 H2) as (-> & -> & _ & Hv & _).
  exists w1, w2, snap, key. exact (conj eq_refl (conj H2 Hv)).
Defined.

(** ** Plans *)

Lemma sample_planned : ∃ skips transforms plan c rest,
  NewSkipSet sample_skip_rules = Ok skips ∧ NewTransformSet sample_transform_rules = Ok transforms
  ∧ BuildPlan (WalkLeaves sample_tree) skips transforms = Ok plan ∧ Changes plan = c :: rest.
Proof.
  assert (plan_changes sample_plan = 2) as Hp by by vm_compute. unfold plan_changes, sample_plan in Hp.
  destruct (NewSkipSet sample_skip_rules) as [skips|] eqn:Hs; [|discriminate Hp].
  destruct (NewTransformSet sample_transform_rules) as [transforms|] eqn:Ht; [|discriminate Hp].
  rewrite !ok_bind in Hp.
  destruct (BuildPlan (WalkLeaves sample_tree) skips transforms) as [plan|] eqn:Hb; [|discriminate Hp].
  rewrite ok_bind in Hp. destruct (Changes plan) as [|c rest] eqn:Hc; [discriminate Hp|].
  exists skips, transforms, plan, c, rest. exact (conj eq_refl (conj eq_refl (conj Hb Hc))).
Qed.

Lemma BuildPlan_safe_witness : ∃ skips transforms plan c,
  BuildPlan (WalkLeaves sample_tree) skips transforms = Ok plan ∧ c ∈ Changes plan
  ∧ IsDeniedPath (ch_Path c) = false ∧ Skips skips (ch_Path c) = None.
Proof.
  destruct sample_planned as (skips & transforms & plan & c & rest & _ & _ & Hb & Hc).
  assert (c ∈ Changes plan) as Hin by (rewrite Hc; left).
  destruct (BuildPlan_safe _ _ _ _ _ Hb Hin) as (Hd & _ & Hs & _).
  exists skips, transforms, plan, c. exact (conj Hb (conj Hin (conj Hd Hs))).
Defined.


Lemma restore_deterministic_witness : ∃ skips transforms plan1 plan2,
  BuildPlan (WalkLeaves sample_tree) skips transforms = Ok plan1
  ∧ BuildPlan (reverse (WalkLeaves sample_tree)) skips transforms = Ok plan2
  ∧ Changes plan1 ≡ₚ Changes plan2.
Proof.
  destruct sample_planned as (skips & transforms & plan & _ & _ & _ & _ & Hb & _).
  destruct (restore_deterministic sample_tree _ (reverse (WalkLeaves sample_tree)) _ _ _ ∅
              (Permutation_refl _) (reverse_Permutation _) Hb) as (plan2 & Hb2 & Hc & _).
  exists skips, transforms, plan, plan2. exact (conj Hb (conj Hb2 Hc)).
Defined.


(** A rule that may be missing is let off although the snapshot holds a value at
    its path, which is denied. *)
Definition denied_annotation : string := "kubectl.kubernetes.io/last-applied-configuration".
Definition denied_rules : list TransformRule :=
  [{| tr_Path := "metadata.annotations." +:+ denied_annotation; tr_OnMissing := MissingIgnore; tr_Expression := "value" |}].
Definition annotated_tree : object :=
  {["metadata" := AMap {["annotations" := AMap {[denied_annotation := AString "{}"; "team" := AString "core"]}]}]}.
Example ignore_covers_denied :
  ('(skips, transforms) ← CompileRules [] denied_rules;
   plan ← BuildPlan (WalkLeaves annotated_tree) skips transforms;
   Ok (ch_Path <$> Changes plan, ex_Path <$> Exclusions plan))
  = Ok (["metadata.annotations.team"], ["metadata.annotations." +:+ denied_annotation]).
Proof. by vm_compute. Qed.

Lemma Plan_Apply_additive_witness : ∃ skips transforms plan cluster,
  BuildPlan (WalkLeaves sample_tree) skips transforms = Ok plan
  ∧ Plan_Apply plan sample_target = (cluster, Ok ())
  ∧ (∀ c, c ∈ Changes plan → GetSegments cluster (ch_segments c) = Some (ch_value c)).
Proof.
  assert (applies sample_plan sample_target = true) as Ha by by vm_compute. unfold applies, sample_plan in Ha.
  destruct (NewSkipSet sample_skip_rules) as [skips|]; [|discriminate Ha].
  destruct (NewTransformSet sample_transform_rules) as [transforms|]; [|discriminate Ha].
  rewrite !ok_bind in Ha.
  destruct (BuildPlan (WalkLeaves sample_tree) skips transforms) as [plan|] eqn:Hb; [|discriminate Ha].
  rewrite ok_bind in Ha.
  destruct (Plan_Apply plan sample_target) as [cluster [[]|]] eqn:Hp; [|discriminate Ha].
  destruct (Plan_Apply_additive sample_tree _ _ _ _ _ _ (Permutation_refl _) Hb Hp) as [Hset _].
  exists skips, transforms, plan, cluster. exact (conj Hb (conj Hp Hset)).
Defined.

(** ** Captures *)

(** The library of a managed extension is dropped, the other is kept. *)
Definition preloaded (r : result Snapshot) : option any :=
  match r with Ok snap => GetSegments (Spec (sn_Content snap)) libraries_segments | Err _ => None end.

Lemma Extract_spec_witness : ∃ snap source kept,
  sample_capture = Ok snap ∧ ToMap (MarshalCluster sample_cluster) = Ok source
  ∧ GetSegments (Spec (sn_Content snap)) ["instances"]
    = GetSegments (selected_spec source (eo_groups sample_options)) ["instances"]
  ∧ without_owned [AString "pgaudit"; AString "timescaledb"] kept
  ∧ preloaded sample_capture = (if decide (kept = []) then None else Some (AList kept))
  ∧ preloaded sample_capture = Some (AList [AString "timescaledb"]).
Proof.
  destruct sample_captured as (snap & Hs & _).
  destruct (Extract_spec _ _ _ _ Hs) as (source & Hsrc & Hother & _ & Hlibs).
  assert (ToMap (MarshalCluster sample_cluster) ≫= (λ m, Ok (GetSegments (selected_spec m (eo_groups sample_options)) libraries_segments))
          = Ok (Some (AList [AString "pgaudit"; AString "timescaledb"]))) as Hl by by vm_compute.
  rewrite Hsrc, ok_bind in Hl. injection Hl as Hl.
  destruct (Hlibs _ Hl) as (kept & Hw & Hk).
  exists snap, source, kept. refine (conj Hs (conj Hsrc (conj (Hother _ _ _) (conj Hw (conj _ _))))).
  - apply unrelated_cons; by left.
  - apply unrelated_cons; by left.
  - unfold preloaded. rewrite Hs. exact Hk.
  - by vm_compute.
Defined.

Lemma Extract_outcome_witness : ∃ source,
  ToMap (MarshalCluster sample_cluster) = Ok source
  ∧ Extract sample_clock (Some sample_cluster)
      {| eo_Groups := ["Nonsense"]; eo_PluginVersion := sample_version; eo_Now := None |}
    = Err (Errorf "unknown capture group %q (known: %v)" [AStr "Nonsense"; AStrs GroupNames]).
Proof.
  destruct (is_ok_spec (ToMap (MarshalCluster sample_cluster))) as [source Hs]; [by vm_compute|].
  exists source. refine (conj Hs _).
  destruct (Extract_outcome sample_clock sample_cluster
    {| eo_Groups := ["Nonsense"]; eo_PluginVersion := sample_version; eo_Now := None |} source Hs) as [_ Hu].
  destruct Hu as (name & Hin & _ & He).
  - change (¬ Forall (λ name, is_Some (LookupGroup name)) ["Nonsense"]).
    intros [[g Hg] _]%Forall_cons. by vm_compute in Hg.
  - apply list_elem_of_singleton in Hin as ->. exact He.
Defined.

(** ** Hooks *)

Lemma Pre_guard_witness :
  Pre sample_kind "" "" = Ok resultContinue
  ∧ Pre sample_kind "" "copy" ≠ Ok resultContinue.
Proof.
  split.
  - apply (Pre_guard sample_kind "" "" sample_cluster); [done|done|]. by vm_compute; intros (_ & _ & Hn & _).
  - intros Hp. apply (Pre_guard sample_kind "" "copy" unrestored_cluster) in Hp; [|done|done].
    apply Hp. by vm_compute.
Defined.

Lemma Post_frame_witness : ∃ w,
  sample_post sample_world = (w, Ok resultContinue)
  ∧ s3_objects id (ow_objects w) !! "another/key" = s3_objects id (ow_objects sample_world) !! "another/key".
Proof.
  destruct sample_post_ok as (w & Hw & _), sample_goes_to_store as [fp Hgs]. exists w. refine (conj Hw _).
  apply (Post_frame sample_backend sample_kind sample_version sample_objects sample_clock () "" ""
    sample_world w _ sample_cluster sample_store fp sample_resolver
    sample_s3 sample_layout Hgs Hw); [by vm_compute|].
  intros snap _ Hk. apply (f_equal (λ s, HasPrefix s "base/")) in Hk. by vm_compute in Hk.
Defined.


Lemma sample_generation : in_int64 (cl_Generation sample_cluster).
Proof. by vm_compute. Qed.

Lemma published_watermark_is_current_witness : ∃ snap status fp,
  sample_capture = Ok snap
  ∧ status_of (NewFromCluster sample_cluster) snap "key" = Ok status
  ∧ watermark_current (with_status sample_cluster (encode_doc (doc_of_status status)) []) fp = true.
Proof.
  assert (publishable sample_capture = true) as Hp by by vm_compute.
  destruct sample_captured as (snap & Hs & _). rewrite Hs in Hp. unfold publishable in Hp.
  destruct (status_of (NewFromCluster sample_cluster) snap "key") as [status|] eqn:Hst; [|discriminate Hp].
  destruct (published_watermark_is_current sample_clock sample_cluster sample_store sample_version snap "key"
    status [] Hs Hst) as (fp & _ & Hw); [exact sample_generation|exact Hp|].
  exists snap, status, fp. exact (conj Hs (conj Hst Hw)).
Defined.

Lemma settled_sound_witness :
  settled (Some (remember_all [(sample_cluster, "sum", "key")])) sample_cluster "sum" = Some "key"
  ∧ ∃ cluster', (cluster', "sum", "key") ∈ [(sample_cluster, "sum", "key")]
      ∧ cl_UID cluster' = cl_UID sample_cluster ∧ cl_Generation cluster' = cl_Generation sample_cluster.
Proof.
  assert (settled (Some (remember_all [(sample_cluster, "sum", "key")])) sample_cluster "sum" = Some "key")
    as Hs by by vm_compute.
  exact (conj Hs (proj2 (settled_sound [(sample_cluster, "sum", "key")]) _ _ _ Hs)).
Defined.

(** ** Selection and retention *)

Lemma SelectAtOrBefore_newest_witness : ∃ w res ref raw,
  @SelectAtOrBefore _ (@store_selector _ (sample_backend sample_s3) sample_layout) (sample_clock + Second) (ow_objects sample_written)
    = (w, Ok res)
  ∧ res_Key res = Key ref ∧ s3_objects id (ow_objects sample_written) !! Key ref = Some raw
  ∧ verified (res_Snapshot res).
Proof.
  assert (is_ok (@SelectAtOrBefore _ (@store_selector _ (sample_backend sample_s3) sample_layout) (sample_clock + Second)
                   (ow_objects sample_written)).2 = true) as Hok by by vm_compute.
  destruct (@SelectAtOrBefore _ (@store_selector _ (sample_backend sample_s3) sample_layout) _ _) as [w [res|]] eqn:Hs; [|discriminate Hok].
  destruct (SelectAtOrBefore_newest (s3_objects id) sample_layout _ _ _ _ Hs)
    as (ref & raw & Hk & _ & _ & _ & Ho & _ & Hv & _).
  exists w, res, ref, raw. exact (conj eq_refl (conj Hk (conj Ho Hv))).
Defined.

Lemma sample_refs_own : Forall (own_ref sample_layout) sample_refs.
Proof.
  unfold sample_refs.
  repeat (apply Forall_cons; split; [eexists _, _; split_and!; [| | |reflexivity|reflexivity]; by vm_compute|]).
  by apply Forall_nil.
Qed.

Lemma PlanRetention_keeps_answers_witness :
  PlanRetention sample_refs (sample_clock + 3 * day) ≠ []
  ∧ at_or_before (sample_clock + 3 * day) None
      (sortRefs (filter (λ r, Key r ∉ PlanRetention sample_refs (sample_clock + 3 * day)) sample_refs))
    = at_or_before (sample_clock + 3 * day) None (sortRefs sample_refs).
Proof.
  split; [by vm_compute|].
  apply (PlanRetention_keeps_answers sample_layout sample_refs); [apply sample_refs_own| |reflexivity].
  apply (bool_decide_unpack _). by vm_compute.
Defined.

Lemma List_spec_witness : ∃ w refs,
  @SnapshotStore.List _ (sample_backend sample_s3) sample_layout (ow_objects sample_written) = (w, Ok refs)
  ∧ s3_objects id w = s3_objects id (ow_objects sample_written) ∧ StronglySorted ref_le refs.
Proof.
  assert (is_ok (@SnapshotStore.List _ (sample_backend sample_s3) sample_layout (ow_objects sample_written)).2 = true) as Hok by by vm_compute.
  destruct (@SnapshotStore.List _ (sample_backend sample_s3) sample_layout (ow_objects sample_written)) as [w [refs|]] eqn:Hl;
    [|discriminate Hok].
  destruct (List_spec (s3_objects id) _ _ _ _ Hl) as (Ho & Hs & _).
  exists w, refs. exact (conj eq_refl (conj Ho Hs)).
Defined.

Lemma SnapshotKey_roundtrip_witness :
  ParseSnapshotKey (SnapshotKey sample_layout sample_clock 3 (digest "content"))
  = Ok (1767225600 * Second, 3)%Z.
Proof. apply (SnapshotKey_roundtrip sample_layout sample_clock 3 "content"); by vm_compute. Defined.

Lemma pruneSuperseded_safe_witness :
  let o := pruneSuperseded sample_backend sample_s3 sample_store sample_resolved "prod" (sample_clock + 3 * day)
             sample_history in
  s3_objects id o !! "base/prod/chronicle/latest.json" = Some "pointer".
Proof.
  destruct (pruneSuperseded_safe sample_backend sample_objects sample_s3 sample_store sample_resolved "prod"
    (sample_clock + 3 * day) sample_history "base/prod/chronicle/latest.json") as [Hk|(_ & Hk & _)].
  - cbv zeta. etransitivity; [exact Hk|by vm_compute].
  - exfalso. revert Hk. by vm_compute.
Defined.

Lemma overflowing_window_deletes_witness : ∃ window,
  effectiveRetention (with_retention "200000d") sample_resolved = Ok window
  ∧ length (PlanRetention sample_refs (sample_clock + 3 * day + wrap64 (- window))) = 2.
Proof.
  destruct (overflowing_window_deletes (with_retention "200000d") sample_resolved eq_refl)
    as (window & Hw & _ & Hl).
  exists window. refine (conj Hw _). rewrite Hl; [reflexivity|].
  apply Forall_forall. repeat constructor; by vm_compute.
Defined.

Lemma ParseRetentionWindow_exact_witness : ParseRetentionWindow "30d" = Ok (30 * day)%Z.
Proof. by apply (ParseRetentionWindow_exact "30" "d" 30 1). Defined.

Lemma describeRetention_days_witness : describeRetention (30 * day) = "30d".
Proof. by apply (describeRetention_days 30). Defined.

(** ** Recovery targets, rules, destinations, quantities *)

Lemma ResolveRecoveryTarget_moment_witness : ∃ target,
  ResolveRecoveryTarget recovering_cluster "db" (Some (KubeBackupLookup ())) = Ok target
  ∧ tg_Kind target = TargetTime ∧ tg_Moment target = Some 1767225600000000000%Z.
Proof.
  assert (targets_time (ResolveRecoveryTarget recovering_cluster "db" (Some (KubeBackupLookup ()))) = true)
    as Ht by by vm_compute.
  destruct (ResolveRecoveryTarget recovering_cluster "db" (Some (KubeBackupLookup ()))) as [target|] eqn:Hr;
    [|discriminate Ht].
  unfold targets_time in Ht. pose proof (ResolveRecoveryTarget_moment _ _ _ _ Hr) as Hm.
  destruct (tg_Kind target) eqn:Hk; try discriminate Ht.
  destruct Hm as (raw & moment & Hraw & Hp & Hm). exists target. refine (conj eq_refl (conj Hk _)).
  rewrite Hm. f_equal. revert Hp. replace raw with "2026-01-01T00:00:00Z".
  - vm_compute. congruence.
  - revert Hraw. vm_compute. congruence.
Defined.

Lemma NewSkipSet_spec_witness : ∃ set,
  NewSkipSet sample_skip_rules = Ok set ∧ is_Some (Skips set "spec.instances").
Proof.
  destruct (is_ok_spec (NewSkipSet sample_skip_rules)) as [set Hs]; [by vm_compute|].
  exists set. refine (conj Hs _). apply (NewSkipSet_spec _ _ "spec.instances" Hs).
  eexists. split; [left|]. vm_compute. by left.
Defined.

Lemma check_usable_witness : ∃ w checked,
  check sample_backend sample_store sample_ctrl_world = (w, Usable checked)
  ∧ effectiveRetention sample_store (ck_resolved checked) = Ok (ck_retention checked).
Proof.
  assert (is_usable (check sample_backend sample_store sample_ctrl_world).2 = true) as Hu by by vm_compute.
  destruct (check sample_backend sample_store sample_ctrl_world) as [w [checked|]] eqn:Hc; [|discriminate Hu].
  destruct (check_usable sample_backend _ _ _ _ sample_version Hc) as (_ & _ & Hr & _).
  exists w, checked. exact (conj eq_refl Hr).
Defined.

Lemma report_quiet_witness :
  let v := Unusable (B := unit) ReasonConfigurationInvalid (Sentinel ErrNotFound) in
  let reported := report 1 2 sample_store v in
  equalStatus reported (report 3 4 reported v) = true.
Proof. exact (report_quiet (B := unit) _ sample_store 1 2 3 4). Defined.

Lemma GetConfiguration_fresh_witness : ∃ derived,
  (GetConfiguration false 1 1 store_name (after_calls 10 [store_call])).2 = Ok derived
  ∧ ∃ c, c ∈ [store_call] ∧ fetch (c_world c) store_name = Ok derived.
Proof.
  destruct (is_ok_spec (GetConfiguration false 1 1 store_name (after_calls 10 [store_call])).2) as [derived Hd];
    [by vm_compute|].
  exists derived. refine (conj Hd _).
  destruct (GetConfiguration_fresh _ _ _ _ _ _ _ Hd) as [Hf|(c & Hc & _ & Hf & _)].
  - exfalso. revert Hf. by vm_compute.
  - exists c. exact (conj Hc Hf).
Defined.

Lemma s3_backend_spec_witness : ∃ w,
  Put sample_s3 "key" "data" None = (w, Ok ()) ∧ s3_objects id w = {["key" := "data"]}
  ∧ (S3.Get sample_s3 "key" w).2 = Ok "data" ∧ S3.List sample_s3 "k" w = (w, Ok ["key"])
  ∧ (S3.Delete sample_s3 "key" w).2 = Ok ()
  ∧ ∃ e, (S3.Get sample_s3 "other" w).2 = Err e ∧ errors_is ErrNotFound e = true.
Proof.
  destruct (s3_backend_spec sample_s3 id) as [_ Hup]. pose proof (Hup (memory_s3_available sample_s3)) as Hs.
  destruct (proj1 (Hs None) "key" "data") as (w & Hp & Hw).
  assert (w = Some {["key" := "data"]}) as -> by (injection Hp as <-; reflexivity).
  destruct (Hs (Some {["key" := "data"]})) as (_ & Hg & Hl & Hd).
  exists (Some {["key" := "data"]}). split; [exact Hp|]. split; [exact Hw|].
  split; [exact (Hg "key")|]. split; [exact (Hl "k" (ex_intro _ _ eq_refl))|].
  split; [exact (proj1 (Hd "key"))|exact (Hg "other")].
Defined.

Lemma ParseDestination_sound_witness : ∃ d,
  ParseDestination "s3://bucket/base/" = Ok d ∧ Scheme d ∈ ["s3"; "azure"; "gs"] ∧ Bucket d ≠ "".
Proof.
  destruct (is_ok_spec (ParseDestination "s3://bucket/base/")) as [d Hd]; [by vm_compute|].
  destruct (ParseDestination_sound _ _ Hd) as (Hs & Hb & _). exists d. exact (conj Hd (conj Hs Hb)).
Defined.

Lemma FormatPgMemory_roundtrip_witness : ∃ s m,
  FormatPgMemory 67108864 "MB" = Ok s ∧ ParsePgMemory s = Ok (Z.quot 67108864 m * m)%Z.
Proof.
  destruct (is_ok_spec (FormatPgMemory 67108864 "MB")) as [s Hs]; [by vm_compute|].
  destruct (FormatPgMemory_roundtrip 67108864 "MB" s) as (_ & m & _ & _ & Hp & _); [by vm_compute|exact Hs|].
  exists s, m. exact (conj Hs Hp).
Defined.

Lemma integer_text_roundtrip_witness : ToCEL (AString (FormatInt (-7))) false = Ok (VInt (-7)).
Proof. apply (integer_text_roundtrip (-7)). by vm_compute. Defined.

(** ** End to end *)

Lemma sample_restores_from :
  restores_from () sample_request sample_restoring sample_configuration sample_store sample_restore_world
    sample_resolver sample_s3 sample_layout.
Proof. split; vm_compute; reflexivity. Qed.


Lemma Post_converges_witness : ∃ w,
  sample_post sample_world = (w, Ok resultContinue)
  ∧ Post sample_backend sample_kind sample_version (sample_clock + 1) () "" "" w = (w, Ok resultContinue).
Proof.
  destruct sample_goes_to_store as [fp Hgs], sample_captured as (snap & Hs & He & _).
  destruct (Post_converges sample_backend sample_kind sample_version sample_clock () "" "" sample_world
    newSettledCache sample_cluster sample_store fp sample_resolver sample_s3 sample_layout snap Hgs eq_refl Hs He)
    as (w & Hw & Hq).
  - assert (absent_or_ok (@Latest _ (sample_backend sample_s3) sample_layout (ow_objects sample_world)).2 = true)
      as Ha by by vm_compute.
    intros w1 e Hl. rewrite Hl in Ha. exact Ha.
  - intros key data [objs|]; reflexivity.
  - exists w. exact (conj Hw (Hq _)).
Defined.

Lemma Post_missing_bucket_witness : ∃ w e,
  sample_post bucketless_world = (w, Err e) ∧ ow_objects w = None.
Proof.
  destruct sample_goes_to_store as [fp Hgs].
  assert (goes_to_store sample_kind () "" "" bucketless_world sample_cluster sample_store fp sample_resolver
            sample_s3 sample_layout) as Hgs' by (destruct Hgs; split; assumption).
  destruct (Post_missing_bucket sample_kind sample_version id sample_clock () "" "" bucketless_world sample_cluster
    sample_store fp sample_resolver sample_s3 sample_layout Hgs') as (w & e & Hp & Hw).
  - intros w prefix Hn. unfold id in Hn. subst w. exists no_such_bucket, []. reflexivity.
  - reflexivity.
  - exists w, e. exact (conj Hp Hw).
Defined.

(** ** Integrity *)

Abbreviation later_capture := (Extract (sample_clock + day) (Some sample_cluster) sample_options).

(** Two captures with one checksum and two moments. *)
Definition one_checksum (r1 r2 : result Snapshot) : bool :=
  match r1, r2 with
  | Ok x, Ok y => bool_decide (sn_Checksum x = sn_Checksum y) && negb (bool_decide (sn_CapturedAt x = sn_CapturedAt y))
  | _, _ => false
  end.
Lemma one_checksum_spec r1 r2 x y :
  r1 = Ok x → r2 = Ok y → one_checksum r1 r2 = true → sn_Checksum x = sn_Checksum y ∧ sn_CapturedAt x ≠ sn_CapturedAt y.
Proof.
  intros -> -> [?%bool_decide_eq_true Hn]%andb_true_iff. split; [done|].
  by apply negb_true_iff, bool_decide_eq_false in Hn.
Qed.

(** One state captured at two moments: two snapshots with one checksum. *)
Lemma checksum_binds_witness : ∃ snap1 snap2 raw1 raw2,
  sample_capture = Ok snap1 ∧ later_capture = Ok snap2 ∧ sn_CapturedAt snap1 ≠ sn_CapturedAt snap2
  ∧ decodeSnapshot raw1 "one" = Ok snap1 ∧ decodeSnapshot raw2 "two" = Ok snap2
  ∧ ∃ text1 text2, Canonical (sn_Content snap1) = Ok text1 ∧ Canonical (sn_Content snap2) = Ok text2
    ∧ (sn_Content snap1 = sn_Content snap2 ∨ (text1 ≠ text2 ∧ sha256_hex text1 = sha256_hex text2)).
Proof.
  destruct sample_captured as (snap1 & Hs1 & He1 & Hv1).
  assert (∃ snap, later_capture = Ok snap ∧ encodable snap ∧ verified snap) as (snap2 & Hs2 & He2 & Hv2)
    by (apply captured_encodable; by vm_compute).
  destruct (one_checksum_spec _ _ _ _ Hs1 Hs2) as [Hsum Hat]; [by vm_compute|].
  pose proof (decodeSnapshot_encoded snap1 _ "one" He1 Hv1 (encode_encodable _ He1)) as H1.
  pose proof (decodeSnapshot_encoded snap2 _ "two" He2 Hv2 (encode_encodable _ He2)) as H2.
  destruct (checksum_binds _ _ _ _ _ _ H1 H2 Hsum) as (t1 & t2 & Ht1 & Ht2 & _ & _ & Hor).
  exists snap1, snap2. eexists _, _. refine (conj Hs1 (conj Hs2 (conj Hat (conj H1 (conj H2 _))))).
  exists t1, t2. exact (conj Ht1 (conj Ht2 Hor)).
Defined.

(** ** One history under concurrent use *)

Lemma sample_own : ∃ snap, sample_capture = Ok snap ∧ own_snapshot snap.
Proof.
  destruct sample_captured as (snap & Hs & He & Hv). exists snap. refine (conj Hs _).
  destruct (Extract_Ok _ _ _ _ Hs) as (source & _ & _ & _ & _ & _ & _ & _ & Hg & _). clear Hs.
  split; [exact He|exact Hv|]. rewrite Hg. by vm_compute.
Qed.

Definition new_history : system storetest.state :=
  {| sys_store := storetest.NewBackend; sys_agents := []; sys_history := []; sys_cutoffs := [] |}.

Lemma new_history_initial : initial storetest.Objects sample_layout new_history.
Proof.
  split; [intros key _; apply lookup_empty|]. split; [apply lookup_empty|]. exact (conj eq_refl (conj eq_refl eq_refl)).
Qed.

(** A snapshot has been written and retention is about to run. *)
Lemma sample_reachable : ∃ s snap,
  reachable storetest.Objects sample_layout s ∧ sys_cutoffs s = [sample_clock]
  ∧ own_snapshot snap ∧ (Latest sample_layout (sys_store s)).2 = Ok (snap, key_of sample_layout snap).
Proof.
  destruct sample_own as (snap & _ & Hown). pose proof Hown as [He Hv _].
  destruct (Write sample_layout snap storetest.NewBackend) as [w r] eqn:Hw.
  assert (r = Ok (key_of sample_layout snap)) as ->.
  { unfold Write, mbind, prog_bind, lift in Hw. rewrite (encode_encodable _ He) in Hw. by injection Hw as _ <-. }
  destruct (Write_steps storetest.Objects sample_layout new_history storetest.NewBackend w snap _ Hown eq_refl Hw)
    as (s & Hs & Hst & Ha & Hc).
  exists (with_agents (Pruning sample_clock :: sys_agents s) (sample_clock :: sys_cutoffs s) s), snap.
  split; [|split; [|split; [exact Hown|]]].
  - exists new_history. split; [exact new_history_initial|]. eapply rtc_r; [exact Hs|apply step_prune].
  - simpl. rewrite Hc. reflexivity.
  - simpl. rewrite Hst. destruct (Write_objects storetest.Objects _ _ _ _ _ He Hw) as (_ & Henc & Ho).
    destruct (Latest sample_layout w) as [w2 r] eqn:Hl.
    destruct (Latest_pointer storetest.Objects sample_layout w (indent_doc 0 (doc_of_snapshot snap)) snap w2 r)
      as [->|(e & Hg & Hn & _)]; [|by apply decodeSnapshot_encoded|exact Hl|reflexivity|].
    + rewrite Ho. by rewrite lookup_insert_eq.
    + exfalso. apply storetest_get in Hg. by rewrite Hg in Hn.
Qed.

Lemma concurrent_answers_witness : ∃ s,
  reachable storetest.Objects sample_layout s ∧ sys_cutoffs s = [sample_clock]
  ∧ at_or_before (sample_clock + Second) None (sortRefs (listed storetest.Objects sample_layout (sys_store s)))
    = at_or_before (sample_clock + Second) None (sortRefs (sys_history s)).
Proof.
  destruct sample_reachable as (s & snap & Hs & Hc & _). exists s. refine (conj Hs (conj Hc _)).
  apply (concurrent_answers storetest.Objects sample_layout s (sample_clock + Second) Hs).
  rewrite Hc. apply Forall_cons. split; [by vm_compute|]. by apply Forall_nil.
Defined.

Lemma concurrent_latest_witness : ∃ s snap ref,
  reachable storetest.Objects sample_layout s ∧ own_snapshot snap
  ∧ ref ∈ sys_history s ∧ Key ref = key_of sample_layout snap.
Proof.
  destruct sample_reachable as (s & snap & Hs & _ & Hown & Hl).
  destruct (Latest sample_layout (sys_store s)) as [w r] eqn:Hr. simpl in Hl. subst r.
  destruct (concurrent_latest storetest.Objects sample_layout s w snap _ Hs Hr) as (_ & _ & ref & Hin & Hk).
  exists s, snap, ref. exact (conj Hs (conj Hown (conj Hin Hk))).
Defined.

(** The sample cluster was captured, and a month later the store is reconciled:
    retention visits the one Cluster. *)
Definition aged_world : CtrlWorld unit (ResolverState unit) bucket_state :=
  {| cw_kube := (); cw_provider := sample_resolver; cw_objects := ow_objects sample_written |}.
Definition sample_request : NamespacedName := {| nn_Namespace := "db"; nn_Name := "backups" |}.
Definition usable_parts (v : verdict S3Config) : option (S3Config * Layout * Z) :=
  match v with
  | Usable checked =>
      Some (ck_backend checked, LayoutFor sample_store (ck_resolved checked) "prod", ck_retention checked)
  | Unusable _ _ => None
  end.

Lemma sample_request_found : kube_config_store (cw_kube aged_world) sample_request = Ok sample_store.
Proof. by vm_compute. Qed.

Lemma aged_checked : ∃ w checked,
  check sample_backend sample_store aged_world = (w, Usable checked)
  ∧ ck_backend checked = sample_s3 ∧ LayoutFor sample_store (ck_resolved checked) "prod" = sample_layout
  ∧ ck_retention checked = (30 * day)%Z.
Proof.
  assert (usable_parts (check sample_backend sample_store aged_world).2 = Some (sample_s3, sample_layout, 30 * day)%Z)
    as Hu by by vm_compute.
  destruct (check sample_backend sample_store aged_world) as [w [checked|]] eqn:Hc; [|discriminate Hu].
  apply (inj Some) in Hu. apply pair_equal_spec in Hu as [[Hb Hl]%pair_equal_spec Hr]. exists w, checked. exact (conj eq_refl (conj Hb (conj Hl Hr))).
Qed.

Lemma sample_servers : one_element "prod" ∧ ∀ clusters,
  kube_clusters () "db" = Ok clusters →
  Forall (λ c, archives_into sample_store c = true → one_element (SaveToServer (NewFromCluster c))) clusters.
Proof.
  split; [by apply (bool_decide_unpack _)|]. intros clusters [= <-]. apply Forall_cons. split; [|by apply Forall_nil].
  intros _. by apply (bool_decide_unpack _); vm_compute.
Qed.

Lemma sample_generation_digits : (0 ≤ cl_Generation sample_cluster < 10 ^ 10)%Z.
Proof. by vm_compute. Qed.

Lemma sample_captured_history : ∃ s,
  @reachable _ (sample_backend sample_s3) (sample_objects sample_s3) sample_layout s
  ∧ sys_store s = ow_objects sample_written ∧ sys_cutoffs s = [].
Proof.
  destruct sample_post_ok as (w & Hw & Hw'), sample_goes_to_store as [fp Hgs]. rewrite Hw' in Hw.
  destruct (Post_steps sample_backend sample_objects sample_kind sample_version sample_clock () "" "" sample_world
    sample_written (Ok resultContinue) sample_cluster sample_store fp sample_resolver sample_s3 sample_layout
    {| sys_store := ow_objects sample_world; sys_agents := []; sys_history := []; sys_cutoffs := [] |}
    Hgs sample_extract_encodable sample_generation_digits Hw eq_refl) as (s & Hs & Hst & _ & Hc).
  exists s. refine (conj _ (conj Hst Hc)). eexists. refine (conj _ Hs).
  split; [|split; [|split; [|split]]]; reflexivity.
Qed.

Lemma Reconcile_keeps_window_witness : ∃ w' r,
  Reconcile sample_backend 1 2 (sample_clock + 33 * day) sample_request aged_world = (w', r)
  ∧ at_or_before (sample_clock + 4 * day) None
      (sortRefs (listed (sample_objects sample_s3) sample_layout (cw_objects w')))
    = at_or_before (sample_clock + 4 * day) None
        (sortRefs (listed (sample_objects sample_s3) sample_layout (ow_objects sample_written))).
Proof.
  destruct aged_checked as (w & checked & Hc & Hb & Hl & Hret). destruct sample_servers as [Hprod Hall].
  destruct sample_captured_history as (s & Hs & Hst & Hcut).
  destruct (Reconcile sample_backend 1 2 (sample_clock + 33 * day) sample_request aged_world) as [w' r] eqn:Hr.
  exists w', r. refine (conj eq_refl _).
  pose proof (Reconcile_keeps_window sample_backend sample_objects 1 2 (sample_clock + 33 * day) sample_request
    sample_store checked aged_world w w' r "prod" s (sample_clock + 4 * day)) as Hk.
  cbv zeta in Hk. rewrite Hb, Hl, Hret, Hcut in Hk.
  refine (proj1 (Hk sample_request_found Hc Hr Hprod Hall Hs Hst _ _ (Forall_nil_2 _))).
  - by apply (bool_decide_unpack _); vm_compute.
  - by apply (bool_decide_unpack _); vm_compute.
Defined.

Lemma histories_apart_witness :
  let prod := {| BasePath := "/base/"; ServerName := "prod"; ly_Prefix := "chronicle" |} in
  let test := {| BasePath := "/base/"; ServerName := "prod-test"; ly_Prefix := "chronicle" |} in
  HasPrefix (SnapshotsPrefix prod +:+ "20260102T030405Z-g0000000007-0123abcd.json") (SnapshotsPrefix test) = false
  ∧ LatestKey prod ≠ LatestKey test.
Proof.
  intros prod test. destruct (histories_apart prod test) as [Hk Hl].
  - split; reflexivity.
  - by apply (bool_decide_unpack _); vm_compute.
  - by apply (bool_decide_unpack _); vm_compute.
  - discriminate.
  - split; [|exact Hl]. apply Hk. apply HasPrefix_app.
Defined.

(** The history is new: the call writes. *)
Definition is_err {A} (r : result A) : bool := match r with Ok _ => false | Err _ => true end.

Lemma Post_is_run_witness : ∃ s' snap w1,
  rtc (@step _ (sample_backend sample_s3) (sample_objects sample_s3) sample_layout)
    {| sys_store := ow_objects sample_world; sys_agents := []; sys_history := []; sys_cutoffs := [] |} s'
  ∧ sys_store s' = ow_objects sample_written ∧ sample_capture = Ok snap
  ∧ @runs _ (sample_backend sample_s3) sample_layout (Writing snap) w1 (ow_objects sample_written).
Proof.
  destruct sample_post_ok as (w & Hw & Hw'), sample_goes_to_store as [fp Hgs]. rewrite Hw' in Hw.
  destruct (Post_is_run sample_backend sample_objects sample_kind sample_version sample_clock () "" "" sample_world
    sample_written (Ok resultContinue) sample_cluster sample_store fp sample_resolver sample_s3 sample_layout
    {| sys_store := ow_objects sample_world; sys_agents := []; sys_history := []; sys_cutoffs := [] |}
    Hgs sample_extract_encodable sample_generation_digits Hw eq_refl) as [(w1 & _ & He) (s' & Hs & Hst & _)].
  assert (is_err (@Latest _ (sample_backend sample_s3) sample_layout (ow_objects sample_world)).2 = true) as Hnew
    by by vm_compute.
  destruct He as [snap latest key _ Hl _ _ _|e _ _ Hr|snap Hsnap Hruns _ _].
  - rewrite Hl in Hnew. discriminate Hnew.
  - discriminate Hr.
  - exists s', snap, w1. exact (conj Hs (conj Hst (conj Hsnap Hruns))).
Defined.

(** ** Memory *)

Lemma sample_store_read :
  read_pointer TConfigStore ConfigStore_read sample_heap (Some 1%positive) = Some (Some sample_store_tree).
Proof. by vm_compute. Qed.

Lemma DeepCopy_apart_witness : ∃ h' l',
  ConfigStore_DeepCopy (Some 1%positive) sample_heap = Some (h', Some l') ∧ sample_heap !! l' = None
  ∧ read_pointer TConfigStore ConfigStore_read (<[2%positive := array TString ["overwritten"]]> h') (Some l')
    = Some (Some sample_store_tree).
Proof.
  destruct DeepCopy_apart as [Hcopy _].
  destruct (Hcopy sample_heap (Some 1%positive) _ sample_store_read) as (h' & [l'|] & Hc & Hs & Hn & Hl & _);
    [|destruct Hn].
  exists h', l'. refine (conj Hc (conj Hn _)). apply Hl.
  rewrite <-(insert_difference sample_heap h' 2%positive (array TString ["overwritten"])); [apply map_subseteq_difference_l; reflexivity|].
  eexists. reflexivity.
Defined.

Lemma reconcile_status_refines_witness : ∃ h' original updated same,
  reconcile_status 10 20 1%positive (Unusable (B := unit) ReasonConfigurationInvalid (Sentinel ErrNotFound)) sample_heap
  = Some (h', (Some original, same))
  ∧ read_pointer TConfigStore ConfigStore_read h' (Some original) = Some (Some sample_store_tree)
  ∧ read_pointer TConfigStore ConfigStore_read h' (Some 1%positive) = Some (Some updated)
  ∧ api_store updated = report 10 20 (api_store sample_store_tree)
                          (Unusable (B := unit) ReasonConfigurationInvalid (Sentinel ErrNotFound)).
Proof.
  destruct (reconcile_status_refines 10 20 1%positive (Unusable (B := unit) ReasonConfigurationInvalid (Sentinel ErrNotFound))
    sample_heap sample_store_value (g_cs_ObjectMeta _ _ _ _ sample_store_tree) (g_cs_Spec _ _ _ _ sample_store_tree)
    (g_cs_Status _ _ _ _ sample_store_tree)) as (h' & original & updated & Hrun & Ho & Hu & Hr);
    [by vm_compute|by vm_compute|by vm_compute|by vm_compute|].
  eexists h', original, updated, _. exact (conj Hrun (conj Ho (conj Hu Hr))).
Defined.

(** ** Start-up *)

Lemma run_wires_witness :
  (Wiring.run all_granted sample_viper new_process).2 = Ok ()
  ∧ wired sample_viper 0 (calls (Wiring.run all_granted sample_viper new_process).1)
  ∧ ∃ before c cause, calls (Wiring.run no_readiness sample_viper new_process).1 = before ++ [c]
      ∧ (Wiring.run no_readiness sample_viper new_process).2 = Err (Wrapf (message_of c) [] cause).
Proof.
  destruct (run_wires all_granted sample_viper new_process _ _ eq_refl (surjective_pairing _))
    as (_ & _ & _ & Hw & _ & Hstart).
  destruct (run_wires no_readiness sample_viper new_process _ _ eq_refl (surjective_pairing _))
    as (_ & _ & _ & _ & _ & before & c & cause & Hc & _ & He).
  split; [reflexivity|]. split; [exact (proj1 (Hw Hstart))|]. exists before, c, cause. exact (conj Hc (f_equal Err He)).
Defined.

Abbreviation sample_latest := (@Latest _ (sample_backend sample_s3) sample_layout (ow_objects sample_written)).

Lemma same_again_spec captured found :
  same_again captured found = true →
  ∃ snap o latest, captured = Ok snap ∧ found = (o, Ok (latest, st_SnapshotKey sample_status)) ∧ confirms latest snap.
Proof.
  unfold same_again. destruct captured as [snap|]; [|done]. destruct found as [o [[held key]|]]; [|done].
  intros [[->%bool_decide_eq_true ?%bool_decide_eq_true]%andb_true_iff ?%bool_decide_eq_true]%andb_true_iff.
  by exists snap, o, held.
Qed.

Lemma published_captured : ∃ snap o latest,
  Extract sample_clock (Some published_cluster) sample_options = Ok snap
  ∧ sample_latest = (o, Ok (latest, st_SnapshotKey sample_status)) ∧ confirms latest snap.
Proof. apply same_again_spec. by vm_compute. Qed.

Lemma published_goes_to_store : ∃ fp,
  goes_to_store sample_kind () "" "published" (seen_by 0 sample_serving) published_cluster sample_store fp
    sample_resolver sample_s3 sample_layout.
Proof.
  destruct (is_ok_spec (liveFingerprint published_cluster (GetCaptureGroups sample_store))) as [fp Hfp];
    [by vm_compute|].
  exists fp. split; first [exact Hfp|vm_compute; reflexivity].
Qed.

Lemma confirmed_state_is_quiet_witness : ∃ server sv,
  serve_Post sample_backend sample_kind sample_version server sample_clock () "" "published" sample_serving
  = (sv, Ok resultContinue)
  ∧ serve_SetStatusInCluster sample_backend server () "published" sv = (sv, Ok NoOpResponse).
Proof.
  destruct (confirmed_state_is_quiet (K := unit) sample_backend sample_kind sample_version (plugin_server sample_viper 0) new_process)
    as (h & server & pr & _ & _ & Hquiet).
  destruct published_goes_to_store as [fp Hgs], published_captured as (snap & o & latest & He & Hl & Hs).
  destruct (Hquiet () sample_clock "" "published" sample_serving published_cluster sample_store fp sample_resolver
    sample_s3 sample_layout snap o latest sample_status) as (sv & Hpost & Hstatus);
    [apply Nat.lt_0_1|exact Hgs|exact He|vm_compute; reflexivity|reflexivity|reflexivity|exact Hl|exact Hs|].
  exists server, sv. exact (conj Hpost Hstatus).
Defined.

(** ** A policy and its controller *)

Lemma policy_verdict_settles_witness : ∃ s,
  Watch.reachable policy_name (reads_own_writes policy_name) s ∧ at_rest policy_name s
  ∧ Watch.server policy_name (ct_kube s) = Some reported_policy ∧ reports reported_policy.
Proof.
  set (s0 := {| ct_kube := watched_sample; ct_queued := true; ct_patching := None |}).
  set (k1 := append_version watched_sample (Some reported_policy)).
  set (k2 := {| wt_rest := (); wt_cached := Some reported_policy; wt_undelivered := [] |} : watched unit).
  set (s := {| ct_kube := k2; ct_queued := false; ct_patching := None |}).
  assert (Watch.reachable policy_name (reads_own_writes policy_name) s) as Hs.
  { exists s0. split; [split_and!; [by intros ? [= <-]|done..]|].
    eapply rtc_l; [apply (Watch.step_begin _ _ _ 5); [done|done|by intros p q [= <-] [= <-]]|].
    eapply rtc_l; [eapply (Watch.step_patch _ _ _ sample_policy reported_policy k1 (Ok ())); vm_compute; reflexivity|].
    apply rtc_once. exact (Watch.step_deliver policy_name _ {| ct_kube := k1; ct_queued := false; ct_patching := None |} k2 (Some reported_policy) [] eq_refl eq_refl eq_refl). }
  exists s. refine (conj Hs (conj _ (conj eq_refl _))); [by split_and!|].
  apply (policy_verdict_settles policy_name s reported_policy Hs); [by split_and!|reflexivity].
Defined.

Lemma policy_verdict_stale_witness : ∃ s q,
  Watch.reachable policy_name (λ _, True) s ∧ at_rest policy_name s
  ∧ Watch.server policy_name (ct_kube s) = Some q ∧ rp_Spec q = no_rules ∧ ¬ reports q
  ∧ without_transition <$> ready (rps_Conditions (rp_Status q))
    = Some (condition ConditionReady ConditionFalse ReasonConfigurationInvalid "error").
Proof.
  destruct (policy_verdict_stale policy_name watched_sample sample_policy broken_rules)
    as (s & q & Hr & Hrest & Hs & Hspec & Hno & Hshown); [reflexivity|by vm_compute|].
  exists s, q. refine (conj Hr (conj Hrest (conj Hs (conj Hspec (conj Hno _))))).
  rewrite Hshown. vm_compute. reflexivity.
Defined.
